(** * The pipeline failure detector of [cicd/detectors/failure_detector.py]

    A shallow embedding of the class [FailureDetector]: the four detectors
    ([_detect_*_failures]), the four patchers ([_fix_*_failures]) and the two
    dispatchers ([detect_failures], [fix_failures]).

    Conventions of the embedding.
    - A Python [str] is a [string]; a character stands for one code point
      below 256.  The Portuguese message literals are kept byte for byte.
    - A loaded document is a tree ([yaml]): what [yaml.safe_load] builds from
      plain YAML (null, booleans, integers, floats, strings, sequences and
      mappings in insertion order).  Tagged values and nodes shared through
      anchors are not represented.
    - A Python exception is a value of [exn]; an expression that may raise
      returns a [res]; the detectors run in a monad that threads the report
      under construction, so that what was appended before an exception is
      still there when the [except] clause runs.
    - [yaml.safe_load] and [yaml.dump] are third-party code: the detectors
      and patchers take them as parameters ([Section Detector]).  Module
      [Yaml] gives both for a block-style fragment, used where a statement
      needs a concrete text or says what the returned text loads to; on the
      fragment, what is loaded and then written loads to the same document
      ([round_trip]). *)

From Stdlib Require Import String Ascii List ZArith Lia Bool Arith.
From Stdlib Require Import DecimalString.
From Stdlib Require DecimalFacts DecimalPos DecimalN.
Import ListNotations.
Local Open Scope string_scope.
Local Open Scope list_scope.

(** String concatenation, written apart from the [++] of lists. *)
Infix "+++" := String.append (right associativity, at level 60).

(** ** Python strings *)

Module PyStr.

Definition code (c : ascii) : N := N_of_ascii c.

Definition between (lo hi : N) (c : ascii) : bool :=
  (N.leb lo (code c) && N.leb (code c) hi)%bool.

Definition is_digit := between 48 57.
Definition is_upper := between 65 90.
Definition is_lower := between 97 122.

(** [str.startswith]. *)
Fixpoint startswith (s p : string) : bool :=
  match p, s with
  | EmptyString, _ => true
  | String a p', String b s' => (Ascii.eqb a b && startswith s' p')%bool
  | String _ _, EmptyString => false
  end.

(** [needle in hay] for two strings. *)
Fixpoint contains (needle hay : string) : bool :=
  (startswith hay needle
   || match hay with
      | EmptyString => false
      | String _ hay' => contains needle hay'
      end)%bool.

(** [s.replace(old, new)]: every non-overlapping occurrence of [old], from
    the left.  [skip] counts the characters of an occurrence still to drop. *)
Fixpoint replace_from (old new : string) (skip : nat) (s : string) : string :=
  match s with
  | EmptyString => EmptyString
  | String c s' =>
      match skip with
      | S k => replace_from old new k s'
      | O =>
          if startswith s old
          then new +++ replace_from old new (String.length old - 1) s'
          else String c (replace_from old new 0 s')
      end
  end.

Fixpoint intersperse (new s : string) : string :=
  match s with
  | EmptyString => EmptyString
  | String c s' => String c (new +++ intersperse new s')
  end.

Definition replace (s old new : string) : string :=
  match old with
  | EmptyString => new +++ intersperse new s
  | _ => replace_from old new 0 s
  end.

(** [str(n)] for an integer. *)
Definition of_Z (z : Z) : string := NilZero.string_of_int (Z.to_int z).

Definition of_nat (n : nat) : string := of_Z (Z.of_nat n).

Fixpoint concat (l : list string) : string :=
  match l with
  | [] => EmptyString
  | s :: l' => s +++ concat l'
  end.

Fixpoint join (sep : string) (l : list string) : string :=
  match l with
  | [] => EmptyString
  | [s] => s
  | s :: l' => s +++ sep +++ join sep l'
  end.

End PyStr.

(** ** The part of Python's [re] that the detector uses

    Every pattern of the source is a sequence of literal characters,
    character classes, a class under [*], [+] or [{n}], and capture groups
    that are neither nested nor repeated.  Matching is the backtracking one
    of [re]: greedy repetition, leftmost match. *)

Module Re.

Inductive atom : Type :=
| Chr (c : ascii)                      (* a literal character *)
| Cls (p : ascii -> bool)              (* [..] or \s : one character *)
| Star (p : ascii -> bool)             (* class* , greedy *)
| Plus (p : ascii -> bool)             (* class+ , greedy *)
| Rep (p : ascii -> bool) (n : nat)    (* class{n} *)
| Open                                 (* ( *)
| Close.                               (* ) *)

Definition regex := list atom.

(** The literal characters of a string, as atoms. *)
Fixpoint lit (s : string) : regex :=
  match s with
  | EmptyString => []
  | String c s' => Chr c :: lit s'
  end.

(** Groups being captured (innermost first) and groups captured so far
    (in the order of their closing parenthesis). *)
Record caps : Type := { opened : list string; closed : list string }.

Definition no_caps : caps := {| opened := []; closed := [] |}.

Definition push (c : ascii) (k : caps) : caps :=
  {| opened := map (fun g => g +++ String c EmptyString) (opened k);
     closed := closed k |}.

Definition open_group (k : caps) : caps :=
  {| opened := EmptyString :: opened k; closed := closed k |}.

Definition close_group (k : caps) : caps :=
  match opened k with
  | g :: gs => {| opened := gs; closed := closed k ++ [g] |}
  | [] => k
  end.

(** [match_here r s k]: the pattern [r] matched at the beginning of [s];
    the answer is the captures and the text after the match. *)
Fixpoint match_here (r : regex) (s : string) (k : caps) {struct r}
  : option (caps * string) :=
  match r with
  | [] => Some (k, s)
  | Chr c :: r' =>
      match s with
      | String c' s' => if Ascii.eqb c c' then match_here r' s' (push c' k) else None
      | EmptyString => None
      end
  | Cls p :: r' =>
      match s with
      | String c' s' => if p c' then match_here r' s' (push c' k) else None
      | EmptyString => None
      end
  | Star p :: r' =>
      (fix star (s : string) (k : caps) {struct s} : option (caps * string) :=
         match s with
         | String c' s' =>
             if p c'
             then match star s' (push c' k) with
                  | Some m => Some m
                  | None => match_here r' s k
                  end
             else match_here r' s k
         | EmptyString => match_here r' s k
         end) s k
  | Plus p :: r' =>
      match s with
      | String c0 s0 =>
          if p c0
          then (fix star (s : string) (k : caps) {struct s} : option (caps * string) :=
                  match s with
                  | String c' s' =>
                      if p c'
                      then match star s' (push c' k) with
                           | Some m => Some m
                           | None => match_here r' s k
                           end
                      else match_here r' s k
                  | EmptyString => match_here r' s k
                  end) s0 (push c0 k)
          else None
      | EmptyString => None
      end
  | Rep p n :: r' =>
      (fix rep (n : nat) (s : string) (k : caps) {struct n} : option (caps * string) :=
         match n with
         | O => match_here r' s k
         | S n' =>
             match s with
             | String c' s' => if p c' then rep n' s' (push c' k) else None
             | EmptyString => None
             end
         end) n s k
  | Open :: r' => match_here r' s (open_group k)
  | Close :: r' => match_here r' s (close_group k)
  end.

(** A match: the text before it, the matched text, the groups [\1], [\2],
    ... and the text after it. *)
Record found : Type :=
  { before : string; whole : string; groups : list string; after : string }.

Definition group (n : nat) (m : found) : string :=
  nth (n - 1) (groups m) EmptyString.

(** The whole match is captured as an outermost group, closed last. *)
Definition match_at (r : regex) (s : string) : option (string * list string * string) :=
  match match_here r s (open_group no_caps) with
  | Some (k, rest) =>
      Some (hd EmptyString (opened k), closed k, rest)
  | None => None
  end.

(** [re.search(r, s)]: the leftmost match; [pre] is the text already
    scanned, in order. *)
Fixpoint search_from (r : regex) (pre : string) (s : string) : option found :=
  match match_at r s with
  | Some (w, gs, rest) =>
      Some {| before := pre; whole := w; groups := gs; after := rest |}
  | None =>
      match s with
      | EmptyString => None
      | String c s' => search_from r (pre +++ String c EmptyString) s'
      end
  end.

Definition search (r : regex) (s : string) : option found := search_from r EmptyString s.

(** All non-overlapping matches, from the left.  After an empty match the
    scan moves on by one character.  The fuel bounds the number of
    matches by the length of the text plus one. *)
Fixpoint matches_fuel (fuel : nat) (r : regex) (s : string) : list found :=
  match fuel with
  | O => []
  | S fuel' =>
      match search r s with
      | None => []
      | Some m =>
          m :: match whole m, after m with
               | EmptyString, EmptyString => []
               | EmptyString, String c rest =>
                   map (fun m' => {| before := String c (before m'); whole := whole m';
                                     groups := groups m'; after := after m' |})
                       (matches_fuel fuel' r rest)
               | _, rest => matches_fuel fuel' r rest
               end
      end
  end.

Definition matches (r : regex) (s : string) : list found :=
  matches_fuel (S (String.length s)) r s.

(** [re.findall] for a pattern with one group: the group of each match. *)
Definition findall1 (r : regex) (s : string) : list string :=
  map (group 1) (matches r s).

(** [re.findall] for a pattern with two groups: a pair for each match. *)
Definition findall2 (r : regex) (s : string) : list (string * string) :=
  map (fun m => (group 1 m, group 2 m)) (matches r s).

(** A replacement template, after [re] has read its escapes. *)
Inductive piece : Type :=
| Text (s : string)
| Backref (n : nat).

Definition expand (t : list piece) (m : found) : string :=
  PyStr.concat (map (fun p => match p with
                              | Text s => s
                              | Backref n => group n m
                              end) t).

(** [re.sub(r, t, s)]. *)
Definition sub (r : regex) (t : list piece) (s : string) : string :=
  match matches r s with
  | [] => s
  | ms =>
      PyStr.concat (map (fun m => before m +++ expand t m) ms)
      +++ after (last ms {| before := ""; whole := ""; groups := []; after := "" |})
  end.

(** Character classes of the source's patterns. *)

(** [\s] on a [str] pattern: Unicode white space, here below 256. *)
Definition space (c : ascii) : bool :=
  (PyStr.between 9 13 c || PyStr.between 28 32 c
   || N.eqb (PyStr.code c) 133 || N.eqb (PyStr.code c) 160)%bool.

Definition just (a : ascii) (c : ascii) : bool := Ascii.eqb a c.

(** [[a-zA-Z0-9_]] *)
Definition word (c : ascii) : bool :=
  (PyStr.is_lower c || PyStr.is_upper c || PyStr.is_digit c || just "_" c)%bool.

(** [[a-zA-Z0-9_-]] *)
Definition word_dash (c : ascii) : bool := (word c || just "-" c)%bool.

(** [[a-zA-Z0-9_.-]] *)
Definition word_dot_dash (c : ascii) : bool := (word c || just "." c || just "-" c)%bool.

(** [[A-Z0-9_]] *)
Definition upper_word (c : ascii) : bool :=
  (PyStr.is_upper c || PyStr.is_digit c || just "_" c)%bool.

(** The double quote, character 34. *)
Definition dquote : ascii := Eval cbv in ascii_of_nat 34.

(** The class of the two quote characters, single and double. *)
Definition quote (c : ascii) : bool := (just "'" c || just dquote c)%bool.

(** The complement of the class of the two quote characters. *)
Definition not_quote (c : ascii) : bool := negb (quote c).

(** [[^}]] *)
Definition not_rbrace (c : ascii) : bool := negb (just "}" c).

End Re.

(** ** Python values and the operations the detector applies to them *)

#[local] Set Warnings "-register-all".

Module Py.

(** A float is [m * 2^e], an infinity or a NaN. *)
Inductive pyfloat : Type :=
| Finite (m e : Z)
| Inf (negative : bool)
| NaN.

(** What [yaml.safe_load] returns and what a finding holds.  A mapping
    keeps its entries in insertion order, as a Python [dict] does.  A float
    carries the text of its [repr]. *)
Inductive pyval : Type :=
| YNone
| YBool (b : bool)
| YInt (z : Z)
| YFloat (f : pyfloat) (repr : string)
| YStr (s : string)
| YList (l : list pyval)
| YDict (d : list (pyval * pyval)).

Inductive exn : Type :=
| TypeError
| AttributeError
| KeyError
| IndexError
| YAMLError (text : string).

(** The outcome of an expression: a value, or an exception raised. *)
Inductive res (A : Type) : Type :=
| Ok (a : A)
| Raise (e : exn).
Arguments Ok {A} a.
Arguments Raise {A} e.

Definition res_bind {A B : Type} (r : res A) (k : A -> res B) : res B :=
  match r with
  | Ok a => k a
  | Raise e => Raise e
  end.

Notation "'let?' x ':=' r 'in' k" := (res_bind r (fun x => k))
  (at level 10, x pattern, r at level 100, k at level 200).

(** *** Truth value, [isinstance], equality *)

Definition float_is_zero (f : pyfloat) : bool :=
  match f with
  | Finite m _ => Z.eqb m 0
  | _ => false
  end.

(** [bool(v)]. *)
Definition truthy (v : pyval) : bool :=
  match v with
  | YNone => false
  | YBool b => b
  | YInt z => negb (Z.eqb z 0)
  | YFloat f _ => negb (float_is_zero f)
  | YStr s => negb (String.eqb s "")
  | YList l => match l with [] => false | _ => true end
  | YDict d => match d with [] => false | _ => true end
  end.

Definition is_str (v : pyval) : bool := match v with YStr _ => true | _ => false end.
Definition is_list (v : pyval) : bool := match v with YList _ => true | _ => false end.
Definition is_dict (v : pyval) : bool := match v with YDict _ => true | _ => false end.
Definition is_none (v : pyval) : bool := match v with YNone => true | _ => false end.

(** Numbers compare by value across [bool], [int] and [float]. *)
Inductive number : Type :=
| NumZ (z : Z)
| NumF (f : pyfloat).

Definition number_of (v : pyval) : option number :=
  match v with
  | YBool b => Some (NumZ (if b then 1 else 0))
  | YInt z => Some (NumZ z)
  | YFloat f _ => Some (NumF f)
  | _ => None
  end.

(** [m1 * 2^e1 ? m2 * 2^e2], after scaling both to the smaller exponent. *)
Definition scaled_compare (m1 e1 m2 e2 : Z) : comparison :=
  let e := Z.min e1 e2 in
  Z.compare (m1 * 2 ^ (e1 - e)) (m2 * 2 ^ (e2 - e)).

Definition float_compare (f g : pyfloat) : option comparison :=
  match f, g with
  | NaN, _ | _, NaN => None
  | Inf a, Inf b => Some (if a then (if b then Eq else Lt) else (if b then Gt else Eq))
  | Inf a, Finite _ _ => Some (if a then Lt else Gt)
  | Finite _ _, Inf b => Some (if b then Gt else Lt)
  | Finite m1 e1, Finite m2 e2 => Some (scaled_compare m1 e1 m2 e2)
  end.

Definition number_compare (x y : number) : option comparison :=
  match x, y with
  | NumZ a, NumZ b => Some (Z.compare a b)
  | NumZ a, NumF g => float_compare (Finite a 0) g
  | NumF f, NumZ b => float_compare f (Finite b 0)
  | NumF f, NumF g => float_compare f g
  end.

Definition number_eq (x y : number) : bool :=
  match number_compare x y with
  | Some Eq => true
  | _ => false
  end.

(** [a == b]. Two mappings are equal when they have the same number of
    entries and every key of the first maps to an equal value in the
    second. *)
Fixpoint py_eq (a b : pyval) {struct a} : bool :=
  match a, b with
  | YNone, YNone => true
  | YStr s, YStr t => String.eqb s t
  | YList l, YList l' =>
      (fix all2 (l l' : list pyval) {struct l} : bool :=
         match l, l' with
         | [], [] => true
         | x :: l, y :: l' => (py_eq x y && all2 l l')%bool
         | _, _ => false
         end) l l'
  | YDict d, YDict d' =>
      (Nat.eqb (length d) (length d')
       && (fix all (d : list (pyval * pyval)) {struct d} : bool :=
             match d with
             | [] => true
             | (k, v) :: d =>
                 (match find (fun e => py_eq k (fst e)) d' with
                  | Some e => py_eq v (snd e)
                  | None => false
                  end && all d)%bool
             end) d)%bool
  | _, _ =>
      match number_of a, number_of b with
      | Some x, Some y => number_eq x y
      | _, _ => false
      end
  end.

(** Lists and mappings have no hash. *)
Definition hashable (v : pyval) : bool :=
  match v with
  | YList _ | YDict _ => false
  | _ => true
  end.

(** *** Mappings as ordered association lists *)

Definition entries := list (pyval * pyval).

Fixpoint dict_find (k : pyval) (d : entries) : option pyval :=
  match d with
  | [] => None
  | (k', v) :: d' => if py_eq k k' then Some v else dict_find k d'
  end.

Definition dict_mem (k : pyval) (d : entries) : bool :=
  match dict_find k d with Some _ => true | None => false end.

(** [d[k] = v]: in place when the key is there, at the end otherwise. *)
Fixpoint dict_set (k v : pyval) (d : entries) : entries :=
  match d with
  | [] => [(k, v)]
  | (k', v') :: d' => if py_eq k k' then (k', v) :: d' else (k', v') :: dict_set k v d'
  end.

(** [del d[k]] for a key that is there. *)
Fixpoint dict_del (k : pyval) (d : entries) : entries :=
  match d with
  | [] => []
  | (k', v') :: d' => if py_eq k k' then d' else (k', v') :: dict_del k d'
  end.

(** *** Sequences *)

(** The position an index denotes in a sequence of length [n]: an [int]
    or [bool], negative ones counted from the end. *)
Definition position (k : pyval) (n : nat) : res nat :=
  match number_of k with
  | Some (NumZ z) =>
      let z' := if Z.ltb z 0 then (z + Z.of_nat n)%Z else z in
      if (Z.leb 0 z' && Z.ltb z' (Z.of_nat n))%bool then Ok (Z.to_nat z') else Raise IndexError
  | _ => Raise TypeError
  end.

Fixpoint list_set {A : Type} (i : nat) (x : A) (l : list A) : list A :=
  match l, i with
  | [], _ => []
  | _ :: l', O => x :: l'
  | y :: l', S i' => y :: list_set i' x l'
  end.

Fixpoint list_del {A : Type} (i : nat) (l : list A) : list A :=
  match l, i with
  | [], _ => []
  | _ :: l', O => l'
  | y :: l', S i' => y :: list_del i' l'
  end.

Fixpoint chars (s : string) : list pyval :=
  match s with
  | EmptyString => []
  | String c s' => YStr (String c EmptyString) :: chars s'
  end.

Fixpoint enumerate_from {A : Type} (i : nat) (l : list A) : list (nat * A) :=
  match l with
  | [] => []
  | x :: l' => (i, x) :: enumerate_from (S i) l'
  end.

(** [enumerate(l)]. *)
Definition enumerate {A : Type} (l : list A) : list (nat * A) := enumerate_from 0 l.

(** *** Operators and methods *)

(** [x in c]. *)
Definition py_in (x c : pyval) : res bool :=
  match c with
  | YDict d => if hashable x then Ok (dict_mem x d) else Raise TypeError
  | YList l => Ok (existsb (py_eq x) l)
  | YStr s =>
      match x with
      | YStr n => Ok (PyStr.contains n s)
      | _ => Raise TypeError
      end
  | _ => Raise TypeError
  end.

(** [c[k]]. *)
Definition py_getitem (c k : pyval) : res pyval :=
  match c with
  | YDict d =>
      if hashable k
      then match dict_find k d with
           | Some v => Ok v
           | None => Raise KeyError
           end
      else Raise TypeError
  | YList l =>
      let? i := position k (length l) in
      match nth_error l i with
      | Some v => Ok v
      | None => Raise IndexError
      end
  | YStr s =>
      let? i := position k (String.length s) in
      match nth_error (chars s) i with
      | Some v => Ok v
      | None => Raise IndexError
      end
  | _ => Raise TypeError
  end.

(** [c[k] = v]; the answer is the container afterwards. *)
Definition py_setitem (c k v : pyval) : res pyval :=
  match c with
  | YDict d => if hashable k then Ok (YDict (dict_set k v d)) else Raise TypeError
  | YList l =>
      let? i := position k (length l) in
      Ok (YList (list_set i v l))
  | _ => Raise TypeError
  end.

(** [del c[k]]; the answer is the container afterwards. *)
Definition py_delitem (c k : pyval) : res pyval :=
  match c with
  | YDict d =>
      if hashable k
      then if dict_mem k d then Ok (YDict (dict_del k d)) else Raise KeyError
      else Raise TypeError
  | YList l =>
      let? i := position k (length l) in
      Ok (YList (list_del i l))
  | _ => Raise TypeError
  end.

(** [c.items()]. *)
Definition py_items (c : pyval) : res entries :=
  match c with
  | YDict d => Ok d
  | _ => Raise AttributeError
  end.

(** [c.keys()]. *)
Definition py_keys (c : pyval) : res (list pyval) :=
  match c with
  | YDict d => Ok (map fst d)
  | _ => Raise AttributeError
  end.

(** [c.get(k, default)]. *)
Definition py_get (c k default : pyval) : res pyval :=
  match c with
  | YDict d =>
      if hashable k
      then Ok (match dict_find k d with Some v => v | None => default end)
      else Raise TypeError
  | _ => Raise AttributeError
  end.

(** [c.append(v)]; the answer is the list afterwards. *)
Definition py_append (c v : pyval) : res pyval :=
  match c with
  | YList l => Ok (YList (l ++ [v]))
  | _ => Raise AttributeError
  end.

(** What [for x in c] goes through. *)
Definition py_iter (c : pyval) : res (list pyval) :=
  match c with
  | YList l => Ok l
  | YDict d => Ok (map fst d)
  | YStr s => Ok (chars s)
  | _ => Raise TypeError
  end.

(** [len(c)]. *)
Definition py_len (c : pyval) : res nat :=
  match c with
  | YList l => Ok (length l)
  | YDict d => Ok (length d)
  | YStr s => Ok (String.length s)
  | _ => Raise TypeError
  end.

(** [v < n] for an integer [n]. *)
Definition py_lt_int (v : pyval) (n : Z) : res bool :=
  match number_of v with
  | Some x =>
      Ok (match number_compare x (NumZ n) with
          | Some Lt => true
          | _ => false
          end)
  | None => Raise TypeError
  end.

(** A [set], as the list of its elements: [set(c)] and [x in s]. *)
Definition py_set (c : pyval) : res (list pyval) :=
  let? l := py_iter c in
  if forallb hashable l then Ok l else Raise TypeError.

Definition set_in (x : pyval) (s : list pyval) : res bool :=
  if hashable x then Ok (existsb (py_eq x) s) else Raise TypeError.

(** [s.add(x)]. *)
Definition set_add (x : pyval) (s : list pyval) : res (list pyval) :=
  if hashable x then Ok (s ++ [x]) else Raise TypeError.

(** *** [repr] and [str] *)

Definition hex_digit (n : N) : ascii :=
  if N.ltb n 10 then ascii_of_N (48 + n) else ascii_of_N (87 + n).

(** What [isprintable] answers below 256. *)
Definition printable (c : ascii) : bool :=
  (PyStr.between 32 126 c || PyStr.between 161 172 c || PyStr.between 174 255 c)%bool.

Definition backslash : ascii := Eval cbv in ascii_of_nat 92.

Definition escape_char (q : ascii) (c : ascii) : string :=
  if (Ascii.eqb c q || Ascii.eqb c backslash)%bool then String backslash (String c "")
  else if N.eqb (PyStr.code c) 9 then String backslash "t"
  else if N.eqb (PyStr.code c) 10 then String backslash "n"
  else if N.eqb (PyStr.code c) 13 then String backslash "r"
  else if printable c then String c ""
  else String backslash
         (String "x" (String (hex_digit (PyStr.code c / 16))
                        (String (hex_digit (PyStr.code c mod 16)) ""))).

Fixpoint escape (q : ascii) (s : string) : string :=
  match s with
  | EmptyString => EmptyString
  | String c s' => escape_char q c +++ escape q s'
  end.

Fixpoint has_char (a : ascii) (s : string) : bool :=
  match s with
  | EmptyString => false
  | String c s' => (Ascii.eqb a c || has_char a s')%bool
  end.

(** [repr(s)] for a string: double quotes when the string has a single
    quote and no double quote, single quotes otherwise. *)
Definition repr_str (s : string) : string :=
  let q := if (has_char "'" s && negb (has_char Re.dquote s))%bool then Re.dquote else "'"%char in
  String q (escape q s +++ String q "").

Fixpoint py_repr (v : pyval) : string :=
  match v with
  | YNone => "None"
  | YBool true => "True"
  | YBool false => "False"
  | YInt z => PyStr.of_Z z
  | YFloat _ r => r
  | YStr s => repr_str s
  | YList l => "[" +++ PyStr.join ", " (map py_repr l) +++ "]"
  | YDict d =>
      "{" +++ PyStr.join ", " (map (fun e => py_repr (fst e) +++ ": " +++ py_repr (snd e)) d)
      +++ "}"
  end.

(** [str(v)], also what an f-string puts for [{v}]. *)
Definition py_str (v : pyval) : string :=
  match v with
  | YStr s => s
  | _ => py_repr v
  end.

End Py.

Import Py.

(** ** Findings and reports *)

(** A finding is a [dict] with string keys, in the order of the literal. *)
Definition finding : Type := list (string * pyval).

(** [f.get(k)]: [None] when the key is absent. *)
Fixpoint finding_get (k : string) (f : finding) : pyval :=
  match f with
  | [] => YNone
  | (k', v) :: f' => if String.eqb k k' then v else finding_get k f'
  end.

Inductive pipeline_status : Type :=
| success
| error.

(** The text under the key [message]: a literal, or a literal followed by
    [str(e)] for the exception caught. *)
Inductive message_text : Type :=
| Literal (s : string)
| WithError (s : string) (e : exn).

(** The [dict] that a detector returns.  The dispatcher's own error reports
    have no [failures] and no [warnings] key. *)
Record report : Type :=
  { status : pipeline_status;
    message : option message_text;
    failures : option (list finding);
    warnings : option (list finding) }.

(** [report.get("failures", [])]. *)
Definition failures_or_empty (r : report) : list finding :=
  match failures r with
  | Some l => l
  | None => []
  end.

(** ** The monad of a detector body

    The state is the dictionary [failures] of the source, which the body
    mutates; an exception leaves the state as it was when it was raised. *)

Definition M (A : Type) : Type := report -> report * res A.

Definition ret {A : Type} (a : A) : M A := fun r => (r, Ok a).

Definition bind {A B : Type} (c : M A) (k : A -> M B) : M B :=
  fun r =>
    match c r with
    | (r', Ok a) => k a r'
    | (r', Raise e) => (r', Raise e)
    end.

(** An expression evaluated inside a body. *)
Definition lift {A : Type} (x : res A) : M A := fun r => (r, x).

Notation "x <- c ;; k" := (bind c (fun x => k))
  (at level 61, c at next level, right associativity).
Notation "c ;; k" := (bind c (fun _ => k))
  (at level 61, right associativity).
Notation "x <~ e ;; k" := (bind (lift e) (fun x => k))
  (at level 61, e at next level, right associativity).

(** [failures["failures"].append(f)] *)
Definition add_failure (f : finding) : M unit :=
  fun r =>
    match failures r with
    | Some l =>
        ({| status := status r; message := message r;
            failures := Some (l ++ [f]); warnings := warnings r |}, Ok tt)
    | None => (r, Raise KeyError)
    end.

(** [failures["warnings"].append(f)] *)
Definition add_warning (f : finding) : M unit :=
  fun r =>
    match warnings r with
    | Some l =>
        ({| status := status r; message := message r;
            failures := failures r; warnings := Some (l ++ [f]) |}, Ok tt)
    | None => (r, Raise KeyError)
    end.

(** [failures["status"] = s; failures["message"] = m] *)
Definition set_error (m : message_text) : M unit :=
  fun r =>
    ({| status := error; message := Some m;
        failures := failures r; warnings := warnings r |}, Ok tt).

Definition when (b : bool) (c : M unit) : M unit := if b then c else ret tt.

Fixpoint for_each {A : Type} (l : list A) (body : A -> M unit) : M unit :=
  match l with
  | [] => ret tt
  | x :: l' => body x ;; for_each l' body
  end.

(** The dictionary a detector starts from. *)
Definition fresh_report : report :=
  {| status := success; message := None; failures := Some []; warnings := Some [] |}.

(** [try: body; return failures / except Exception as e: ...; return failures] *)
Definition guarded (body : M unit) : report :=
  match body fresh_report with
  | (r, Ok _) => r
  | (r, Raise e) =>
      {| status := error; message := Some (WithError "Erro ao analisar pipeline: " e);
         failures := failures r; warnings := warnings r |}
  end.

Definition load_failed : message_text :=
  Literal "Não foi possível carregar o pipeline como YAML válido".

(** The keys that are not jobs in a GitLab CI file. *)
Definition reserved_keys : pyval :=
  YList [YStr "stages"; YStr "variables"; YStr "default"; YStr "include"].

(** The log checks shared by the four detectors; [third] is the check that
    differs. *)
Definition scan_logs (error_logs : option string)
    (permission_fix : string) (third : string * finding) : M unit :=
  match error_logs with
  | Some logs =>
      when (negb (String.eqb logs ""))
        (when (PyStr.contains "No such file or directory" logs)
           (add_warning [("type", YStr "file_not_found");
                         ("message", YStr "Possível erro de arquivo não encontrado");
                         ("fix", YStr "Verificar caminhos de arquivos no pipeline")]) ;;
         when (PyStr.contains "Permission denied" logs)
           (add_warning [("type", YStr "permission_denied");
                         ("message", YStr "Possível erro de permissão negada");
                         ("fix", YStr permission_fix)]) ;;
         when (PyStr.contains (fst third) logs)
           (add_warning (snd third)))
  | None => ret tt
  end.

Definition chmod_fix : string :=
  "Verificar permissões de arquivos ou adicionar 'chmod +x' para scripts".

(** ** The patterns of the source *)

Module Pat.
Import Re.

(** The patterns are quoted in verbose form: the blanks around a group's
    parentheses are not part of them. *)

(** [\$\{\{\s*secrets\. ( [a-zA-Z0-9_-]+ ) \s*\}\}] *)
Definition secret : regex :=
  lit "${{" ++ [Star space] ++ lit "secrets." ++ [Open; Plus word_dash; Close]
  ++ [Star space] ++ lit "}}".

(** [\$ ( [A-Z0-9_]+ )] *)
Definition gitlab_var : regex := lit "$" ++ [Open; Plus upper_word; Close].

(** [\$\( ( [a-zA-Z0-9_.-]+ ) \)] *)
Definition azure_var : regex := lit "$(" ++ [Open; Plus word_dot_dash; Close] ++ lit ")".

(** [pipeline\s*\{] *)
Definition pipeline_block : regex := lit "pipeline" ++ [Star space] ++ lit "{".

(** [agent\s*\{] *)
Definition agent_block : regex := lit "agent" ++ [Star space] ++ lit "{".

(** [agent\s+any] *)
Definition agent_any : regex := lit "agent" ++ [Plus space] ++ lit "any".

(** [stages\s*\{] *)
Definition stages_block : regex := lit "stages" ++ [Star space] ++ lit "{".

(** [stage\s*\(] *)
Definition stage_call : regex := lit "stage" ++ [Star space] ++ lit "(".

(** [stage\s*\(\s*[QQ] ( [^QQ]+ ) [QQ]\s*\)\s*\{ ( [^\}]* ) \}], where [QQ]
    stands for the single and the double quote. *)
Definition stage_body : regex :=
  lit "stage" ++ [Star space] ++ lit "(" ++ [Star space; Cls quote]
  ++ [Open; Plus not_quote; Close] ++ [Cls quote; Star space] ++ lit ")"
  ++ [Star space] ++ lit "{" ++ [Open; Star not_rbrace; Close] ++ lit "}".

(** [steps\s*\{] *)
Definition steps_block : regex := lit "steps" ++ [Star space] ++ lit "{".

(** [\$\{ ( [a-zA-Z0-9_]+ ) \}] *)
Definition jenkins_var : regex := lit "${" ++ [Open; Plus word; Close] ++ lit "}".

(** [environment\s*\{ ( [^\}]* ) \}] *)
Definition environment_block : regex :=
  lit "environment" ++ [Star space] ++ lit "{" ++ [Open; Star not_rbrace; Close] ++ lit "}".

(** [( [a-zA-Z0-9_]+ ) \s*=] *)
Definition assignment : regex := [Open; Plus word; Close; Star space] ++ lit "=".

(** [parameters\s*\{ ( [^\}]* ) \}] *)
Definition parameters_block : regex :=
  lit "parameters" ++ [Star space] ++ lit "{" ++ [Open; Star not_rbrace; Close] ++ lit "}".

(** [( [a-zA-Z0-9_]+ ) \s*\(] *)
Definition parameter : regex := [Open; Plus word; Close; Star space] ++ lit "(".

(** [( pipeline\s*\{ )] *)
Definition pipeline_open : regex := [Open] ++ pipeline_block ++ [Close].

(** [( pipeline\s*\{[^\}]* )] *)
Definition pipeline_head : regex :=
  [Open] ++ pipeline_block ++ [Star not_rbrace; Close].

(** [( stages\s*\{[^\}]* )] *)
Definition stages_head : regex :=
  [Open] ++ stages_block ++ [Star not_rbrace; Close].

(** [( stage\s*\(\s*[QQ]{0}[QQ]\s*\)\s*\{[^\}]* )]: the braces after the
    first quote class are a repetition count, zero. *)
Definition stage_head : regex :=
  [Open] ++ lit "stage" ++ [Star space] ++ lit "(" ++ [Star space]
  ++ [Rep quote 0; Cls quote; Star space] ++ lit ")" ++ [Star space] ++ lit "{"
  ++ [Star not_rbrace; Close].

End Pat.

(** ** The detectors and the patchers *)

Section Detector.

(** [yaml.safe_load] and [yaml.dump(_, sort_keys=False)]. *)
Variable safe_load : string -> res pyval.
Variable dump : pyval -> res string.

(** *** GitHub Actions *)

Definition github_missing_steps (job_name job : pyval) : M unit :=
  has_steps <~ py_in (YStr "steps") job ;;
  empty <~ (if has_steps
            then let? steps := py_getitem job (YStr "steps") in Ok (negb (truthy steps))
            else Ok true) ;;
  when empty
    (add_failure [("type", YStr "missing_steps");
                  ("message", YStr ("Job '" +++ py_str job_name +++ "' não tem steps definidos"));
                  ("job", job_name);
                  ("fix", YStr ("Adicionar pelo menos um step ao job '" +++ py_str job_name +++ "'"))]).

Definition undefined_secret (job_name : pyval) (step_index : nat) (secret : string) : finding :=
  [("type", YStr "undefined_secret");
   ("message", YStr ("Possível referência a secret não definido: '" +++ secret
                     +++ "' no job '" +++ py_str job_name +++ "', step "
                     +++ PyStr.of_nat (step_index + 1)));
   ("job", job_name);
   ("step", YInt (Z.of_nat step_index));
   ("secret", YStr secret);
   ("fix", YStr ("Verificar se o secret '" +++ secret
                 +++ "' está definido nas configurações do repositório"))].

Definition github_secrets (job_name job : pyval) : M unit :=
  has_steps <~ py_in (YStr "steps") job ;;
  when has_steps
    (steps <~ py_getitem job (YStr "steps") ;;
     steps <~ py_iter steps ;;
     for_each (enumerate steps)
       (fun '(step_index, step) =>
          let step_str := py_str step in
          let secret_refs := Re.findall1 Pat.secret step_str in
          for_each secret_refs
            (fun secret => add_warning (undefined_secret job_name step_index secret)))).

Definition invalid_needs (job_name need : pyval) : finding :=
  [("type", YStr "invalid_needs");
   ("message", YStr ("Job '" +++ py_str job_name +++ "' depende de job inexistente: '"
                     +++ py_str need +++ "'"));
   ("job", job_name);
   ("dependency", need);
   ("fix", YStr "Corrigir a dependência 'needs' para um job existente ou remover")].

Definition github_needs (job_names : list pyval) (job_name job : pyval) : M unit :=
  has_needs <~ py_in (YStr "needs") job ;;
  when has_needs
    (needs <~ py_getitem job (YStr "needs") ;;
     unknown <~ (if is_str needs
                 then let? known := set_in needs job_names in Ok (negb known)
                 else Ok false) ;;
     if unknown
     then add_failure (invalid_needs job_name needs)
     else
       match needs with
       | YList l =>
           for_each l
             (fun need =>
                known <~ set_in need job_names ;;
                when (negb known) (add_failure (invalid_needs job_name need)))
       | _ => ret tt
       end).

Definition missing_runner (job_name : pyval) : finding :=
  [("type", YStr "missing_runner");
   ("message", YStr ("Job '" +++ py_str job_name +++ "' não tem runner (runs-on) definido"));
   ("job", job_name);
   ("fix", YStr ("Adicionar 'runs-on' ao job '" +++ py_str job_name +++ "'"))].

Definition github_runner (job_name job : pyval) : M unit :=
  has_runner <~ py_in (YStr "runs-on") job ;;
  when (negb has_runner) (add_failure (missing_runner job_name)).

(** [if "jobs" in pipeline: for job_name, job in pipeline["jobs"].items(): ...] *)
Definition for_each_job (pipeline : pyval) (body : pyval -> pyval -> M unit) : M unit :=
  has_jobs <~ py_in (YStr "jobs") pipeline ;;
  when has_jobs
    (jobs <~ py_getitem pipeline (YStr "jobs") ;;
     items <~ py_items jobs ;;
     for_each items (fun '(job_name, job) => body job_name job)).

Definition github_checks (pipeline : pyval) (error_logs : option string) : M unit :=
  (* 1 *)
  has_jobs <~ py_in (YStr "jobs") pipeline ;;
  when (negb has_jobs)
    (add_failure [("type", YStr "missing_jobs");
                  ("message", YStr "Não há jobs definidos no pipeline");
                  ("fix", YStr "Adicionar seção 'jobs' com pelo menos um job")]) ;;
  (* 2 *)
  has_on <~ py_in (YStr "on") pipeline ;;
  when (negb has_on)
    (add_failure [("type", YStr "missing_triggers");
                  ("message", YStr "Não há triggers (on) definidos no pipeline");
                  ("fix", YStr "Adicionar seção 'on' com pelo menos um trigger (push, pull_request, etc.)")]) ;;
  (* 3 *)
  for_each_job pipeline github_missing_steps ;;
  (* 4 *)
  for_each_job pipeline github_secrets ;;
  (* 5 *)
  has_jobs <~ py_in (YStr "jobs") pipeline ;;
  when has_jobs
    (jobs <~ py_getitem pipeline (YStr "jobs") ;;
     keys <~ py_keys jobs ;;
     let job_names := keys in
     jobs <~ py_getitem pipeline (YStr "jobs") ;;
     items <~ py_items jobs ;;
     for_each items (fun '(job_name, job) => github_needs job_names job_name job)) ;;
  (* 6 *)
  for_each_job pipeline github_runner ;;
  (* 7 *)
  scan_logs error_logs chmod_fix
    ("Error: Process completed with exit code",
     [("type", YStr "exit_code_error");
      ("message", YStr "Processo completou com código de erro");
      ("fix", YStr "Verificar comandos e scripts executados no pipeline")]).

Definition _detect_github_actions_failures
    (pipeline_content : string) (error_logs : option string) : report :=
  guarded
    (pipeline <~ safe_load pipeline_content ;;
     if negb (truthy pipeline)
     then set_error load_failed
     else github_checks pipeline error_logs).

(** *** GitLab CI *)

(** [isinstance(value, dict) and key not in ["stages", "variables",
    "default", "include"]] *)
Definition is_job_entry (key value : pyval) : res bool :=
  if is_dict value
  then let? r := py_in key reserved_keys in Ok (negb r)
  else Ok false.

(** [isinstance(value, dict) and ("script" in value or "extends" in value)] *)
Definition looks_like_job (value : pyval) : res bool :=
  if is_dict value
  then let? s := py_in (YStr "script") value in
       if s then Ok true else py_in (YStr "extends") value
  else Ok false.

(** [job_count], after the loop of check 2. *)
Fixpoint count_jobs (items : entries) (job_count : nat) : res nat :=
  match items with
  | [] => Ok job_count
  | (_, value) :: items' =>
      let? j := looks_like_job value in
      count_jobs items' (if j then job_count + 1 else job_count)
  end.

Definition gitlab_missing_script (key value : pyval) : M unit :=
  j <~ is_job_entry key value ;;
  when j
    (s <~ py_in (YStr "script") value ;;
     e <~ (if s then Ok true else py_in (YStr "extends") value) ;;
     when (negb e)
       (add_failure [("type", YStr "missing_script");
                     ("message", YStr ("Job '" +++ py_str key
                                       +++ "' não tem script ou extends definido"));
                     ("job", key);
                     ("fix", YStr ("Adicionar 'script' ou 'extends' ao job '"
                                   +++ py_str key +++ "'"))])).

Definition gitlab_undefined_variable (key : pyval) (var : string) : finding :=
  [("type", YStr "undefined_variable");
   ("message", YStr ("Possível referência a variável não definida: '" +++ var
                     +++ "' no job '" +++ py_str key +++ "'"));
   ("job", key);
   ("variable", YStr var);
   ("fix", YStr ("Definir a variável '" +++ var +++ "' na seção 'variables'"))].

Definition gitlab_variables (defined_vars : list pyval) (key value : pyval) : M unit :=
  j <~ is_job_entry key value ;;
  when j
    (let job_str := py_str value in
     let var_refs := Re.findall1 Pat.gitlab_var job_str in
     for_each var_refs
       (fun var =>
          known <~ set_in (YStr var) defined_vars ;;
          when (negb known && negb (PyStr.startswith var "CI_"))
            (add_warning (gitlab_undefined_variable key var)))).

Definition gitlab_stage (defined_stages : list pyval) (key value : pyval) : M unit :=
  j <~ is_job_entry key value ;;
  when j
    (has_stage <~ py_in (YStr "stage") value ;;
     when has_stage
       (stage <~ py_getitem value (YStr "stage") ;;
        known <~ set_in stage defined_stages ;;
        when (negb known)
          (stage <~ py_getitem value (YStr "stage") ;;
           add_failure [("type", YStr "invalid_stage");
                        ("message", YStr ("Job '" +++ py_str key
                                          +++ "' usa stage inexistente: '"
                                          +++ py_str stage +++ "'"));
                        ("job", key);
                        ("stage", stage);
                        ("fix", YStr ("Adicionar '" +++ py_str stage
                                      +++ "' à lista de stages ou corrigir o nome"))]))).

Definition gitlab_checks (pipeline : pyval) (error_logs : option string) : M unit :=
  (* 1 *)
  has_stages <~ py_in (YStr "stages") pipeline ;;
  when (negb has_stages)
    (add_warning [("type", YStr "missing_stages");
                  ("message", YStr "Não há stages definidos no pipeline");
                  ("fix", YStr "Adicionar seção 'stages' com os estágios do pipeline")]) ;;
  (* 2 *)
  items <~ py_items pipeline ;;
  job_count <~ count_jobs items 0 ;;
  when (Nat.eqb job_count 0)
    (add_failure [("type", YStr "missing_jobs");
                  ("message", YStr "Não há jobs definidos no pipeline");
                  ("fix", YStr "Adicionar pelo menos um job com script ou extends")]) ;;
  (* 3 *)
  items <~ py_items pipeline ;;
  for_each items (fun '(key, value) => gitlab_missing_script key value) ;;
  (* 4 *)
  has_variables <~ py_in (YStr "variables") pipeline ;;
  when has_variables
    (variables <~ py_getitem pipeline (YStr "variables") ;;
     keys <~ py_keys variables ;;
     let defined_vars := keys in
     items <~ py_items pipeline ;;
     for_each items (fun '(key, value) => gitlab_variables defined_vars key value)) ;;
  (* 5 *)
  has_stages <~ py_in (YStr "stages") pipeline ;;
  when has_stages
    (stages <~ py_getitem pipeline (YStr "stages") ;;
     defined_stages <~ py_set stages ;;
     items <~ py_items pipeline ;;
     for_each items (fun '(key, value) => gitlab_stage defined_stages key value)) ;;
  (* 6 *)
  scan_logs error_logs chmod_fix
    ("Job failed",
     [("type", YStr "job_failed");
      ("message", YStr "Job falhou durante a execução");
      ("fix", YStr "Verificar comandos e scripts executados no pipeline")]).

Definition _detect_gitlab_ci_failures
    (pipeline_content : string) (error_logs : option string) : report :=
  guarded
    (pipeline <~ safe_load pipeline_content ;;
     if negb (truthy pipeline)
     then set_error load_failed
     else gitlab_checks pipeline error_logs).

(** *** Jenkins *)

Definition found_in (r : Re.regex) (s : string) : bool :=
  match Re.search r s with
  | Some _ => true
  | None => false
  end.

Definition jenkins_missing_steps (stage_name : string) : finding :=
  [("type", YStr "missing_steps");
   ("message", YStr ("Stage '" +++ stage_name +++ "' não tem bloco 'steps' definido"));
   ("stage", YStr stage_name);
   ("fix", YStr ("Adicionar bloco 'steps { ... }' ao stage '" +++ stage_name +++ "'"))].

Definition jenkins_builtins : list string := ["BUILD_NUMBER"; "JOB_NAME"; "WORKSPACE"].

(** The names declared in the first [environment] block and in the first
    [parameters] block. *)
Definition jenkins_defined_vars (pipeline_content : string) : list string :=
  let env_vars :=
    match Re.search Pat.environment_block pipeline_content with
    | Some env_block => Re.findall1 Pat.assignment (Re.group 1 env_block)
    | None => []
    end in
  let param_vars :=
    match Re.search Pat.parameters_block pipeline_content with
    | Some params_block => Re.findall1 Pat.parameter (Re.group 1 params_block)
    | None => []
    end in
  env_vars ++ param_vars.

Definition mem_string (s : string) (l : list string) : bool := existsb (String.eqb s) l.

Definition jenkins_checks (pipeline_content : string) (error_logs : option string) : M unit :=
  (* 1 *)
  when (negb (found_in Pat.pipeline_block pipeline_content))
    (add_failure [("type", YStr "missing_pipeline");
                  ("message", YStr "Não há bloco 'pipeline' definido");
                  ("fix", YStr "Adicionar bloco 'pipeline { ... }'")]) ;;
  (* 2 *)
  when (negb (found_in Pat.agent_block pipeline_content)
        && negb (found_in Pat.agent_any pipeline_content))
    (add_failure [("type", YStr "missing_agent");
                  ("message", YStr "Não há 'agent' definido");
                  ("fix", YStr "Adicionar 'agent any' ou 'agent { ... }'")]) ;;
  (* 3 *)
  when (negb (found_in Pat.stages_block pipeline_content))
    (add_failure [("type", YStr "missing_stages");
                  ("message", YStr "Não há bloco 'stages' definido");
                  ("fix", YStr "Adicionar bloco 'stages { ... }'")]) ;;
  (* 4 *)
  when (negb (found_in Pat.stage_call pipeline_content))
    (add_failure [("type", YStr "missing_stage");
                  ("message", YStr "Não há nenhum 'stage' definido");
                  ("fix", YStr "Adicionar pelo menos um 'stage(...)'")]) ;;
  (* 5 *)
  (let stages := Re.findall2 Pat.stage_body pipeline_content in
   for_each stages
     (fun '(stage_name, stage_content) =>
        when (negb (found_in Pat.steps_block stage_content))
          (add_failure (jenkins_missing_steps stage_name)))) ;;
  (* 6 *)
  (let var_refs := Re.findall1 Pat.jenkins_var pipeline_content in
   let defined_vars := jenkins_defined_vars pipeline_content in
   for_each var_refs
     (fun var =>
        when (negb (mem_string var defined_vars)
              && negb (PyStr.startswith var "env.")
              && negb (mem_string var jenkins_builtins))
          (add_warning [("type", YStr "undefined_variable");
                        ("message", YStr ("Possível referência a variável não definida: '"
                                          +++ var +++ "'"));
                        ("variable", YStr var);
                        ("fix", YStr ("Definir a variável '" +++ var
                                      +++ "' na seção 'environment' ou como parâmetro"))]))) ;;
  (* 7 *)
  scan_logs error_logs
    ("Verificar permissões de arquivos ou adicionar 'sh " +++ String Re.dquote "chmod +x ..."
     +++ String Re.dquote "' para scripts")
    ("groovy.lang.MissingPropertyException",
     [("type", YStr "missing_property");
      ("message", YStr "Possível erro de propriedade não definida");
      ("fix", YStr "Verificar variáveis e propriedades usadas no pipeline")]).

Definition _detect_jenkins_failures
    (pipeline_content : string) (error_logs : option string) : report :=
  guarded (jenkins_checks pipeline_content error_logs).

(** *** Azure DevOps *)

(** [stage.get('name', f'Stage {stage_index + 1}')] *)
Definition stage_label (stage : pyval) (stage_index : nat) : res pyval :=
  py_get stage (YStr "name") (YStr ("Stage " +++ PyStr.of_nat (stage_index + 1))).

Definition azure_missing_steps (job_index : nat) (job : pyval) : M unit :=
  has_steps <~ py_in (YStr "steps") job ;;
  empty <~ (if has_steps
            then let? steps := py_getitem job (YStr "steps") in Ok (negb (truthy steps))
            else Ok true) ;;
  when empty
    (add_failure [("type", YStr "missing_steps");
                  ("message", YStr ("Job " +++ PyStr.of_nat (job_index + 1)
                                    +++ " não tem steps definidos"));
                  ("job_index", YInt (Z.of_nat job_index));
                  ("fix", YStr ("Adicionar pelo menos um step ao job "
                                +++ PyStr.of_nat (job_index + 1)))]).

Definition azure_missing_jobs (stage_index : nat) (stage : pyval) : M unit :=
  has_jobs <~ py_in (YStr "jobs") stage ;;
  empty <~ (if has_jobs
            then let? jobs := py_getitem stage (YStr "jobs") in Ok (negb (truthy jobs))
            else Ok true) ;;
  when empty
    (name <~ stage_label stage stage_index ;;
     add_failure [("type", YStr "missing_jobs");
                  ("message", YStr ("Stage '" +++ py_str name +++ "' não tem jobs definidos"));
                  ("stage_index", YInt (Z.of_nat stage_index));
                  ("fix", YStr ("Adicionar pelo menos um job ao stage '"
                                +++ py_str name +++ "'"))]).

(** The names collected from [variables]: the [name] of each mapping of a
    list, or the keys of a mapping. *)
Fixpoint azure_listed_vars (vars : list pyval) (defined_vars : list pyval)
  : res (list pyval) :=
  match vars with
  | [] => Ok defined_vars
  | var :: vars' =>
      let? named := (if is_dict var then py_in (YStr "name") var else Ok false) in
      let? defined_vars' :=
        (if named
         then let? name := py_getitem var (YStr "name") in set_add name defined_vars
         else Ok defined_vars) in
      azure_listed_vars vars' defined_vars'
  end.

Definition azure_defined_vars (pipeline : pyval) : res (list pyval) :=
  let? has_variables := py_in (YStr "variables") pipeline in
  if has_variables
  then
    let? variables := py_getitem pipeline (YStr "variables") in
    match variables with
    | YList l => azure_listed_vars l []
    | YDict d => Ok (map fst d)
    | _ => Ok []
    end
  else Ok [].

(** [[stage.get("name", f"stage_{i}") for i, stage in enumerate(stages)]] *)
Fixpoint azure_stage_names (stages : list (nat * pyval)) : res (list pyval) :=
  match stages with
  | [] => Ok []
  | (i, stage) :: stages' =>
      let? name := py_get stage (YStr "name") (YStr ("stage_" +++ PyStr.of_nat i)) in
      let? names := azure_stage_names stages' in
      Ok (name :: names)
  end.

Definition invalid_depends_on (name : pyval) (stage_index : nat) (depend : pyval) : finding :=
  [("type", YStr "invalid_depends_on");
   ("message", YStr ("Stage '" +++ py_str name +++ "' depende de stage inexistente: '"
                     +++ py_str depend +++ "'"));
   ("stage_index", YInt (Z.of_nat stage_index));
   ("dependency", depend);
   ("fix", YStr "Corrigir a dependência 'dependsOn' para um stage existente ou remover")].

Definition azure_depends_on (stage_names : list pyval) (stage_index : nat) (stage : pyval)
  : M unit :=
  has_depends <~ py_in (YStr "dependsOn") stage ;;
  when has_depends
    (depends_on <~ py_getitem stage (YStr "dependsOn") ;;
     if (is_str depends_on && negb (existsb (py_eq depends_on) stage_names))%bool
     then
       name <~ stage_label stage stage_index ;;
       add_failure (invalid_depends_on name stage_index depends_on)
     else
       match depends_on with
       | YList l =>
           for_each l
             (fun depend =>
                when (negb (existsb (py_eq depend) stage_names))
                  (name <~ stage_label stage stage_index ;;
                   add_failure (invalid_depends_on name stage_index depend)))
       | _ => ret tt
       end).

Definition azure_checks (pipeline : pyval) (error_logs : option string) : M unit :=
  (* 1 *)
  has_trigger <~ py_in (YStr "trigger") pipeline ;;
  has_pr <~ (if has_trigger then Ok true else py_in (YStr "pr") pipeline) ;;
  when (negb has_pr)
    (add_warning [("type", YStr "missing_triggers");
                  ("message", YStr "Não há triggers (trigger/pr) definidos no pipeline");
                  ("fix", YStr "Adicionar seção 'trigger' ou 'pr'")]) ;;
  (* 2 *)
  has_pool <~ py_in (YStr "pool") pipeline ;;
  when (negb has_pool)
    (add_warning [("type", YStr "missing_pool");
                  ("message", YStr "Não há 'pool' definido no pipeline");
                  ("fix", YStr "Adicionar seção 'pool' com o agente a ser usado")]) ;;
  (* 3 *)
  has_stages <~ py_in (YStr "stages") pipeline ;;
  has_jobs <~ (if has_stages then Ok true else py_in (YStr "jobs") pipeline) ;;
  has_steps <~ (if has_jobs then Ok true else py_in (YStr "steps") pipeline) ;;
  when (negb has_steps)
    (add_failure [("type", YStr "missing_pipeline_structure");
                  ("message", YStr "Não há 'stages', 'jobs' ou 'steps' definidos no pipeline");
                  ("fix", YStr "Adicionar pelo menos uma das seções: 'stages', 'jobs' ou 'steps'")]) ;;
  (* 4 *)
  has_jobs <~ py_in (YStr "jobs") pipeline ;;
  when has_jobs
    (jobs <~ py_getitem pipeline (YStr "jobs") ;;
     jobs <~ py_iter jobs ;;
     for_each (enumerate jobs) (fun '(job_index, job) => azure_missing_steps job_index job)) ;;
  (* 5 *)
  has_stages <~ py_in (YStr "stages") pipeline ;;
  when has_stages
    (stages <~ py_getitem pipeline (YStr "stages") ;;
     stages <~ py_iter stages ;;
     for_each (enumerate stages)
       (fun '(stage_index, stage) => azure_missing_jobs stage_index stage)) ;;
  (* 6 *)
  (let pipeline_str := py_str pipeline in
   let var_refs := Re.findall1 Pat.azure_var pipeline_str in
   defined_vars <~ azure_defined_vars pipeline ;;
   for_each var_refs
     (fun var =>
        known <~ set_in (YStr var) defined_vars ;;
        when (negb known && negb (PyStr.startswith var "System.")
              && negb (PyStr.startswith var "Build."))
          (add_warning [("type", YStr "undefined_variable");
                        ("message", YStr ("Possível referência a variável não definida: '"
                                          +++ var +++ "'"));
                        ("variable", YStr var);
                        ("fix", YStr ("Definir a variável '" +++ var
                                      +++ "' na seção 'variables'"))]))) ;;
  (* 7 *)
  has_stages <~ py_in (YStr "stages") pipeline ;;
  when has_stages
    (stages <~ py_getitem pipeline (YStr "stages") ;;
     stages <~ py_iter stages ;;
     stage_names <~ azure_stage_names (enumerate stages) ;;
     stages <~ py_getitem pipeline (YStr "stages") ;;
     stages <~ py_iter stages ;;
     for_each (enumerate stages)
       (fun '(stage_index, stage) => azure_depends_on stage_names stage_index stage)) ;;
  (* 8 *)
  scan_logs error_logs chmod_fix
    ("Task failed",
     [("type", YStr "task_failed");
      ("message", YStr "Task falhou durante a execução");
      ("fix", YStr "Verificar configurações das tasks no pipeline")]).

Definition _detect_azure_devops_failures
    (pipeline_content : string) (error_logs : option string) : report :=
  guarded
    (pipeline <~ safe_load pipeline_content ;;
     if negb (truthy pipeline)
     then set_error load_failed
     else azure_checks pipeline error_logs).

(** *** The dispatcher of detection *)

Definition detect_failures
    (pipeline_content pipeline_type : string) (error_logs : option string) : report :=
  if String.eqb pipeline_type "github_actions"
  then _detect_github_actions_failures pipeline_content error_logs
  else if String.eqb pipeline_type "gitlab_ci"
  then _detect_gitlab_ci_failures pipeline_content error_logs
  else if String.eqb pipeline_type "jenkins"
  then _detect_jenkins_failures pipeline_content error_logs
  else if String.eqb pipeline_type "azure_devops"
  then _detect_azure_devops_failures pipeline_content error_logs
  else {| status := error;
          message := Some (Literal ("Tipo de pipeline não suportado: " +++ pipeline_type));
          failures := None; warnings := None |}.

(** *** Patching a loaded document

    The patchers assign into nested containers
    ([pipeline["jobs"][job_name]["steps"] = ...]).  On a tree this is the
    container under [k] rebuilt by [f] and put back under [k]. *)

Definition update_at (c k : pyval) (f : pyval -> res pyval) : res pyval :=
  let? v := py_getitem c k in
  let? v' := f v in
  py_setitem c k v'.

(** [for failure in failures.get("failures", []): ...] *)
Fixpoint patch_all {A : Type} (patch : A -> finding -> res A)
    (failures : list finding) (a : A) : res A :=
  match failures with
  | [] => Ok a
  | failure :: failures' =>
      let? a' := patch a failure in
      patch_all patch failures' a'
  end.

Definition type_is (failure : finding) (kind : string) : bool :=
  py_eq (finding_get "type" failure) (YStr kind).

Definition unwrap (r : res string) : option string :=
  match r with
  | Ok s => Some s
  | Raise _ => None
  end.

(** The common frame of the three patchers of structured files. *)
Definition patch_document (patch : pyval -> finding -> res pyval)
    (pipeline_content : string) (failures : report) : option string :=
  match safe_load pipeline_content with
  | Raise _ => None
  | Ok pipeline =>
      if negb (truthy pipeline)
      then None
      else
        unwrap
          (let? pipeline' := patch_all patch (failures_or_empty failures) pipeline in
           dump pipeline')
  end.

(** *** GitHub Actions *)

Definition github_default_steps : pyval :=
  YList [YDict [(YStr "uses", YStr "actions/checkout@v3")];
         YDict [(YStr "name", YStr "Run a one-line script");
                (YStr "run", YStr "echo Hello, world!")]].

Definition github_default_jobs : pyval :=
  YDict [(YStr "build",
          YDict [(YStr "runs-on", YStr "ubuntu-latest");
                 (YStr "steps", github_default_steps)])].

Definition github_default_on : pyval :=
  YDict [(YStr "push", YDict [(YStr "branches", YList [YStr "main"])]);
         (YStr "pull_request", YDict [(YStr "branches", YList [YStr "main"])])].

(** [job_name and job_name in pipeline.get("jobs", {})] *)
Definition names_a_job (pipeline job_name : pyval) : res bool :=
  if truthy job_name
  then let? jobs := py_get pipeline (YStr "jobs") (YDict []) in py_in job_name jobs
  else Ok false.

(** The body of the [invalid_needs] branch, on the job (or, for Azure
    DevOps, on the stage) and the key of its dependencies. *)
Definition drop_dependency (field : string) (dependency : pyval) (job : pyval) : res pyval :=
  let? present := py_in (YStr field) job in
  if present
  then
    let? needs := py_getitem job (YStr field) in
    match needs with
    | YStr _ => py_delitem job (YStr field)
    | YList l =>
        let kept := filter (fun need => negb (py_eq need dependency)) l in
        let? job' := py_setitem job (YStr field) (YList kept) in
        if negb (truthy (YList kept)) then py_delitem job' (YStr field) else Ok job'
    | _ => Ok job
    end
  else Ok job.

Definition github_patch (pipeline : pyval) (failure : finding) : res pyval :=
  if type_is failure "missing_jobs" then
    py_setitem pipeline (YStr "jobs") github_default_jobs
  else if type_is failure "missing_triggers" then
    py_setitem pipeline (YStr "on") github_default_on
  else if type_is failure "missing_steps" then
    let job_name := finding_get "job" failure in
    let? known := names_a_job pipeline job_name in
    if known
    then update_at pipeline (YStr "jobs")
           (fun jobs => update_at jobs job_name
              (fun job => py_setitem job (YStr "steps") github_default_steps))
    else Ok pipeline
  else if type_is failure "invalid_needs" then
    let job_name := finding_get "job" failure in
    let dependency := finding_get "dependency" failure in
    let? known := (if truthy job_name
                   then if truthy dependency then names_a_job pipeline job_name else Ok false
                   else Ok false) in
    if known
    then update_at pipeline (YStr "jobs")
           (fun jobs => update_at jobs job_name (drop_dependency "needs" dependency))
    else Ok pipeline
  else if type_is failure "missing_runner" then
    let job_name := finding_get "job" failure in
    let? known := names_a_job pipeline job_name in
    if known
    then update_at pipeline (YStr "jobs")
           (fun jobs => update_at jobs job_name
              (fun job => py_setitem job (YStr "runs-on") (YStr "ubuntu-latest")))
    else Ok pipeline
  else Ok pipeline.

Definition _fix_github_actions_failures
    (pipeline_content : string) (failures : report) : option string :=
  patch_document github_patch pipeline_content failures.

(** *** GitLab CI *)

Definition gitlab_default_stages : pyval := YList [YStr "build"; YStr "test"; YStr "deploy"].

(** [job_name and job_name in pipeline] *)
Definition names_an_entry (pipeline job_name : pyval) : res bool :=
  if truthy job_name then py_in job_name pipeline else Ok false.

Definition gitlab_patch (pipeline : pyval) (failure : finding) : res pyval :=
  if type_is failure "missing_stages" then
    py_setitem pipeline (YStr "stages") gitlab_default_stages
  else if type_is failure "missing_jobs" then
    py_setitem pipeline (YStr "build")
      (YDict [(YStr "stage", YStr "build");
              (YStr "script", YList [YStr "echo 'Building...'"])])
  else if type_is failure "missing_script" then
    let job_name := finding_get "job" failure in
    let? known := names_an_entry pipeline job_name in
    if known
    then update_at pipeline job_name
           (fun job => py_setitem job (YStr "script") (YList [YStr "echo 'Running...'"]))
    else Ok pipeline
  else if type_is failure "invalid_stage" then
    let job_name := finding_get "job" failure in
    let stage := finding_get "stage" failure in
    let? known := (if truthy job_name
                   then if truthy stage then py_in job_name pipeline else Ok false
                   else Ok false) in
    if known
    then
      let? has_stages := py_in (YStr "stages") pipeline in
      if negb has_stages
      then py_setitem pipeline (YStr "stages") gitlab_default_stages
      else
        let? stages := py_getitem pipeline (YStr "stages") in
        let? listed := py_in stage stages in
        if negb listed
        then update_at pipeline (YStr "stages") (fun stages => py_append stages stage)
        else Ok pipeline
    else Ok pipeline
  else Ok pipeline.

Definition _fix_gitlab_ci_failures
    (pipeline_content : string) (failures : report) : option string :=
  patch_document gitlab_patch pipeline_content failures.

(** *** Azure DevOps *)

Definition azure_default_steps : pyval :=
  YList [YDict [(YStr "checkout", YStr "self")];
         YDict [(YStr "script", YStr "echo Hello, world!");
                (YStr "displayName", YStr "Run a one-line script")]].

Definition azure_default_jobs : pyval :=
  YList [YDict [(YStr "job", YStr "build"); (YStr "steps", azure_default_steps)]].

(** [index is not None and index < len(pipeline.get(key, []))] *)
Definition indexes (pipeline : pyval) (key : string) (index : pyval) : res bool :=
  if is_none index
  then Ok false
  else
    let? l := py_get pipeline (YStr key) (YList []) in
    let? n := py_len l in
    py_lt_int index (Z.of_nat n).

Definition azure_patch (pipeline : pyval) (failure : finding) : res pyval :=
  if type_is failure "missing_triggers" then
    py_setitem pipeline (YStr "trigger") (YList [YStr "main"])
  else if type_is failure "missing_pool" then
    py_setitem pipeline (YStr "pool") (YDict [(YStr "vmImage", YStr "ubuntu-latest")])
  else if type_is failure "missing_pipeline_structure" then
    let? has_stages := py_in (YStr "stages") pipeline in
    let? has_jobs := (if has_stages then Ok true else py_in (YStr "jobs") pipeline) in
    let? has_steps := (if has_jobs then Ok true else py_in (YStr "steps") pipeline) in
    if negb has_steps
    then py_setitem pipeline (YStr "jobs") azure_default_jobs
    else Ok pipeline
  else if type_is failure "missing_steps" then
    let job_index := finding_get "job_index" failure in
    let? known := indexes pipeline "jobs" job_index in
    if known
    then update_at pipeline (YStr "jobs")
           (fun jobs => update_at jobs job_index
              (fun job => py_setitem job (YStr "steps") azure_default_steps))
    else Ok pipeline
  else if type_is failure "missing_jobs" then
    let stage_index := finding_get "stage_index" failure in
    let? known := indexes pipeline "stages" stage_index in
    if known
    then update_at pipeline (YStr "stages")
           (fun stages => update_at stages stage_index
              (fun stage => py_setitem stage (YStr "jobs") azure_default_jobs))
    else Ok pipeline
  else if type_is failure "invalid_depends_on" then
    let stage_index := finding_get "stage_index" failure in
    let dependency := finding_get "dependency" failure in
    let? known := (if is_none stage_index
                   then Ok false
                   else if truthy dependency
                        then indexes pipeline "stages" stage_index
                        else Ok false) in
    if known
    then update_at pipeline (YStr "stages")
           (fun stages => update_at stages stage_index
              (drop_dependency "dependsOn" dependency))
    else Ok pipeline
  else Ok pipeline.

Definition _fix_azure_devops_failures
    (pipeline_content : string) (failures : report) : option string :=
  patch_document azure_patch pipeline_content failures.

(** *** Jenkins *)

Definition line_feed : ascii := Eval cbv in ascii_of_nat 10.

Definition nl : string := String line_feed "".

Definition lines (l : list string) : string := PyStr.join nl l.

Definition jenkins_skeleton : string :=
  lines ["pipeline {";
         "    agent any";
         "    stages {";
         "        stage('Build') {";
         "            steps {";
         "                echo 'Building...'";
         "            }";
         "        }";
         "    }";
         "}"].

(** The replacement templates.  [re] turns [\n] into a line feed and
    leaves the backslash of [\'] where it is. *)
Definition agent_template : list Re.piece :=
  [Re.Backref 1; Re.Text (lines [""; "    agent any"])].

Definition stages_template : list Re.piece :=
  [Re.Backref 1;
   Re.Text (lines [""; "    stages {";
                   "        stage(\'Build\') {";
                   "            steps {";
                   "                echo \'Building...\'";
                   "            }";
                   "        }";
                   "    }"])].

Definition stage_template : list Re.piece :=
  [Re.Backref 1;
   Re.Text (lines [""; "        stage(\'Build\') {";
                   "            steps {";
                   "                echo \'Building...\'";
                   "            }";
                   "        }"])].

Definition steps_template : list Re.piece :=
  [Re.Backref 1;
   Re.Text (lines [""; "            steps {";
                   "                echo \'Running...\'";
                   "            }"])].

Definition jenkins_patch (pipeline_content : string) (failure : finding) : res string :=
  if type_is failure "missing_pipeline" then
    Ok jenkins_skeleton
  else if type_is failure "missing_agent" then
    Ok (Re.sub Pat.pipeline_open agent_template pipeline_content)
  else if type_is failure "missing_stages" then
    Ok (Re.sub Pat.pipeline_head stages_template pipeline_content)
  else if type_is failure "missing_stage" then
    Ok (Re.sub Pat.stages_head stage_template pipeline_content)
  else if type_is failure "missing_steps" then
    let stage_name := finding_get "stage" failure in
    if truthy stage_name
    then
      match stage_name with
      | YStr name =>
          Ok (PyStr.replace
                (Re.sub Pat.stage_head steps_template
                   (PyStr.replace pipeline_content name "{0}"))
                "{0}" name)
      | _ => Raise TypeError
      end
    else Ok pipeline_content
  else Ok pipeline_content.

Definition _fix_jenkins_failures
    (pipeline_content : string) (failures : report) : option string :=
  unwrap (patch_all jenkins_patch (failures_or_empty failures) pipeline_content).

(** *** The dispatcher of patching *)

Definition fix_failures
    (pipeline_content pipeline_type : string) (failures : report) : option string :=
  if String.eqb pipeline_type "github_actions"
  then _fix_github_actions_failures pipeline_content failures
  else if String.eqb pipeline_type "gitlab_ci"
  then _fix_gitlab_ci_failures pipeline_content failures
  else if String.eqb pipeline_type "jenkins"
  then _fix_jenkins_failures pipeline_content failures
  else if String.eqb pipeline_type "azure_devops"
  then _fix_azure_devops_failures pipeline_content failures
  else None.

End Detector.

(** ** A block-style fragment of YAML

    [safe_load] and [dump] here follow PyYAML on documents written in block
    style with one-line scalars:
    - mappings [key: value] and [key:] followed by a nested block, sequences
      [- item], also at the indentation of the key they belong to, and the
      empty collections [{}] and [[]];
    - plain scalars resolved as YAML 1.1 does ([null]; [yes], [no], [true],
      [false], [on], [off] in their three spellings; decimal integers;
      anything else a string), and single-quoted strings.
    A text or a value outside the fragment is answered with a [YAMLError]
    whose text says so; no statement below is about such an answer. *)

Module Yaml.

Definition outside : exn := YAMLError "outside the fragment".

(** *** Scalars *)

Definition null_words : list string := ["null"; "Null"; "NULL"; "~"].
Definition true_words : list string :=
  ["yes"; "Yes"; "YES"; "true"; "True"; "TRUE"; "on"; "On"; "ON"].
Definition false_words : list string :=
  ["no"; "No"; "NO"; "false"; "False"; "FALSE"; "off"; "Off"; "OFF"].

Definition is_letter (c : ascii) : bool := (PyStr.is_lower c || PyStr.is_upper c)%bool.

Fixpoint all_chars (p : ascii -> bool) (s : string) : bool :=
  match s with
  | EmptyString => true
  | String c s' => (p c && all_chars p s')%bool
  end.

Fixpoint last_char (s : string) : option ascii :=
  match s with
  | EmptyString => None
  | String c EmptyString => Some c
  | String _ s' => last_char s'
  end.

Definition one_of (cs : string) (c : ascii) : bool := Py.has_char c cs.

(** Inside a plain scalar of the fragment. *)
Definition plain_char (c : ascii) : bool :=
  (is_letter c || PyStr.is_digit c || one_of " _-./$@'(){}=+,!*" c)%bool.

(** A plain scalar that is a string: it begins with a letter or a dollar
    sign and does not end with a blank. *)
Definition plain_string (s : string) : bool :=
  match s with
  | EmptyString => false
  | String c _ =>
      ((is_letter c || Re.just "$" c) && all_chars plain_char s
       && negb (match last_char s with Some l => Re.just " " l | None => false end))%bool
  end.

Definition digit_value (c : ascii) : Z := Z.of_N (PyStr.code c) - 48.

Fixpoint digits_value (s : string) (acc : Z) : Z :=
  match s with
  | EmptyString => acc
  | String c s' => digits_value s' (10 * acc + digit_value c)
  end.

(** [0] or a digit string without leading zero. *)
Definition natural (s : string) : option Z :=
  match s with
  | EmptyString => None
  | String c s' =>
      if (PyStr.is_digit c && all_chars PyStr.is_digit s'
          && (negb (Re.just "0" c) || String.eqb s' ""))%bool
      then Some (digits_value s 0)
      else None
  end.

Definition integer (s : string) : option Z :=
  match s with
  | String "-" s' => option_map Z.opp (natural s')
  | _ => natural s
  end.

(** The implicit resolution of a plain scalar. *)
Definition resolve_plain (s : string) : option pyval :=
  if mem_string s null_words then Some YNone
  else if mem_string s true_words then Some (YBool true)
  else if mem_string s false_words then Some (YBool false)
  else match integer s with
       | Some z => Some (YInt z)
       | None => if plain_string s then Some (YStr s) else None
       end.

Definition quoted_char (c : ascii) : bool :=
  (PyStr.between 32 126 c && negb (Re.just "'" c))%bool.

Fixpoint drop_last (s : string) : string :=
  match s with
  | EmptyString => EmptyString
  | String c EmptyString => EmptyString
  | String c s' => String c (drop_last s')
  end.

(** The text between single quotes, when [s] is such a scalar. *)
Definition single_quoted (s : string) : option string :=
  match s with
  | String "'" (String c s' as body) =>
      match last_char body with
      | Some "'"%char =>
          let inner := drop_last body in
          if all_chars quoted_char inner then Some inner else None
      | _ => None
      end
  | _ => None
  end.

(** What stands after [key: ] or [- ] on a line. *)
Definition parse_inline (s : string) : option pyval :=
  if String.eqb s "{}" then Some (YDict [])
  else if String.eqb s "[]" then Some (YList [])
  else match s with
       | String "'" _ => option_map YStr (single_quoted s)
       | _ => resolve_plain s
       end.

Definition key_char (c : ascii) : bool :=
  (is_letter c || PyStr.is_digit c || one_of "_-." c)%bool.

Definition parse_key (s : string) : option pyval :=
  match s with
  | String "'" _ => option_map YStr (single_quoted s)
  | _ => if (all_chars key_char s || plain_string s)%bool then resolve_plain s else None
  end.

(** *** Lines and tokens *)

Inductive token : Type :=
| Entry (key : pyval) (value : option pyval)   (* [key: value] or [key:] *)
| Item (value : option pyval)                  (* [- value] or [- ] before a nested node *)
| Scalar (value : pyval).

Fixpoint split_lines (s : string) (cur : string) : list string :=
  match s with
  | EmptyString => [cur]
  | String c s' =>
      if Ascii.eqb c line_feed
      then cur :: split_lines s' ""
      else split_lines s' (cur +++ String c "")
  end.

Fixpoint indentation (s : string) : nat * string :=
  match s with
  | String " " s' => let (n, r) := indentation s' in (S n, r)
  | _ => (0, s)
  end.

Fixpoint drop (n : nat) (s : string) : string :=
  match n, s with
  | S n', String _ s' => drop n' s'
  | _, _ => s
  end.

(** [key: value] cut at the first colon followed by a blank, or [key:]
    cut at a final colon. *)
Fixpoint split_entry (s : string) (key : string) : option (string * string) :=
  match s with
  | EmptyString => None
  | String ":" EmptyString => Some (key, "")
  | String ":" (String " " v) => Some (key, v)
  | String c s' => split_entry s' (key +++ String c "")
  end.

Fixpoint tokens_of (fuel : nat) (n : nat) (s : string) : option (list (nat * token)) :=
  match fuel with
  | O => None
  | S fuel' =>
      if PyStr.startswith s "- "
      then
        match tokens_of fuel' (n + 2) (drop 2 s) with
        | Some [(_, Scalar v)] => Some [(n, Item (Some v))]
        | Some ts => Some ((n, Item None) :: ts)
        | None => None
        end
      else
        match split_entry s "" with
        | Some (k, v) =>
            match parse_key k with
            | Some key =>
                if String.eqb v ""
                then Some [(n, Entry key None)]
                else option_map (fun value => [(n, Entry key (Some value))]) (parse_inline v)
            | None => None
            end
        | None => option_map (fun value => [(n, Scalar value)]) (parse_inline s)
        end
  end.

Fixpoint tokenize (ls : list string) : option (list (nat * token)) :=
  match ls with
  | [] => Some []
  | l :: ls' =>
      let (n, content) := indentation l in
      if String.eqb content ""
      then tokenize ls'
      else
        match tokens_of (S (String.length content)) n content, tokenize ls' with
        | Some ts, Some ts' => Some (ts ++ ts')
        | _, _ => None
        end
  end.

(** *** Block nodes *)

Definition next_indent (ts : list (nat * token)) : option nat :=
  match ts with
  | [] => None
  | (m, _) :: _ => Some m
  end.

(** After a one-line value at indentation [n] nothing deeper may follow. *)
Definition closes (n : nat) (ts : list (nat * token)) : bool :=
  match next_indent ts with
  | Some m => Nat.leb m n
  | None => true
  end.

(** [node fuel n ts]: the block node that starts with the first token, at
    indentation [n]; [mapping] and [sequence] read its entries. *)
Fixpoint node (fuel : nat) (n : nat) (ts : list (nat * token))
  : option (pyval * list (nat * token)) :=
  match fuel with
  | O => None
  | S fuel' =>
      match ts with
      | (m, Entry _ _) :: _ =>
          if Nat.eqb m n
          then option_map (fun r => (YDict (fst r), snd r)) (mapping fuel' n ts)
          else None
      | (m, Item _) :: _ =>
          if Nat.eqb m n
          then option_map (fun r => (YList (fst r), snd r)) (sequence fuel' n ts)
          else None
      | _ => None
      end
  end
with mapping (fuel : nat) (n : nat) (ts : list (nat * token))
  : option (entries * list (nat * token)) :=
  match fuel with
  | O => None
  | S fuel' =>
      match ts with
      | [] => Some ([], [])
      | (m, t) :: rest =>
          if Nat.ltb m n then Some ([], ts)
          else if negb (Nat.eqb m n) then None
          else
            match t with
            | Entry key (Some value) =>
                if closes n rest
                then
                  match mapping fuel' n rest with
                  | Some (d, rest') =>
                      if dict_mem key d then None else Some ((key, value) :: d, rest')
                  | None => None
                  end
                else None
            | Entry key None =>
                let nested :=
                  match rest with
                  | (m', Item _) :: _ =>
                      if Nat.leb n m' then node fuel' m' rest else Some (YNone, rest)
                  | (m', _) :: _ =>
                      if Nat.ltb n m' then node fuel' m' rest else Some (YNone, rest)
                  | [] => Some (YNone, rest)
                  end in
                match nested with
                | Some (value, rest') =>
                    match mapping fuel' n rest' with
                    | Some (d, rest'') =>
                        if dict_mem key d then None else Some ((key, value) :: d, rest'')
                    | None => None
                    end
                | None => None
                end
            | _ => None
            end
      end
  end
with sequence (fuel : nat) (n : nat) (ts : list (nat * token))
  : option (list pyval * list (nat * token)) :=
  match fuel with
  | O => None
  | S fuel' =>
      match ts with
      | [] => Some ([], [])
      | (m, t) :: rest =>
          if Nat.ltb m n then Some ([], ts)
          else if negb (Nat.eqb m n) then None
          else
            match t with
            | Item (Some value) =>
                if closes n rest
                then option_map (fun r => (value :: fst r, snd r)) (sequence fuel' n rest)
                else None
            | Item None =>
                match rest with
                | (m', _) :: _ =>
                    if Nat.ltb n m'
                    then
                      match node fuel' m' rest with
                      | Some (value, rest') =>
                          option_map (fun r => (value :: fst r, snd r))
                            (sequence fuel' n rest')
                      | None => None
                      end
                    else None
                | [] => None
                end
            | Entry _ _ => Some ([], ts)
            | Scalar _ => None
            end
      end
  end.

Definition load (s : string) : option pyval :=
  match tokenize (split_lines s "") with
  | Some [] => Some YNone
  | Some [(O, Scalar v)] => Some v
  | Some ((O, t) :: ts) =>
      match node (2 * S (length ts) + 2) 0 ((O, t) :: ts) with
      | Some (v, []) => Some v
      | _ => None
      end
  | _ => None
  end.

(** [yaml.safe_load] on the fragment. *)
Definition safe_load (s : string) : res pyval :=
  match load s with
  | Some v => Ok v
  | None => Raise outside
  end.

(** *** Emission

    [yaml.dump(_, sort_keys=False)] writes block style, two blanks per
    level; a sequence that is the value of a key stands at the
    indentation of the key; an item that is a collection begins on the
    line of its dash.  A string is written plain when reading it back
    plain gives the same string, and between single quotes when it
    would be read as another scalar. *)

Fixpoint spaces (n : nat) : string :=
  match n with
  | O => ""
  | S n' => String " " (spaces n')
  end.

Definition emit_string (s : string) : option string :=
  if plain_string s
  then match resolve_plain s with
       | Some (YStr _) => Some s
       | _ => Some ("'" +++ s +++ "'")
       end
  else match resolve_plain s with
       | Some (YStr _) | None => None
       | Some _ => if all_chars key_char s then Some ("'" +++ s +++ "'") else None
       end.

Definition emit_scalar (v : pyval) : option string :=
  match v with
  | YNone => Some "null"
  | YBool true => Some "true"
  | YBool false => Some "false"
  | YInt z => Some (PyStr.of_Z z)
  | YStr s => emit_string s
  | _ => None
  end.

(** How a value continues the line of its key or dash. *)
Inductive layout : Type :=
| Inline (s : string)
| Block
| Unsupported.

Definition layout_of (v : pyval) : layout :=
  match v with
  | YDict [] => Inline "{}"
  | YList [] => Inline "[]"
  | YDict _ | YList _ => Block
  | _ => match emit_scalar v with
         | Some s => Inline s
         | None => Unsupported
         end
  end.

(** The first line of an item's block, with its dash. *)
Definition dash (n : nat) (ls : list string) : list string :=
  match ls with
  | [] => []
  | l :: ls' => (spaces n +++ "- " +++ drop (n + 2) l) :: ls'
  end.

Definition emit_key (k : pyval) : option string :=
  match emit_scalar k with
  | Some s => if (all_chars key_char s || is_str k)%bool then Some s else None
  | None => None
  end.

(** The lines of a non-empty collection at indentation [n]. *)
Fixpoint emit (n : nat) (v : pyval) {struct v} : option (list string) :=
  match v with
  | YDict d =>
      (fix entries (d : list (pyval * pyval)) : option (list string) :=
         match d with
         | [] => Some []
         | (k, x) :: d' =>
             match emit_key k, entries d' with
             | Some key, Some rest =>
                 match layout_of x with
                 | Inline s => Some ((spaces n +++ key +++ ": " +++ s) :: rest)
                 | Block =>
                     match emit (if is_list x then n else n + 2) x with
                     | Some ls => Some ((spaces n +++ key +++ ":") :: ls ++ rest)
                     | None => None
                     end
                 | Unsupported => None
                 end
             | _, _ => None
             end
         end) d
  | YList l =>
      (fix items (l : list pyval) : option (list string) :=
         match l with
         | [] => Some []
         | x :: l' =>
             match items l' with
             | Some rest =>
                 match layout_of x with
                 | Inline s => Some ((spaces n +++ "- " +++ s) :: rest)
                 | Block =>
                     match emit (n + 2) x with
                     | Some ls => Some (dash n ls ++ rest)
                     | None => None
                     end
                 | Unsupported => None
                 end
             | None => None
             end
         end) l
  | _ => None
  end.

Fixpoint unlines (ls : list string) : string :=
  match ls with
  | [] => ""
  | l :: ls' => l +++ nl +++ unlines ls'
  end.

(** The emitter folds a line longer than its width; such documents are
    left out. *)
Definition width : nat := 80.

Definition dump_text (v : pyval) : option string :=
  match v with
  | YDict [] => Some ("{}" +++ nl)
  | YList [] => Some ("[]" +++ nl)
  | YDict _ | YList _ =>
      match emit 0 v with
      | Some ls =>
          if forallb (fun l => Nat.leb (String.length l) width) ls
          then Some (unlines ls)
          else None
      | None => None
      end
  | _ => None
  end.

(** [yaml.dump(_, sort_keys=False)] on the fragment. *)
Definition dump (v : pyval) : res string :=
  match dump_text v with
  | Some s => Ok s
  | None => Raise outside
  end.

End Yaml.

(** * Vocabulary of the statements *)

(** ** Reports under construction *)

Definition warnings_or_empty (r : report) : list finding :=
  match warnings r with
  | Some l => l
  | None => []
  end.

(** Both lists are in the dictionary. *)
Definition present (r : report) : Prop :=
  exists fs ws, failures r = Some fs /\ warnings r = Some ws.

(** [r'] is [r] with findings appended. *)
Record grows (r r' : report) : Prop :=
  { grows_present : present r';
    grows_failures : exists fs, failures_or_empty r' = failures_or_empty r ++ fs;
    grows_warnings : exists ws, warnings_or_empty r' = warnings_or_empty r ++ ws }.

(** Whatever its outcome, [c] only appends. *)
Definition mono {A : Type} (c : M A) : Prop :=
  forall r, present r -> grows r (fst (c r)).

(** [c] returns, appends only, and leaves status and message alone. *)
Definition total {A : Type} (c : M A) : Prop :=
  forall r, present r ->
    exists a r', c r = (r', Ok a) /\ grows r r'
                 /\ status r' = status r /\ message r' = message r.

(** A property of reports that appending keeps. *)
Definition stable (P : report -> Prop) : Prop :=
  forall r r', grows r r' -> P r -> P r'.

(** Whatever its outcome, [c] only appends and leaves a report with [P]. *)
Definition establishes {A : Type} (P : report -> Prop) (c : M A) : Prop :=
  forall r, present r -> grows r (fst (c r)) /\ P (fst (c r)).

(** ** Documents *)

(** The kinds whose files are loaded as YAML. *)
Definition structured_kinds : list string := ["github_actions"; "gitlab_ci"; "azure_devops"].

(** The text does not load to a document worth checking: [safe_load]
    raises, or returns a value that is false in a condition ([None], an
    empty mapping, sequence or string, zero, [False]). *)
Definition loads_nothing (safe_load : string -> res pyval) (text : string) : Prop :=
  forall doc, safe_load text = Ok doc -> truthy doc = false.

(** [doc["jobs"][job][field]] *)
Definition job_field (doc : pyval) (job field : string) : res pyval :=
  let? jobs := py_getitem doc (YStr "jobs") in
  let? j := py_getitem jobs (YStr job) in
  py_getitem j (YStr field).

(** The entries that are jobs as checks 3 to 5 see them and that have
    [script] or [extends]. *)
Definition job_entries (d : entries) : entries :=
  filter (fun e =>
            match is_job_entry (fst e) (snd e), looks_like_job (snd e) with
            | Ok true, Ok true => true
            | _, _ => false
            end) d.






(** The fields of a job, or of a stage, after [drop_dependency], which
    answers on every mapping. *)
Definition dropped (field : string) (need : pyval) (fields : entries) : entries :=
  match drop_dependency field need (YDict fields) with
  | Ok (YDict fields') => fields'
  | _ => fields
  end.


(** ** The serialiser and the loader of the fragment, side by side *)

(** A character that can stand in a line without ending it or cutting
    it into a key and a value. *)
Definition tame (c : ascii) : bool :=
  (negb (Ascii.eqb c ":") && negb (Ascii.eqb c line_feed))%bool.

(** The text of a scalar on a line: it has no colon and no line feed, it
    is not empty, and it begins neither with a blank nor with a dash and a
    blank. *)
Definition scalar_text (s : string) : Prop :=
  Yaml.all_chars tame s = true
  /\ PyStr.startswith s "- " = false
  /\ PyStr.startswith s " " = false
  /\ s <> "".

(** The first character of a text. *)
Definition begins (p : ascii -> bool) (s : string) : bool :=
  match s with
  | String c _ => p c
  | EmptyString => false
  end.

Definition digit_or_dash (c : ascii) : bool := (PyStr.is_digit c || Ascii.eqb c "-")%bool.
Definition letter_or_dollar (c : ascii) : bool := (Yaml.is_letter c || Re.just "$" c)%bool.

Definition is_scalar (v : pyval) : bool :=
  match v with
  | YList _ | YDict _ => false
  | _ => true
  end.

(** Where the text of a key stands: between quotes, or plain. *)
Definition key_text (s : string) : Prop :=
  begins (Re.just "'") s = true
  \/ ((Yaml.all_chars Yaml.key_char s || Yaml.plain_string s)%bool = true
      /\ begins (Re.just "'") s = false).

(** The lines of the entries of a mapping and of the items of a sequence,
    as [Yaml.emit] writes them. *)
Fixpoint emit_entries (n : nat) (d : entries) : option (list string) :=
  match d with
  | [] => Some []
  | (k, x) :: d' =>
      match Yaml.emit_key k, emit_entries n d' with
      | Some key, Some rest =>
          match Yaml.layout_of x with
          | Yaml.Inline s => Some ((Yaml.spaces n +++ key +++ ": " +++ s) :: rest)
          | Yaml.Block =>
              match Yaml.emit (if is_list x then n else n + 2) x with
              | Some ls => Some ((Yaml.spaces n +++ key +++ ":") :: ls ++ rest)
              | None => None
              end
          | Yaml.Unsupported => None
          end
      | _, _ => None
      end
  end.

Fixpoint emit_items (n : nat) (l : list pyval) : option (list string) :=
  match l with
  | [] => Some []
  | x :: l' =>
      match emit_items n l' with
      | Some rest =>
          match Yaml.layout_of x with
          | Yaml.Inline s => Some ((Yaml.spaces n +++ "- " +++ s) :: rest)
          | Yaml.Block =>
              match Yaml.emit (n + 2) x with
              | Some ls => Some (Yaml.dash n ls ++ rest)
              | None => None
              end
          | Yaml.Unsupported => None
          end
      | None => None
      end
  end.

(** The tokens of a collection at indentation [n]. *)
Fixpoint tokens (n : nat) (v : pyval) {struct v} : list (nat * Yaml.token) :=
  match v with
  | YDict d =>
      (fix entries (d : list (pyval * pyval)) : list (nat * Yaml.token) :=
         match d with
         | [] => []
         | (k, x) :: d' =>
             match Yaml.layout_of x with
             | Yaml.Block =>
                 (n, Yaml.Entry k None)
                 :: tokens (if is_list x then n else n + 2) x ++ entries d'
             | _ => (n, Yaml.Entry k (Some x)) :: entries d'
             end
         end) d
  | YList l =>
      (fix items (l : list pyval) : list (nat * Yaml.token) :=
         match l with
         | [] => []
         | x :: l' =>
             match Yaml.layout_of x with
             | Yaml.Block => (n, Yaml.Item None) :: tokens (n + 2) x ++ items l'
             | _ => (n, Yaml.Item (Some x)) :: items l'
             end
         end) l
  | _ => []
  end.

Definition line_ok (l : string) : bool :=
  Yaml.all_chars (fun c => negb (Ascii.eqb c line_feed)) l.

(** The first token of a line that opens a collection. *)
Definition opens (g : list (nat * Yaml.token)) : Prop :=
  match g with
  | [] | (_, Yaml.Scalar _) :: _ => False
  | _ => True
  end.

(** The lines [ls], of which the first stands at indentation [n], are
    read as the tokens [ts]. *)
Definition lines_read (n : nat) (ls : list string) (ts : list (nat * Yaml.token)) : Prop :=
  exists c rest g ts',
    ls = (Yaml.spaces n +++ c) :: rest
    /\ PyStr.startswith c " " = false /\ c <> ""
    /\ Yaml.tokens_of (S (String.length c)) n c = Some g /\ opens g
    /\ Yaml.tokenize rest = Some ts'
    /\ ts = g ++ ts'.

(** The lines that the serialiser writes for a collection are read, line
    by line, as the tokens of that collection. *)
Definition reads (v : pyval) : Prop :=
  forall n ls,
    Yaml.emit n v = Some ls -> Yaml.layout_of v = Yaml.Block ->
    Forall (fun l => line_ok l = true) ls /\ lines_read n ls (tokens n v).

(** No mapping in [v] has two keys that are equal. *)
Fixpoint well_keyed (v : pyval) {struct v} : bool :=
  match v with
  | YDict d =>
      (fix entries (d : list (pyval * pyval)) : bool :=
         match d with
         | [] => true
         | (k, x) :: d' => negb (dict_mem k d') && well_keyed x && entries d'
         end) d
  | YList l =>
      (fix items (l : list pyval) : bool :=
         match l with
         | [] => true
         | x :: l' => well_keyed x && items l'
         end) l
  | _ => true
  end.

(** What may follow the tokens of a mapping at indentation [n], and those
    of a sequence. *)
Definition below (n : nat) (ts : list (nat * Yaml.token)) : Prop :=
  match ts with
  | [] => True
  | (m, _) :: _ => m < n
  end.

Definition ends_sequence (n : nat) (ts : list (nat * Yaml.token)) : Prop :=
  match ts with
  | (m, Yaml.Entry _ _) :: _ => m <= n
  | _ => below n ts
  end.

(** The parser reads the tokens of a collection as that collection. *)
Definition parsed (v : pyval) : Prop :=
  well_keyed v = true ->
  forall n rest fuel,
    Yaml.layout_of v = Yaml.Block ->
    2 * length (tokens n v) + 2 <= fuel ->
    (if is_list v then ends_sequence n rest else below n rest) ->
    Yaml.node fuel n (tokens n v ++ rest) = Some (v, rest).

(** The values that the tokens carry have no mapping with two equal keys. *)
Definition token_flat (t : Yaml.token) : Prop :=
  match t with
  | Yaml.Entry _ (Some v) | Yaml.Item (Some v) | Yaml.Scalar v => well_keyed v = true
  | _ => True
  end.

Definition tokens_flat (ts : list (nat * Yaml.token)) : Prop :=
  Forall (fun p => token_flat (snd p)) ts.

(** [f] gives a value without two equal keys in a mapping when it is
    given one. *)
Definition keeps_keys (f : pyval -> res pyval) : Prop :=
  forall v v', well_keyed v = true -> f v = Ok v' -> well_keyed v' = true.

(** ** Sentences of the specification, as they are written *)

(** C3 as the specification has it: a structured detector that answers
    [error] answers with both lists empty. *)
Definition error_reports_are_empty (safe_load : string -> res pyval) : Prop :=
  forall text kind logs,
    In kind structured_kinds ->
    status (detect_failures safe_load text kind logs) = error ->
    failures (detect_failures safe_load text kind logs) = Some []
    /\ warnings (detect_failures safe_load text kind logs) = Some [].

(** C4 as the specification has it: a text that loads to something other
    than a mapping, or to an empty document, is answered with [error] and a
    message, and patching it gives nothing. *)
Definition non_mappings_are_rejected
    (safe_load : string -> res pyval) (dump : pyval -> res string) : Prop :=
  forall text kind logs doc,
    In kind structured_kinds ->
    safe_load text = Ok doc ->
    is_dict doc = false \/ truthy doc = false ->
    let r := detect_failures safe_load text kind logs in
    status r = error /\ message r <> None
    /\ fix_failures safe_load dump text kind r = None.

(** C6 as the specification has it: the warning is due also when the file
    declares no [variables] at all. *)
Definition every_unknown_variable_is_flagged (safe_load : string -> res pyval) : Prop :=
  forall text logs d key value var,
    safe_load text = Ok (YDict d) ->
    In (key, value) d ->
    is_job_entry key value = Ok true ->
    In var (Re.findall1 Pat.gitlab_var (py_str value)) ->
    (forall vars, dict_find (YStr "variables") d = Some (YDict vars) ->
                  dict_mem (YStr var) vars = false) ->
    PyStr.startswith var "CI_" = false ->
    In (gitlab_undefined_variable key var)
       (warnings_or_empty (detect_failures safe_load text "gitlab_ci" logs)).



(** ** Pipeline files used as examples *)

(** A pipeline whose only stage has no [steps] block. *)
Definition jenkins_stage_without_steps : string :=
  lines ["pipeline {";
         "  agent any";
         "  stages {";
         "    stage('Build') {";
         "      echo 'hi'";
         "    }";
         "  }";
         "}"].

Definition github_scenario : string :=
  lines ["on:";
         "  push: {}";
         "jobs:";
         "  build:";
         "    steps:";
         "      - run: echo hi"].

(** A file whose only entry is the reserved key [default]. *)
Definition gitlab_default_only : string :=
  lines ["default:";
         "  script:";
         "  - echo hi"].

(** A job that uses [$FOO] in a file without [variables]. *)
Definition gitlab_without_variables : string :=
  lines ["build:";
         "  script:";
         "  - echo $FOO"].

(** The same job in a file that declares another variable. *)
Definition gitlab_with_variables : string :=
  lines ["variables:";
         "  BAR: x";
         "build:";
         "  script:";
         "  - echo $FOO"].





(** A workflow in which job [build] needs [x], which does not exist, and
    [y], which does. *)
Definition github_with_invalid_need : string :=
  lines ["'on': push";
         "jobs:";
         "  y:";
         "    runs-on: ubuntu-latest";
         "    steps:";
         "    - run: echo y";
         "  build:";
         "    runs-on: ubuntu-latest";
         "    needs:";
         "    - x";
         "    - y";
         "    steps:";
         "    - run: echo hi"].

Definition build_fields : entries :=
  [(YStr "runs-on", YStr "ubuntu-latest");
   (YStr "needs", YList [YStr "x"; YStr "y"]);
   (YStr "steps", YList [YDict [(YStr "run", YStr "echo hi")]])].

Definition jobs_with_invalid_need : entries :=
  [(YStr "y",
    YDict [(YStr "runs-on", YStr "ubuntu-latest");
           (YStr "steps", YList [YDict [(YStr "run", YStr "echo y")]])]);
   (YStr "build", YDict build_fields)].

(** A pipeline whose stage [deploy] depends on a stage that does not
    exist. *)
Definition azure_with_invalid_dependency : string :=
  lines ["trigger: main";
         "stages:";
         "- name: build";
         "  jobs:";
         "  - job: compile";
         "    steps:";
         "    - script: make";
         "- name: deploy";
         "  dependsOn: nowhere";
         "  jobs:";
         "  - job: ship";
         "    steps:";
         "    - script: make install"].








(** * Vocabulary of the further properties *)

(** ** Invariants of a report under construction *)

(** [c] keeps the property [I] of the report, whatever its outcome. *)
Definition preserves {A : Type} (I : report -> Prop) (c : M A) : Prop :=
  forall r, I r -> I (fst (c r)).

(** Every failure satisfies [QF] and every warning [QW]. *)
Definition findings_satisfy (QF QW : finding -> Prop) (r : report) : Prop :=
  Forall QF (failures_or_empty r) /\ Forall QW (warnings_or_empty r).

(** The report is still the [success] it started as. *)
Definition still_success (r : report) : Prop :=
  status r = success /\ message r = None /\ present r.

(** The four kinds of pipeline. *)
Definition supported_kinds : list string :=
  ["github_actions"; "gitlab_ci"; "jenkins"; "azure_devops"].

(** The values of [type] among the failures of each detector. *)
Definition failure_types (kind : string) : list string :=
  if String.eqb kind "github_actions" then
    ["missing_jobs"; "missing_triggers"; "missing_steps"; "invalid_needs"; "missing_runner"]
  else if String.eqb kind "gitlab_ci" then
    ["missing_jobs"; "missing_script"; "invalid_stage"]
  else if String.eqb kind "jenkins" then
    ["missing_pipeline"; "missing_agent"; "missing_stages"; "missing_stage"; "missing_steps"]
  else if String.eqb kind "azure_devops" then
    ["missing_pipeline_structure"; "missing_steps"; "missing_jobs"; "invalid_depends_on"]
  else [].

(** The values of [type] among the warnings of each detector. *)
Definition warning_types (kind : string) : list string :=
  if String.eqb kind "github_actions" then
    ["undefined_secret"; "file_not_found"; "permission_denied"; "exit_code_error"]
  else if String.eqb kind "gitlab_ci" then
    ["missing_stages"; "undefined_variable"; "file_not_found"; "permission_denied";
     "job_failed"]
  else if String.eqb kind "jenkins" then
    ["undefined_variable"; "file_not_found"; "permission_denied"; "missing_property"]
  else if String.eqb kind "azure_devops" then
    ["missing_triggers"; "missing_pool"; "undefined_variable"; "file_not_found";
     "permission_denied"; "task_failed"]
  else [].

(** A finding whose [type] is one of [types] and whose [message] and [fix]
    are strings. *)
Definition well_typed (types : list string) (f : finding) : Prop :=
  (exists t, finding_get "type" f = YStr t /\ In t types)
  /\ is_str (finding_get "message" f) = true
  /\ is_str (finding_get "fix" f) = true.

(** The two shapes of a report: a [success] that has no message and both
    lists; an [error] that has a message, and both lists or neither
    according to [with_lists]. *)
Definition report_shape (with_lists : bool) (r : report) : Prop :=
  still_success r
  \/ (status r = error
      /\ (exists m, message r = Some m)
      /\ ((present r /\ with_lists = true)
          \/ (failures r = None /\ warnings r = None /\ with_lists = false))).

(** ** The log checks, seen from outside *)

(** [loud] does what [quiet] does and then runs the three log checks. *)
Definition then_scans (quiet loud : M unit) (logs permission_fix : string)
    (third : string * finding) : Prop :=
  forall r, loud r = (quiet ;; scan_logs (Some logs) permission_fix third) r.

(** The log checks of a kind, in their order: the text looked for in the
    log, and the warning that it brings. *)
Definition log_warning (type message advice : string) : finding :=
  [("type", YStr type); ("message", YStr message); ("fix", YStr advice)].

Definition file_not_found_check : string * finding :=
  ("No such file or directory",
   log_warning "file_not_found" "Possível erro de arquivo não encontrado"
     "Verificar caminhos de arquivos no pipeline").

Definition permission_denied_check (advice : string) : string * finding :=
  ("Permission denied",
   log_warning "permission_denied" "Possível erro de permissão negada" advice).

Definition log_checks (kind : string) : list (string * finding) :=
  if String.eqb kind "github_actions" then
    [file_not_found_check;
     permission_denied_check
       "Verificar permissões de arquivos ou adicionar 'chmod +x' para scripts";
     ("Error: Process completed with exit code",
      log_warning "exit_code_error" "Processo completou com código de erro"
        "Verificar comandos e scripts executados no pipeline")]
  else if String.eqb kind "gitlab_ci" then
    [file_not_found_check;
     permission_denied_check
       "Verificar permissões de arquivos ou adicionar 'chmod +x' para scripts";
     ("Job failed",
      log_warning "job_failed" "Job falhou durante a execução"
        "Verificar comandos e scripts executados no pipeline")]
  else if String.eqb kind "jenkins" then
    [file_not_found_check;
     permission_denied_check
       ("Verificar permissões de arquivos ou adicionar 'sh "
        +++ String Re.dquote "chmod +x ..." +++ String Re.dquote "' para scripts");
     ("groovy.lang.MissingPropertyException",
      log_warning "missing_property" "Possível erro de propriedade não definida"
        "Verificar variáveis e propriedades usadas no pipeline")]
  else if String.eqb kind "azure_devops" then
    [file_not_found_check;
     permission_denied_check
       "Verificar permissões de arquivos ou adicionar 'chmod +x' para scripts";
     ("Task failed",
      log_warning "task_failed" "Task falhou durante a execução"
        "Verificar configurações das tasks no pipeline")]
  else [].

(** The warnings of the checks whose text is in the log; an empty log is
    not looked at. *)
Definition found_in_log (logs : string) (checks : list (string * finding)) : list finding :=
  if String.eqb logs "" then []
  else flat_map (fun check => if PyStr.contains (fst check) logs then [snd check] else [])
         checks.

Definition log_warnings (kind logs : string) : list finding :=
  found_in_log logs (log_checks kind).

(** [r] with the warnings [ws] after its own. *)
Definition with_warnings (r : report) (ws : list finding) : report :=
  {| status := status r; message := message r; failures := failures r;
     warnings := Some (warnings_or_empty r ++ ws) |}.

(** The report of a run without log, completed by the warnings [ws] when
    the run was a success. *)
Definition with_logs (quiet : report) (ws : list finding) : report :=
  match status quiet with
  | success => with_warnings quiet ws
  | error => quiet
  end.

(** ** Variables *)

(** The warning [w] says that [var] is not defined. *)
Definition flags_variable (w : finding) (var : string) : Prop :=
  finding_get "type" w = YStr "undefined_variable"
  /\ finding_get "variable" w = YStr var.

(** The names a detector takes as defined by the platform. *)
Definition predefined (kind var : string) : bool :=
  if String.eqb kind "gitlab_ci" then PyStr.startswith var "CI_"
  else if String.eqb kind "jenkins" then
    (PyStr.startswith var "env." || mem_string var jenkins_builtins)%bool
  else if String.eqb kind "azure_devops" then
    (PyStr.startswith var "System." || PyStr.startswith var "Build.")%bool
  else false.

(** The name that an entry of a list of variables declares. *)
Definition entry_name (item : pyval) : list pyval :=
  match item with
  | YDict fields =>
      match dict_find (YStr "name") fields with
      | Some name => [name]
      | None => []
      end
  | _ => []
  end.

(** The names that a document declares under [variables]: the keys of a
    mapping, or the names of the entries of a list. *)
Definition declared_variables (pipeline : pyval) : list pyval :=
  match pipeline with
  | YDict d =>
      match dict_find (YStr "variables") d with
      | Some (YDict variables) => map fst variables
      | Some (YList items) => flat_map entry_name items
      | _ => []
      end
  | _ => []
  end.

(** The names that a file of a structured kind declares, read off the
    document it loads to.  Nothing is said of what a Jenkinsfile
    declares. *)
Definition declared_names (safe_load : string -> res pyval) (text kind : string)
  : list pyval :=
  if String.eqb kind "jenkins" then []
  else
    match safe_load text with
    | Ok pipeline => declared_variables pipeline
    | Raise _ => []
    end.

Definition justly_flagged (kind : string) (names : list pyval) (w : finding) : Prop :=
  forall var, flags_variable w var ->
    predefined kind var = false /\ existsb (py_eq (YStr var)) names = false.


(** ** Patching *)

(** The patcher of Jenkinsfiles answers for the finding [f], whatever the
    text. *)
Definition jenkins_patchable (f : finding) : Prop :=
  forall text, exists text', jenkins_patch text f = Ok text'.

(** ** The agent: [cicd/cicd_agent.py] and [cicd/utils/file_utils.py]

    [os.path] is taken as it is on a POSIX system. *)

Module Path.

(** [posixpath.split] before the head is stripped: the text up to and
    including the last slash, and what follows it. *)
Fixpoint split (p : string) : string * string :=
  match p with
  | EmptyString => (EmptyString, EmptyString)
  | String c p' =>
      let (head, tail) := split p' in
      if Ascii.eqb c "/" then (String c head, tail)
      else if String.eqb head "" then (EmptyString, String c tail)
      else (String c head, tail)
  end.

Fixpoint all_slashes (s : string) : bool :=
  match s with
  | EmptyString => true
  | String c s' => (Ascii.eqb c "/" && all_slashes s')%bool
  end.

(** [s.rstrip('/')] *)
Fixpoint rstrip_slashes (s : string) : string :=
  match s with
  | EmptyString => EmptyString
  | String c s' =>
      let t := rstrip_slashes s' in
      if (String.eqb t "" && Ascii.eqb c "/")%bool then EmptyString else String c t
  end.

Definition basename (p : string) : string := snd (split p).

Definition dirname (p : string) : string :=
  let head := fst (split p) in
  if (negb (String.eqb head "") && negb (all_slashes head))%bool
  then rstrip_slashes head
  else head.

(** [str.endswith] *)
Fixpoint endswith (s suffix : string) : bool :=
  (String.eqb s suffix
   || match s with
      | EmptyString => false
      | String _ s' => endswith s' suffix
      end)%bool.

(** [os.path.join(a, b)] *)
Definition join (a b : string) : string :=
  if PyStr.startswith b "/" then b
  else if (String.eqb a "" || endswith a "/")%bool then a +++ b
  else a +++ "/" +++ b.

End Path.

(** What the agent asks of the file system: [save_json_file(path, content)]
    and the opening of a file for writing by [write_file(path, content)]. *)
Inductive effect : Type :=
| SaveJson (path : string) (content : report)
| WriteText (path : string) (content : string).

Definition save_json_file (file_path : string) (content : report) : list effect :=
  [SaveJson file_path content].

(** [write_file] begins with [os.makedirs(os.path.dirname(file_path),
    exist_ok=True)], which raises on the empty name: the function then
    answers [False] and the file is not opened. *)
Definition write_file (file_path content : string) : list effect :=
  if String.eqb (Path.dirname file_path) "" then [] else [WriteText file_path content].

(** The methods of [FailureDetector], under the names the agent calls them
    by. *)
Abbreviation failure_detector_detect_failures := detect_failures (only parsing).
Abbreviation failure_detector_fix_failures := fix_failures (only parsing).

Module CICDAgent.

Section Agent.

(** [read_file] answers [None] for a file it cannot read.
    [load_json_file] answers [None] for a file it cannot load; a file it
    can load is taken to hold a report. *)
Variable read_file : string -> option string.
Variable load_json_file : string -> option report.
Variable safe_load : string -> res pyval.
Variable dump : pyval -> res string.

Definition get_pipeline_type (file_path : string) : option string :=
  let file_name := Path.basename file_path in
  if (Path.endswith file_name ".yml" || Path.endswith file_name ".yaml")%bool then
    if PyStr.startswith file_name "azure-pipelines" then Some "azure_devops"
    else if String.eqb file_name ".gitlab-ci.yml" then Some "gitlab_ci"
    else
      match read_file file_path with
      | Some content =>
          if (negb (String.eqb content "")
              && (PyStr.contains "actions/" content || PyStr.contains "github." content))%bool
          then Some "github_actions"
          else None
      | None => None
      end
  else if String.eqb file_name "Jenkinsfile" then Some "jenkins"
  else None.

(** [if not x] for an optional string. *)
Definition given (x : option string) : option string :=
  match x with
  | Some s => if String.eqb s "" then None else Some s
  | None => None
  end.

(** [os.path.join(os.path.dirname(p), f"{os.path.basename(p)}{suffix}")] *)
Definition beside (pipeline_path suffix : string) : string :=
  Path.join (Path.dirname pipeline_path) (Path.basename pipeline_path +++ suffix).

Definition agent_error (text pipeline_path : string) : report :=
  {| status := error; message := Some (Literal (text +++ pipeline_path));
     failures := None; warnings := None |}.

Definition detect_failures (pipeline_path : string) (error_logs_path : option string)
  : report * list effect :=
  match given (get_pipeline_type pipeline_path) with
  | None =>
      (agent_error "Não foi possível determinar o tipo de pipeline: " pipeline_path, [])
  | Some pipeline_type =>
      match given (read_file pipeline_path) with
      | None =>
          (agent_error "Não foi possível ler o arquivo de pipeline: " pipeline_path, [])
      | Some pipeline_content =>
          let error_logs :=
            match given error_logs_path with
            | Some error_logs_path => read_file error_logs_path
            | None => None
            end in
          let failures :=
            failure_detector_detect_failures safe_load pipeline_content pipeline_type
              error_logs in
          let failures_path := beside pipeline_path ".failures.json" in
          (failures, save_json_file failures_path failures)
      end
  end.

Definition fix_failures (pipeline_path : string) (failures_path : option string)
  : option string * list effect :=
  match given (get_pipeline_type pipeline_path) with
  | None => (None, [])
  | Some pipeline_type =>
      match given (read_file pipeline_path) with
      | None => (None, [])
      | Some pipeline_content =>
          let failures :=
            match given failures_path with
            | Some failures_path => load_json_file failures_path
            | None => None
            end in
          let failures :=
            match failures with
            | Some failures => failures
            | None =>
                failure_detector_detect_failures safe_load pipeline_content pipeline_type None
            end in
          let fixed_content :=
            failure_detector_fix_failures safe_load dump pipeline_content pipeline_type
              failures in
          (fixed_content,
           match given fixed_content with
           | Some fixed_content => write_file (beside pipeline_path ".fixed") fixed_content
           | None => []
           end)
      end
  end.

End Agent.

End CICDAgent.


(** ** Checks that return *)

(** [r] with failures and warnings appended. *)
Definition extend (r : report) (fs ws : list finding) : report :=
  {| status := status r; message := message r;
     failures := Some (failures_or_empty r ++ fs);
     warnings := Some (warnings_or_empty r ++ ws) |}.

(** From any report that has both lists, [c] returns [a], having appended
    failures that report the defects [xs], and warnings. *)
Definition yields {D A : Type} (reports : finding -> D -> Prop)
    (c : M A) (a : A) (xs : list D) : Prop :=
  exists fs ws,
    Forall2 reports fs xs
    /\ forall r, present r -> c r = (extend r fs ws, Ok a).

(** ** Workflows of the usual shape, and what they lack *)

(** A non-empty string. *)
Definition is_name (v : pyval) : bool :=
  match v with
  | YStr s => negb (String.eqb s "")
  | _ => false
  end.

(** No key occurs twice, as in a [dict]. *)
Fixpoint distinct (keys : list pyval) : bool :=
  match keys with
  | [] => true
  | k :: keys' => (negb (existsb (py_eq k) keys') && distinct keys')%bool
  end.

Definition keys_ok (fields : entries) : bool :=
  (forallb is_str (map fst fields) && distinct (map fst fields))%bool.

(** A job of a workflow: a mapping under string keys whose [steps], when
    it has some, is a sequence, and whose [needs], when it is a string or a
    sequence, names jobs by non-empty strings. *)
Definition github_job_ok (job : pyval) : bool :=
  match job with
  | YDict fields =>
      (keys_ok fields
       && match dict_find (YStr "steps") fields with
          | None | Some (YList _) => true
          | Some _ => false
          end
       && match dict_find (YStr "needs") fields with
          | Some (YStr s) => negb (String.eqb s "")
          | Some (YList l) => forallb is_name l
          | _ => true
          end)%bool
  | _ => false
  end.

(** A workflow: a non-empty mapping whose [jobs], when it has some, is a
    mapping from non-empty names to jobs. *)
Definition github_well_formed (pipeline : pyval) : bool :=
  match pipeline with
  | YDict d =>
      (truthy pipeline
       && match dict_find (YStr "jobs") d with
          | None => true
          | Some (YDict jobs) =>
              forallb is_name (map fst jobs) && distinct (map fst jobs)
              && forallb github_job_ok (map snd jobs)
          | Some _ => false
          end)%bool
  | _ => false
  end.

(** What a workflow can lack, in the detector's terms. *)
Inductive github_defect : Type :=
| NoJobs
| NoTriggers
| NoSteps (job : pyval)
| BadNeed (job need : pyval)
| NoRunner (job : pyval).

(** The failure [f] reports the defect [x]. *)
Definition github_reports (f : finding) (x : github_defect) : Prop :=
  match x with
  | NoJobs => finding_get "type" f = YStr "missing_jobs"
  | NoTriggers => finding_get "type" f = YStr "missing_triggers"
  | NoSteps job =>
      finding_get "type" f = YStr "missing_steps" /\ finding_get "job" f = job
  | BadNeed job need =>
      finding_get "type" f = YStr "invalid_needs" /\ finding_get "job" f = job
      /\ finding_get "dependency" f = need
  | NoRunner job =>
      finding_get "type" f = YStr "missing_runner" /\ finding_get "job" f = job
  end.

Definition lacks_steps (fields : entries) : bool :=
  match dict_find (YStr "steps") fields with
  | Some steps => negb (truthy steps)
  | None => true
  end.

(** The dependencies of a job that name no job. *)
Definition bad_needs (names : list pyval) (fields : entries) : list pyval :=
  match dict_find (YStr "needs") fields with
  | Some (YStr s) => if existsb (py_eq (YStr s)) names then [] else [YStr s]
  | Some (YList l) => filter (fun need => negb (existsb (py_eq need) names)) l
  | _ => []
  end.

Definition steps_defects (job : pyval * pyval) : list github_defect :=
  match snd job with
  | YDict fields => if lacks_steps fields then [NoSteps (fst job)] else []
  | _ => []
  end.

Definition needs_defects (names : list pyval) (job : pyval * pyval)
  : list github_defect :=
  match snd job with
  | YDict fields => map (BadNeed (fst job)) (bad_needs names fields)
  | _ => []
  end.

Definition runner_defects (job : pyval * pyval) : list github_defect :=
  match snd job with
  | YDict fields => if dict_mem (YStr "runs-on") fields then [] else [NoRunner (fst job)]
  | _ => []
  end.

(** The defects of a workflow, in the order in which the detector looks
    for them. *)
Definition github_defects (pipeline : pyval) : list github_defect :=
  match pipeline with
  | YDict d =>
      (if dict_mem (YStr "jobs") d then [] else [NoJobs])
      ++ (if dict_mem (YStr "on") d then [] else [NoTriggers])
      ++ match dict_find (YStr "jobs") d with
         | Some (YDict jobs) =>
             flat_map steps_defects jobs
             ++ flat_map (needs_defects (map fst jobs)) jobs
             ++ flat_map runner_defects jobs
         | _ => []
         end
  | _ => []
  end.

(** ** What the patcher of workflows does for a defect *)

(** The job a defect is about. *)
Definition target (x : github_defect) : option pyval :=
  match x with
  | NoSteps job | BadNeed job _ | NoRunner job => Some job
  | NoJobs | NoTriggers => None
  end.

Definition amend_fields (fields : entries) (x : github_defect) : entries :=
  match x with
  | NoSteps _ => dict_set (YStr "steps") github_default_steps fields
  | BadNeed _ need => dropped "needs" need fields
  | NoRunner _ => dict_set (YStr "runs-on") (YStr "ubuntu-latest") fields
  | NoJobs | NoTriggers => fields
  end.

Definition aims (x : github_defect) (name : pyval) : bool :=
  match target x with
  | Some job => py_eq job name
  | None => false
  end.

Definition amend_entry (e : pyval * pyval) (x : github_defect) : pyval * pyval :=
  if aims x (fst e)
  then (fst e, match snd e with
               | YDict fields => YDict (amend_fields fields x)
               | job => job
               end)
  else e.

Definition amend (jobs : entries) (x : github_defect) : entries :=
  map (fun e => amend_entry e x) jobs.

(** A defect of one of the jobs: it names the job by a non-empty string,
    and so it does the dependency when it is about one. *)
Definition job_defect (names : list pyval) (x : github_defect) : Prop :=
  exists name,
    target x = Some name /\ is_name name = true /\ In name names
    /\ forall job need, x = BadNeed job need -> is_name need = true.

(** What is left of a list of dependencies without those of [dropped]. *)
Definition strip (dropped : list pyval) (l : list pyval) : list pyval :=
  filter (fun need => negb (existsb (py_eq need) dropped)) l.

(** The defects of one job, in the order in which they are reported. *)
Definition job_defects (names : list pyval) (job : pyval * pyval)
  : list github_defect :=
  steps_defects job ++ needs_defects names job ++ runner_defects job.

(** The workflow after the patches for its own defects: a trigger is
    added when there is none, and either the job [build] when there are no
    jobs or, to each job, what it lacks. *)
Definition github_with_triggers (d : entries) : entries :=
  if dict_mem (YStr "on") d then d else dict_set (YStr "on") github_default_on d.

Definition github_repaired (d : entries) : entries :=
  match dict_find (YStr "jobs") d with
  | Some (YDict jobs) =>
      dict_set (YStr "jobs")
        (YDict (fold_left amend
                  (flat_map steps_defects jobs
                   ++ flat_map (needs_defects (map fst jobs)) jobs
                   ++ flat_map runner_defects jobs)
                  jobs))
        (github_with_triggers d)
  | _ => github_with_triggers (dict_set (YStr "jobs") github_default_jobs d)
  end.

(** What the patcher returns for the scenario of the specification. *)
Definition github_scenario_repaired : string :=
  lines ["true:";
         "  push: {}";
         "jobs:";
         "  build:";
         "    steps:";
         "    - run: echo hi";
         "    runs-on: ubuntu-latest";
         "'on':";
         "  push:";
         "    branches:";
         "    - main";
         "  pull_request:";
         "    branches:";
         "    - main";
         ""].

(** ** Jenkins: a text without a pipeline *)

(** The failures of [r] begin with one of type [missing_pipeline]. *)
Definition begins_with_missing_pipeline (r : report) : Prop :=
  exists f rest,
    failures r = Some (f :: rest) /\ finding_get "type" f = YStr "missing_pipeline".


(** ** GitLab CI files of the usual shape, and what they lack *)

(** An entry of the file, as far as the checks look into it: a job names
    its stage, when it names one, by a non-empty string. *)
Definition gitlab_entry_ok (value : pyval) : bool :=
  match value with
  | YDict fields =>
      match dict_find (YStr "stage") fields with
      | Some stage => is_name stage
      | None => true
      end
  | _ => true
  end.

(** A GitLab CI file: a non-empty mapping under distinct non-empty string
    keys, whose [stages], when it has some, is a list of non-empty strings
    and whose [variables], when it has some, is a mapping. *)
Definition gitlab_well_formed (pipeline : pyval) : bool :=
  match pipeline with
  | YDict d =>
      (truthy pipeline
       && forallb is_name (map fst d) && distinct (map fst d)
       && match dict_find (YStr "stages") d with
          | None => true
          | Some (YList l) => forallb is_name l
          | Some _ => false
          end
       && match dict_find (YStr "variables") d with
          | None | Some (YDict _) => true
          | Some _ => false
          end
       && forallb gitlab_entry_ok (map snd d))%bool
  | _ => false
  end.

Inductive gitlab_defect : Type :=
| NoJob
| NoScript (job : pyval)
| BadStage (job stage : pyval).

Definition gitlab_reports (f : finding) (x : gitlab_defect) : Prop :=
  match x with
  | NoJob => finding_get "type" f = YStr "missing_jobs"
  | NoScript job =>
      finding_get "type" f = YStr "missing_script" /\ finding_get "job" f = job
  | BadStage job stage =>
      finding_get "type" f = YStr "invalid_stage" /\ finding_get "job" f = job
      /\ finding_get "stage" f = stage
  end.

(** A mapping under a key that is not reserved. *)
Definition is_job (e : pyval * pyval) : bool :=
  (is_dict (snd e) && negb (existsb (py_eq (fst e))
                              [YStr "stages"; YStr "variables"; YStr "default"; YStr "include"]))%bool.

(** A mapping with [script] or [extends]. *)
Definition has_script (value : pyval) : bool :=
  match value with
  | YDict fields => (dict_mem (YStr "script") fields || dict_mem (YStr "extends") fields)%bool
  | _ => false
  end.

Definition script_defects (e : pyval * pyval) : list gitlab_defect :=
  if (is_job e && negb (has_script (snd e)))%bool then [NoScript (fst e)] else [].

Definition stage_defects (stages : list pyval) (e : pyval * pyval) : list gitlab_defect :=
  if is_job e
  then match snd e with
       | YDict fields =>
           match dict_find (YStr "stage") fields with
           | Some stage => if existsb (py_eq stage) stages then [] else [BadStage (fst e) stage]
           | None => []
           end
       | _ => []
       end
  else [].

(** The defects of a GitLab CI file, in the order in which the detector
    looks for them. *)
Definition gitlab_defects (pipeline : pyval) : list gitlab_defect :=
  match pipeline with
  | YDict d =>
      (if existsb has_script (map snd d) then [] else [NoJob])
      ++ flat_map script_defects d
      ++ match dict_find (YStr "stages") d with
         | Some (YList stages) => flat_map (stage_defects stages) d
         | _ => []
         end
  | _ => []
  end.

(** ** What the patcher of GitLab CI files does for a defect *)

Definition gitlab_default_job : pyval :=
  YDict [(YStr "stage", YStr "build");
         (YStr "script", YList [YStr "echo 'Building...'"])].

Definition gitlab_amend (d : entries) (x : gitlab_defect) : entries :=
  match x with
  | NoJob => dict_set (YStr "build") gitlab_default_job d
  | NoScript job =>
      match dict_find job d with
      | Some (YDict fields) =>
          dict_set job
            (YDict (dict_set (YStr "script") (YList [YStr "echo 'Running...'"]) fields)) d
      | _ => d
      end
  | BadStage _ stage =>
      match dict_find (YStr "stages") d with
      | Some (YList stages) =>
          if existsb (py_eq stage) stages then d
          else dict_set (YStr "stages") (YList (stages ++ [stage])) d
      | _ => d
      end
  end.

(** A defect that the patcher can act upon in [d]. *)
Definition gitlab_patchable (d : entries) (x : gitlab_defect) : Prop :=
  match x with
  | NoJob => True
  | NoScript job =>
      is_name job = true /\ exists fields, dict_find job d = Some (YDict fields)
  | BadStage job stage =>
      is_name job = true /\ is_name stage = true /\ dict_mem job d = true
      /\ exists stages, dict_find (YStr "stages") d = Some (YList stages)
  end.

(** What a patch makes of one entry of the file. *)
Definition gitlab_amend_entry (e : pyval * pyval) (x : gitlab_defect) : pyval * pyval :=
  match x with
  | NoJob => e
  | NoScript job =>
      if py_eq job (fst e)
      then (fst e,
            match snd e with
            | YDict fields =>
                YDict (dict_set (YStr "script") (YList [YStr "echo 'Running...'"]) fields)
            | value => value
            end)
      else e
  | BadStage _ stage =>
      if py_eq (YStr "stages") (fst e)
      then (fst e,
            match snd e with
            | YList stages =>
                YList (if existsb (py_eq stage) stages then stages else stages ++ [stage])
            | value => value
            end)
      else e
  end.

Definition is_no_job (x : gitlab_defect) : bool :=
  match x with
  | NoJob => true
  | _ => false
  end.

(** The file has an entry that counts as a job: a mapping with [script] or
    [extends]. *)
Definition gitlab_has_job (pipeline : pyval) : bool :=
  match pipeline with
  | YDict d => existsb has_script (map snd d)
  | _ => false
  end.

(** The defects of the jobs of a file. *)
Definition gitlab_job_defects (d : entries) : list gitlab_defect :=
  flat_map script_defects d
  ++ match dict_find (YStr "stages") d with
     | Some (YList stages) => flat_map (stage_defects stages) d
     | _ => []
     end.

(** The file after the patches for the defects of its jobs. *)
Definition gitlab_repaired (d : entries) : entries :=
  map (fun e => fold_left gitlab_amend_entry (gitlab_job_defects d) e) d.

(** A file with a job whose stage is not declared and a job without
    script, and a file without any job. *)
Definition gitlab_with_invalid_stage : string :=
  lines ["stages:";
         "- build";
         "test:";
         "  stage: test";
         "  script:";
         "  - make test";
         "lint:";
         "  stage: check"].

Definition gitlab_without_jobs : string :=
  lines ["stages:";
         "- test";
         "image: ruby"].

(** What the patcher returns for the two files. *)
Definition gitlab_with_invalid_stage_repaired : string :=
  lines ["stages:";
         "- build";
         "- test";
         "- check";
         "test:";
         "  stage: test";
         "  script:";
         "  - make test";
         "lint:";
         "  stage: check";
         "  script:";
         "  - echo 'Running...'";
         ""].

Definition gitlab_without_jobs_patched : string :=
  lines ["stages:";
         "- test";
         "image: ruby";
         "build:";
         "  stage: build";
         "  script:";
         "  - echo 'Building...'";
         ""].


(** ** Azure DevOps pipelines of the usual shape, and what they lack *)

(** A stage: a mapping under string keys whose [dependsOn], when it is a
    string or a list, names stages by non-empty strings. *)
Definition azure_stage_ok (stage : pyval) : bool :=
  match stage with
  | YDict fields =>
      (keys_ok fields
       && match dict_find (YStr "dependsOn") fields with
          | Some (YStr s) => negb (String.eqb s "")
          | Some (YList l) => forallb is_name l
          | _ => true
          end)%bool
  | _ => false
  end.

(** A pipeline: a non-empty mapping whose [jobs], when it has some, is a
    list of mappings, whose [stages], when it has some, is a list of
    stages, and whose [variables] can be gone through. *)
Definition azure_well_formed (pipeline : pyval) : bool :=
  match pipeline with
  | YDict d =>
      (truthy pipeline
       && match dict_find (YStr "jobs") d with
          | None => true
          | Some (YList jobs) => forallb is_dict jobs
          | Some _ => false
          end
       && match dict_find (YStr "stages") d with
          | None => true
          | Some (YList stages) => forallb azure_stage_ok stages
          | Some _ => false
          end
       && match azure_defined_vars pipeline with
          | Ok _ => true
          | Raise _ => false
          end)%bool
  | _ => false
  end.

Inductive azure_defect : Type :=
| NoStructure
| NoStepsAt (job_index : nat)
| NoJobsAt (stage_index : nat)
| BadDependency (stage_index : nat) (dependency : pyval).

Definition azure_reports (f : finding) (x : azure_defect) : Prop :=
  match x with
  | NoStructure => finding_get "type" f = YStr "missing_pipeline_structure"
  | NoStepsAt job_index =>
      finding_get "type" f = YStr "missing_steps"
      /\ finding_get "job_index" f = YInt (Z.of_nat job_index)
  | NoJobsAt stage_index =>
      finding_get "type" f = YStr "missing_jobs"
      /\ finding_get "stage_index" f = YInt (Z.of_nat stage_index)
  | BadDependency stage_index dependency =>
      finding_get "type" f = YStr "invalid_depends_on"
      /\ finding_get "stage_index" f = YInt (Z.of_nat stage_index)
      /\ finding_get "dependency" f = dependency
  end.

(** [field] is absent from the mapping or false in a condition. *)
Definition lacks (field : string) (v : pyval) : bool :=
  match v with
  | YDict fields =>
      match dict_find (YStr field) fields with
      | Some x => negb (truthy x)
      | None => true
      end
  | _ => false
  end.

Definition job_steps_defects (job : nat * pyval) : list azure_defect :=
  if lacks "steps" (snd job) then [NoStepsAt (fst job)] else [].

Definition stage_jobs_defects (stage : nat * pyval) : list azure_defect :=
  if lacks "jobs" (snd stage) then [NoJobsAt (fst stage)] else [].

(** The dependencies of a stage that name no stage. *)
Definition bad_depends (names : list pyval) (stage : pyval) : list pyval :=
  match stage with
  | YDict fields =>
      match dict_find (YStr "dependsOn") fields with
      | Some (YStr s) => if existsb (py_eq (YStr s)) names then [] else [YStr s]
      | Some (YList l) => filter (fun depend => negb (existsb (py_eq depend) names)) l
      | _ => []
      end
  | _ => []
  end.

Definition depends_defects (names : list pyval) (stage : nat * pyval) : list azure_defect :=
  map (BadDependency (fst stage)) (bad_depends names (snd stage)).

(** [stage.get("name", f"stage_{i}")] on a mapping. *)
Definition stage_name (stage : nat * pyval) : pyval :=
  match snd stage with
  | YDict fields =>
      match dict_find (YStr "name") fields with
      | Some name => name
      | None => YStr ("stage_" +++ PyStr.of_nat (fst stage))
      end
  | _ => YNone
  end.

Definition has_structure (d : entries) : bool :=
  (dict_mem (YStr "stages") d || dict_mem (YStr "jobs") d || dict_mem (YStr "steps") d)%bool.

(** The defects of the jobs and of the stages of a pipeline. *)
Definition azure_item_defects (d : entries) : list azure_defect :=
  match dict_find (YStr "jobs") d with
  | Some (YList jobs) => flat_map job_steps_defects (enumerate jobs)
  | _ => []
  end
  ++ match dict_find (YStr "stages") d with
     | Some (YList stages) =>
         flat_map stage_jobs_defects (enumerate stages)
         ++ flat_map (depends_defects (map stage_name (enumerate stages)))
              (enumerate stages)
     | _ => []
     end.

(** The defects of a pipeline, in the order in which the detector looks
    for them. *)
Definition azure_defects (pipeline : pyval) : list azure_defect :=
  match pipeline with
  | YDict d => (if has_structure d then [] else [NoStructure]) ++ azure_item_defects d
  | _ => []
  end.

(** ** What the patcher of Azure DevOps pipelines does for a defect *)

(** The list and the position a defect is about. *)
Definition azure_target (x : azure_defect) : option (string * nat) :=
  match x with
  | NoStructure => None
  | NoStepsAt job_index => Some ("jobs", job_index)
  | NoJobsAt stage_index | BadDependency stage_index _ => Some ("stages", stage_index)
  end.

(** What a patch makes of the fields of the item at [i] of the list under
    [key]. *)
Definition azure_amend_fields (key : string) (i : nat) (fields : entries) (x : azure_defect)
  : entries :=
  match x with
  | NoStructure => fields
  | NoStepsAt job_index =>
      if (String.eqb key "jobs" && Nat.eqb job_index i)%bool
      then dict_set (YStr "steps") azure_default_steps fields
      else fields
  | NoJobsAt stage_index =>
      if (String.eqb key "stages" && Nat.eqb stage_index i)%bool
      then dict_set (YStr "jobs") azure_default_jobs fields
      else fields
  | BadDependency stage_index dependency =>
      if (String.eqb key "stages" && Nat.eqb stage_index i)%bool
      then dropped "dependsOn" dependency fields
      else fields
  end.

Definition azure_amend (d : entries) (x : azure_defect) : entries :=
  match azure_target x with
  | None => if has_structure d then d else dict_set (YStr "jobs") azure_default_jobs d
  | Some (key, i) =>
      match dict_find (YStr key) d with
      | Some (YList l) =>
          match nth_error l i with
          | Some (YDict fields) =>
              dict_set (YStr key)
                (YList (list_set i (YDict (azure_amend_fields key i fields x)) l)) d
          | _ => d
          end
      | _ => d
      end
  end.

(** A defect that the patcher can act upon in [d]. *)
Definition azure_patchable (d : entries) (x : azure_defect) : Prop :=
  match azure_target x with
  | None => True
  | Some (key, i) =>
      (exists l fields,
          dict_find (YStr key) d = Some (YList l) /\ nth_error l i = Some (YDict fields))
      /\ forall stage_index dependency,
           x = BadDependency stage_index dependency -> is_name dependency = true
  end.

(** The item of a list after the patches [xs]. *)
Definition azure_item_after (key : string) (xs : list azure_defect) (i : nat) (v : pyval)
  : pyval :=
  match v with
  | YDict fields => YDict (fold_left (azure_amend_fields key i) xs fields)
  | _ => v
  end.

(** The list under a key after the patches [xs]. *)
Definition azure_items_after (key : string) (xs : list azure_defect) (v : pyval) : pyval :=
  match v with
  | YList l =>
      YList (map (fun item => azure_item_after key xs (fst item) (snd item)) (enumerate l))
  | _ => v
  end.

(** The patch of [x] is for the item at [i] of the list under [key]. *)
Definition azure_aimed (key : string) (i : nat) (x : azure_defect) : bool :=
  match azure_target x with
  | Some (k, j) => (String.eqb key k && Nat.eqb j i)%bool
  | None => false
  end.

(** The pipeline after the patches for its own defects. *)
Definition azure_repaired (d : entries) : entries :=
  fold_left azure_amend (azure_defects (YDict d)) d.

(** A pipeline with a stage without jobs and a stage that depends on a
    stage that does not exist. *)
Definition azure_with_defects : string :=
  lines ["stages:";
         "- name: build";
         "- name: deploy";
         "  dependsOn:";
         "  - build";
         "  - nowhere";
         "  jobs:";
         "  - job: ship"].

(** What the patcher returns for it. *)
Definition azure_with_defects_repaired : string :=
  lines ["stages:";
         "- name: build";
         "  jobs:";
         "  - job: build";
         "    steps:";
         "    - checkout: self";
         "    - script: echo Hello, world!";
         "      displayName: Run a one-line script";
         "- name: deploy";
         "  dependsOn:";
         "  - build";
         "  jobs:";
         "  - job: ship";
         ""].

(** * Properties *)

(** ** A small program logic for detector bodies *)

Lemma grows_refl r : present r -> grows r r.
Proof.
  intros H. split; [exact H | exists [] | exists []]; now rewrite app_nil_r.
Qed.

Lemma grows_trans r1 r2 r3 : grows r1 r2 -> grows r2 r3 -> grows r1 r3.
Proof.
  intros [_ [f1 F1] [w1 W1]] [P [f2 F2] [w2 W2]].
  split; [exact P | exists (f1 ++ f2) | exists (w1 ++ w2)].
  - now rewrite F2, F1, app_assoc.
  - now rewrite W2, W1, app_assoc.
Qed.

Lemma total_mono {A} (c : M A) : total c -> mono c.
Proof.
  intros H r Hr. destruct (H r Hr) as (a & r' & E & G & _). now rewrite E.
Qed.

Lemma mono_ret {A} (a : A) : mono (ret a).
Proof. intros r Hr. now apply grows_refl. Qed.

Lemma mono_lift {A} (x : res A) : mono (lift x).
Proof. intros r Hr. now apply grows_refl. Qed.

Lemma mono_bind {A B} (c : M A) (k : A -> M B) :
  mono c -> (forall a, mono (k a)) -> mono (bind c k).
Proof.
  intros Hc Hk r Hr. unfold bind. specialize (Hc r Hr).
  destruct (c r) as [r' [a | e]]; simpl in *; [| exact Hc].
  eapply grows_trans; [exact Hc |]. apply Hk, Hc.
Qed.

Lemma add_failure_spec f r :
  present r ->
  exists r', add_failure f r = (r', Ok tt) /\ grows r r'
    /\ status r' = status r /\ message r' = message r
    /\ failures_or_empty r' = failures_or_empty r ++ [f]
    /\ warnings_or_empty r' = warnings_or_empty r.
Proof.
  intros (fs & ws & F & W). destruct r as [s m fo wo]; simpl in *; subst.
  eexists; split; [reflexivity |].
  repeat split; try reflexivity.
  - now exists (fs ++ [f]), ws.
  - now exists [f].
  - exists []; simpl; now rewrite app_nil_r.
Qed.

Lemma add_warning_spec f r :
  present r ->
  exists r', add_warning f r = (r', Ok tt) /\ grows r r'
    /\ status r' = status r /\ message r' = message r
    /\ failures_or_empty r' = failures_or_empty r
    /\ warnings_or_empty r' = warnings_or_empty r ++ [f].
Proof.
  intros (fs & ws & F & W). destruct r as [s m fo wo]; simpl in *; subst.
  eexists; split; [reflexivity |].
  repeat split; try reflexivity.
  - now exists fs, (ws ++ [f]).
  - exists []; simpl; now rewrite app_nil_r.
  - now exists [f].
Qed.

Lemma total_ret {A} (a : A) : total (ret a).
Proof.
  intros r Hr. exists a, r.
  split; [reflexivity | split; [now apply grows_refl | split; reflexivity]].
Qed.

Lemma total_lift {A} (a : A) : total (lift (Ok a)).
Proof.
  intros r Hr. exists a, r.
  split; [reflexivity | split; [now apply grows_refl | split; reflexivity]].
Qed.

Lemma total_add_failure f : total (add_failure f).
Proof.
  intros r Hr. destruct (add_failure_spec f r Hr) as (r' & E & G & S & Ms & _).
  now exists tt, r'.
Qed.

Lemma total_add_warning f : total (add_warning f).
Proof.
  intros r Hr. destruct (add_warning_spec f r Hr) as (r' & E & G & S & Ms & _).
  now exists tt, r'.
Qed.

Lemma total_bind {A B} (c : M A) (k : A -> M B) :
  total c -> (forall a, total (k a)) -> total (bind c k).
Proof.
  intros Hc Hk r Hr. destruct (Hc r Hr) as (a & r1 & E1 & G1 & S1 & M1).
  destruct (Hk a r1 (grows_present _ _ G1)) as (b & r2 & E2 & G2 & S2 & M2).
  exists b, r2. unfold bind. rewrite E1, E2.
  split; [reflexivity |].
  split; [eapply grows_trans; eauto |].
  split; congruence.
Qed.

Lemma total_when b (c : M unit) : total c -> total (when b c).
Proof. destruct b; simpl; auto using total_ret. Qed.

Lemma total_for_each {A} (l : list A) (body : A -> M unit) :
  (forall x, In x l -> total (body x)) -> total (for_each l body).
Proof.
  induction l as [| x l IH]; simpl; intros H.
  - apply total_ret.
  - apply total_bind; [apply H; now left | intros _; apply IH; auto].
Qed.

Lemma mono_add_failure f : mono (add_failure f).
Proof. apply total_mono, total_add_failure. Qed.

Lemma mono_add_warning f : mono (add_warning f).
Proof. apply total_mono, total_add_warning. Qed.

Lemma mono_set_error m : mono (set_error m).
Proof.
  intros r (fs & ws & F & W). unfold set_error; simpl.
  split; [exists fs, ws; now simpl | exists [] | exists []];
    unfold failures_or_empty, warnings_or_empty; simpl; now rewrite app_nil_r.
Qed.

Lemma mono_when b (c : M unit) : mono c -> mono (when b c).
Proof. destruct b; simpl; auto using mono_ret. Qed.

Lemma mono_for_each {A} (l : list A) (body : A -> M unit) :
  (forall x, mono (body x)) -> mono (for_each l body).
Proof.
  intros H. induction l as [| x l IH]; simpl.
  - apply mono_ret.
  - apply mono_bind; auto.
Qed.

Lemma establishes_then {A B} P (c : M A) (k : A -> M B) :
  stable P -> establishes P c -> (forall a, mono (k a)) -> establishes P (bind c k).
Proof.
  intros HP Hc Hk r Hr. destruct (Hc r Hr) as [G Pr]. unfold bind.
  destruct (c r) as [r' [a | e]]; simpl in *; [| now split].
  specialize (Hk a r' (grows_present _ _ G)).
  split; [eapply grows_trans; eauto | eapply HP; eauto].
Qed.

Lemma establishes_after {A B} P (c : M A) (k : A -> M B) :
  total c -> (forall a, establishes P (k a)) -> establishes P (bind c k).
Proof.
  intros Hc Hk r Hr. destruct (Hc r Hr) as (a & r1 & E1 & G1 & _).
  unfold bind. rewrite E1.
  destruct (Hk a r1 (grows_present _ _ G1)) as [G2 Pr].
  split; [eapply grows_trans; eauto | exact Pr].
Qed.

Lemma establishes_for_each {A} P (l : list A) (body : A -> M unit) x :
  stable P ->
  In x l ->
  (forall y, In y l -> total (body y)) ->
  (forall y, mono (body y)) ->
  establishes P (body x) ->
  establishes P (for_each l body).
Proof.
  intros HP Hin Ht Hm Hx. induction l as [| y l IH]; simpl in *; [contradiction |].
  destruct Hin as [-> | Hin].
  - apply establishes_then; auto. intros _. now apply mono_for_each.
  - apply establishes_after; [apply Ht; now left |]. intros _. apply IH; auto.
Qed.

Lemma establishes_when P (c : M unit) : establishes P c -> establishes P (when true c).
Proof. auto. Qed.

(** Having a warning is stable. *)
Lemma has_warning_stable w : stable (fun r => In w (warnings_or_empty r)).
Proof.
  intros r r' [_ _ [ws W]] H. rewrite W. apply in_or_app. now left.
Qed.

Lemma establishes_add_warning w :
  establishes (fun r => In w (warnings_or_empty r)) (add_warning w).
Proof.
  intros r Hr. destruct (add_warning_spec w r Hr) as (r' & E & G & _ & _ & _ & W).
  rewrite E; simpl. split; [exact G |]. rewrite W. apply in_or_app. right. now left.
Qed.

Lemma present_fresh : present fresh_report.
Proof. now exists [], []. Qed.

(** What [guarded] keeps of a body's final state. *)
Lemma guarded_lists (body : M unit) :
  failures (guarded body) = failures (fst (body fresh_report))
  /\ warnings (guarded body) = warnings (fst (body fresh_report)).
Proof.
  unfold guarded. destruct (body fresh_report) as [r [[] | e]]; simpl; auto.
Qed.

Lemma guarded_total (body : M unit) :
  total body ->
  status (guarded body) = success /\ message (guarded body) = None
  /\ present (guarded body).
Proof.
  intros H. destruct (H fresh_report present_fresh) as ([] & r' & E & G & S & Ms).
  unfold guarded. rewrite E.
  split; [exact S | split; [exact Ms | apply G]].
Qed.

(** ** The dispatchers, kind by kind *)

Section Dispatch.

Variable safe_load : string -> res pyval.
Variable dump : pyval -> res string.

Lemma detect_github text logs :
  detect_failures safe_load text "github_actions" logs
  = _detect_github_actions_failures safe_load text logs.
Proof. reflexivity. Qed.

Lemma detect_gitlab text logs :
  detect_failures safe_load text "gitlab_ci" logs
  = _detect_gitlab_ci_failures safe_load text logs.
Proof. reflexivity. Qed.

Lemma detect_jenkins text logs :
  detect_failures safe_load text "jenkins" logs = _detect_jenkins_failures text logs.
Proof. reflexivity. Qed.

Lemma detect_azure text logs :
  detect_failures safe_load text "azure_devops" logs
  = _detect_azure_devops_failures safe_load text logs.
Proof. reflexivity. Qed.

Lemma fix_github text r :
  fix_failures safe_load dump text "github_actions" r
  = _fix_github_actions_failures safe_load dump text r.
Proof. reflexivity. Qed.

Lemma fix_gitlab text r :
  fix_failures safe_load dump text "gitlab_ci" r
  = _fix_gitlab_ci_failures safe_load dump text r.
Proof. reflexivity. Qed.

Lemma fix_azure text r :
  fix_failures safe_load dump text "azure_devops" r
  = _fix_azure_devops_failures safe_load dump text r.
Proof. reflexivity. Qed.

(** The three structured detectors share their first steps. *)
Lemma detect_structured kind text logs :
  In kind structured_kinds ->
  exists checks,
    detect_failures safe_load text kind logs
    = guarded (pipeline <~ safe_load text ;;
               if negb (truthy pipeline) then set_error load_failed
               else checks pipeline logs).
Proof.
  intros [<- | [<- | [<- | []]]].
  - now exists github_checks.
  - now exists gitlab_checks.
  - now exists azure_checks.
Qed.

(** So do the three structured patchers. *)
Lemma fix_structured kind text r :
  In kind structured_kinds ->
  exists patch,
    fix_failures safe_load dump text kind r = patch_document safe_load dump patch text r.
Proof.
  intros [<- | [<- | [<- | []]]].
  - now exists github_patch.
  - now exists gitlab_patch.
  - now exists azure_patch.
Qed.

End Dispatch.

(** ** Jenkins: detection always succeeds *)

Ltac total_step :=
  first
    [ apply total_ret
    | apply total_lift
    | apply total_add_failure
    | apply total_add_warning
    | apply total_when
    | apply total_bind; [| intros ?]
    | apply total_for_each; intros [? ?] _
    | apply total_for_each; intros ? _ ].

Lemma total_scan_logs logs permission_fix third :
  total (scan_logs logs permission_fix third).
Proof.
  unfold scan_logs. destruct logs; repeat total_step.
Qed.

Lemma total_jenkins_checks text logs : total (jenkins_checks text logs).
Proof.
  unfold jenkins_checks. repeat total_step. apply total_scan_logs.
Qed.

(** C9.  For every text and every optional log, detection with kind
    [jenkins] returns a report with status [success], without [message],
    and with both lists of findings: the Jenkins path has no load error and
    never raises. *)
Theorem jenkins_detection_succeeds :
  forall (safe_load : string -> res pyval) (text : string) (logs : option string),
    let r := detect_failures safe_load text "jenkins" logs in
    status r = success /\ message r = None
    /\ exists fs ws, failures r = Some fs /\ warnings r = Some ws.
Proof.
  intros safe_load text logs r. subst r. rewrite detect_jenkins.
  unfold _detect_jenkins_failures.
  exact (guarded_total _ (total_jenkins_checks text logs)).
Qed.

(** ** Jenkins: a stage without steps is not patched *)

(** The pattern of the [missing_steps] patch finds nothing in the text it
    is applied to: after the quote it asks for the closing parenthesis. *)
Lemma stage_head_finds_nothing :
  Re.matches Pat.stage_head (PyStr.replace jenkins_stage_without_steps "Build" "{0}") = [].
Proof. vm_compute. reflexivity. Qed.

Lemma fix_jenkins safe_load dump text r :
  fix_failures safe_load dump text "jenkins" r = _fix_jenkins_failures text r.
Proof. reflexivity. Qed.

(** C2, on the code as it is.  Detection reports [missing_steps] for stage
    [Build]; patching with that report returns the text unchanged; detection
    on the patched text reports the same finding again. *)
Theorem jenkins_missing_steps_survives_patch :
  forall (safe_load : string -> res pyval) (dump : pyval -> res string),
    let text := jenkins_stage_without_steps in
    let r := detect_failures safe_load text "jenkins" None in
    failures r = Some [jenkins_missing_steps "Build"]
    /\ fix_failures safe_load dump text "jenkins" r = Some text
    /\ forall patched,
         fix_failures safe_load dump text "jenkins" r = Some patched ->
         failures (detect_failures safe_load patched "jenkins" None)
         = Some [jenkins_missing_steps "Build"].
Proof.
  intros safe_load dump. cbv zeta. rewrite fix_jenkins, detect_jenkins.
  assert (E : _fix_jenkins_failures jenkins_stage_without_steps
                (_detect_jenkins_failures jenkins_stage_without_steps None)
              = Some jenkins_stage_without_steps) by (vm_compute; reflexivity).
  split; [vm_compute; reflexivity | split; [exact E |]].
  intros patched H. rewrite E in H. injection H as <-.
  rewrite detect_jenkins. vm_compute. reflexivity.
Qed.

(** ** GitHub Actions: the scenario of the specification *)

(** The key [on] is read as the boolean [true]. *)
Lemma github_scenario_loaded :
  Yaml.safe_load github_scenario
  = Ok (YDict [(YBool true, YDict [(YStr "push", YDict [])]);
               (YStr "jobs",
                YDict [(YStr "build",
                        YDict [(YStr "steps",
                                YList [YDict [(YStr "run", YStr "echo hi")]])])])]).
Proof. vm_compute. reflexivity. Qed.

(** C1, on the code as it is.  On the scenario, detection succeeds with two
    failures, [missing_triggers] and then [missing_runner] for job [build];
    patching with that report returns a text in which job [build] has
    [runs-on] equal to [ubuntu-latest]. *)
Theorem github_scenario_findings :
  let r := detect_failures Yaml.safe_load github_scenario "github_actions" None in
  status r = success
  /\ (exists f, failures r = Some [f; missing_runner (YStr "build")]
                /\ finding_get "type" f = YStr "missing_triggers")
  /\ warnings r = Some []
  /\ exists patched doc,
       fix_failures Yaml.safe_load Yaml.dump github_scenario "github_actions" r = Some patched
       /\ Yaml.safe_load patched = Ok doc
       /\ job_field doc "build" "runs-on" = Ok (YStr "ubuntu-latest").
Proof.
  cbv zeta. split; [vm_compute; reflexivity |].
  split; [eexists; split; vm_compute; reflexivity |].
  split; [vm_compute; reflexivity |].
  eexists. eexists. split; [vm_compute; reflexivity |].
  split; vm_compute; reflexivity.
Qed.

(** ** GitLab CI: which entries count as jobs *)

(** C5, on the code as it is.  The file has no job outside the reserved
    keys, and detection reports no failure at all: the count of check 2
    takes [default] for a job. *)
Theorem gitlab_reserved_key_counts_as_job :
  let r := detect_failures Yaml.safe_load gitlab_default_only "gitlab_ci" None in
  (exists d, Yaml.safe_load gitlab_default_only = Ok (YDict d) /\ job_entries d = [])
  /\ status r = success
  /\ failures r = Some [].
Proof.
  cbv zeta. split; [eexists; split; vm_compute; reflexivity |].
  split; vm_compute; reflexivity.
Qed.

(** ** Structured kinds: what an [error] report holds *)

Section LoadErrors.

Variable safe_load : string -> res pyval.
Variable dump : pyval -> res string.

Lemma guarded_loads_nothing text (checks : pyval -> M unit) :
  loads_nothing safe_load text ->
  let r := guarded (pipeline <~ safe_load text ;;
                    if negb (truthy pipeline) then set_error load_failed
                    else checks pipeline) in
  status r = error /\ (exists m, message r = Some m)
  /\ failures r = Some [] /\ warnings r = Some [].
Proof.
  intros H. unfold guarded, bind, lift. destruct (safe_load text) as [doc | e] eqn:E.
  - rewrite (H doc E). simpl. repeat split; eauto.
  - simpl. repeat split; eauto.
Qed.

Lemma patch_loads_nothing text patch r :
  loads_nothing safe_load text -> patch_document safe_load dump patch text r = None.
Proof.
  intros H. unfold patch_document. destruct (safe_load text) as [doc | e] eqn:E.
  - now rewrite (H doc E).
  - reflexivity.
Qed.

End LoadErrors.

(** C3 fails on [jobs: 5] with kind [github_actions]: check 2 appends
    [missing_triggers], then [pipeline["jobs"].items()] raises, and the
    [except] clause keeps the list. *)
Lemma error_report_keeps_findings : ~ error_reports_are_empty Yaml.safe_load.
Proof.
  intros H.
  destruct (H "jobs: 5" "github_actions" None) as [F _].
  - now left.
  - vm_compute. reflexivity.
  - vm_compute in F. discriminate F.
Qed.

(** C3, amended.  For every text and every structured kind, when the text
    fails to load or loads to an empty document, detection answers [error]
    with both lists empty. *)
Theorem load_error_report_is_empty :
  forall (safe_load : string -> res pyval) text kind logs,
    In kind structured_kinds ->
    loads_nothing safe_load text ->
    let r := detect_failures safe_load text kind logs in
    status r = error /\ failures r = Some [] /\ warnings r = Some [].
Proof.
  intros safe_load text kind logs Hk Hl r. subst r.
  destruct (detect_structured safe_load kind text logs Hk) as [checks ->].
  destruct (guarded_loads_nothing safe_load text (fun p => checks p logs) Hl)
    as (S & _ & F & W).
  auto.
Qed.

Lemma load_error_report_is_empty_witness :
  loads_nothing Yaml.safe_load ""
  /\ status (detect_failures Yaml.safe_load "" "gitlab_ci" None) = error
  /\ failures (detect_failures Yaml.safe_load "" "gitlab_ci" None) = Some []
  /\ warnings (detect_failures Yaml.safe_load "" "gitlab_ci" None) = Some [].
Proof.
  assert (L : loads_nothing Yaml.safe_load "").
  { intros doc H. vm_compute in H. injection H as <-. reflexivity. }
  split; [exact L |].
  apply (load_error_report_is_empty Yaml.safe_load "" "gitlab_ci" None).
  - right. left. reflexivity.
  - exact L.
Defined.

(** C4 fails on the one-item sequence [- a] with kind [github_actions]: the
    membership tests of checks 1 and 2 work on a list, the other checks are
    skipped, and the report is a [success] with two failures. *)
Lemma sequence_document_is_checked : ~ non_mappings_are_rejected Yaml.safe_load Yaml.dump.
Proof.
  intros H.
  destruct (H "- a" "github_actions" None (YList [YStr "a"])) as [S _].
  - now left.
  - vm_compute. reflexivity.
  - now left.
  - vm_compute in S. discriminate S.
Qed.

(** C4, amended.  For every structured kind, when the text fails to load or
    loads to an empty document, detection answers [error] with a message and
    patching answers nothing, whatever the report it is given. *)
Theorem empty_document_is_rejected :
  forall (safe_load : string -> res pyval) (dump : pyval -> res string)
         text kind logs (given : report),
    In kind structured_kinds ->
    loads_nothing safe_load text ->
    let r := detect_failures safe_load text kind logs in
    status r = error /\ (exists m, message r = Some m)
    /\ fix_failures safe_load dump text kind given = None.
Proof.
  intros safe_load dump text kind logs given Hk Hl r. subst r.
  destruct (detect_structured safe_load kind text logs Hk) as [checks ->].
  destruct (fix_structured safe_load dump kind text given Hk) as [patch ->].
  destruct (guarded_loads_nothing safe_load text (fun p => checks p logs) Hl)
    as (S & Ms & _).
  split; [exact S | split; [exact Ms |]].
  now apply patch_loads_nothing.
Qed.

Lemma empty_document_is_rejected_witness :
  loads_nothing Yaml.safe_load "{}"
  /\ status (detect_failures Yaml.safe_load "{}" "azure_devops" None) = error
  /\ (exists m, message (detect_failures Yaml.safe_load "{}" "azure_devops" None) = Some m)
  /\ fix_failures Yaml.safe_load Yaml.dump "{}" "azure_devops"
       (detect_failures Yaml.safe_load "{}" "azure_devops" None) = None.
Proof.
  assert (L : loads_nothing Yaml.safe_load "{}").
  { intros doc H. vm_compute in H. injection H as <-. reflexivity. }
  split; [exact L |].
  apply (empty_document_is_rejected Yaml.safe_load Yaml.dump "{}" "azure_devops" None).
  - right. right. left. reflexivity.
  - exact L.
Defined.

(** ** Checks only append *)

Lemma bind_lift_ok {A B} (v : A) (k : A -> M B) : bind (lift (Ok v)) k = k v.
Proof. reflexivity. Qed.

Lemma total_bind_lift {A B} (e : res A) (v : A) (k : A -> M B) :
  e = Ok v -> total (k v) -> total (bind (lift e) k).
Proof. intros ->. now rewrite bind_lift_ok. Qed.

Lemma establishes_bind_lift {A B} P (e : res A) (v : A) (k : A -> M B) :
  e = Ok v -> establishes P (k v) -> establishes P (bind (lift e) k).
Proof. intros ->. now rewrite bind_lift_ok. Qed.

Lemma mono_scan_logs logs permission_fix third :
  mono (scan_logs logs permission_fix third).
Proof. apply total_mono, total_scan_logs. Qed.

Ltac mono_step :=
  first
    [ apply mono_ret
    | apply mono_lift
    | apply mono_add_failure
    | apply mono_add_warning
    | apply mono_set_error
    | apply mono_scan_logs
    | apply mono_when
    | apply mono_bind; [| intros ?]
    | apply mono_for_each; intros ?
    | match goal with
      | |- mono (let '(_, _) := ?x in _) => destruct x
      | |- mono (if ?b then _ else _) => destruct b
      | |- mono (match ?x with _ => _ end) => destruct x
      end ].

Lemma mono_gitlab_stage stages key value : mono (gitlab_stage stages key value).
Proof. unfold gitlab_stage. repeat mono_step. Qed.

Lemma mono_gitlab_variables vars key value : mono (gitlab_variables vars key value).
Proof. unfold gitlab_variables. repeat mono_step. Qed.





(** ** Checks that cannot raise on a mapping *)

Ltac total_auto :=
  repeat first
    [ eapply total_bind_lift; [reflexivity |]
    | match goal with
      | |- total (bind (lift (if ?b then _ else _)) _) => destruct b
      | |- total (bind (lift (match ?b with _ => _ end)) _) => destruct b
      | |- total (if ?b then _ else _) => destruct b
      end
    | total_step ].

Lemma dict_mem_existsb k d : dict_mem k d = existsb (py_eq k) (map fst d).
Proof.
  unfold dict_mem. induction d as [| [k' v] d IH]; simpl; [reflexivity |].
  destruct (py_eq k k'); simpl; auto.
Qed.

Lemma looks_like_job_ok v : exists b, looks_like_job v = Ok b.
Proof.
  unfold looks_like_job. destruct v; simpl; eauto.
  destruct (dict_mem (YStr "script") d); eauto.
Qed.

Lemma count_jobs_ok d : forall n, exists m, count_jobs d n = Ok m.
Proof.
  induction d as [| [k v] d IH]; simpl; intros n; [eauto |].
  destruct (looks_like_job_ok v) as [b ->]. simpl. apply IH.
Qed.

Lemma total_gitlab_missing_script key value : total (gitlab_missing_script key value).
Proof.
  unfold gitlab_missing_script, is_job_entry.
  destruct value; simpl; total_auto.
Qed.

Lemma total_gitlab_variables vars key value : total (gitlab_variables vars key value).
Proof.
  unfold gitlab_variables, is_job_entry.
  destruct value; simpl; total_auto.
Qed.

(** ** GitLab CI: undefined variables *)

Section GitlabVariables.

Variable safe_load : string -> res pyval.

Lemma gitlab_variables_flags vars key value var :
  is_job_entry key value = Ok true ->
  In var (Re.findall1 Pat.gitlab_var (py_str value)) ->
  dict_mem (YStr var) vars = false ->
  PyStr.startswith var "CI_" = false ->
  establishes (fun r => In (gitlab_undefined_variable key var) (warnings_or_empty r))
    (gitlab_variables (map fst vars) key value).
Proof.
  intros Hj Hv Hd Hc. unfold gitlab_variables.
  eapply establishes_bind_lift; [exact Hj |]. apply establishes_when.
  cbv zeta.
  eapply establishes_for_each with (x := var).
  - apply has_warning_stable.
  - exact Hv.
  - intros y _. total_auto.
  - intros y. repeat mono_step.
  - eapply establishes_bind_lift; [reflexivity |].
    rewrite <- dict_mem_existsb, Hd, Hc. simpl.
    apply establishes_add_warning.
Qed.

(** C6, amended.  For a GitLab CI file that loads to a mapping with a
    top-level [variables] mapping, every [$UPPER_CASE] token in the body of a
    job entry (a mapping under a key that is not reserved) whose name is not
    a key of [variables] and does not start with [CI_] yields an
    [undefined_variable] warning for that job and that name. *)
Theorem gitlab_declared_variables_are_checked :
  forall text logs d vars key value var,
    safe_load text = Ok (YDict d) ->
    dict_find (YStr "variables") d = Some (YDict vars) ->
    In (key, value) d ->
    is_job_entry key value = Ok true ->
    In var (Re.findall1 Pat.gitlab_var (py_str value)) ->
    dict_mem (YStr var) vars = false ->
    PyStr.startswith var "CI_" = false ->
    In (gitlab_undefined_variable key var)
       (warnings_or_empty (detect_failures safe_load text "gitlab_ci" logs)).
Proof.
  intros text logs d vars key value var Hl Hvars Hin Hj Hv Hd Hc.
  rewrite detect_gitlab. unfold _detect_gitlab_ci_failures.
  set (P := fun r => In (gitlab_undefined_variable key var) (warnings_or_empty r)).
  match goal with |- In _ (warnings_or_empty (guarded ?b)) =>
    assert (E : establishes P b); [| 
      unfold warnings_or_empty; rewrite (proj2 (guarded_lists b));
      exact (proj2 (E fresh_report present_fresh)) ]
  end.
  rewrite Hl, bind_lift_ok.
  assert (T : truthy (YDict d) = true) by (destruct d; [contradiction | reflexivity]).
  rewrite T. simpl negb. cbv iota.
  unfold gitlab_checks.
  (* 1 *)
  eapply establishes_bind_lift; [reflexivity |].
  apply establishes_after; [total_auto | intros _].
  (* 2 *)
  eapply establishes_bind_lift; [reflexivity |].
  destruct (count_jobs_ok d 0) as [n Hn].
  eapply establishes_bind_lift; [exact Hn |].
  apply establishes_after; [total_auto | intros _].
  (* 3 *)
  eapply establishes_bind_lift; [reflexivity |].
  apply establishes_after.
  { apply total_for_each. intros [k v] _. apply total_gitlab_missing_script. }
  intros _.
  (* 4 *)
  eapply establishes_bind_lift.
  { simpl. unfold dict_mem. rewrite Hvars. reflexivity. }
  apply establishes_then.
  - apply has_warning_stable.
  - apply establishes_when.
    eapply establishes_bind_lift; [simpl; rewrite Hvars; reflexivity |].
    eapply establishes_bind_lift; [reflexivity |].
    cbv zeta.
    eapply establishes_bind_lift; [reflexivity |].
    eapply establishes_for_each with (x := (key, value)).
    + apply has_warning_stable.
    + exact Hin.
    + intros [k v] _. apply total_gitlab_variables.
    + intros [k v]. apply mono_gitlab_variables.
    + now apply gitlab_variables_flags.
  - intros _. repeat mono_step; apply mono_gitlab_stage.
Qed.

End GitlabVariables.

(** C6 fails on that file: check 4 is under [if "variables" in pipeline],
    and the only warning is [missing_stages]. *)
Lemma undeclared_variables_skip_the_check :
  ~ every_unknown_variable_is_flagged Yaml.safe_load.
Proof.
  intros H.
  specialize (H gitlab_without_variables None
                [(YStr "build", YDict [(YStr "script", YList [YStr "echo $FOO"])])]
                (YStr "build") (YDict [(YStr "script", YList [YStr "echo $FOO"])]) "FOO").
  assert (W : warnings_or_empty
                (detect_failures Yaml.safe_load gitlab_without_variables "gitlab_ci" None)
              = [[("type", YStr "missing_stages");
                  ("message", YStr "Não há stages definidos no pipeline");
                  ("fix", YStr "Adicionar seção 'stages' com os estágios do pipeline")]])
    by (vm_compute; reflexivity).
  rewrite W in H.
  destruct H as [H | []].
  - vm_compute. reflexivity.
  - now left.
  - reflexivity.
  - vm_compute. now left.
  - intros vars Hv. vm_compute in Hv. discriminate Hv.
  - reflexivity.
  - discriminate H.
Qed.

Lemma gitlab_declared_variables_are_checked_witness :
  In (gitlab_undefined_variable (YStr "build") "FOO")
     (warnings_or_empty
        (detect_failures Yaml.safe_load gitlab_with_variables "gitlab_ci" None)).
Proof.
  apply (gitlab_declared_variables_are_checked Yaml.safe_load gitlab_with_variables None
           [(YStr "variables", YDict [(YStr "BAR", YStr "x")]);
            (YStr "build", YDict [(YStr "script", YList [YStr "echo $FOO"])])]
           [(YStr "BAR", YStr "x")]
           (YStr "build") (YDict [(YStr "script", YList [YStr "echo $FOO"])]) "FOO").
  - vm_compute. reflexivity.
  - reflexivity.
  - right. now left.
  - reflexivity.
  - vm_compute. now left.
  - reflexivity.
  - reflexivity.
Defined.

(** ** GitHub Actions: references to secrets *)

Lemma enumerate_from_nth {A} (l : list A) : forall n i x,
  nth_error l i = Some x -> In ((n + i)%nat, x) (enumerate_from n l).
Proof.
  induction l as [| y l IH]; intros n [| i] x H; simpl in *; try discriminate.
  - injection H as ->. left. now rewrite Nat.add_0_r.
  - right. rewrite <- Nat.add_succ_comm. now apply IH.
Qed.

Lemma enumerate_nth {A} (l : list A) i x :
  nth_error l i = Some x -> In (i, x) (enumerate l).
Proof. intros H. exact (enumerate_from_nth l 0 i x H). Qed.







(** ** Mappings under string keys *)

Lemma py_eq_str_l s v : py_eq (YStr s) v = true -> v = YStr s.
Proof.
  destruct v; simpl; try discriminate.
  intros H. apply String.eqb_eq in H. now subst.
Qed.

Lemma py_eq_str_r s v : py_eq v (YStr s) = true -> v = YStr s.
Proof.
  destruct v; simpl; try discriminate.
  intros H. apply String.eqb_eq in H. now subst.
Qed.

Lemma py_eq_str_refl s : py_eq (YStr s) (YStr s) = true.
Proof. simpl. apply String.eqb_refl. Qed.

Lemma dict_find_set_same k v d : dict_find (YStr k) (dict_set (YStr k) v d) = Some v.
Proof.
  induction d as [| [k' v'] d IH]; cbn [dict_find dict_set dict_del map fst In].
  - now rewrite py_eq_str_refl.
  - destruct (py_eq (YStr k) k') eqn:E; cbn [dict_find dict_set dict_del map fst In]; rewrite E; auto.
Qed.

Lemma dict_find_set_other k v d k' :
  k' <> YStr k -> dict_find k' (dict_set (YStr k) v d) = dict_find k' d.
Proof.
  intros N. induction d as [| [k0 v0] d IH]; cbn [dict_find dict_set dict_del map fst In].
  - destruct (py_eq k' (YStr k)) eqn:E; [| reflexivity].
    apply py_eq_str_r in E. contradiction.
  - destruct (py_eq (YStr k) k0) eqn:E; cbn [dict_find dict_set dict_del map fst In].
    + apply py_eq_str_l in E. subst k0.
      destruct (py_eq k' (YStr k)) eqn:E'; [| reflexivity].
      apply py_eq_str_r in E'. contradiction.
    + now rewrite IH.
Qed.

Lemma dict_keys_set k v d :
  dict_mem (YStr k) d = true -> map fst (dict_set (YStr k) v d) = map fst d.
Proof.
  unfold dict_mem. induction d as [| [k0 v0] d IH]; cbn [dict_find dict_set dict_del map fst In]; [discriminate |].
  destruct (py_eq (YStr k) k0); cbn [dict_find dict_set dict_del map fst In]; [reflexivity |].
  intros H. now rewrite IH.
Qed.

Lemma dict_find_del_other k d k' :
  k' <> YStr k -> dict_find k' (dict_del (YStr k) d) = dict_find k' d.
Proof.
  intros N. induction d as [| [k0 v0] d IH]; cbn [dict_find dict_set dict_del map fst In]; [reflexivity |].
  destruct (py_eq (YStr k) k0) eqn:E; cbn [dict_find dict_set dict_del map fst In].
  - apply py_eq_str_l in E. subst k0.
    destruct (py_eq k' (YStr k)) eqn:E'; [| reflexivity].
    apply py_eq_str_r in E'. contradiction.
  - now rewrite IH.
Qed.

Lemma dict_find_absent k d : ~ In (YStr k) (map fst d) -> dict_find (YStr k) d = None.
Proof.
  induction d as [| [k0 v0] d IH]; cbn [dict_find dict_set dict_del map fst In]; [reflexivity |].
  intros N. destruct (py_eq (YStr k) k0) eqn:E.
  - apply py_eq_str_l in E. subst k0. exfalso. apply N. now left.
  - apply IH. intros H. apply N. now right.
Qed.

(** A [dict] has each key once. *)
Lemma dict_find_del_same k d :
  NoDup (map fst d) -> dict_find (YStr k) (dict_del (YStr k) d) = None.
Proof.
  induction d as [| [k0 v0] d IH]; cbn [dict_find dict_set dict_del map fst In]; [reflexivity |].
  intros N. inversion N as [| ? ? Hn Hd]; subst.
  destruct (py_eq (YStr k) k0) eqn:E; cbn [dict_find dict_set dict_del map fst In].
  - apply py_eq_str_l in E. subst k0. now apply dict_find_absent.
  - rewrite E. now apply IH.
Qed.

Lemma dict_mem_find k d v : dict_find k d = Some v -> dict_mem k d = true.
Proof. unfold dict_mem. now intros ->. Qed.

(** ** The serialiser and the loader of the fragment *)

(** *** Integers *)

Ltac digit_values :=
  repeat match goal with
         | |- context [Yaml.digit_value ?c] =>
             let v := eval vm_compute in (Yaml.digit_value c) in
             change (Yaml.digit_value c) with v
         end.

Lemma digits_of_uint d : forall acc,
  Yaml.digits_value (NilEmpty.string_of_uint d) (Z.pos acc)
  = Z.pos (Pos.of_uint_acc d acc).
Proof.
  induction d; intros acc; cbn [NilEmpty.string_of_uint Yaml.digits_value Pos.of_uint_acc];
    try reflexivity; rewrite <- IHd; f_equal; digit_values; lia.
Qed.

Lemma digits_all_digits d :
  Yaml.all_chars PyStr.is_digit (NilEmpty.string_of_uint d) = true.
Proof.
  induction d; cbn [NilEmpty.string_of_uint Yaml.all_chars]; try reflexivity;
    rewrite IHd; reflexivity.
Qed.

Lemma to_uint_normal p : Pos.to_uint p = Decimal.unorm (Pos.to_uint p).
Proof.
  assert (H := DecimalN.Unsigned.to_of (Pos.to_uint p)).
  change (N.of_uint (Pos.to_uint p)) with (Pos.of_uint (Pos.to_uint p)) in H.
  rewrite DecimalPos.Unsigned.of_to in H. exact H.
Qed.

Lemma to_uint_head p d : Pos.to_uint p <> Decimal.D0 d.
Proof.
  intros E. assert (N := to_uint_normal p). rewrite E in N.
  unfold Decimal.unorm in N. rewrite DecimalFacts.nzhead_D0 in N.
  destruct (Decimal.nzhead d) eqn:Z;
    try (apply (DecimalFacts.nzhead_nonzero d d); now rewrite Z).
  apply (DecimalPos.Unsigned.to_uint_nonzero p). now rewrite E, N.
Qed.

Lemma natural_of_pos p :
  Yaml.natural (NilZero.string_of_uint (Pos.to_uint p)) = Some (Z.pos p).
Proof.
  assert (V : Pos.of_uint (Pos.to_uint p) = N.pos p) by apply DecimalPos.Unsigned.of_to.
  assert (A := digits_all_digits (Pos.to_uint p)).
  assert (H := to_uint_head p). assert (N := DecimalPos.Unsigned.to_uint_nonnil p).
  destruct (Pos.to_uint p) as [| d | d | d | d | d | d | d | d | d | d];
    try contradiction; try (now destruct (H d));
    cbn [NilZero.string_of_uint NilEmpty.string_of_uint Yaml.natural Yaml.all_chars] in *;
    rewrite A; cbn [andb Yaml.digits_value];
    cbn [Pos.of_uint] in V; injection V as V;
    match goal with
    | |- (if ?c then _ else _) = _ => change c with true
    end; cbv iota; f_equal; rewrite <- V, <- digits_of_uint; f_equal; digit_values; lia.
Qed.

Lemma integer_of_Z z : Yaml.integer (PyStr.of_Z z) = Some z.
Proof.
  unfold PyStr.of_Z. destruct z as [| p | p]; cbn [Z.to_int NilZero.string_of_int].
  - reflexivity.
  - assert (H := natural_of_pos p). unfold Yaml.integer.
    destruct (NilZero.string_of_uint (Pos.to_uint p)) as [| c s] eqn:E; [discriminate H |].
    destruct (Ascii.eqb_spec c "-") as [-> | Hc].
    + unfold Yaml.natural in H. cbn in H. discriminate H.
    + destruct c as [[] [] [] [] [] [] [] []]; try exact H; now destruct Hc.
  - unfold Yaml.integer. now rewrite natural_of_pos.
Qed.

(** *** Characters and strings *)

Lemma append_assoc (a b c : string) : (a +++ b) +++ c = a +++ (b +++ c).
Proof. induction a as [| x a IH]; [reflexivity |]. cbn [String.append]. now rewrite IH. Qed.

Lemma append_nil_r (a : string) : a +++ "" = a.
Proof. induction a as [| x a IH]; [reflexivity |]. cbn [String.append]. now rewrite IH. Qed.

Lemma all_chars_app p a b :
  Yaml.all_chars p (a +++ b) = (Yaml.all_chars p a && Yaml.all_chars p b)%bool.
Proof.
  induction a as [| x a IH]; [reflexivity |]. cbn [String.append Yaml.all_chars].
  rewrite IH. now rewrite andb_assoc.
Qed.

Lemma all_chars_impl (p q : ascii -> bool) s :
  (forall c, p c = true -> q c = true) ->
  Yaml.all_chars p s = true -> Yaml.all_chars q s = true.
Proof.
  intros H. induction s as [| c s IH]; [reflexivity |]. cbn [Yaml.all_chars].
  intros E. apply andb_prop in E. destruct E as (E1 & E2).
  now rewrite (H c E1), IH.
Qed.

Ltac each_char c :=
  destruct c as [[] [] [] [] [] [] [] []]; vm_compute; intros; congruence.

Lemma plain_char_tame c : Yaml.plain_char c = true -> tame c = true.
Proof. each_char c. Qed.

Lemma key_char_tame c : Yaml.key_char c = true -> tame c = true.
Proof. each_char c. Qed.

Lemma key_char_quoted c : Yaml.key_char c = true -> Yaml.quoted_char c = true.
Proof. each_char c. Qed.

Lemma is_letter_quoted c : Yaml.is_letter c = true -> Yaml.quoted_char c = true.
Proof. each_char c. Qed.

Lemma is_letter_key c : Yaml.is_letter c = true -> Yaml.key_char c = true.
Proof. each_char c. Qed.

Lemma digit_or_dash_key c :
  (PyStr.is_digit c || Ascii.eqb c "-")%bool = true -> Yaml.key_char c = true.
Proof. each_char c. Qed.

Lemma mem_string_in s l : mem_string s l = true -> In s l.
Proof.
  unfold mem_string. intros H. apply existsb_exists in H.
  destruct H as (w & Hw & E). apply String.eqb_eq in E. now subst.
Qed.

(** *** Scalars *)

Lemma last_char_snoc s c : Yaml.last_char (s +++ String c "") = Some c.
Proof.
  induction s as [| x s IH]; [reflexivity |]. cbn [String.append Yaml.last_char].
  destruct (s +++ String c "") eqn:E; [destruct s; discriminate E | exact IH].
Qed.

Lemma drop_last_snoc s c : Yaml.drop_last (s +++ String c "") = s.
Proof.
  induction s as [| x s IH]; [reflexivity |]. cbn [String.append Yaml.drop_last].
  destruct (s +++ String c "") eqn:E; [destruct s; discriminate E |].
  now rewrite IH.
Qed.

Lemma single_quoted_quote s :
  Yaml.all_chars Yaml.quoted_char s = true ->
  Yaml.single_quoted ("'" +++ s +++ "'") = Some s.
Proof.
  intros H. cbn [String.append]. unfold Yaml.single_quoted.
  destruct (s +++ "'") as [| c body] eqn:E; [destruct s; discriminate E |].
  rewrite <- E, last_char_snoc, drop_last_snoc. now rewrite H.
Qed.

Lemma of_uint_digits d :
  d <> Decimal.Nil -> begins PyStr.is_digit (NilEmpty.string_of_uint d) = true.
Proof. destruct d; try reflexivity. contradiction. Qed.

Lemma of_Z_begins z : begins digit_or_dash (PyStr.of_Z z) = true.
Proof.
  unfold PyStr.of_Z. destruct z as [| p | p]; cbn [Z.to_int NilZero.string_of_int];
    try reflexivity.
  assert (N := DecimalPos.Unsigned.to_uint_nonnil p). unfold NilZero.string_of_uint.
  destruct (Pos.to_uint p); try contradiction; reflexivity.
Qed.

Lemma of_Z_key_chars z : Yaml.all_chars Yaml.key_char (PyStr.of_Z z) = true.
Proof.
  assert (D : forall d, Yaml.all_chars Yaml.key_char (NilZero.string_of_uint d) = true).
  { intros d. unfold NilZero.string_of_uint.
    assert (E := all_chars_impl _ Yaml.key_char _
                   (fun c H => digit_or_dash_key c
                                 (proj2 (orb_true_iff _ _) (or_introl H)))
                   (digits_all_digits d)).
    destruct d; try exact E; reflexivity. }
  unfold PyStr.of_Z. destruct z as [| p | p]; cbn [Z.to_int NilZero.string_of_int];
    apply D.
Qed.

Lemma of_Z_second z c s :
  PyStr.of_Z z = String c s -> PyStr.startswith s " " = false.
Proof.
  assert (D : forall d, PyStr.startswith (NilEmpty.string_of_uint d) " " = false)
    by (intros d; destruct d; reflexivity).
  unfold PyStr.of_Z. destruct z as [| p | p]; cbn [Z.to_int NilZero.string_of_int].
  - now intros [= <- <-].
  - unfold NilZero.string_of_uint.
    destruct (Pos.to_uint p); cbn [NilEmpty.string_of_uint]; intros [= <- <-];
      try apply D; reflexivity.
  - intros [= <- <-]. unfold NilZero.string_of_uint.
    destruct (Pos.to_uint p); try apply D; reflexivity.
Qed.

Ltac first_char c H :=
  destruct c as [[] [] [] [] [] [] [] []]; try discriminate H.

(** A text that begins with a digit or a dash is no word of the
    language, and one that begins with a letter or a dollar sign is no
    number. *)
Lemma number_is_no_word s :
  begins digit_or_dash s = true ->
  mem_string s Yaml.null_words = false
  /\ mem_string s Yaml.true_words = false
  /\ mem_string s Yaml.false_words = false
  /\ String.eqb s "{}" = false /\ String.eqb s "[]" = false
  /\ begins (Re.just "'") s = false
  /\ PyStr.startswith s " " = false.
Proof.
  destruct s as [| c s]; [discriminate |]. cbn [begins]. intros H.
  first_char c H; repeat split; reflexivity.
Qed.

Lemma plain_is_no_number s :
  begins letter_or_dollar s = true ->
  Yaml.integer s = None
  /\ String.eqb s "{}" = false /\ String.eqb s "[]" = false
  /\ begins (Re.just "'") s = false
  /\ PyStr.startswith s " " = false
  /\ PyStr.startswith s "- " = false.
Proof.
  destruct s as [| c s]; [discriminate |]. cbn [begins]. intros H.
  first_char c H; repeat split; reflexivity.
Qed.

Lemma plain_string_begins s : Yaml.plain_string s = true -> begins letter_or_dollar s = true.
Proof.
  destruct s as [| c s]; [discriminate |]. unfold Yaml.plain_string. cbn [begins].
  intros H. apply andb_prop in H. destruct H as (H & _).
  apply andb_prop in H. now destruct H as (H & _).
Qed.

Lemma plain_string_chars s :
  Yaml.plain_string s = true -> Yaml.all_chars Yaml.plain_char s = true.
Proof.
  destruct s as [| c s]; [discriminate |]. unfold Yaml.plain_string.
  intros H. apply andb_prop in H. destruct H as (H & _).
  apply andb_prop in H. now destruct H as (_ & H).
Qed.

Lemma parse_inline_plain s :
  String.eqb s "{}" = false -> String.eqb s "[]" = false ->
  begins (Re.just "'") s = false ->
  Yaml.parse_inline s = Yaml.resolve_plain s.
Proof.
  intros H1 H2 H3. unfold Yaml.parse_inline. rewrite H1, H2.
  destruct s as [| c s]; [reflexivity |]. cbn [begins] in H3.
  first_char c H3; reflexivity.
Qed.

Lemma parse_inline_quoted s :
  Yaml.all_chars Yaml.quoted_char s = true ->
  Yaml.parse_inline ("'" +++ s +++ "'") = Some (YStr s).
Proof.
  intros H. unfold Yaml.parse_inline.
  assert (E1 : String.eqb ("'" +++ s +++ "'") "{}" = false) by reflexivity.
  assert (E2 : String.eqb ("'" +++ s +++ "'") "[]" = false) by reflexivity.
  rewrite E1, E2. cbn [String.append].
  change (String "'" (s +++ "'")) with ("'" +++ s +++ "'").
  now rewrite (single_quoted_quote s H).
Qed.

Lemma quoted_text s :
  Yaml.all_chars tame s = true -> scalar_text ("'" +++ s +++ "'").
Proof.
  intros H. repeat split; try reflexivity; [| discriminate].
  cbn [String.append Yaml.all_chars]. rewrite all_chars_app, H. reflexivity.
Qed.

(** The words of the language, one by one. *)
Lemma word_is_quoted s :
  mem_string s (Yaml.null_words ++ Yaml.true_words ++ Yaml.false_words) = true ->
  forall out,
    Yaml.emit_string s = Some out ->
    out = "'" +++ s +++ "'"
    /\ Yaml.all_chars Yaml.quoted_char s = true
    /\ Yaml.all_chars tame s = true.
Proof.
  intros H. apply mem_string_in in H. cbn in H.
  repeat (destruct H as [<- | H];
          [intros out E; vm_compute in E;
           first [discriminate E | injection E as <-; repeat split; reflexivity] |]).
  destruct H.
Qed.

Lemma mem_string_app s l l' :
  mem_string s (l ++ l') = (mem_string s l || mem_string s l')%bool.
Proof. unfold mem_string. apply existsb_app. Qed.

(** What the serialiser writes for a string, the loader reads as that
    string. *)
Lemma emit_string_spec s out :
  Yaml.emit_string s = Some out ->
  scalar_text out /\ Yaml.parse_inline out = Some (YStr s)
  /\ (begins (Re.just "'") out = true
      \/ ((Yaml.all_chars Yaml.key_char out || Yaml.plain_string out)%bool = true
          /\ begins (Re.just "'") out = false)).
Proof.
  intros E.
  destruct (mem_string s (Yaml.null_words ++ Yaml.true_words ++ Yaml.false_words)) eqn:W.
  - destruct (word_is_quoted s W out E) as (-> & Q & T).
    split; [now apply quoted_text |]. split; [now apply parse_inline_quoted |].
    now left.
  - rewrite !mem_string_app in W. apply orb_false_elim in W. destruct W as (W1 & W).
    apply orb_false_elim in W. destruct W as (W2 & W3).
    unfold Yaml.emit_string, Yaml.resolve_plain in E. rewrite W1, W2, W3 in E.
    destruct (Yaml.plain_string s) eqn:P.
    + assert (B := plain_string_begins s P).
      destruct (plain_is_no_number s B) as (I & E1 & E2 & Q & S1 & S2).
      rewrite I in E. injection E as <-.
      split; [| split].
      * repeat split; try assumption.
        -- apply all_chars_impl with Yaml.plain_char; [exact plain_char_tame |].
           now apply plain_string_chars.
        -- intros ->. discriminate B.
      * rewrite parse_inline_plain by assumption.
        unfold Yaml.resolve_plain. now rewrite W1, W2, W3, I, P.
      * right. split; [| exact Q]. rewrite P. apply orb_true_r.
    + destruct (Yaml.integer s) as [z |] eqn:I; [| discriminate E].
      destruct (Yaml.all_chars Yaml.key_char s) eqn:K; [| discriminate E].
      injection E as <-.
      split; [| split].
      * apply quoted_text. now apply all_chars_impl with Yaml.key_char; [exact key_char_tame |].
      * apply parse_inline_quoted.
        now apply all_chars_impl with Yaml.key_char; [exact key_char_quoted |].
      * now left.
Qed.

Lemma word_text s :
  Yaml.all_chars Yaml.key_char s = true -> s <> "" ->
  PyStr.startswith s "- " = false ->
  scalar_text s /\ key_text s.
Proof.
  intros K N D. split.
  - repeat split; try assumption.
    + now apply all_chars_impl with Yaml.key_char; [exact key_char_tame |].
    + destruct s as [| c s]; [reflexivity |]. cbn [Yaml.all_chars] in K.
      apply andb_prop in K. destruct K as (K & _). first_char c K; reflexivity.
  - right. rewrite K. split; [reflexivity |].
    destruct s as [| c s]; [reflexivity |]. cbn [Yaml.all_chars] in K.
    apply andb_prop in K. destruct K as (K & _). first_char c K; reflexivity.
Qed.

(** What the serialiser writes for a scalar, the loader reads as that
    scalar. *)
Lemma emit_scalar_spec v out :
  Yaml.emit_scalar v = Some out ->
  is_scalar v = true /\ scalar_text out /\ Yaml.parse_inline out = Some v
  /\ (is_str v = true -> key_text out)
  /\ (Yaml.all_chars Yaml.key_char out = true -> is_str v = false -> key_text out).
Proof.
  destruct v as [| [] | z | f r | s | l | d]; cbn [Yaml.emit_scalar]; try discriminate.
  - intros [= <-]. split; [reflexivity |]. split; [now repeat split |].
    split; [reflexivity |]. split; [discriminate |]. intros _ _. now right.
  - intros [= <-]. split; [reflexivity |]. split; [now repeat split |].
    split; [reflexivity |]. split; [discriminate |]. intros _ _. now right.
  - intros [= <-]. split; [reflexivity |]. split; [now repeat split |].
    split; [reflexivity |]. split; [discriminate |]. intros _ _. now right.
  - intros [= <-]. split; [reflexivity |].
    assert (B := of_Z_begins z).
    destruct (number_is_no_word _ B) as (W1 & W2 & W3 & E1 & E2 & Q & S).
    assert (D : PyStr.startswith (PyStr.of_Z z) "- " = false).
    { destruct (PyStr.of_Z z) as [| c s] eqn:E; [reflexivity |].
      cbn [PyStr.startswith]. rewrite (of_Z_second z c s E).
      now destruct (Ascii.eqb "-" c). }
    assert (N : PyStr.of_Z z <> "").
    { intros E. rewrite E in B. discriminate B. }
    destruct (word_text _ (of_Z_key_chars z) N D) as (T & K).
    split; [exact T |]. split; [| split; [discriminate | now intros _ _]].
    rewrite parse_inline_plain by assumption.
    unfold Yaml.resolve_plain. now rewrite W1, W2, W3, integer_of_Z.
  - intros E. split; [reflexivity |].
    destruct (emit_string_spec s out E) as (T & P & K).
    split; [exact T |]. split; [exact P |]. split; [now intros _ | discriminate].
Qed.

Lemma scalar_text_is_no_collection v out :
  Yaml.emit_scalar v = Some out ->
  String.eqb out "{}" = false /\ String.eqb out "[]" = false.
Proof.
  intros E. destruct (emit_scalar_spec v out E) as (S & _ & P & _).
  split.
  - destruct (String.eqb_spec out "{}") as [-> | _]; [| reflexivity].
    cbn in P. injection P as <-. discriminate S.
  - destruct (String.eqb_spec out "[]") as [-> | _]; [| reflexivity].
    cbn in P. injection P as <-. discriminate S.
Qed.

Lemma parse_key_inline s :
  key_text s ->
  String.eqb s "{}" = false -> String.eqb s "[]" = false ->
  Yaml.parse_key s = Yaml.parse_inline s.
Proof.
  intros K E1 E2. unfold Yaml.parse_key, Yaml.parse_inline. rewrite E1, E2.
  destruct s as [| c s]; [destruct K as [K | (_ & K)]; [discriminate K | reflexivity] |].
  destruct K as [K | (K & Q)]; cbn [begins] in *.
  - first_char c K. reflexivity.
  - rewrite K. first_char c Q; reflexivity.
Qed.

(** What the serialiser writes for a key, the loader reads as that key. *)
Lemma emit_key_spec k out :
  Yaml.emit_key k = Some out ->
  is_scalar k = true /\ scalar_text out /\ Yaml.parse_key out = Some k.
Proof.
  unfold Yaml.emit_key. destruct (Yaml.emit_scalar k) as [s |] eqn:E; [| discriminate].
  destruct (emit_scalar_spec k s E) as (S & T & P & K1 & K2).
  destruct (scalar_text_is_no_collection k s E) as (E1 & E2).
  destruct (Yaml.all_chars Yaml.key_char s) eqn:A; cbn [orb].
  - intros [= <-]. split; [exact S |]. split; [exact T |].
    rewrite parse_key_inline; try assumption.
    destruct (is_str k) eqn:I; [now apply K1 | now apply K2].
  - destruct (is_str k) eqn:I; [| discriminate]. intros [= <-].
    split; [exact S |]. split; [exact T |].
    rewrite parse_key_inline; try assumption. now apply K1.
Qed.

(** *** Lines *)

Lemma split_entry_step c s key :
  Ascii.eqb c ":" = false ->
  Yaml.split_entry (String c s) key = Yaml.split_entry s (key +++ String c "").
Proof. intros H. first_char c H; reflexivity. Qed.

Lemma tame_no_colon c : tame c = true -> Ascii.eqb c ":" = false.
Proof. unfold tame. intros H. apply andb_prop in H. now apply negb_true_iff. Qed.

Lemma split_entry_none s : forall key,
  Yaml.all_chars tame s = true -> Yaml.split_entry s key = None.
Proof.
  induction s as [| c s IH]; intros key H; [reflexivity |].
  cbn [Yaml.all_chars] in H. apply andb_prop in H. destruct H as (C & H).
  rewrite split_entry_step by now apply tame_no_colon. now apply IH.
Qed.

Lemma split_entry_value s v : forall key,
  Yaml.all_chars tame s = true ->
  Yaml.split_entry (s +++ ": " +++ v) key = Some (key +++ s, v).
Proof.
  induction s as [| c s IH]; intros key H.
  - cbn [String.append Yaml.split_entry]. now rewrite append_nil_r.
  - cbn [Yaml.all_chars] in H. apply andb_prop in H. destruct H as (C & H).
    cbn [String.append]. rewrite split_entry_step by now apply tame_no_colon.
    rewrite (IH _ H). now rewrite append_assoc.
Qed.

Lemma split_entry_open s : forall key,
  Yaml.all_chars tame s = true ->
  Yaml.split_entry (s +++ ":") key = Some (key +++ s, "").
Proof.
  induction s as [| c s IH]; intros key H.
  - cbn [String.append Yaml.split_entry]. now rewrite append_nil_r.
  - cbn [Yaml.all_chars] in H. apply andb_prop in H. destruct H as (C & H).
    cbn [String.append]. rewrite split_entry_step by now apply tame_no_colon.
    rewrite (IH _ H). now rewrite append_assoc.
Qed.

Lemma key_is_no_dash s rest :
  scalar_text s -> PyStr.startswith (s +++ String ":" rest) "- " = false.
Proof.
  intros (_ & D & _ & N). destruct s as [| c s]; [contradiction |].
  cbn [String.append PyStr.startswith] in *.
  destruct (Ascii.eqb "-" c); [| reflexivity]. cbn [andb] in *.
  destruct s as [| c' s]; [reflexivity |]. cbn [String.append PyStr.startswith] in *.
  destruct (Ascii.eqb " " c'); [| reflexivity]. exfalso. destruct s; discriminate D.
Qed.

Lemma tokens_entry_inline f n key k s v :
  scalar_text key -> Yaml.parse_key key = Some k ->
  s <> "" -> Yaml.parse_inline s = Some v ->
  Yaml.tokens_of (S f) n (key +++ ": " +++ s) = Some [(n, Yaml.Entry k (Some v))].
Proof.
  intros T K N P. cbn [Yaml.tokens_of].
  change (key +++ ": " +++ s) with (key +++ String ":" (" " +++ s)) at 1.
  rewrite (key_is_no_dash key _ T).
  rewrite split_entry_value by apply T. cbn [String.append]. rewrite K.
  destruct (String.eqb_spec s "") as [-> | _]; [contradiction |]. now rewrite P.
Qed.

Lemma tokens_entry_block f n key k :
  scalar_text key -> Yaml.parse_key key = Some k ->
  Yaml.tokens_of (S f) n (key +++ ":") = Some [(n, Yaml.Entry k None)].
Proof.
  intros T K. cbn [Yaml.tokens_of]. rewrite (key_is_no_dash key "" T).
  rewrite split_entry_open by apply T. cbn [String.append]. now rewrite K.
Qed.

Lemma tokens_scalar f n s v :
  scalar_text s -> Yaml.parse_inline s = Some v ->
  Yaml.tokens_of (S f) n s = Some [(n, Yaml.Scalar v)].
Proof.
  intros (T & D & _) P. cbn [Yaml.tokens_of]. rewrite D.
  rewrite split_entry_none by exact T. now rewrite P.
Qed.

Lemma tokens_item f n c :
  Yaml.tokens_of (S f) n ("- " +++ c)
  = match Yaml.tokens_of f (n + 2) c with
    | Some [(_, Yaml.Scalar v)] => Some [(n, Yaml.Item (Some v))]
    | Some ts => Some ((n, Yaml.Item None) :: ts)
    | None => None
    end.
Proof.
  cbn [Yaml.tokens_of].
  assert (E : PyStr.startswith ("- " +++ c) "- " = true) by (destruct c; reflexivity).
  rewrite E. reflexivity.
Qed.

Lemma tokens_of_S f n s :
  Yaml.tokens_of (S f) n s
  = if PyStr.startswith s "- "
    then
      match Yaml.tokens_of f (n + 2) (Yaml.drop 2 s) with
      | Some [(_, Yaml.Scalar v)] => Some [(n, Yaml.Item (Some v))]
      | Some ts => Some ((n, Yaml.Item None) :: ts)
      | None => None
      end
    else
      match Yaml.split_entry s "" with
      | Some (k, v) =>
          match Yaml.parse_key k with
          | Some key =>
              if String.eqb v ""
              then Some [(n, Yaml.Entry key None)]
              else option_map (fun value => [(n, Yaml.Entry key (Some value))])
                     (Yaml.parse_inline v)
          | None => None
          end
      | None => option_map (fun value => [(n, Yaml.Scalar value)]) (Yaml.parse_inline s)
      end.
Proof. reflexivity. Qed.

Lemma tokens_of_more f : forall n s ts,
  Yaml.tokens_of f n s = Some ts -> Yaml.tokens_of (S f) n s = Some ts.
Proof.
  induction f as [| f IH]; intros n s ts H; [discriminate H |].
  rewrite tokens_of_S in H. rewrite (tokens_of_S (S f)).
  destruct (PyStr.startswith s "- "); [| exact H].
  destruct (Yaml.tokens_of f (n + 2) (Yaml.drop 2 s)) as [ts' |] eqn:E; [| discriminate H].
  now rewrite (IH _ _ _ E).
Qed.

Lemma tokens_of_enough f f' n s ts :
  Yaml.tokens_of f n s = Some ts -> f <= f' -> Yaml.tokens_of f' n s = Some ts.
Proof.
  intros H L. induction L as [| f' L IH]; [exact H | now apply tokens_of_more].
Qed.

Lemma indentation_spaces n c :
  PyStr.startswith c " " = false -> Yaml.indentation (Yaml.spaces n +++ c) = (n, c).
Proof.
  intros H. induction n as [| n IH].
  - cbn [Yaml.spaces String.append]. destruct c as [| x c]; [reflexivity |].
    cbn [PyStr.startswith] in H. apply andb_false_iff in H.
    destruct H as [H | H]; [| destruct c; discriminate H].
    destruct x as [[] [] [] [] [] [] [] []]; try reflexivity; discriminate H.
  - cbn [Yaml.spaces String.append Yaml.indentation]. now rewrite IH.
Qed.

Lemma drop_spaces n c : Yaml.drop n (Yaml.spaces n +++ c) = c.
Proof.
  induction n as [| n IH]; [now destruct c |]. cbn [Yaml.spaces String.append Yaml.drop].
  exact IH.
Qed.

(** *** From lines to tokens *)

Lemma pyval_induction (P : pyval -> Prop) :
  (forall v, is_scalar v = true -> P v) ->
  (forall l, Forall P l -> P (YList l)) ->
  (forall d, Forall (fun e => P (snd e)) d -> P (YDict d)) ->
  forall v, P v.
Proof.
  intros Hs Hl Hd.
  refine (fix IH (v : pyval) : P v :=
            match v with
            | YList l =>
                Hl l ((fix go (l : list pyval) : Forall P l :=
                         match l with
                         | [] => Forall_nil P
                         | x :: l' => Forall_cons x (IH x) (go l')
                         end) l)
            | YDict d =>
                Hd d ((fix go (d : list (pyval * pyval))
                         : Forall (fun e => P (snd e)) d :=
                         match d with
                         | [] => Forall_nil _
                         | (k, x) :: d' => Forall_cons (k, x) (IH x) (go d')
                         end) d)
            | _ => _
            end); now apply Hs.
Qed.

Lemma emit_dict n d : Yaml.emit n (YDict d) = emit_entries n d.
Proof.
  induction d as [| [k x] d IH]; [reflexivity |].
  cbn [emit_entries]. rewrite <- IH. reflexivity.
Qed.

Lemma emit_list n l : Yaml.emit n (YList l) = emit_items n l.
Proof.
  induction l as [| x l IH]; [reflexivity |].
  cbn [emit_items]. rewrite <- IH. reflexivity.
Qed.

Lemma tokens_dict n k x d :
  tokens n (YDict ((k, x) :: d))
  = match Yaml.layout_of x with
    | Yaml.Block =>
        (n, Yaml.Entry k None)
        :: tokens (if is_list x then n else n + 2) x ++ tokens n (YDict d)
    | _ => (n, Yaml.Entry k (Some x)) :: tokens n (YDict d)
    end.
Proof. reflexivity. Qed.

Lemma tokens_list n x l :
  tokens n (YList (x :: l))
  = match Yaml.layout_of x with
    | Yaml.Block => (n, Yaml.Item None) :: tokens (n + 2) x ++ tokens n (YList l)
    | _ => (n, Yaml.Item (Some x)) :: tokens n (YList l)
    end.
Proof. reflexivity. Qed.

Lemma tokenize_cons n c g ls ts :
  PyStr.startswith c " " = false -> c <> "" ->
  Yaml.tokens_of (S (String.length c)) n c = Some g ->
  Yaml.tokenize ls = Some ts ->
  Yaml.tokenize ((Yaml.spaces n +++ c) :: ls) = Some (g ++ ts).
Proof.
  intros S N G T. cbn [Yaml.tokenize]. rewrite (indentation_spaces n c S).
  destruct (String.eqb_spec c "") as [-> | _]; [contradiction |].
  now rewrite G, T.
Qed.

Lemma tokenize_app a : forall b ta tb,
  Yaml.tokenize a = Some ta -> Yaml.tokenize b = Some tb ->
  Yaml.tokenize (a ++ b) = Some (ta ++ tb).
Proof.
  induction a as [| l a IH]; intros b ta tb Ha Hb.
  - injection Ha as <-. exact Hb.
  - cbn [Yaml.tokenize app] in Ha |- *.
    destruct (Yaml.indentation l) as [n content].
    destruct (String.eqb content ""); [now apply IH |].
    destruct (Yaml.tokens_of (S (String.length content)) n content) as [g |];
      [| discriminate Ha].
    destruct (Yaml.tokenize a) as [ts |] eqn:E; [| discriminate Ha].
    injection Ha as <-. rewrite (IH b ts tb eq_refl Hb). now rewrite app_assoc.
Qed.

Lemma lines_read_tokenize n ls ts : lines_read n ls ts -> Yaml.tokenize ls = Some ts.
Proof.
  intros (c & rest & g & ts' & -> & S & N & G & _ & T & ->).
  now apply tokenize_cons.
Qed.

Lemma line_ok_app a b : line_ok (a +++ b) = (line_ok a && line_ok b)%bool.
Proof. apply all_chars_app. Qed.

Lemma line_ok_spaces n : line_ok (Yaml.spaces n) = true.
Proof. induction n as [| n IH]; [reflexivity |]. cbn [Yaml.spaces]. exact IH. Qed.

Lemma line_ok_text s : scalar_text s -> line_ok s = true.
Proof.
  intros (T & _). apply all_chars_impl with tame; [| exact T].
  intros c H. unfold tame in H. apply andb_prop in H. now destruct H.
Qed.

(** What stands on the line of a key or of a dash. *)
Lemma layout_inline x s :
  Yaml.layout_of x = Yaml.Inline s ->
  scalar_text s /\ Yaml.parse_inline s = Some x.
Proof.
  unfold Yaml.layout_of.
  destruct x as [| b | z | f r | t | [| y l] | [| e d]];
    try discriminate;
    try (intros [= <-]; split; [now repeat split | reflexivity]);
    destruct (Yaml.emit_scalar _) as [out |] eqn:E; try discriminate;
    intros [= <-]; now destruct (emit_scalar_spec _ _ E) as (_ & T & P & _).
Qed.

Lemma layout_block x :
  Yaml.layout_of x = Yaml.Block -> (exists y l, x = YList (y :: l)) \/ (exists e d, x = YDict (e :: d)).
Proof.
  unfold Yaml.layout_of.
  destruct x as [| b | z | f r | t | [| y l] | [| e d]]; try discriminate;
    try (destruct (Yaml.emit_scalar _); discriminate); eauto.
Qed.

Lemma line_ok_cons a s :
  line_ok (String a s) = (negb (Ascii.eqb a line_feed) && line_ok s)%bool.
Proof. reflexivity. Qed.

Ltac lines_fine :=
  rewrite ?line_ok_app, ?line_ok_cons, ?line_ok_spaces;
  repeat match goal with
         | H : scalar_text ?s |- _ => rewrite (line_ok_text s H); clear H
         end;
  reflexivity.

Lemma begins_no_blank key rest :
  key <> "" -> PyStr.startswith key " " = false ->
  PyStr.startswith (key +++ rest) " " = false.
Proof.
  intros N H. destruct key as [| a key]; [contradiction |].
  cbn [String.append PyStr.startswith] in *.
  destruct (Ascii.eqb " " a); [| reflexivity]. destruct key; discriminate H.
Qed.

Lemma append_not_empty key rest : key <> "" -> key +++ rest <> "".
Proof. destruct key; [contradiction | discriminate]. Qed.

Lemma entries_read n d :
  Forall (fun e => reads (snd e)) d ->
  forall ls,
    emit_entries n d = Some ls ->
    Forall (fun l => line_ok l = true) ls
    /\ Yaml.tokenize ls = Some (tokens n (YDict d))
    /\ (d <> [] -> lines_read n ls (tokens n (YDict d))).
Proof.
  induction d as [| [k x] d IH]; intros Hd ls E.
  - injection E as <-. split; [constructor |]. split; [reflexivity | now intros []].
  - inversion Hd as [| ? ? Hx Hd']; subst. cbn [snd] in Hx.
    cbn [emit_entries] in E.
    destruct (Yaml.emit_key k) as [key |] eqn:K; [| discriminate E].
    destruct (emit_entries n d) as [rest |] eqn:R; [| discriminate E].
    destruct (IH Hd' rest eq_refl) as (Ok_rest & T_rest & _).
    destruct (emit_key_spec k key K) as (_ & Tk & Pk).
    assert (Nk : key <> "") by apply Tk.
    assert (Sk : PyStr.startswith key " " = false) by apply Tk.
    rewrite tokens_dict.
    destruct (Yaml.layout_of x) as [s | |] eqn:L; [| | discriminate E].
    + (* the value stands on the line of the key *)
      injection E as <-. destruct (layout_inline x s L) as (Ts & Ps).
      assert (R' : lines_read n ((Yaml.spaces n +++ key +++ ": " +++ s) :: rest)
                     ((n, Yaml.Entry k (Some x)) :: tokens n (YDict d))).
      { exists (key +++ ": " +++ s), rest, [(n, Yaml.Entry k (Some x))], (tokens n (YDict d)).
        split; [reflexivity |]. split; [now apply begins_no_blank |].
        split; [now apply append_not_empty |].
        split; [apply tokens_entry_inline; try assumption; apply Ts |].
        split; [exact I |]. now split. }
      split; [| split; [now apply lines_read_tokenize with n | now intros _]].
      constructor; [| exact Ok_rest].
      lines_fine.
    + (* the value is a block under the key *)
      destruct (Yaml.emit (if is_list x then n else n + 2) x) as [lsx |] eqn:Ex;
        [| discriminate E].
      injection E as <-.
      destruct (Hx _ lsx Ex L) as (Ok_x & Rx).
      assert (R' : lines_read n ((Yaml.spaces n +++ key +++ ":") :: lsx ++ rest)
                     ((n, Yaml.Entry k None)
                      :: tokens (if is_list x then n else n + 2) x ++ tokens n (YDict d))).
      { exists (key +++ ":"), (lsx ++ rest), [(n, Yaml.Entry k None)],
          (tokens (if is_list x then n else n + 2) x ++ tokens n (YDict d)).
        split; [reflexivity |]. split; [now apply begins_no_blank |].
        split; [now apply append_not_empty |].
        split; [now apply tokens_entry_block |].
        split; [exact I |]. split; [| reflexivity].
        apply tokenize_app; [| exact T_rest]. now apply lines_read_tokenize in Rx. }
      split; [| split; [now apply lines_read_tokenize with n | now intros _]].
      constructor; [| now apply Forall_app].
      lines_fine.
Qed.

Lemma items_read n l :
  Forall reads l ->
  forall ls,
    emit_items n l = Some ls ->
    Forall (fun l => line_ok l = true) ls
    /\ Yaml.tokenize ls = Some (tokens n (YList l))
    /\ (l <> [] -> lines_read n ls (tokens n (YList l))).
Proof.
  induction l as [| x l IH]; intros Hl ls E.
  - injection E as <-. split; [constructor |]. split; [reflexivity | now intros []].
  - inversion Hl as [| ? ? Hx Hl']; subst.
    cbn [emit_items] in E.
    destruct (emit_items n l) as [rest |] eqn:R; [| discriminate E].
    destruct (IH Hl' rest eq_refl) as (Ok_rest & T_rest & _).
    rewrite tokens_list.
    destruct (Yaml.layout_of x) as [s | |] eqn:L; [| | discriminate E].
    + (* the item stands on the line of the dash *)
      injection E as <-. destruct (layout_inline x s L) as (Ts & Ps).
      assert (R' : lines_read n ((Yaml.spaces n +++ "- " +++ s) :: rest)
                     ((n, Yaml.Item (Some x)) :: tokens n (YList l))).
      { exists ("- " +++ s), rest, [(n, Yaml.Item (Some x))], (tokens n (YList l)).
        split; [reflexivity |]. split; [reflexivity |]. split; [discriminate |].
        split; [| split; [exact I | now split]].
        rewrite tokens_item. cbn [String.append String.length].
        now rewrite (tokens_scalar (S (String.length s)) (n + 2) s x Ts Ps). }
      split; [| split; [now apply lines_read_tokenize with n | now intros _]].
      constructor; [| exact Ok_rest].
      lines_fine.
    + (* the item is a block that begins on the line of the dash *)
      destruct (Yaml.emit (n + 2) x) as [lsx |] eqn:Ex; [| discriminate E].
      injection E as <-.
      destruct (Hx _ lsx Ex L) as (Ok_x & c & rest_x & g & ts' & -> & Sc & Nc & G & O & T & Et).
      inversion Ok_x as [| ? ? Ok_c Ok_rest_x]; subst.
      cbn [Yaml.dash]. rewrite drop_spaces.
      assert (R' : lines_read n (((Yaml.spaces n +++ "- " +++ c) :: rest_x) ++ rest)
                     ((n, Yaml.Item None) :: tokens (n + 2) x ++ tokens n (YList l))).
      { exists ("- " +++ c), (rest_x ++ rest), ((n, Yaml.Item None) :: g),
          (ts' ++ tokens n (YList l)).
        split; [reflexivity |]. split; [reflexivity |]. split; [discriminate |].
        split; [| split; [exact I | split]].
        - rewrite tokens_item. cbn [String.append String.length].
          rewrite (tokens_of_enough _ (S (S (String.length c))) _ _ _ G) by lia.
          destruct g as [| [m [key value | value | value]] g']; try reflexivity;
            destruct O.
        - now apply tokenize_app.
        - rewrite Et. cbn [app]. now rewrite app_assoc. }
      split; [| split; [now apply lines_read_tokenize with n | now intros _]].
      cbn [app]. constructor; [| now apply Forall_app].
      rewrite ?line_ok_app, ?line_ok_cons, ?line_ok_spaces in Ok_c |- *. exact Ok_c.
Qed.

Lemma emitted_lines_read v : reads v.
Proof.
  induction v as [v S | l IH | d IH] using pyval_induction; intros n ls E L.
  - destruct (layout_block v L) as [(y & l & ->) | (e & d & ->)]; discriminate S.
  - rewrite emit_list in E. destruct (items_read n l IH ls E) as (Ok & _ & R).
    split; [exact Ok |]. apply R.
    destruct (layout_block _ L) as [(y & l' & [= ->]) | (e & d & [=])]. discriminate.
  - rewrite emit_dict in E. destruct (entries_read n d IH ls E) as (Ok & _ & R).
    split; [exact Ok |]. apply R.
    destruct (layout_block _ L) as [(y & l' & [=]) | (e & d' & [= ->])]. discriminate.
Qed.

(** *** From tokens to the document *)

Lemma well_keyed_dict k x d :
  well_keyed (YDict ((k, x) :: d))
  = (negb (dict_mem k d) && well_keyed x && well_keyed (YDict d))%bool.
Proof. reflexivity. Qed.

Lemma well_keyed_list x l :
  well_keyed (YList (x :: l)) = (well_keyed x && well_keyed (YList l))%bool.
Proof. reflexivity. Qed.

Lemma tokens_dict_head n e d :
  exists k v ts, tokens n (YDict (e :: d)) = (n, Yaml.Entry k v) :: ts.
Proof. destruct e as [k x]. rewrite tokens_dict. destruct (Yaml.layout_of x); eauto. Qed.

Lemma tokens_list_head n x l :
  exists v ts, tokens n (YList (x :: l)) = (n, Yaml.Item v) :: ts.
Proof. rewrite tokens_list. destruct (Yaml.layout_of x); eauto. Qed.

Lemma node_entry fuel n k v ts :
  Yaml.node (S fuel) n ((n, Yaml.Entry k v) :: ts)
  = option_map (fun r => (YDict (fst r), snd r))
      (Yaml.mapping fuel n ((n, Yaml.Entry k v) :: ts)).
Proof. cbn [Yaml.node]. now rewrite Nat.eqb_refl. Qed.

Lemma node_item fuel n v ts :
  Yaml.node (S fuel) n ((n, Yaml.Item v) :: ts)
  = option_map (fun r => (YList (fst r), snd r))
      (Yaml.sequence fuel n ((n, Yaml.Item v) :: ts)).
Proof. cbn [Yaml.node]. now rewrite Nat.eqb_refl. Qed.

Lemma mapping_end fuel n rest :
  below n rest -> Yaml.mapping (S fuel) n rest = Some ([], rest).
Proof.
  destruct rest as [| [m t] rest]; [reflexivity |]. cbn [below Yaml.mapping].
  intros H. apply Nat.ltb_lt in H. now rewrite H.
Qed.

Lemma sequence_end fuel n rest :
  ends_sequence n rest -> Yaml.sequence (S fuel) n rest = Some ([], rest).
Proof.
  destruct rest as [| [m t] rest]; [reflexivity |]. cbn [Yaml.sequence].
  destruct (Nat.ltb m n) eqn:L; [reflexivity |]. apply Nat.ltb_ge in L.
  destruct t as [k v | v | v]; cbn [ends_sequence below]; intros H; try lia.
  assert (m = n) as -> by lia. now rewrite Nat.eqb_refl.
Qed.

Lemma mapping_inline fuel n k x rest :
  Yaml.closes n rest = true ->
  Yaml.mapping (S fuel) n ((n, Yaml.Entry k (Some x)) :: rest)
  = match Yaml.mapping fuel n rest with
    | Some (d, rest') => if dict_mem k d then None else Some ((k, x) :: d, rest')
    | None => None
    end.
Proof.
  intros C. cbn [Yaml.mapping]. now rewrite Nat.ltb_irrefl, Nat.eqb_refl, C.
Qed.

Lemma mapping_block fuel n m k t rest :
  (match t with Yaml.Item _ => n <= m | _ => n < m end) ->
  Yaml.mapping (S fuel) n ((n, Yaml.Entry k None) :: (m, t) :: rest)
  = match Yaml.node fuel m ((m, t) :: rest) with
    | Some (value, rest') =>
        match Yaml.mapping fuel n rest' with
        | Some (d, rest'') =>
            if dict_mem k d then None else Some ((k, value) :: d, rest'')
        | None => None
        end
    | None => None
    end.
Proof.
  intros H. cbn [Yaml.mapping]. rewrite Nat.ltb_irrefl, Nat.eqb_refl. cbn [negb].
  destruct t as [k' v | v | v].
  - apply Nat.ltb_lt in H. now rewrite H.
  - apply Nat.leb_le in H. now rewrite H.
  - apply Nat.ltb_lt in H. now rewrite H.
Qed.

Lemma sequence_inline fuel n x rest :
  Yaml.closes n rest = true ->
  Yaml.sequence (S fuel) n ((n, Yaml.Item (Some x)) :: rest)
  = option_map (fun r => (x :: fst r, snd r)) (Yaml.sequence fuel n rest).
Proof.
  intros C. cbn [Yaml.sequence]. now rewrite Nat.ltb_irrefl, Nat.eqb_refl, C.
Qed.

Lemma sequence_block fuel n m t rest :
  n < m ->
  Yaml.sequence (S fuel) n ((n, Yaml.Item None) :: (m, t) :: rest)
  = match Yaml.node fuel m ((m, t) :: rest) with
    | Some (value, rest') =>
        option_map (fun r => (value :: fst r, snd r)) (Yaml.sequence fuel n rest')
    | None => None
    end.
Proof.
  intros H. cbn [Yaml.sequence]. rewrite Nat.ltb_irrefl, Nat.eqb_refl. cbn [negb].
  apply Nat.ltb_lt in H. now rewrite H.
Qed.

(** After an entry of a mapping at [n] comes its next entry or the end. *)
Lemma closes_entries n d rest :
  below n rest -> Yaml.closes n (tokens n (YDict d) ++ rest) = true.
Proof.
  intros B. destruct d as [| e d].
  - cbn [tokens app]. destruct rest as [| [m t] rest]; [reflexivity |].
    cbn in B |- *. apply Nat.leb_le. lia.
  - destruct (tokens_dict_head n e d) as (k & v & ts & ->). cbn. apply Nat.leb_refl.
Qed.

Lemma closes_items n l rest :
  ends_sequence n rest -> Yaml.closes n (tokens n (YList l) ++ rest) = true.
Proof.
  intros B. destruct l as [| x l].
  - cbn [tokens app]. destruct rest as [| [m t] rest]; [reflexivity |].
    unfold Yaml.closes. cbn [Yaml.next_indent]. apply Nat.leb_le.
    destruct t; cbn in B; lia.
  - destruct (tokens_list_head n x l) as (v & ts & ->). cbn. apply Nat.leb_refl.
Qed.

Lemma ends_entries n d rest :
  below n rest -> ends_sequence n (tokens n (YDict d) ++ rest).
Proof.
  intros B. destruct d as [| e d].
  - cbn [tokens app]. destruct rest as [| [m t] rest]; [exact I |].
    destruct t; cbn in B |- *; lia.
  - destruct (tokens_dict_head n e d) as (k & v & ts & ->). cbn. lia.
Qed.

Lemma below_entries n d rest :
  below n rest -> below (n + 2) (tokens n (YDict d) ++ rest).
Proof.
  intros B. destruct d as [| e d].
  - cbn [tokens app]. destruct rest as [| [m t] rest]; [exact I |]. cbn in B |- *. lia.
  - destruct (tokens_dict_head n e d) as (k & v & ts & ->). cbn. lia.
Qed.

Lemma below_items n l rest :
  ends_sequence n rest -> below (n + 2) (tokens n (YList l) ++ rest).
Proof.
  intros B. destruct l as [| x l].
  - cbn [tokens app]. destruct rest as [| [m t] rest]; [exact I |].
    destruct t; cbn in B |- *; lia.
  - destruct (tokens_list_head n x l) as (v & ts & ->). cbn. lia.
Qed.

Lemma below_ends n rest : below n rest -> ends_sequence n rest.
Proof. destruct rest as [| [m t] rest]; [easy |]. destruct t; cbn; lia. Qed.

Lemma mapping_entries n d :
  Forall (fun e => parsed (snd e)) d ->
  well_keyed (YDict d) = true ->
  forall rest fuel,
    below n rest ->
    2 * length (tokens n (YDict d)) + 1 <= fuel ->
    Yaml.mapping fuel n (tokens n (YDict d) ++ rest) = Some (d, rest).
Proof.
  induction d as [| [k x] d IH]; intros Hd W rest fuel B F.
  - destruct fuel as [| fuel]; [lia |]. now apply mapping_end.
  - inversion Hd as [| ? ? Hx Hd']; subst. cbn [snd] in Hx.
    rewrite well_keyed_dict in W.
    apply andb_prop in W as [W Wd]. apply andb_prop in W as [Wk Wx].
    apply negb_true_iff in Wk.
    rewrite tokens_dict in F |- *.
    assert (Inl : forall fuel',
               2 * length (tokens n (YDict d)) + 1 <= fuel' ->
               Yaml.mapping (S fuel') n
                 (((n, Yaml.Entry k (Some x)) :: tokens n (YDict d)) ++ rest)
               = Some ((k, x) :: d, rest)).
    { intros fuel' F'. cbn [app]. rewrite mapping_inline by now apply closes_entries.
      rewrite (IH Hd' Wd rest fuel' B F'). now rewrite Wk. }
    destruct (Yaml.layout_of x) eqn:L.
    + destruct fuel as [| fuel]; [lia |]. apply Inl. cbn [length] in F. lia.
    + cbn [length] in F. rewrite length_app in F.
      destruct fuel as [| fuel]; [lia |].
      cbn [app]. rewrite <- app_assoc.
      destruct (layout_block x L) as [(y & l & ->) | (e & d2 & ->)]; cbn [is_list] in *.
      * destruct (tokens_list_head n y l) as (v & ts & E).
        rewrite E. cbn [app]. rewrite mapping_block by lia.
        change ((n, Yaml.Item v) :: ts ++ tokens n (YDict d) ++ rest)
          with (((n, Yaml.Item v) :: ts) ++ tokens n (YDict d) ++ rest).
        rewrite <- E.
        rewrite (Hx Wx n (tokens n (YDict d) ++ rest) fuel L) by
          (try lia; now apply ends_entries).
        rewrite (IH Hd' Wd rest fuel B) by lia. now rewrite Wk.
      * destruct (tokens_dict_head (n + 2) e d2) as (k2 & v & ts & E).
        rewrite E. cbn [app]. rewrite mapping_block by lia.
        change ((n + 2, Yaml.Entry k2 v) :: ts ++ tokens n (YDict d) ++ rest)
          with (((n + 2, Yaml.Entry k2 v) :: ts) ++ tokens n (YDict d) ++ rest).
        rewrite <- E.
        rewrite (Hx Wx (n + 2) (tokens n (YDict d) ++ rest) fuel L) by
          (try lia; now apply below_entries).
        rewrite (IH Hd' Wd rest fuel B) by lia. now rewrite Wk.
    + destruct fuel as [| fuel]; [lia |]. apply Inl. cbn [length] in F. lia.
Qed.

Lemma sequence_items n l :
  Forall parsed l ->
  well_keyed (YList l) = true ->
  forall rest fuel,
    ends_sequence n rest ->
    2 * length (tokens n (YList l)) + 1 <= fuel ->
    Yaml.sequence fuel n (tokens n (YList l) ++ rest) = Some (l, rest).
Proof.
  induction l as [| x l IH]; intros Hl W rest fuel B F.
  - destruct fuel as [| fuel]; [lia |]. now apply sequence_end.
  - inversion Hl as [| ? ? Hx Hl']; subst.
    rewrite well_keyed_list in W. apply andb_prop in W as [Wx Wl].
    rewrite tokens_list in F |- *.
    assert (Inl : forall fuel',
               2 * length (tokens n (YList l)) + 1 <= fuel' ->
               Yaml.sequence (S fuel') n
                 (((n, Yaml.Item (Some x)) :: tokens n (YList l)) ++ rest)
               = Some (x :: l, rest)).
    { intros fuel' F'. cbn [app]. rewrite sequence_inline by now apply closes_items.
      now rewrite (IH Hl' Wl rest fuel' B F'). }
    destruct (Yaml.layout_of x) eqn:L.
    + destruct fuel as [| fuel]; [lia |]. apply Inl. cbn [length] in F. lia.
    + cbn [length] in F. rewrite length_app in F.
      destruct fuel as [| fuel]; [lia |].
      cbn [app]. rewrite <- app_assoc.
      assert (B2 : below (n + 2) (tokens n (YList l) ++ rest))
        by now apply below_items.
      destruct (layout_block x L) as [(y & l2 & ->) | (e & d2 & ->)].
      * destruct (tokens_list_head (n + 2) y l2) as (v & ts & E).
        rewrite E. cbn [app]. rewrite sequence_block by lia.
        change ((n + 2, Yaml.Item v) :: ts ++ tokens n (YList l) ++ rest)
          with (((n + 2, Yaml.Item v) :: ts) ++ tokens n (YList l) ++ rest).
        rewrite <- E.
        rewrite (Hx Wx (n + 2) (tokens n (YList l) ++ rest) fuel L) by
          (try lia; now apply below_ends).
        now rewrite (IH Hl' Wl rest fuel B) by lia.
      * destruct (tokens_dict_head (n + 2) e d2) as (k2 & v & ts & E).
        rewrite E. cbn [app]. rewrite sequence_block by lia.
        change ((n + 2, Yaml.Entry k2 v) :: ts ++ tokens n (YList l) ++ rest)
          with (((n + 2, Yaml.Entry k2 v) :: ts) ++ tokens n (YList l) ++ rest).
        rewrite <- E.
        rewrite (Hx Wx (n + 2) (tokens n (YList l) ++ rest) fuel L) by
          (try lia; exact B2).
        now rewrite (IH Hl' Wl rest fuel B) by lia.
    + destruct fuel as [| fuel]; [lia |]. apply Inl. cbn [length] in F. lia.
Qed.

Lemma tokens_parsed v : parsed v.
Proof.
  induction v as [v S | l IH | d IH] using pyval_induction;
    intros W n rest fuel L F B.
  - destruct (layout_block v L) as [(y & l & ->) | (e & d & ->)]; discriminate S.
  - destruct (layout_block _ L) as [(y & l' & [= ->]) | (e & d & [=])].
    destruct fuel as [| fuel]; [lia |].
    destruct (tokens_list_head n y l') as (v & ts & E).
    rewrite E. cbn [app]. rewrite node_item.
    change ((n, Yaml.Item v) :: ts ++ rest) with (((n, Yaml.Item v) :: ts) ++ rest).
    rewrite <- E. now rewrite (sequence_items n _ IH W rest fuel B) by lia.
  - destruct (layout_block _ L) as [(y & l' & [=]) | (e & d' & [= ->])].
    destruct fuel as [| fuel]; [lia |].
    destruct (tokens_dict_head n e d') as (k & v & ts & E).
    rewrite E. cbn [app]. rewrite node_entry.
    change ((n, Yaml.Entry k v) :: ts ++ rest) with (((n, Yaml.Entry k v) :: ts) ++ rest).
    rewrite <- E. now rewrite (mapping_entries n _ IH W rest fuel B) by lia.
Qed.

(** *** What the loader returns *)

Lemma resolve_plain_flat s v : Yaml.resolve_plain s = Some v -> well_keyed v = true.
Proof.
  unfold Yaml.resolve_plain.
  destruct (mem_string s Yaml.null_words); [now intros [= <-] |].
  destruct (mem_string s Yaml.true_words); [now intros [= <-] |].
  destruct (mem_string s Yaml.false_words); [now intros [= <-] |].
  destruct (Yaml.integer s); [now intros [= <-] |].
  destruct (Yaml.plain_string s); [now intros [= <-] | discriminate].
Qed.

Lemma parse_inline_flat s v : Yaml.parse_inline s = Some v -> well_keyed v = true.
Proof.
  unfold Yaml.parse_inline.
  destruct (String.eqb s "{}"); [now intros [= <-] |].
  destruct (String.eqb s "[]"); [now intros [= <-] |].
  assert (Q : option_map YStr (Yaml.single_quoted s) = Some v -> well_keyed v = true).
  { destruct (Yaml.single_quoted s); [now intros [= <-] | discriminate]. }
  destruct s as [| c s']; [apply resolve_plain_flat |].
  destruct c as [[] [] [] [] [] [] [] []]; first [exact Q | apply resolve_plain_flat].
Qed.

Lemma tokens_of_flat f : forall n s ts,
  Yaml.tokens_of f n s = Some ts -> tokens_flat ts.
Proof.
  induction f as [| f IH]; intros n s ts H; [discriminate H |].
  rewrite tokens_of_S in H.
  destruct (PyStr.startswith s "- ").
  - destruct (Yaml.tokens_of f (n + 2) (Yaml.drop 2 s)) as [ts' |] eqn:E;
      [| discriminate H].
    apply IH in E.
    destruct ts' as [| [m [k v | v | v]] [| p ts']]; injection H as <-;
      try (constructor; [exact I | exact E]).
    constructor; [| constructor]. inversion E; subst. assumption.
  - destruct (Yaml.split_entry s "") as [[k v] |].
    + destruct (Yaml.parse_key k) as [key |]; [| discriminate H].
      destruct (String.eqb v "").
      * injection H as <-. now repeat constructor.
      * destruct (Yaml.parse_inline v) as [value |] eqn:P; [| discriminate H].
        injection H as <-. constructor; [| constructor].
        exact (parse_inline_flat _ _ P).
    + destruct (Yaml.parse_inline s) as [value |] eqn:P; [| discriminate H].
      injection H as <-. constructor; [| constructor].
      exact (parse_inline_flat _ _ P).
Qed.

Lemma tokenize_flat ls : forall ts, Yaml.tokenize ls = Some ts -> tokens_flat ts.
Proof.
  induction ls as [| l ls IH]; intros ts H.
  - injection H as <-. constructor.
  - cbn [Yaml.tokenize] in H. destruct (Yaml.indentation l) as [n content].
    destruct (String.eqb content ""); [now apply IH |].
    destruct (Yaml.tokens_of (S (String.length content)) n content) as [g |] eqn:G;
      [| discriminate H].
    destruct (Yaml.tokenize ls) as [ts' |]; [| discriminate H].
    injection H as <-. apply Forall_app. split; [| now apply IH].
    exact (tokens_of_flat _ _ _ _ G).
Qed.

Lemma node_S fuel n ts :
  Yaml.node (S fuel) n ts
  = match ts with
    | (m, Yaml.Entry _ _) :: _ =>
        if Nat.eqb m n
        then option_map (fun r => (YDict (fst r), snd r)) (Yaml.mapping fuel n ts)
        else None
    | (m, Yaml.Item _) :: _ =>
        if Nat.eqb m n
        then option_map (fun r => (YList (fst r), snd r)) (Yaml.sequence fuel n ts)
        else None
    | _ => None
    end.
Proof. reflexivity. Qed.

Lemma mapping_S fuel n ts :
  Yaml.mapping (S fuel) n ts
  = match ts with
    | [] => Some ([], [])
    | (m, t) :: rest =>
        if Nat.ltb m n then Some ([], ts)
        else if negb (Nat.eqb m n) then None
        else
          match t with
          | Yaml.Entry key (Some value) =>
              if Yaml.closes n rest
              then
                match Yaml.mapping fuel n rest with
                | Some (d, rest') =>
                    if dict_mem key d then None else Some ((key, value) :: d, rest')
                | None => None
                end
              else None
          | Yaml.Entry key None =>
              let nested :=
                match rest with
                | (m', Yaml.Item _) :: _ =>
                    if Nat.leb n m' then Yaml.node fuel m' rest else Some (YNone, rest)
                | (m', _) :: _ =>
                    if Nat.ltb n m' then Yaml.node fuel m' rest else Some (YNone, rest)
                | [] => Some (YNone, rest)
                end in
              match nested with
              | Some (value, rest') =>
                  match Yaml.mapping fuel n rest' with
                  | Some (d, rest'') =>
                      if dict_mem key d then None else Some ((key, value) :: d, rest'')
                  | None => None
                  end
              | None => None
              end
          | _ => None
          end
    end.
Proof. reflexivity. Qed.

Lemma sequence_S fuel n ts :
  Yaml.sequence (S fuel) n ts
  = match ts with
    | [] => Some ([], [])
    | (m, t) :: rest =>
        if Nat.ltb m n then Some ([], ts)
        else if negb (Nat.eqb m n) then None
        else
          match t with
          | Yaml.Item (Some value) =>
              if Yaml.closes n rest
              then option_map (fun r => (value :: fst r, snd r))
                     (Yaml.sequence fuel n rest)
              else None
          | Yaml.Item None =>
              match rest with
              | (m', _) :: _ =>
                  if Nat.ltb n m'
                  then
                    match Yaml.node fuel m' rest with
                    | Some (value, rest') =>
                        option_map (fun r => (value :: fst r, snd r))
                          (Yaml.sequence fuel n rest')
                    | None => None
                    end
                  else None
              | [] => None
              end
          | Yaml.Entry _ _ => Some ([], ts)
          | Yaml.Scalar _ => None
          end
    end.
Proof. reflexivity. Qed.

Lemma parser_flat fuel :
  (forall n ts v rest,
      tokens_flat ts -> Yaml.node fuel n ts = Some (v, rest) ->
      well_keyed v = true /\ tokens_flat rest)
  /\ (forall n ts d rest,
         tokens_flat ts -> Yaml.mapping fuel n ts = Some (d, rest) ->
         well_keyed (YDict d) = true /\ tokens_flat rest)
  /\ (forall n ts l rest,
         tokens_flat ts -> Yaml.sequence fuel n ts = Some (l, rest) ->
         well_keyed (YList l) = true /\ tokens_flat rest).
Proof.
  induction fuel as [| fuel (IHn & IHm & IHs)];
    [repeat split; discriminate |].
  split; [| split]; intros n ts.
  - intros v rest T H. rewrite node_S in H.
    destruct ts as [| [m [k x | x | x]] ts']; try discriminate H;
      destruct (Nat.eqb m n); try discriminate H.
    + destruct (Yaml.mapping fuel n ((m, Yaml.Entry k x) :: ts')) as [[d r] |] eqn:E;
        [| discriminate H].
      injection H as <- <-. exact (IHm _ _ _ _ T E).
    + destruct (Yaml.sequence fuel n ((m, Yaml.Item x) :: ts')) as [[l r] |] eqn:E;
        [| discriminate H].
      injection H as <- <-. exact (IHs _ _ _ _ T E).
  - intros d rest T H. rewrite mapping_S in H.
    destruct ts as [| [m t] ts']; [now injection H as <- <- |].
    destruct (Nat.ltb m n); [now injection H as <- <- |].
    destruct (negb (Nat.eqb m n)); [discriminate H |].
    inversion T as [| ? ? Tt T']; subst. cbn [snd] in Tt.
    assert (Step : forall key value r,
               well_keyed value = true -> tokens_flat r ->
               match Yaml.mapping fuel n r with
               | Some (d, rest') =>
                   if dict_mem key d then None else Some ((key, value) :: d, rest')
               | None => None
               end = Some (d, rest) ->
               well_keyed (YDict d) = true /\ tokens_flat rest).
    { intros key value r Wv Tr E.
      destruct (Yaml.mapping fuel n r) as [[d' r'] |] eqn:M; [| discriminate E].
      destruct (IHm _ _ _ _ Tr M) as [Wd Tr'].
      destruct (dict_mem key d') eqn:K; [discriminate E |].
      injection E as <- <-. split; [| exact Tr'].
      rewrite well_keyed_dict, K, Wv, Wd. reflexivity. }
    destruct t as [key [value |] | x | x]; try discriminate H.
    + destruct (Yaml.closes n ts'); [| discriminate H].
      exact (Step key value ts' Tt T' H).
    + cbv zeta in H.
      destruct (match ts' with
                | [] => Some (YNone, ts')
                | (m', Yaml.Item _) :: _ =>
                    if Nat.leb n m' then Yaml.node fuel m' ts' else Some (YNone, ts')
                | (m', _) :: _ =>
                    if Nat.ltb n m' then Yaml.node fuel m' ts' else Some (YNone, ts')
                end) as [[value r] |] eqn:N; [| discriminate H].
      assert (W : well_keyed value = true /\ tokens_flat r).
      { destruct ts' as [| [m' [k' x' | x' | x']] ts2];
          try (injection N as <- <-; now split);
          match type of N with
          | (if ?c then _ else _) = _ => destruct c
          end;
          try (injection N as <- <-; now split);
          exact (IHn _ _ _ _ T' N). }
      destruct W as [Wv Tr]. exact (Step key value r Wv Tr H).
  - intros l rest T H. rewrite sequence_S in H.
    destruct ts as [| [m t] ts']; [now injection H as <- <- |].
    destruct (Nat.ltb m n); [now injection H as <- <- |].
    destruct (negb (Nat.eqb m n)); [discriminate H |].
    inversion T as [| ? ? Tt T']; subst. cbn [snd] in Tt.
    assert (Step : forall value r,
               well_keyed value = true -> tokens_flat r ->
               option_map (fun r => (value :: fst r, snd r)) (Yaml.sequence fuel n r)
               = Some (l, rest) ->
               well_keyed (YList l) = true /\ tokens_flat rest).
    { intros value r Wv Tr E.
      destruct (Yaml.sequence fuel n r) as [[l' r'] |] eqn:M; [| discriminate E].
      destruct (IHs _ _ _ _ Tr M) as [Wl Tr'].
      injection E as <- <-. split; [| exact Tr'].
      rewrite well_keyed_list, Wv, Wl. reflexivity. }
    destruct t as [key value | [value |] | x]; try discriminate H.
    + now injection H as <- <-.
    + destruct (Yaml.closes n ts'); [| discriminate H].
      exact (Step value ts' Tt T' H).
    + destruct ts' as [| [m' t'] ts2]; [discriminate H |].
      destruct (Nat.ltb n m'); [| discriminate H].
      destruct (Yaml.node fuel m' ((m', t') :: ts2)) as [[value r] |] eqn:N;
        [| discriminate H].
      destruct (IHn _ _ _ _ T' N) as [Wv Tr]. exact (Step value r Wv Tr H).
Qed.

Lemma load_well_keyed s v : Yaml.load s = Some v -> well_keyed v = true.
Proof.
  unfold Yaml.load.
  destruct (Yaml.tokenize (Yaml.split_lines s "")) as [ts |] eqn:T; [| discriminate].
  apply tokenize_flat in T.
  destruct ts as [| [[| m] t] ts]; try discriminate; [now intros [= <-] |].
  assert (N : match Yaml.node (2 * S (length ts) + 2) 0 ((0, t) :: ts) with
              | Some (v, []) => Some v
              | _ => None
              end = Some v -> well_keyed v = true).
  { destruct (Yaml.node _ 0 ((0, t) :: ts)) as [[v' [| p r]] |] eqn:E; try discriminate.
    intros [= <-]. exact (proj1 (proj1 (parser_flat _) _ _ _ _ T E)). }
  destruct t as [k x | x | x]; try exact N.
  destruct ts as [| p ts]; [| exact N].
  intros [= <-]. inversion T; subst. assumption.
Qed.

(** *** The round trip *)

Lemma split_lines_line l : forall rest cur,
  line_ok l = true ->
  Yaml.split_lines (l +++ nl +++ rest) cur = (cur +++ l) :: Yaml.split_lines rest "".
Proof.
  induction l as [| c l IH]; intros rest cur H.
  - cbn. now rewrite append_nil_r.
  - rewrite line_ok_cons in H. apply andb_prop in H as [Hc Hl].
    cbn [String.append Yaml.split_lines].
    apply negb_true_iff in Hc. rewrite Hc.
    rewrite (IH rest _ Hl). now rewrite append_assoc.
Qed.

Lemma split_lines_unlines ls :
  Forall (fun l => line_ok l = true) ls ->
  Yaml.split_lines (Yaml.unlines ls) "" = ls ++ [""].
Proof.
  induction 1 as [| l ls Hl _ IH]; [reflexivity |].
  cbn [Yaml.unlines app]. rewrite (split_lines_line l _ "" Hl), IH. reflexivity.
Qed.

Lemma load_unlines v ls :
  well_keyed v = true -> Yaml.layout_of v = Yaml.Block ->
  Yaml.emit 0 v = Some ls -> Yaml.load (Yaml.unlines ls) = Some v.
Proof.
  intros W L E. destruct (emitted_lines_read v 0 ls E L) as [Ok R].
  apply lines_read_tokenize in R.
  unfold Yaml.load. rewrite (split_lines_unlines ls Ok).
  rewrite (tokenize_app ls [""] _ [] R eq_refl), List.app_nil_r.
  pose proof (tokens_parsed v W 0 []) as P. rewrite List.app_nil_r in P.
  assert (H : exists t ts, tokens 0 v = (0, t) :: ts
                           /\ match t with Yaml.Scalar _ => False | _ => True end).
  { destruct (layout_block v L) as [(y & l & ->) | (e & d & ->)].
    - destruct (tokens_list_head 0 y l) as (x & ts & ->). now exists (Yaml.Item x), ts.
    - destruct (tokens_dict_head 0 e d) as (k & x & ts & ->).
      now exists (Yaml.Entry k x), ts. }
  destruct H as (t & ts & Et & Ht). rewrite Et in P |- *.
  assert (N : Yaml.node (2 * S (length ts) + 2) 0 ((0, t) :: ts) = Some (v, [])).
  { apply P; [exact L | cbn [length]; lia |]. now destruct (is_list v). }
  destruct t as [k x | x | x]; [| | destruct Ht]; now rewrite N.
Qed.

Lemma dump_loads v out :
  well_keyed v = true -> Yaml.dump v = Ok out -> Yaml.safe_load out = Ok v.
Proof.
  intros W. unfold Yaml.dump, Yaml.safe_load.
  destruct (Yaml.dump_text v) as [s |] eqn:D; [| discriminate]. intros [= <-].
  assert (B : Yaml.layout_of v = Yaml.Block ->
              match Yaml.emit 0 v with
              | Some ls =>
                  if forallb (fun l => Nat.leb (String.length l) Yaml.width) ls
                  then Some (Yaml.unlines ls)
                  else None
              | None => None
              end = Some s -> Yaml.load s = Some v).
  { intros L H. destruct (Yaml.emit 0 v) as [ls |] eqn:E; [| discriminate H].
    destruct (forallb _ ls); [| discriminate H]. injection H as <-.
    now apply load_unlines. }
  unfold Yaml.dump_text in D.
  destruct v as [| b | z | f r | t | [| y l] | [| e d]]; try discriminate D.
  - injection D as <-. reflexivity.
  - now rewrite (B eq_refl D).
  - injection D as <-. reflexivity.
  - now rewrite (B eq_refl D).
Qed.


(** ** The patchers keep the keys of a mapping distinct *)

Lemma dict_mem_cons a k v d : dict_mem a ((k, v) :: d) = (py_eq a k || dict_mem a d)%bool.
Proof. unfold dict_mem. cbn [dict_find]. now destruct (py_eq a k). Qed.

Lemma dict_mem_set a k v d :
  dict_mem a (dict_set k v d)
  = (dict_mem a d || (negb (dict_mem k d) && py_eq a k))%bool.
Proof.
  induction d as [| [k' v'] d IH]; cbn [dict_set].
  - rewrite dict_mem_cons. unfold dict_mem. cbn [dict_find negb andb orb].
    now rewrite orb_false_r.
  - rewrite (dict_mem_cons k k'). destruct (py_eq k k') eqn:E; cbn [orb negb andb].
    + rewrite !dict_mem_cons. now rewrite orb_false_r.
    + rewrite !dict_mem_cons, IH. now rewrite orb_assoc.
Qed.

Lemma dict_mem_del a k d : dict_mem a (dict_del k d) = true -> dict_mem a d = true.
Proof.
  induction d as [| [k' v'] d IH]; cbn [dict_del]; [easy |].
  rewrite dict_mem_cons. destruct (py_eq k k').
  - intros ->. apply orb_true_r.
  - rewrite dict_mem_cons. destruct (py_eq a k'); [reflexivity |]. exact IH.
Qed.

Lemma well_keyed_set k v d :
  dict_mem k d = true \/ is_str k = true ->
  well_keyed (YDict d) = true -> well_keyed v = true ->
  well_keyed (YDict (dict_set k v d)) = true.
Proof.
  intros K W V. induction d as [| [k' v'] d IH]; cbn [dict_set].
  - rewrite well_keyed_dict, V. reflexivity.
  - rewrite well_keyed_dict in W.
    apply andb_prop in W as [W Wd]. apply andb_prop in W as [Wk Wv].
    destruct (py_eq k k') eqn:E.
    + rewrite well_keyed_dict, Wk, V, Wd. reflexivity.
    + rewrite well_keyed_dict, Wv. rewrite dict_mem_cons, E in K. cbn [orb] in K.
      rewrite IH by (exact K || exact Wd). rewrite dict_mem_set.
      apply negb_true_iff in Wk. rewrite Wk. cbn [orb].
      destruct K as [K | K]; [now rewrite K |].
      destruct k; try discriminate K.
      destruct (py_eq k' (YStr s)) eqn:E'; [| now rewrite andb_false_r].
      apply py_eq_str_r in E'. subst k'. now rewrite py_eq_str_refl in E.
Qed.

Lemma well_keyed_del k d :
  well_keyed (YDict d) = true -> well_keyed (YDict (dict_del k d)) = true.
Proof.
  induction d as [| [k' v'] d IH]; cbn [dict_del]; [easy |].
  rewrite well_keyed_dict. intros W.
  apply andb_prop in W as [W Wd]. apply andb_prop in W as [Wk Wv].
  destruct (py_eq k k'); [exact Wd |].
  rewrite well_keyed_dict, Wv, (IH Wd). apply negb_true_iff in Wk.
  destruct (dict_mem k' (dict_del k d)) eqn:M; [| reflexivity].
  apply dict_mem_del in M. congruence.
Qed.

Lemma well_keyed_find k d v :
  well_keyed (YDict d) = true -> dict_find k d = Some v -> well_keyed v = true.
Proof.
  induction d as [| [k' v'] d IH]; cbn [dict_find]; [discriminate |].
  rewrite well_keyed_dict. intros W.
  apply andb_prop in W as [W Wd]. apply andb_prop in W as [Wk Wv].
  destruct (py_eq k k'); [now intros [= <-] | now apply IH].
Qed.

Lemma well_keyed_items l :
  well_keyed (YList l) = true <-> Forall (fun v => well_keyed v = true) l.
Proof.
  induction l as [| x l IH]; [now split |].
  rewrite well_keyed_list, andb_true_iff, IH. split.
  - intros [X L]. now constructor.
  - intros H. inversion H. now split.
Qed.

Lemma well_keyed_nth l i v :
  well_keyed (YList l) = true -> nth_error l i = Some v -> well_keyed v = true.
Proof.
  intros W H. apply well_keyed_items in W. rewrite Forall_forall in W.
  apply W. eapply nth_error_In. exact H.
Qed.

Lemma well_keyed_list_set l : forall i v,
  well_keyed (YList l) = true -> well_keyed v = true ->
  well_keyed (YList (list_set i v l)) = true.
Proof.
  induction l as [| x l IH]; intros i v W V; [now destruct i |].
  rewrite well_keyed_list in W. apply andb_prop in W as [Wx Wl].
  destruct i as [| i]; cbn [list_set]; rewrite well_keyed_list.
  - now rewrite V, Wl.
  - now rewrite Wx, IH.
Qed.

Lemma well_keyed_filter p l :
  well_keyed (YList l) = true -> well_keyed (YList (filter p l)) = true.
Proof.
  rewrite !well_keyed_items, !Forall_forall. intros W x H.
  apply filter_In in H. now apply W.
Qed.

Lemma well_keyed_snoc l v :
  well_keyed (YList l) = true -> well_keyed v = true ->
  well_keyed (YList (l ++ [v])) = true.
Proof.
  rewrite !well_keyed_items. intros W V. apply Forall_app. split; [exact W |].
  now constructor.
Qed.

(** *** The operations of the patchers *)

Lemma getitem_keeps c k v :
  well_keyed c = true -> py_getitem c k = Ok v -> well_keyed v = true.
Proof.
  intros W. destruct c as [| b | z | f r | s | l | d]; try discriminate; cbn [py_getitem].
  - destruct (position k (String.length s)) as [i | e]; [| discriminate]. cbn [res_bind].
    destruct (nth_error (chars s) i) as [x |] eqn:E; [| discriminate].
    intros [= <-]. clear W. revert i E.
    induction s as [| a s IH]; intros [| i] E; try discriminate E.
    + now injection E as <-.
    + exact (IH i E).
  - destruct (position k (length l)) as [i | e]; [| discriminate]. cbn [res_bind].
    destruct (nth_error l i) as [x |] eqn:E; [| discriminate].
    intros [= <-]. exact (well_keyed_nth l i x W E).
  - destruct (hashable k); [| discriminate].
    destruct (dict_find k d) as [x |] eqn:E; [| discriminate].
    intros [= <-]. exact (well_keyed_find k d x W E).
Qed.

Lemma setitem_keeps c k v c' :
  is_str k = true \/ (exists x, py_getitem c k = Ok x) ->
  well_keyed c = true -> well_keyed v = true ->
  py_setitem c k v = Ok c' -> well_keyed c' = true.
Proof.
  intros K W V. destruct c as [| b | z | f r | s | l | d]; try discriminate; cbn [py_setitem].
  - destruct (position k (length l)) as [i | e]; [| discriminate]. cbn [res_bind].
    intros [= <-]. now apply well_keyed_list_set.
  - destruct (hashable k) eqn:H; [| discriminate]. intros [= <-].
    apply well_keyed_set; try assumption.
    destruct K as [K | (x & K)]; [now right | left].
    cbn [py_getitem] in K. rewrite H in K. unfold dict_mem.
    now destruct (dict_find k d).
Qed.

Lemma delitem_keeps c k c' :
  well_keyed c = true -> py_delitem c k = Ok c' -> well_keyed c' = true.
Proof.
  intros W. destruct c as [| b | z | f r | s | l | d]; try discriminate; cbn [py_delitem].
  - destruct (position k (length l)) as [i | e]; [| discriminate]. cbn [res_bind].
    intros [= <-]. apply well_keyed_items in W. apply well_keyed_items.
    revert i. induction W as [| x l X W IH]; intros [| i]; cbn [list_del];
      try constructor; auto.
  - destruct (hashable k); [| discriminate]. destruct (dict_mem k d); [| discriminate].
    intros [= <-]. now apply well_keyed_del.
Qed.

Lemma update_at_keeps c k f c' :
  keeps_keys f -> well_keyed c = true -> update_at c k f = Ok c' ->
  well_keyed c' = true.
Proof.
  intros F W. unfold update_at.
  destruct (py_getitem c k) as [v | e] eqn:G; [| discriminate]. cbn [res_bind].
  destruct (f v) as [v' | e] eqn:E; [| discriminate]. cbn [res_bind].
  apply setitem_keeps; [right; eauto | exact W |].
  exact (F v v' (getitem_keeps c k v W G) E).
Qed.

Lemma setitem_str_keeps k v :
  well_keyed v = true -> keeps_keys (fun c => py_setitem c (YStr k) v).
Proof. intros V c c' W. apply setitem_keeps; auto. Qed.

Lemma update_keeps k f : keeps_keys f -> keeps_keys (fun c => update_at c k f).
Proof. intros F c c' W. now apply update_at_keeps. Qed.

Lemma drop_dependency_keeps field dependency :
  keeps_keys (drop_dependency field dependency).
Proof.
  intros job job' W. unfold drop_dependency.
  destruct (py_in (YStr field) job) as [[|] | e]; cbn [res_bind];
    try discriminate; [| now intros [= <-]].
  destruct (py_getitem job (YStr field)) as [needs | e] eqn:G; [| discriminate].
  cbn [res_bind]. pose proof (getitem_keeps _ _ _ W G) as Wn.
  destruct needs as [| b | z | f r | s | l | d]; try (now intros [= <-]).
  - now apply delitem_keeps.
  - cbv zeta.
    destruct (py_setitem job (YStr field)
                (YList (filter (fun need => negb (py_eq need dependency)) l)))
      as [job1 | e] eqn:S; [| discriminate]. cbn [res_bind].
    assert (W1 : well_keyed job1 = true).
    { refine (setitem_keeps job (YStr field) _ job1 _ W _ S); [now left |].
      now apply well_keyed_filter. }
    destruct (negb (truthy _)); [now apply delitem_keeps | now intros [= <-]].
Qed.

Lemma github_patch_keeps f : keeps_keys (fun pipeline => github_patch pipeline f).
Proof.
  intros p p' W. unfold github_patch.
  destruct (type_is f "missing_jobs"); [now apply setitem_str_keeps |].
  destruct (type_is f "missing_triggers"); [now apply setitem_str_keeps |].
  destruct (type_is f "missing_steps").
  { cbv zeta. destruct (names_a_job p (finding_get "job" f)) as [[|] | e];
      cbn [res_bind]; try discriminate; [| now intros [= <-]].
    apply update_at_keeps; [| exact W].
    apply update_keeps. now apply setitem_str_keeps. }
  destruct (type_is f "invalid_needs").
  { cbv zeta.
    match goal with
    | |- (let? known := ?c in _) = _ -> _ => destruct c as [[|] | e]
    end; cbn [res_bind]; try discriminate; [| now intros [= <-]].
    apply update_at_keeps; [| exact W].
    apply update_keeps. apply drop_dependency_keeps. }
  destruct (type_is f "missing_runner"); [| now intros [= <-]].
  cbv zeta. destruct (names_a_job p (finding_get "job" f)) as [[|] | e];
    cbn [res_bind]; try discriminate; [| now intros [= <-]].
  apply update_at_keeps; [| exact W].
  apply update_keeps. now apply setitem_str_keeps.
Qed.

Lemma azure_patch_keeps f : keeps_keys (fun pipeline => azure_patch pipeline f).
Proof.
  intros p p' W. unfold azure_patch.
  destruct (type_is f "missing_triggers"); [now apply setitem_str_keeps |].
  destruct (type_is f "missing_pool"); [now apply setitem_str_keeps |].
  destruct (type_is f "missing_pipeline_structure").
  { destruct (py_in (YStr "stages") p) as [has_stages | e]; [| discriminate].
    cbn [res_bind].
    match goal with
    | |- (let? has_jobs := ?c in _) = _ -> _ => destruct c as [has_jobs | e]
    end; [| discriminate]. cbn [res_bind].
    match goal with
    | |- (let? has_steps := ?c in _) = _ -> _ => destruct c as [[|] | e]
    end; cbn [res_bind negb]; try discriminate; [now intros [= <-] |].
    now apply setitem_str_keeps. }
  destruct (type_is f "missing_steps").
  { cbv zeta. destruct (indexes p "jobs" (finding_get "job_index" f)) as [[|] | e];
      cbn [res_bind]; try discriminate; [| now intros [= <-]].
    apply update_at_keeps; [| exact W].
    apply update_keeps. now apply setitem_str_keeps. }
  destruct (type_is f "missing_jobs").
  { cbv zeta. destruct (indexes p "stages" (finding_get "stage_index" f)) as [[|] | e];
      cbn [res_bind]; try discriminate; [| now intros [= <-]].
    apply update_at_keeps; [| exact W].
    apply update_keeps. now apply setitem_str_keeps. }
  destruct (type_is f "invalid_depends_on"); [| now intros [= <-]].
  cbv zeta.
  match goal with
  | |- (let? known := ?c in _) = _ -> _ => destruct c as [[|] | e]
  end; cbn [res_bind]; try discriminate; [| now intros [= <-]].
  apply update_at_keeps; [| exact W].
  apply update_keeps. apply drop_dependency_keeps.
Qed.

Lemma gitlab_patch_keeps f :
  (type_is f "invalid_stage" = true -> well_keyed (finding_get "stage" f) = true) ->
  keeps_keys (fun pipeline => gitlab_patch pipeline f).
Proof.
  intros S p p' W. unfold gitlab_patch.
  destruct (type_is f "missing_stages"); [now apply setitem_str_keeps |].
  destruct (type_is f "missing_jobs"); [now apply setitem_str_keeps |].
  destruct (type_is f "missing_script").
  { cbv zeta. destruct (names_an_entry p (finding_get "job" f)) as [[|] | e];
      cbn [res_bind]; try discriminate; [| now intros [= <-]].
    apply update_at_keeps; [| exact W]. now apply setitem_str_keeps. }
  destruct (type_is f "invalid_stage"); [| now intros [= <-]].
  specialize (S eq_refl). cbv zeta.
  match goal with
  | |- (let? known := ?c in _) = _ -> _ => destruct c as [[|] | e]
  end; cbn [res_bind]; try discriminate; [| now intros [= <-]].
  destruct (py_in (YStr "stages") p) as [[|] | e]; cbn [res_bind negb];
    try discriminate; [| now apply setitem_str_keeps].
  destruct (py_getitem p (YStr "stages")) as [stages | e]; [| discriminate].
  cbn [res_bind].
  destruct (py_in (finding_get "stage" f) stages) as [[|] | e]; cbn [res_bind negb];
    try discriminate; [now intros [= <-] |].
  apply update_at_keeps; [| exact W].
  intros l l' Wl. unfold py_append.
  destruct l as [| b | z | x r | s | l | d]; try discriminate.
  intros [= <-]. now apply well_keyed_snoc.
Qed.

Lemma patch_all_keeps (patch : pyval -> finding -> res pyval) fs :
  Forall (fun f => keeps_keys (fun pipeline => patch pipeline f)) fs ->
  keeps_keys (patch_all patch fs).
Proof.
  induction 1 as [| f fs Hf _ IH]; intros p p' W; cbn [patch_all].
  - now intros [= <-].
  - destruct (patch p f) as [p1 | e] eqn:E; [| discriminate]. cbn [res_bind].
    apply IH. exact (Hf p p1 W E).
Qed.

Lemma safe_load_well_keyed text doc :
  Yaml.safe_load text = Ok doc -> well_keyed doc = true.
Proof.
  unfold Yaml.safe_load. destruct (Yaml.load text) as [v |] eqn:E; [| discriminate].
  intros [= <-]. exact (load_well_keyed _ _ E).
Qed.

(** What a patcher makes of a loaded document, the serialiser writes as a
    text that loads to it. *)
Lemma patched_loads (patch : pyval -> finding -> res pyval) text doc fs doc' out :
  Yaml.safe_load text = Ok doc ->
  Forall (fun f => keeps_keys (fun pipeline => patch pipeline f)) fs ->
  patch_all patch fs doc = Ok doc' ->
  Yaml.dump doc' = Ok out ->
  Yaml.safe_load out = Ok doc'.
Proof.
  intros L K P D. apply dump_loads; [| exact D].
  exact (patch_all_keeps patch fs K doc doc' (safe_load_well_keyed _ _ L) P).
Qed.

(** ** Removing a dependency *)




Section DependencyRemoval.

Variable safe_load : string -> res pyval.
Variable dump : pyval -> res string.



Lemma position_nat i n : (i < n)%nat -> position (YInt (Z.of_nat i)) n = Ok i.
Proof.
  intros H. unfold position. cbn [number_of].
  assert (E1 : (Z.of_nat i <? 0)%Z = false) by (apply Z.ltb_ge; lia).
  assert (E2 : (0 <=? Z.of_nat i)%Z = true) by (apply Z.leb_le; lia).
  assert (E3 : (Z.of_nat i <? Z.of_nat n)%Z = true) by (apply Z.ltb_lt; lia).
  cbv zeta. rewrite E1, E2, E3. cbv [andb]. f_equal. apply Nat2Z.id.
Qed.



End DependencyRemoval.






(** ** Patching with nothing to patch *)



(** * Further properties *)

(** ** Invariants of a report under construction *)

Lemma preserves_ret {A} I (a : A) : preserves I (ret a).
Proof. intros r H. exact H. Qed.

Lemma preserves_lift {A} I (x : res A) : preserves I (lift x).
Proof. intros r H. exact H. Qed.

Lemma preserves_bind {A B} I (c : M A) (k : A -> M B) :
  preserves I c -> (forall a, preserves I (k a)) -> preserves I (bind c k).
Proof.
  intros Hc Hk r H. unfold bind. specialize (Hc r H).
  destruct (c r) as [r' [a | e]]; simpl in *; [| exact Hc].
  now apply Hk.
Qed.

(** The continuation of an expression is run only on the value of the
    expression. *)
Lemma preserves_bind_lift {A B} I (e : res A) (k : A -> M B) :
  (forall v, e = Ok v -> preserves I (k v)) -> preserves I (bind (lift e) k).
Proof.
  intros Hk r H. unfold bind, lift. destruct e as [v | x]; simpl; [| exact H].
  exact (Hk v eq_refl r H).
Qed.

Lemma preserves_when I b (c : M unit) :
  (b = true -> preserves I c) -> preserves I (when b c).
Proof. destruct b; simpl; intros H; [now apply H | apply preserves_ret]. Qed.

Lemma preserves_for_each {A} I (l : list A) (body : A -> M unit) :
  (forall x, In x l -> preserves I (body x)) -> preserves I (for_each l body).
Proof.
  induction l as [| x l IH]; simpl; intros H.
  - apply preserves_ret.
  - apply preserves_bind; [apply H; now left | intros _; apply IH; auto].
Qed.

Lemma preserves_add_failure QF QW f :
  QF f -> preserves (findings_satisfy QF QW) (add_failure f).
Proof.
  intros Hf r [F W]. unfold add_failure, findings_satisfy, failures_or_empty,
    warnings_or_empty in *.
  destruct (failures r) as [l |] eqn:E; simpl; [| rewrite E; now split].
  split; [| exact W]. apply Forall_app. split; [exact F | now constructor].
Qed.

Lemma preserves_add_warning QF QW w :
  QW w -> preserves (findings_satisfy QF QW) (add_warning w).
Proof.
  intros Hw r [F W]. unfold add_warning, findings_satisfy, failures_or_empty,
    warnings_or_empty in *.
  destruct (warnings r) as [l |] eqn:E; simpl; [| rewrite E; now split].
  split; [exact F |]. apply Forall_app. split; [exact W | now constructor].
Qed.

Lemma preserves_set_error QF QW m : preserves (findings_satisfy QF QW) (set_error m).
Proof. intros r H. exact H. Qed.

Lemma preserves_scan_logs QF QW logs permission_fix third :
  (forall s, QW [("type", YStr "file_not_found");
                 ("message", YStr "Possível erro de arquivo não encontrado");
                 ("fix", YStr s)]) ->
  (forall s, QW [("type", YStr "permission_denied");
                 ("message", YStr "Possível erro de permissão negada");
                 ("fix", YStr s)]) ->
  QW (snd third) ->
  preserves (findings_satisfy QF QW) (scan_logs logs permission_fix third).
Proof.
  intros H1 H2 H3. unfold scan_logs. destruct logs as [logs |]; [| apply preserves_ret].
  apply preserves_when. intros _.
  apply preserves_bind; [apply preserves_when; intros _; now apply preserves_add_warning |].
  intros _.
  apply preserves_bind; [apply preserves_when; intros _; now apply preserves_add_warning |].
  intros _. apply preserves_when. intros _. now apply preserves_add_warning.
Qed.

(** What holds of the state a body ends in holds of the report. *)
Lemma guarded_findings QF QW (body : M unit) :
  preserves (findings_satisfy QF QW) body -> findings_satisfy QF QW (guarded body).
Proof.
  intros H. specialize (H fresh_report (conj (Forall_nil _) (Forall_nil _))).
  unfold findings_satisfy, failures_or_empty, warnings_or_empty in *.
  destruct (guarded_lists body) as [-> ->]. exact H.
Qed.

Ltac preserves_step :=
  first
    [ apply preserves_ret
    | apply preserves_lift
    | apply preserves_set_error
    | apply preserves_bind_lift; intros ? ?
    | apply preserves_when; intros ?
    | apply preserves_bind; [| intros ?]
    | apply preserves_for_each; intros ? ?
    | match goal with
      | |- preserves _ (let '(_, _) := ?x in _) => destruct x
      | |- preserves _ (if ?b then _ else _) => destruct b eqn:?
      | |- preserves _ (match ?x with _ => _ end) => destruct x eqn:?
      end ].

Ltac well_typed_now :=
  split; [eexists; split; [reflexivity | simpl; tauto] | split; reflexivity].

Ltac vocabulary :=
  repeat preserves_step;
  try (apply preserves_add_failure; well_typed_now);
  try (apply preserves_add_warning; well_typed_now);
  try (apply preserves_scan_logs; [intros s | intros s |]; well_typed_now).



Lemma github_vocabulary pipeline logs :
  preserves (findings_satisfy (well_typed (failure_types "github_actions"))
                              (well_typed (warning_types "github_actions")))
    (github_checks pipeline logs).
Proof.
  unfold github_checks, for_each_job, github_missing_steps, github_secrets, github_needs,
    github_runner.
  vocabulary.
Qed.

Lemma gitlab_vocabulary pipeline logs :
  preserves (findings_satisfy (well_typed (failure_types "gitlab_ci"))
                              (well_typed (warning_types "gitlab_ci")))
    (gitlab_checks pipeline logs).
Proof.
  unfold gitlab_checks, gitlab_missing_script, gitlab_variables, gitlab_stage.
  vocabulary.
Qed.

Lemma jenkins_vocabulary text logs :
  preserves (findings_satisfy (well_typed (failure_types "jenkins"))
                              (well_typed (warning_types "jenkins")))
    (jenkins_checks text logs).
Proof.
  unfold jenkins_checks. vocabulary.
Qed.

Lemma azure_vocabulary pipeline logs :
  preserves (findings_satisfy (well_typed (failure_types "azure_devops"))
                              (well_typed (warning_types "azure_devops")))
    (azure_checks pipeline logs).
Proof.
  unfold azure_checks, azure_missing_steps, azure_missing_jobs, azure_depends_on.
  vocabulary.
Qed.


Lemma kind_cases (kind : string) :
  kind = "github_actions" \/ kind = "gitlab_ci" \/ kind = "jenkins"
  \/ kind = "azure_devops" \/ ~ In kind supported_kinds.
Proof.
  destruct (String.eqb_spec kind "github_actions"); [now left |].
  destruct (String.eqb_spec kind "gitlab_ci"); [now right; left |].
  destruct (String.eqb_spec kind "jenkins"); [now right; right; left |].
  destruct (String.eqb_spec kind "azure_devops"); [now right; right; right; left |].
  right; right; right; right. simpl. intuition congruence.
Qed.

Lemma detect_unsupported (safe_load : string -> res pyval) text kind logs :
  ~ In kind supported_kinds ->
  detect_failures safe_load text kind logs
  = {| status := error;
       message := Some (Literal ("Tipo de pipeline não suportado: " +++ kind));
       failures := None; warnings := None |}.
Proof.
  intros H. unfold detect_failures.
  destruct (String.eqb_spec kind "github_actions"); [subst; exfalso; apply H; simpl; tauto |].
  destruct (String.eqb_spec kind "gitlab_ci"); [subst; exfalso; apply H; simpl; tauto |].
  destruct (String.eqb_spec kind "jenkins"); [subst; exfalso; apply H; simpl; tauto |].
  destruct (String.eqb_spec kind "azure_devops"); [subst; exfalso; apply H; simpl; tauto |].
  reflexivity.
Qed.

Lemma preserves_loaded I (safe_load : string -> res pyval) text (checks : pyval -> M unit) :
  (forall m, preserves I (set_error m)) ->
  (forall pipeline, preserves I (checks pipeline)) ->
  preserves I (pipeline <~ safe_load text ;;
               if negb (truthy pipeline) then set_error load_failed else checks pipeline).
Proof.
  intros Hs Hc. apply preserves_bind_lift. intros pipeline _.
  destruct (negb (truthy pipeline)); auto.
Qed.

(** X1.  In every report of [detect_failures], for every loader, text, kind
    and log, each failure has a [type] among the failure types of the kind
    and each warning a [type] among its warning types, and both carry a
    [message] and a [fix] that are strings.  In particular GitLab's
    [missing_stages] and Azure's [missing_triggers] and [missing_pool] are
    never failures. *)
Theorem findings_are_well_typed :
  forall (safe_load : string -> res pyval) text kind logs,
    findings_satisfy (well_typed (failure_types kind)) (well_typed (warning_types kind))
      (detect_failures safe_load text kind logs).
Proof.
  intros safe_load text kind logs.
  destruct (kind_cases kind) as [-> | [-> | [-> | [-> | H]]]].
  - rewrite detect_github. apply guarded_findings.
    apply (preserves_loaded _ safe_load text (fun p => github_checks p logs)).
    + intros m. apply preserves_set_error.
    + intros p. apply github_vocabulary.
  - rewrite detect_gitlab. apply guarded_findings.
    apply (preserves_loaded _ safe_load text (fun p => gitlab_checks p logs)).
    + intros m. apply preserves_set_error.
    + intros p. apply gitlab_vocabulary.
  - rewrite detect_jenkins. apply guarded_findings. apply jenkins_vocabulary.
  - rewrite detect_azure. apply guarded_findings.
    apply (preserves_loaded _ safe_load text (fun p => azure_checks p logs)).
    + intros m. apply preserves_set_error.
    + intros p. apply azure_vocabulary.
  - rewrite (detect_unsupported _ _ _ _ H). split; constructor.
Qed.

(** ** Status and message *)

Lemma success_add_failure f : preserves still_success (add_failure f).
Proof.
  intros r (S & Ms & P). destruct (add_failure_spec f r P) as (r' & E & G & S' & M' & _).
  rewrite E. simpl. split; [congruence | split; [congruence | apply G]].
Qed.

Lemma success_add_warning w : preserves still_success (add_warning w).
Proof.
  intros r (S & Ms & P). destruct (add_warning_spec w r P) as (r' & E & G & S' & M' & _).
  rewrite E. simpl. split; [congruence | split; [congruence | apply G]].
Qed.

Lemma success_scan_logs logs permission_fix third :
  preserves still_success (scan_logs logs permission_fix third).
Proof.
  unfold scan_logs. destruct logs; [| apply preserves_ret].
  repeat first [ apply preserves_when; intros _
               | apply preserves_bind; [| intros _]
               | apply success_add_warning ].
Qed.

Ltac steady :=
  repeat preserves_step;
  try apply success_add_failure;
  try apply success_add_warning;
  try apply success_scan_logs.

Lemma github_steady pipeline logs : preserves still_success (github_checks pipeline logs).
Proof.
  unfold github_checks, for_each_job, github_missing_steps, github_secrets, github_needs,
    github_runner.
  steady.
Qed.

Lemma gitlab_steady pipeline logs : preserves still_success (gitlab_checks pipeline logs).
Proof.
  unfold gitlab_checks, gitlab_missing_script, gitlab_variables, gitlab_stage. steady.
Qed.

Lemma jenkins_steady text logs : preserves still_success (jenkins_checks text logs).
Proof. unfold jenkins_checks. steady. Qed.

Lemma azure_steady pipeline logs : preserves still_success (azure_checks pipeline logs).
Proof.
  unfold azure_checks, azure_missing_steps, azure_missing_jobs, azure_depends_on. steady.
Qed.

(** The report of a structured detector, by cases on what happened. *)
Lemma structured_report_shape (safe_load : string -> res pyval) text
    (checks : pyval -> M unit) :
  (forall pipeline, preserves still_success (checks pipeline)) ->
  report_shape true
    (guarded (pipeline <~ safe_load text ;;
              if negb (truthy pipeline) then set_error load_failed else checks pipeline)).
Proof.
  intros Hc. unfold guarded, bind, lift, report_shape.
  destruct (safe_load text) as [pipeline | e].
  - destruct (negb (truthy pipeline)).
    + right. simpl. split; [reflexivity | split; [eauto |]]. left. split; [| reflexivity].
      apply present_fresh.
    + specialize (Hc pipeline fresh_report (conj eq_refl (conj eq_refl present_fresh))).
      destruct (checks pipeline fresh_report) as [r [[] | e]]; simpl in *.
      * left. exact Hc.
      * right. split; [reflexivity | split; [eauto |]]. left. split; [| reflexivity].
        destruct Hc as (_ & _ & (fs & ws & F & W)). now exists fs, ws.
  - right. simpl. split; [reflexivity | split; [eauto |]]. left. split; [| reflexivity].
    apply present_fresh.
Qed.

Lemma guarded_has_lists (body : M unit) :
  preserves still_success body ->
  present (guarded body) \/ status (guarded body) = error.
Proof.
  intros H. unfold guarded.
  specialize (H fresh_report (conj eq_refl (conj eq_refl present_fresh))).
  destruct (body fresh_report) as [r [[] | e]]; simpl in *; [| now right].
  left. apply H.
Qed.

Lemma report_has_lists (safe_load : string -> res pyval) text kind logs :
  present (detect_failures safe_load text kind logs)
  \/ status (detect_failures safe_load text kind logs) = error.
Proof.
  assert (L : forall checks : pyval -> M unit,
             (forall p, preserves still_success (checks p)) ->
             preserves still_success
               (pipeline <~ safe_load text ;;
                if negb (truthy pipeline) then set_error load_failed else checks pipeline)
             \/ status (guarded
                          (pipeline <~ safe_load text ;;
                           if negb (truthy pipeline) then set_error load_failed
                           else checks pipeline)) = error).
  { intros checks Hc. unfold guarded, bind, lift.
    destruct (safe_load text) as [p | e]; [| now right].
    destruct (negb (truthy p)); [now right |]. left. apply Hc. }
  destruct (kind_cases kind) as [-> | [-> | [-> | [-> | H]]]].
  - rewrite detect_github.
    destruct (L (fun p => github_checks p logs)) as [H | H];
      [intros p; apply github_steady | now apply guarded_has_lists | now right].
  - rewrite detect_gitlab.
    destruct (L (fun p => gitlab_checks p logs)) as [H | H];
      [intros p; apply gitlab_steady | now apply guarded_has_lists | now right].
  - rewrite detect_jenkins. apply guarded_has_lists. apply jenkins_steady.
  - rewrite detect_azure.
    destruct (L (fun p => azure_checks p logs)) as [H | H];
      [intros p; apply azure_steady | now apply guarded_has_lists | now right].
  - right. now rewrite (detect_unsupported _ _ _ _ H).
Qed.

(** X2.  Every report of [detect_failures] has one of two shapes.  It is a
    [success] without message and with both lists; or it is an [error] with
    a message, and then it has both lists when the kind is one of the four
    supported and neither list when it is not. *)
Theorem report_has_a_shape :
  forall (safe_load : string -> res pyval) text kind logs,
    report_shape (existsb (String.eqb kind) supported_kinds)
      (detect_failures safe_load text kind logs).
Proof.
  intros safe_load text kind logs.
  destruct (kind_cases kind) as [-> | [-> | [-> | [-> | H]]]].
  - rewrite detect_github.
    apply (structured_report_shape safe_load text (fun p => github_checks p logs)).
    intros p. apply github_steady.
  - rewrite detect_gitlab.
    apply (structured_report_shape safe_load text (fun p => gitlab_checks p logs)).
    intros p. apply gitlab_steady.
  - rewrite detect_jenkins. left.
    exact (guarded_total _ (total_jenkins_checks text logs)).
  - rewrite detect_azure.
    apply (structured_report_shape safe_load text (fun p => azure_checks p logs)).
    intros p. apply azure_steady.
  - rewrite (detect_unsupported _ _ _ _ H).
    assert (E : existsb (String.eqb kind) supported_kinds = false).
    { destruct (existsb (String.eqb kind) supported_kinds) eqn:E; [| reflexivity].
      apply existsb_exists in E. destruct E as (k & Hk & Ek).
      apply String.eqb_eq in Ek. subst k. contradiction. }
    rewrite E. right. simpl. split; [reflexivity | split; [eauto |]].
    right. repeat split; reflexivity.
Qed.

(** ** The log only adds warnings *)

Lemma then_scans_bind {A} (c : M A) (k1 k2 : A -> M unit) logs permission_fix third :
  (forall a, then_scans (k1 a) (k2 a) logs permission_fix third) ->
  then_scans (bind c k1) (bind c k2) logs permission_fix third.
Proof.
  intros H r. unfold bind. destruct (c r) as [r' [a | e]]; [| reflexivity].
  rewrite (H a r'). reflexivity.
Qed.

Lemma then_scans_here logs permission_fix third :
  then_scans (scan_logs None permission_fix third)
    (scan_logs (Some logs) permission_fix third) logs permission_fix third.
Proof. intros r. reflexivity. Qed.

Ltac log_last := repeat (apply then_scans_bind; intros ?); apply then_scans_here.

Lemma github_logs_last pipeline logs :
  then_scans (github_checks pipeline None) (github_checks pipeline (Some logs)) logs
    "Verificar permissões de arquivos ou adicionar 'chmod +x' para scripts"
    ("Error: Process completed with exit code",
     log_warning "exit_code_error" "Processo completou com código de erro"
       "Verificar comandos e scripts executados no pipeline").
Proof. unfold github_checks. log_last. Qed.

Lemma gitlab_logs_last pipeline logs :
  then_scans (gitlab_checks pipeline None) (gitlab_checks pipeline (Some logs)) logs
    "Verificar permissões de arquivos ou adicionar 'chmod +x' para scripts"
    ("Job failed",
     log_warning "job_failed" "Job falhou durante a execução"
       "Verificar comandos e scripts executados no pipeline").
Proof. unfold gitlab_checks. log_last. Qed.

Lemma jenkins_logs_last text logs :
  then_scans (jenkins_checks text None) (jenkins_checks text (Some logs)) logs
    ("Verificar permissões de arquivos ou adicionar 'sh "
     +++ String Re.dquote "chmod +x ..." +++ String Re.dquote "' para scripts")
    ("groovy.lang.MissingPropertyException",
     log_warning "missing_property" "Possível erro de propriedade não definida"
       "Verificar variáveis e propriedades usadas no pipeline").
Proof. unfold jenkins_checks. log_last. Qed.

Lemma azure_logs_last pipeline logs :
  then_scans (azure_checks pipeline None) (azure_checks pipeline (Some logs)) logs
    "Verificar permissões de arquivos ou adicionar 'chmod +x' para scripts"
    ("Task failed",
     log_warning "task_failed" "Task falhou durante a execução"
       "Verificar configurações das tasks no pipeline").
Proof. unfold azure_checks. log_last. Qed.

(** On a report that has both lists, the log checks return, and add the
    warnings of the checks whose text is in the log. *)
Lemma scan_logs_run logs permission_fix third r :
  present r ->
  scan_logs (Some logs) permission_fix third r
  = (with_warnings r
       (found_in_log logs
          [file_not_found_check; permission_denied_check permission_fix; third]),
     Ok tt).
Proof.
  intros (fs & ws & F & W). destruct r as [s m fo wo]. simpl in F, W. subst fo wo.
  unfold scan_logs, found_in_log, when, bind, add_warning, ret, with_warnings,
    warnings_or_empty.
  cbn [flat_map fst snd file_not_found_check permission_denied_check].
  destruct (String.eqb logs ""); cbn [negb]; [now rewrite app_nil_r |].
  destruct (PyStr.contains "No such file or directory" logs);
    destruct (PyStr.contains "Permission denied" logs);
    destruct (PyStr.contains (fst third) logs);
    cbn [status message failures warnings fst snd app];
    rewrite <- ?app_assoc, ?app_nil_r; reflexivity.
Qed.

Lemma guarded_with_logs (quiet loud : M unit) logs permission_fix third :
  then_scans quiet loud logs permission_fix third ->
  preserves still_success quiet ->
  guarded loud
  = with_logs (guarded quiet)
      (found_in_log logs
         [file_not_found_check; permission_denied_check permission_fix; third]).
Proof.
  intros H Hq. unfold guarded. rewrite (H fresh_report). unfold bind.
  specialize (Hq fresh_report (conj eq_refl (conj eq_refl present_fresh))).
  destruct (quiet fresh_report) as [r [[] | e]]; simpl in Hq.
  - destruct Hq as (S & Ms & P). unfold with_logs. rewrite S.
    now rewrite (scan_logs_run logs permission_fix third r P).
  - reflexivity.
Qed.

Lemma with_logs_of_error r ws : status r = error -> with_logs r ws = r.
Proof. unfold with_logs. now intros ->. Qed.

Lemma structured_with_logs (safe_load : string -> res pyval) text
    (checks : pyval -> option string -> M unit) logs permission_fix third :
  (forall pipeline,
      then_scans (checks pipeline None) (checks pipeline (Some logs))
        logs permission_fix third) ->
  (forall pipeline, preserves still_success (checks pipeline None)) ->
  let detect error_logs :=
    guarded (pipeline <~ safe_load text ;;
             if negb (truthy pipeline) then set_error load_failed
             else checks pipeline error_logs) in
  detect (Some logs)
  = with_logs (detect None)
      (found_in_log logs
         [file_not_found_check; permission_denied_check permission_fix; third]).
Proof.
  intros H Hq detect. unfold detect, bind, lift.
  destruct (safe_load text) as [pipeline | e].
  - destruct (negb (truthy pipeline)) eqn:T.
    + now rewrite with_logs_of_error.
    + exact (guarded_with_logs _ _ _ _ _ (H pipeline) (Hq pipeline)).
  - now rewrite with_logs_of_error.
Qed.

Lemma with_logs_failures r ws : failures (with_logs r ws) = failures r.
Proof. unfold with_logs. now destruct (status r). Qed.

(** The failures of a report do not depend on the log. *)
Lemma detect_with_logs (safe_load : string -> res pyval) text kind logs :
  failures (detect_failures safe_load text kind (Some logs))
  = failures (detect_failures safe_load text kind None).
Proof.
  destruct (kind_cases kind) as [-> | [-> | [-> | [-> | H]]]].
  - rewrite !detect_github. unfold _detect_github_actions_failures.
    rewrite (structured_with_logs safe_load text github_checks logs _ _
               (fun p => github_logs_last p logs) (fun p => github_steady p None)).
    apply with_logs_failures.
  - rewrite !detect_gitlab. unfold _detect_gitlab_ci_failures.
    rewrite (structured_with_logs safe_load text gitlab_checks logs _ _
               (fun p => gitlab_logs_last p logs) (fun p => gitlab_steady p None)).
    apply with_logs_failures.
  - rewrite !detect_jenkins. unfold _detect_jenkins_failures.
    rewrite (guarded_with_logs _ _ _ _ _ (jenkins_logs_last text logs)
               (jenkins_steady text None)).
    apply with_logs_failures.
  - rewrite !detect_azure. unfold _detect_azure_devops_failures.
    rewrite (structured_with_logs safe_load text azure_checks logs _ _
               (fun p => azure_logs_last p logs) (fun p => azure_steady p None)).
    apply with_logs_failures.
  - now rewrite !(detect_unsupported _ _ _ _ H).
Qed.

(** X3.  The log changes nothing in a report but its warnings, and what it
    adds is read off the log alone.  For every loader, text, kind and log,
    the report of [detect_failures] with the log is the report without it
    when that one is an error; and when it is a success, it is that report
    with, after its own warnings, the warning of each of the three log
    checks of the kind whose text is in the log, in the order of the
    checks (none for an empty log). *)
Theorem logs_only_add_warnings :
  forall (safe_load : string -> res pyval) text kind logs,
    detect_failures safe_load text kind (Some logs)
    = with_logs (detect_failures safe_load text kind None) (log_warnings kind logs).
Proof.
  intros safe_load text kind logs.
  destruct (kind_cases kind) as [-> | [-> | [-> | [-> | H]]]].
  - rewrite !detect_github. unfold _detect_github_actions_failures.
    exact (structured_with_logs safe_load text github_checks logs _ _
             (fun p => github_logs_last p logs) (fun p => github_steady p None)).
  - rewrite !detect_gitlab. unfold _detect_gitlab_ci_failures.
    exact (structured_with_logs safe_load text gitlab_checks logs _ _
             (fun p => gitlab_logs_last p logs) (fun p => gitlab_steady p None)).
  - rewrite !detect_jenkins. unfold _detect_jenkins_failures.
    exact (guarded_with_logs _ _ _ _ _ (jenkins_logs_last text logs)
             (jenkins_steady text None)).
  - rewrite !detect_azure. unfold _detect_azure_devops_failures.
    exact (structured_with_logs safe_load text azure_checks logs _ _
             (fun p => azure_logs_last p logs) (fun p => azure_steady p None)).
  - rewrite !(detect_unsupported _ _ _ _ H). now rewrite with_logs_of_error.
Qed.

(** ** Variables that are flagged *)

Lemma anything_goes (f : finding) : (fun _ : finding => True) f.
Proof. exact I. Qed.

Ltac not_a_variable :=
  let var := fresh "var" in
  let T := fresh "T" in
  intros var (T & _); simpl in T; discriminate T.

Ltac flagged_step :=
  repeat preserves_step;
  try (apply preserves_add_failure; exact I);
  try (apply preserves_scan_logs; [intros ? | intros ? |]; not_a_variable);
  try (apply preserves_add_warning; not_a_variable).

Lemma mem_string_names var l :
  existsb (py_eq (YStr var)) (map YStr l) = mem_string var l.
Proof.
  unfold mem_string. induction l as [| s l IH]; [reflexivity |].
  cbn [map existsb]. rewrite IH. reflexivity.
Qed.

Lemma set_in_str var names known :
  set_in (YStr var) names = Ok known -> existsb (py_eq (YStr var)) names = known.
Proof. unfold set_in. simpl. congruence. Qed.

Lemma gitlab_flags_justly pipeline logs names :
  (forall variables keys,
      py_getitem pipeline (YStr "variables") = Ok variables ->
      py_keys variables = Ok keys -> keys = names) ->
  preserves (findings_satisfy (fun _ => True) (justly_flagged "gitlab_ci" names))
    (gitlab_checks pipeline logs).
Proof.
  intros Hn.
  unfold gitlab_checks, gitlab_missing_script, gitlab_variables, gitlab_stage.
  flagged_step.
  apply preserves_add_warning. intros var' (_ & V). simpl in V. injection V as <-.
  match goal with
  | Hg : py_getitem pipeline (YStr "variables") = Ok ?v, Hk : py_keys ?v = Ok ?k |- _ =>
      apply (Hn _ _ Hg) in Hk; subst k
  end.
  match goal with
  | Hs : set_in (YStr ?x) names = Ok ?known, Hb : (negb ?known && _)%bool = true |- _ =>
      apply set_in_str in Hs; apply andb_prop in Hb; destruct Hb as (Hk & Hp);
      apply negb_true_iff in Hk, Hp; subst known
  end.
  split; assumption.
Qed.

Lemma jenkins_flags_justly text logs :
  preserves (findings_satisfy (fun _ => True)
               (justly_flagged "jenkins" (map YStr (jenkins_defined_vars text))))
    (jenkins_checks text logs).
Proof.
  unfold jenkins_checks. flagged_step.
  apply preserves_add_warning. intros var' (_ & V). simpl in V. injection V as <-.
  match goal with
  | Hb : (_ && _ && _)%bool = true |- _ =>
      apply andb_prop in Hb; destruct Hb as (Hb & Hj);
      apply andb_prop in Hb; destruct Hb as (Hd & He);
      apply negb_true_iff in Hd, He, Hj
  end.
  split.
  - match goal with
    | |- predefined _ ?x = false =>
        change (predefined "jenkins" x)
          with (PyStr.startswith x "env." || mem_string x jenkins_builtins)%bool
    end.
    now rewrite He, Hj.
  - now rewrite mem_string_names.
Qed.

Lemma azure_flags_justly pipeline logs names :
  azure_defined_vars pipeline = Ok names \/ (forall l, azure_defined_vars pipeline <> Ok l) ->
  preserves (findings_satisfy (fun _ => True) (justly_flagged "azure_devops" names))
    (azure_checks pipeline logs).
Proof.
  intros Hn.
  unfold azure_checks, azure_missing_steps, azure_missing_jobs, azure_depends_on.
  flagged_step.
  apply preserves_add_warning. intros var' (_ & V). simpl in V. injection V as <-.
  match goal with
  | Hd : azure_defined_vars pipeline = Ok ?l |- _ =>
      destruct Hn as [Hn | Hn]; [| now destruct (Hn l)];
      rewrite Hn in Hd; injection Hd as <-
  end.
  match goal with
  | Hs : set_in (YStr ?x) names = Ok ?known, Hb : (_ && _ && _)%bool = true |- _ =>
      apply set_in_str in Hs;
      apply andb_prop in Hb; destruct Hb as (Hb & Hbuild);
      apply andb_prop in Hb; destruct Hb as (Hk & Hsys);
      apply negb_true_iff in Hk, Hsys, Hbuild; subst known
  end.
  split; [| assumption].
  match goal with
  | |- predefined _ ?x = false =>
      change (predefined "azure_devops" x)
        with (PyStr.startswith x "System." || PyStr.startswith x "Build.")%bool
  end.
  now rewrite Hsys, Hbuild.
Qed.

Lemma github_flags_nothing pipeline logs names :
  preserves (findings_satisfy (fun _ => True) (justly_flagged "github_actions" names))
    (github_checks pipeline logs).
Proof.
  unfold github_checks, for_each_job, github_missing_steps, github_secrets, github_needs,
    github_runner.
  flagged_step.
Qed.

Lemma loaded_findings QF QW (safe_load : string -> res pyval) text
    (checks : pyval -> M unit) :
  (forall pipeline, safe_load text = Ok pipeline ->
                    preserves (findings_satisfy QF QW) (checks pipeline)) ->
  findings_satisfy QF QW
    (guarded (pipeline <~ safe_load text ;;
              if negb (truthy pipeline) then set_error load_failed else checks pipeline)).
Proof.
  intros H. apply guarded_findings. apply preserves_bind_lift. intros pipeline E.
  destruct (negb (truthy pipeline)); [apply preserves_set_error | now apply H].
Qed.

Lemma azure_listed_vars_are items : forall defined_vars names,
  azure_listed_vars items defined_vars = Ok names ->
  names = defined_vars ++ flat_map entry_name items.
Proof.
  induction items as [| item items IH]; intros defined_vars names H.
  - cbn [azure_listed_vars] in H. injection H as <-. cbn [flat_map]. now rewrite app_nil_r.
  - cbn [azure_listed_vars flat_map] in H |- *.
    destruct item as [| | | | | | fields]; cbn [is_dict res_bind] in H;
      try (cbn [entry_name app]; now apply IH).
    cbn [py_in hashable res_bind entry_name] in H |- *. unfold dict_mem in H.
    destruct (dict_find (YStr "name") fields) as [name |] eqn:E.
    + cbn [py_getitem hashable] in H. rewrite E in H. cbn [res_bind] in H.
      unfold set_add in H. destruct (hashable name); [| discriminate H].
      cbn [res_bind] in H. apply IH in H. now rewrite <- app_assoc in H.
    + cbn [app]. now apply IH.
Qed.

(** What the detector of Azure DevOps pipelines takes as defined is what
    the document declares. *)
Lemma azure_defined_vars_declared pipeline names :
  azure_defined_vars pipeline = Ok names -> names = declared_variables pipeline.
Proof.
  unfold azure_defined_vars, declared_variables.
  destruct pipeline as [| | | | s | l | d]; cbn [py_in res_bind]; try discriminate.
  - destruct (PyStr.contains "variables" s); cbn [res_bind py_getitem].
    + unfold position. cbn [number_of]. discriminate.
    + now intros [= <-].
  - destruct (existsb (py_eq (YStr "variables")) l); cbn [res_bind py_getitem].
    + unfold position. cbn [number_of res_bind]. discriminate.
    + now intros [= <-].
  - cbn [hashable]. unfold dict_mem.
    destruct (dict_find (YStr "variables") d) as [variables |] eqn:E; cbn [res_bind].
    + cbn [py_getitem hashable]. rewrite E. cbn [res_bind].
      destruct variables as [| | | | | items | variables]; try now intros [= <-].
      intros H. now apply azure_listed_vars_are in H.
    + now intros [= <-].
Qed.

Lemma gitlab_keys_declared pipeline variables keys :
  py_getitem pipeline (YStr "variables") = Ok variables ->
  py_keys variables = Ok keys ->
  keys = declared_variables pipeline.
Proof.
  unfold declared_variables.
  destruct pipeline as [| | | | s | l | d]; cbn [py_getitem hashable]; try discriminate.
  destruct (dict_find (YStr "variables") d) as [v |]; [| discriminate].
  intros [= ->]. destruct variables; try discriminate. now intros [= <-].
Qed.

Lemma justly_flagged_anyway kind names w :
  justly_flagged kind names w -> justly_flagged kind [] w.
Proof. intros H var F. split; [now apply (H var) | reflexivity]. Qed.

(** X4.  A warning of type [undefined_variable] is never about a name the
    platform defines ([CI_...] in GitLab CI; [BUILD_NUMBER], [JOB_NAME],
    [WORKSPACE] and [env. ...] in a Jenkinsfile; [System. ...] and
    [Build. ...] in Azure DevOps), and in a GitLab CI or Azure DevOps file
    never about a name that the document declares under [variables]: a
    key of the mapping, or the name of an entry of the list. *)
Theorem flagged_variables_are_unknown :
  forall (safe_load : string -> res pyval) text kind logs,
    Forall (justly_flagged kind (declared_names safe_load text kind))
      (warnings_or_empty (detect_failures safe_load text kind logs)).
Proof.
  intros safe_load text kind logs.
  apply (proj2 (A := Forall (fun _ => True)
                        (failures_or_empty (detect_failures safe_load text kind logs)))).
  change (findings_satisfy (fun _ => True)
            (justly_flagged kind (declared_names safe_load text kind))
            (detect_failures safe_load text kind logs)).
  destruct (kind_cases kind) as [-> | [-> | [-> | [-> | H]]]].
  - rewrite detect_github.
    apply (loaded_findings _ _ safe_load text (fun p => github_checks p logs)).
    intros p _. apply github_flags_nothing.
  - rewrite detect_gitlab.
    apply (loaded_findings _ _ safe_load text (fun p => gitlab_checks p logs)).
    intros p E. apply gitlab_flags_justly. intros variables keys G K.
    unfold declared_names. cbn [String.eqb Ascii.eqb Bool.eqb]. rewrite E.
    exact (gitlab_keys_declared p variables keys G K).
  - rewrite detect_jenkins.
    destruct (guarded_findings _ _ _ (jenkins_flags_justly text logs)) as (F & W).
    split; [exact F |].
    eapply Forall_impl; [| exact W]. intros w. apply justly_flagged_anyway.
  - rewrite detect_azure.
    apply (loaded_findings _ _ safe_load text (fun p => azure_checks p logs)).
    intros p E. apply azure_flags_justly.
    unfold declared_names. cbn [String.eqb Ascii.eqb Bool.eqb]. rewrite E.
    destruct (azure_defined_vars p) as [l | e] eqn:D; [left | right; discriminate].
    now rewrite (azure_defined_vars_declared p l D).
  - rewrite (detect_unsupported _ _ _ _ H). split; constructor.
Qed.

(** ** Jenkins: patching what was detected *)

Ltac patchable_now :=
  let text := fresh "text" in
  intros text; unfold jenkins_patch, type_is; simpl;
  repeat match goal with
         | |- context [if ?b then _ else _] => destruct b
         end;
  eexists; reflexivity.

Lemma jenkins_findings_patchable text logs :
  preserves (findings_satisfy jenkins_patchable (fun _ => True)) (jenkins_checks text logs).
Proof.
  unfold jenkins_checks.
  repeat preserves_step;
    try (apply preserves_add_warning; exact I);
    try (apply preserves_scan_logs; [intros ? | intros ? |]; exact I);
    apply preserves_add_failure; patchable_now.
Qed.

Lemma patch_all_patchable fs :
  Forall jenkins_patchable fs ->
  forall text, exists text', patch_all jenkins_patch fs text = Ok text'.
Proof.
  induction 1 as [| f fs Hf _ IH]; intros text; simpl.
  - now exists text.
  - destruct (Hf text) as (text1 & ->). simpl. apply IH.
Qed.

(** X5.  Patching a Jenkinsfile with the report that [detect_failures] made
    of it always gives a text: no finding of that report makes the patcher
    fail. *)
Theorem jenkins_fix_of_detected_returns :
  forall (safe_load : string -> res pyval) (dump : pyval -> res string) text logs,
    exists fixed,
      fix_failures safe_load dump text "jenkins"
        (detect_failures safe_load text "jenkins" logs) = Some fixed.
Proof.
  intros safe_load dump text logs.
  rewrite fix_jenkins, detect_jenkins. unfold _fix_jenkins_failures.
  assert (H : findings_satisfy jenkins_patchable (fun _ => True)
                (_detect_jenkins_failures text logs)).
  { apply guarded_findings. apply jenkins_findings_patchable. }
  destruct (patch_all_patchable _ (proj1 H) text) as (fixed & ->).
  now exists fixed.
Qed.

(** ** The agent *)

Lemma given_some x s : CICDAgent.given x = Some s -> x = Some s /\ s <> "".
Proof.
  destruct x as [t |]; simpl; [| discriminate].
  destruct (String.eqb_spec t ""); [discriminate |].
  intros E. injection E as <-. now split.
Qed.

Lemma given_none x : CICDAgent.given x = None -> x = None \/ x = Some "".
Proof.
  destruct x as [t |]; simpl; [| now left].
  destruct (String.eqb_spec t ""); [subst; now right | discriminate].
Qed.

Lemma get_pipeline_type_supported read_file path kind :
  CICDAgent.get_pipeline_type read_file path = Some kind -> In kind supported_kinds.
Proof.
  unfold CICDAgent.get_pipeline_type.
  repeat match goal with
         | |- context [if ?b then _ else _] => destruct b
         | |- context [match read_file ?p with _ => _ end] => destruct (read_file p)
         end;
    intros E; try discriminate; injection E as <-; simpl; tauto.
Qed.

(** X6.  What the agent's [detect_failures] answers and saves.  Either it
    answers one of its own two error reports, which have no lists, and
    saves nothing; or the file has a type, which is one of the four
    supported kinds, and a content that is not empty, and the agent answers
    the detector's report of that content and asks for that same report to
    be saved beside the file, under the file's name followed by
    [.failures.json]. *)
Theorem agent_detects_and_saves :
  forall (read_file : string -> option string) (safe_load : string -> res pyval)
         pipeline_path error_logs_path,
    let answer := CICDAgent.detect_failures read_file safe_load pipeline_path error_logs_path in
    (exists text, answer = (CICDAgent.agent_error text pipeline_path, []))
    \/ (exists kind content,
          In kind supported_kinds
          /\ read_file pipeline_path = Some content
          /\ content <> ""
          /\ fst answer
             = detect_failures safe_load content kind
                 match CICDAgent.given error_logs_path with
                 | Some logs_path => read_file logs_path
                 | None => None
                 end
          /\ snd answer
             = [SaveJson (CICDAgent.beside pipeline_path ".failures.json") (fst answer)]).
Proof.
  intros read_file safe_load pipeline_path error_logs_path answer. subst answer.
  unfold CICDAgent.detect_failures.
  destruct (CICDAgent.given (CICDAgent.get_pipeline_type read_file pipeline_path))
    as [kind |] eqn:K; [| left; eauto].
  destruct (CICDAgent.given (read_file pipeline_path)) as [content |] eqn:C; [| left; eauto].
  right. exists kind, content.
  apply given_some in K. destruct K as (K & _).
  apply given_some in C. destruct C as (C & N).
  split; [now apply get_pipeline_type_supported with read_file pipeline_path |].
  split; [exact C |]. split; [exact N |]. split; reflexivity.
Qed.

(** X7.  A workflow file that mentions neither [actions/] nor [github.] has
    no type.  For a file whose name ends in [.yml] or [.yaml], does not
    begin with [azure-pipelines] and is not [.gitlab-ci.yml], and whose
    content has neither text, the agent's [detect_failures] answers its
    error report and saves nothing, and its [fix_failures] answers [None]
    and writes nothing. *)
Theorem unmarked_workflow_has_no_type :
  forall (read_file : string -> option string) (load_json_file : string -> option report)
         (safe_load : string -> res pyval) (dump : pyval -> res string)
         pipeline_path content error_logs_path failures_path,
    let file_name := Path.basename pipeline_path in
    (Path.endswith file_name ".yml" || Path.endswith file_name ".yaml")%bool = true ->
    PyStr.startswith file_name "azure-pipelines" = false ->
    file_name <> ".gitlab-ci.yml" ->
    read_file pipeline_path = Some content ->
    PyStr.contains "actions/" content = false ->
    PyStr.contains "github." content = false ->
    CICDAgent.detect_failures read_file safe_load pipeline_path error_logs_path
    = (CICDAgent.agent_error "Não foi possível determinar o tipo de pipeline: "
         pipeline_path, [])
    /\ CICDAgent.fix_failures read_file load_json_file safe_load dump pipeline_path
         failures_path
       = (None, []).
Proof.
  intros read_file load_json_file safe_load dump pipeline_path content error_logs_path
    failures_path file_name Hext Haz Hgl Hread Ha Hg.
  assert (T : CICDAgent.get_pipeline_type read_file pipeline_path = None).
  { unfold CICDAgent.get_pipeline_type. fold file_name. rewrite Hext, Haz.
    destruct (String.eqb_spec file_name ".gitlab-ci.yml"); [contradiction |].
    rewrite Hread, Ha, Hg. now rewrite andb_false_r. }
  unfold CICDAgent.detect_failures, CICDAgent.fix_failures. rewrite T. now split.
Qed.

Lemma unmarked_workflow_has_no_type_witness :
  CICDAgent.detect_failures (fun _ => Some github_scenario) Yaml.safe_load
    ".github/workflows/ci.yml" None
  = (CICDAgent.agent_error "Não foi possível determinar o tipo de pipeline: "
       ".github/workflows/ci.yml", [])
  /\ CICDAgent.fix_failures (fun _ => Some github_scenario) (fun _ => None)
       Yaml.safe_load Yaml.dump ".github/workflows/ci.yml" None
     = (None, []).
Proof.
  apply (unmarked_workflow_has_no_type (fun _ => Some github_scenario) (fun _ => None)
           Yaml.safe_load Yaml.dump ".github/workflows/ci.yml" github_scenario None None);
    try reflexivity.
  discriminate.
Defined.

Lemma startswith_empty s : PyStr.startswith s "" = true.
Proof. now destruct s. Qed.

Lemma starts_with_slash c s :
  PyStr.startswith (String c s) "/" = Ascii.eqb "/" c.
Proof. cbn [PyStr.startswith]. rewrite startswith_empty. apply andb_true_r. Qed.

Lemma split_without_slash p :
  PyStr.contains "/" p = false -> Path.split p = ("", p).
Proof.
  induction p as [| c p IH]; [reflexivity |].
  intros H. cbn [PyStr.contains] in H. apply orb_false_elim in H. destruct H as (H1 & H2).
  cbn [Path.split]. rewrite (IH H2).
  rewrite starts_with_slash, Ascii.eqb_sym in H1. now rewrite H1.
Qed.

Lemma dirname_without_slash p : PyStr.contains "/" p = false -> Path.dirname p = "".
Proof. intros H. unfold Path.dirname. now rewrite (split_without_slash p H). Qed.

Lemma basename_without_slash p : PyStr.contains "/" p = false -> Path.basename p = p.
Proof. intros H. unfold Path.basename. now rewrite (split_without_slash p H). Qed.

Lemma contains_slash_append p s :
  PyStr.contains "/" p = false -> PyStr.contains "/" s = false ->
  PyStr.contains "/" (p +++ s) = false.
Proof.
  intros Hp Hs. induction p as [| c p IH]; [exact Hs |].
  cbn [PyStr.contains] in Hp. apply orb_false_elim in Hp. destruct Hp as (H1 & H2).
  cbn [String.append PyStr.contains]. rewrite starts_with_slash in *.
  rewrite H1. simpl. now apply IH.
Qed.

Lemma beside_without_slash p suffix :
  PyStr.contains "/" p = false -> PyStr.contains "/" suffix = false ->
  CICDAgent.beside p suffix = p +++ suffix
  /\ Path.dirname (CICDAgent.beside p suffix) = "".
Proof.
  intros Hp Hs. unfold CICDAgent.beside.
  rewrite (dirname_without_slash p Hp), (basename_without_slash p Hp).
  assert (H : PyStr.contains "/" (p +++ suffix) = false) by now apply contains_slash_append.
  assert (E : Path.join "" (p +++ suffix) = p +++ suffix).
  { unfold Path.join. destruct (p +++ suffix) as [| c s] eqn:E; [reflexivity |].
    cbn [PyStr.contains] in H. apply orb_false_elim in H.
    destruct H as (H & _). now rewrite H. }
  rewrite E. split; [reflexivity | now apply dirname_without_slash].
Qed.

(** X8.  For a file named without a directory, the agent's [fix_failures]
    never writes the [.fixed] file: [write_file] is asked to create the
    directory of the empty name first, which fails.  The agent's
    [detect_failures], which saves without creating a directory, does ask
    for its report to be saved, under the name followed by [.failures.json],
    when it has one. *)
Theorem bare_file_name_gets_no_fixed_file :
  forall (read_file : string -> option string) (load_json_file : string -> option report)
         (safe_load : string -> res pyval) (dump : pyval -> res string)
         pipeline_path error_logs_path failures_path,
    PyStr.contains "/" pipeline_path = false ->
    snd (CICDAgent.fix_failures read_file load_json_file safe_load dump pipeline_path
           failures_path) = []
    /\ let answer :=
         CICDAgent.detect_failures read_file safe_load pipeline_path error_logs_path in
       (failures (fst answer) = None /\ snd answer = [])
       \/ snd answer = [SaveJson (pipeline_path +++ ".failures.json") (fst answer)].
Proof.
  intros read_file load_json_file safe_load dump pipeline_path error_logs_path failures_path H.
  split.
  - unfold CICDAgent.fix_failures.
    destruct (CICDAgent.given (CICDAgent.get_pipeline_type read_file pipeline_path));
      [| reflexivity].
    destruct (CICDAgent.given (read_file pipeline_path)); [| reflexivity].
    cbn [snd]. destruct (CICDAgent.given _) as [fixed |]; [| reflexivity].
    unfold write_file.
    destruct (beside_without_slash pipeline_path ".fixed" H eq_refl) as (_ & ->).
    reflexivity.
  - intros answer. subst answer. unfold CICDAgent.detect_failures.
    destruct (CICDAgent.given (CICDAgent.get_pipeline_type read_file pipeline_path));
      [| left; now split].
    destruct (CICDAgent.given (read_file pipeline_path)); [| left; now split].
    right. cbn [fst snd]. unfold save_json_file.
    destruct (beside_without_slash pipeline_path ".failures.json" H eq_refl) as (-> & _).
    reflexivity.
Qed.

Lemma bare_file_name_gets_no_fixed_file_witness :
  fst (CICDAgent.fix_failures (fun _ => Some jenkins_stage_without_steps) (fun _ => None)
         Yaml.safe_load Yaml.dump "Jenkinsfile" None)
  = Some jenkins_stage_without_steps
  /\ snd (CICDAgent.fix_failures (fun _ => Some jenkins_stage_without_steps)
            (fun _ => None) Yaml.safe_load Yaml.dump "Jenkinsfile" None) = [].
Proof.
  split; [vm_compute; reflexivity |].
  apply (bare_file_name_gets_no_fixed_file (fun _ => Some jenkins_stage_without_steps)
           (fun _ => None) Yaml.safe_load Yaml.dump "Jenkinsfile" None None).
  reflexivity.
Defined.

Lemma fix_reads_failures_only (safe_load : string -> res pyval)
    (dump : pyval -> res string) text kind r r' :
  failures r = failures r' ->
  fix_failures safe_load dump text kind r = fix_failures safe_load dump text kind r'.
Proof.
  intros H.
  unfold fix_failures, _fix_github_actions_failures, _fix_gitlab_ci_failures,
    _fix_jenkins_failures, _fix_azure_devops_failures, patch_document, failures_or_empty.
  now rewrite H.
Qed.

Lemma failures_ignore_logs (safe_load : string -> res pyval) text kind logs :
  failures (detect_failures safe_load text kind logs)
  = failures (detect_failures safe_load text kind None).
Proof.
  destruct logs as [logs |]; [| reflexivity].
  apply (detect_with_logs safe_load text kind logs).
Qed.

(** X9.  Patching from a saved report is patching afresh.  When the file
    given to the agent's [fix_failures] holds the report that the agent's
    [detect_failures] answered for the same pipeline, with whatever log,
    [fix_failures] answers and writes what it does without a file of
    failures. *)
Theorem fixing_from_the_saved_report :
  forall (read_file : string -> option string) (load_json_file : string -> option report)
         (safe_load : string -> res pyval) (dump : pyval -> res string)
         pipeline_path error_logs_path failures_path,
    load_json_file failures_path
    = Some (fst (CICDAgent.detect_failures read_file safe_load pipeline_path
                   error_logs_path)) ->
    CICDAgent.fix_failures read_file load_json_file safe_load dump pipeline_path
      (Some failures_path)
    = CICDAgent.fix_failures read_file load_json_file safe_load dump pipeline_path None.
Proof.
  intros read_file load_json_file safe_load dump pipeline_path error_logs_path
    failures_path H.
  unfold CICDAgent.fix_failures, CICDAgent.detect_failures in *.
  destruct (CICDAgent.given (CICDAgent.get_pipeline_type read_file pipeline_path))
    as [kind |]; [| reflexivity].
  destruct (CICDAgent.given (read_file pipeline_path)) as [content |]; [| reflexivity].
  cbn [fst] in H.
  destruct (CICDAgent.given (Some failures_path)) as [path |] eqn:G; [| reflexivity].
  apply given_some in G. destruct G as (G & _). injection G as ->.
  rewrite H. cbn [CICDAgent.given].
  rewrite (fix_reads_failures_only safe_load dump content kind _
             (detect_failures safe_load content kind None)
             (failures_ignore_logs safe_load content kind _)).
  reflexivity.
Qed.

Lemma fixing_from_the_saved_report_witness :
  let read_file path :=
    if String.eqb path "log.txt" then Some "Permission denied"
    else Some azure_with_invalid_dependency in
  let load_json_file (_ : string) :=
    Some (detect_failures Yaml.safe_load azure_with_invalid_dependency "azure_devops"
            (Some "Permission denied")) in
  CICDAgent.fix_failures read_file load_json_file Yaml.safe_load Yaml.dump
    "ci/azure-pipelines.yml" (Some "saved.json")
  = CICDAgent.fix_failures read_file load_json_file Yaml.safe_load Yaml.dump
      "ci/azure-pipelines.yml" None.
Proof.
  intros read_file load_json_file.
  apply (fixing_from_the_saved_report read_file load_json_file Yaml.safe_load Yaml.dump
           "ci/azure-pipelines.yml" (Some "log.txt") "saved.json").
  vm_compute. reflexivity.
Defined.

(** X10.  The agent patches every Jenkinsfile it can read.  For a file named
    [Jenkinsfile] whose content is not empty, [fix_failures] without a file
    of failures answers a text. *)
Theorem agent_fixes_every_jenkinsfile :
  forall (read_file : string -> option string) (load_json_file : string -> option report)
         (safe_load : string -> res pyval) (dump : pyval -> res string)
         pipeline_path content,
    Path.basename pipeline_path = "Jenkinsfile" ->
    read_file pipeline_path = Some content ->
    content <> "" ->
    exists fixed,
      fst (CICDAgent.fix_failures read_file load_json_file safe_load dump pipeline_path None)
      = Some fixed.
Proof.
  intros read_file load_json_file safe_load dump pipeline_path content Hname Hread Hcontent.
  unfold CICDAgent.fix_failures, CICDAgent.get_pipeline_type.
  rewrite Hname, Hread. cbn [Path.endswith String.eqb Ascii.eqb Bool.eqb orb CICDAgent.given].
  cbn [CICDAgent.given]. destruct (String.eqb_spec content ""); [contradiction |].
  cbn [fst]. rewrite fix_jenkins, detect_jenkins. unfold _fix_jenkins_failures.
  assert (H : findings_satisfy jenkins_patchable (fun _ => True)
                (_detect_jenkins_failures content None)).
  { apply guarded_findings. apply jenkins_findings_patchable. }
  destruct (patch_all_patchable _ (proj1 H) content) as (fixed & ->).
  now exists fixed.
Qed.

Lemma agent_fixes_every_jenkinsfile_witness :
  exists fixed,
    fst (CICDAgent.fix_failures (fun _ => Some "node { }") (fun _ => None)
           Yaml.safe_load Yaml.dump "ci/Jenkinsfile" None)
    = Some fixed.
Proof.
  apply (agent_fixes_every_jenkinsfile (fun _ => Some "node { }") (fun _ => None)
           Yaml.safe_load Yaml.dump "ci/Jenkinsfile" "node { }");
    [reflexivity | reflexivity | discriminate].
Defined.

(** ** Checks that return *)

Lemma extend_nothing r : present r -> extend r [] [] = r.
Proof.
  intros (fs & ws & F & W). destruct r as [s m fo wo]. simpl in F, W. subst.
  unfold extend, failures_or_empty, warnings_or_empty. simpl. now rewrite !app_nil_r.
Qed.

Lemma present_extend r fs ws : present (extend r fs ws).
Proof. unfold present, extend. simpl. eauto. Qed.

Lemma extend_extend r fs ws fs' ws' :
  extend (extend r fs ws) fs' ws' = extend r (fs ++ fs') (ws ++ ws').
Proof.
  unfold extend, failures_or_empty, warnings_or_empty. simpl. now rewrite !app_assoc.
Qed.

Section Yields.

Context {D : Type} {reports : finding -> D -> Prop}.

Lemma yields_ret {A} (a : A) : yields reports (ret a) a [].
Proof.
  exists [], []. split; [constructor |]. intros r P. unfold ret. now rewrite extend_nothing.
Qed.

Lemma yields_lift {A} (a : A) : yields reports (lift (Ok a)) a [].
Proof. exact (yields_ret a). Qed.

Lemma yields_bind {A B} (c : M A) (k : A -> M B) a b xs ys :
  yields reports c a xs -> yields reports (k a) b ys -> yields reports (bind c k) b (xs ++ ys).
Proof.
  intros (fs & ws & F & Hc) (fs' & ws' & F' & Hk).
  exists (fs ++ fs'), (ws ++ ws'). split; [now apply Forall2_app |].
  intros r P. unfold bind. rewrite (Hc r P).
  rewrite (Hk _ (present_extend r fs ws)). now rewrite extend_extend.
Qed.

Lemma yields_bind_lift {A B} (e : res A) (k : A -> M B) a b xs :
  e = Ok a -> yields reports (k a) b xs -> yields reports (bind (lift e) k) b xs.
Proof. intros -> H. exact (yields_bind _ _ a b [] xs (yields_lift a) H). Qed.

Lemma yields_add_failure f x : reports f x -> yields reports (add_failure f) tt [x].
Proof.
  intros H. exists [f], []. split; [now repeat constructor |].
  intros r (fs & ws & F & W). destruct r as [s m fo wo]. simpl in F, W. subst.
  unfold add_failure, extend, failures_or_empty, warnings_or_empty. simpl.
  now rewrite app_nil_r.
Qed.

Lemma yields_add_warning w : yields reports (add_warning w) tt [].
Proof.
  exists [], [w]. split; [constructor |].
  intros r (fs & ws & F & W). destruct r as [s m fo wo]. simpl in F, W. subst.
  unfold add_warning, extend, failures_or_empty, warnings_or_empty. simpl.
  now rewrite app_nil_r.
Qed.

Lemma yields_when b (c : M unit) xs :
  yields reports c tt xs -> yields reports (when b c) tt (if b then xs else []).
Proof. intros H. destruct b; [exact H | apply yields_ret]. Qed.

Lemma yields_for_each {A} (l : list A) (body : A -> M unit) (F : A -> list D) :
  (forall x, In x l -> yields reports (body x) tt (F x)) ->
  yields reports (for_each l body) tt (flat_map F l).
Proof.
  induction l as [| x l IH]; intros H; simpl.
  - apply yields_ret.
  - apply yields_bind with tt.
    + apply H. now left.
    + apply IH. intros y Hy. apply H. now right.
Qed.

Lemma yields_nothing {A} (l : list A) (body : A -> M unit) :
  (forall x, In x l -> yields reports (body x) tt []) -> yields reports (for_each l body) tt [].
Proof.
  intros H. assert (E : flat_map (fun _ : A => @nil D) l = []).
  { induction l as [| x l IH]; [reflexivity | apply IH].
    intros y Hy. apply H. now right. }
  rewrite <- E. now apply yields_for_each.
Qed.

Lemma yields_when_nothing b (c : M unit) : yields reports c tt [] -> yields reports (when b c) tt [].
Proof. intros H. destruct b; [exact H | apply yields_ret]. Qed.

Lemma yields_then_nothing {B} (c : M unit) (k : M B) b :
  yields reports c tt [] -> yields reports k b [] -> yields reports (c ;; k) b [].
Proof. intros Hc Hk. exact (yields_bind c (fun _ => k) tt b [] [] Hc Hk). Qed.

Lemma yields_scan_logs logs permission_fix third :
  yields reports (scan_logs logs permission_fix third) tt [].
Proof.
  unfold scan_logs. destruct logs as [logs |]; [| apply yields_ret].
  apply yields_when_nothing.
  repeat apply yields_then_nothing; apply yields_when_nothing, yields_add_warning.
Qed.

End Yields.

(** ** GitHub Actions: the checks on a workflow of the usual shape *)

Lemma github_missing_steps_yields name fields :
  yields github_reports (github_missing_steps name (YDict fields)) tt (steps_defects (name, YDict fields)).
Proof.
  unfold github_missing_steps, steps_defects, lacks_steps. cbn [snd fst].
  apply yields_bind_lift with (dict_mem (YStr "steps") fields); [reflexivity |].
  unfold dict_mem. destruct (dict_find (YStr "steps") fields) as [steps |] eqn:E.
  - apply yields_bind_lift with (negb (truthy steps)).
    { cbn [py_getitem hashable]. now rewrite E. }
    destruct (truthy steps); cbn [negb when]; [apply yields_ret |].
    apply yields_add_failure. now split.
  - apply yields_bind_lift with true; [reflexivity |].
    apply yields_add_failure. now split.
Qed.

Lemma github_secrets_yields name fields :
  match dict_find (YStr "steps") fields with
  | None | Some (YList _) => true
  | Some _ => false
  end = true ->
  yields github_reports (github_secrets name (YDict fields)) tt [].
Proof.
  intros H. unfold github_secrets.
  apply yields_bind_lift with (dict_mem (YStr "steps") fields); [reflexivity |].
  unfold dict_mem. destruct (dict_find (YStr "steps") fields) as [steps |] eqn:E;
    [| apply yields_ret].
  destruct steps as [| | | | | l |]; try discriminate H.
  cbn [when].
  apply yields_bind_lift with (YList l); [cbn [py_getitem hashable]; now rewrite E |].
  apply yields_bind_lift with l; [reflexivity |].
  apply yields_nothing. intros [step_index step] _.
  apply yields_nothing. intros secret _. apply yields_add_warning.
Qed.

Lemma is_name_hashable v : is_name v = true -> hashable v = true.
Proof. now destruct v. Qed.

Lemma github_needs_yields names name fields :
  match dict_find (YStr "needs") fields with
  | Some (YStr s) => negb (String.eqb s "")
  | Some (YList l) => forallb is_name l
  | _ => true
  end = true ->
  yields github_reports (github_needs names name (YDict fields)) tt (needs_defects names (name, YDict fields)).
Proof.
  intros H. unfold github_needs, needs_defects, bad_needs. cbn [snd fst].
  apply yields_bind_lift with (dict_mem (YStr "needs") fields); [reflexivity |].
  unfold dict_mem. destruct (dict_find (YStr "needs") fields) as [needs |] eqn:E;
    [| apply yields_ret].
  cbn [when].
  apply yields_bind_lift with needs; [cbn [py_getitem hashable]; now rewrite E |].
  destruct needs as [| | | | s | l |];
    try (apply yields_bind_lift with false; [reflexivity | apply yields_ret]).
  - (* a string *)
    apply yields_bind_lift with (negb (existsb (py_eq (YStr s)) names)); [reflexivity |].
    destruct (existsb (py_eq (YStr s)) names); cbn [negb map]; [apply yields_ret |].
    apply yields_add_failure. now repeat split.
  - (* a list *)
    apply yields_bind_lift with false; [reflexivity |].
    assert (Hl : forall need, In need l -> hashable need = true).
    { intros need Hn. apply is_name_hashable.
      now apply (proj1 (forallb_forall is_name l) H). }
    clear H E.
    assert (F : map (BadNeed name) (filter (fun need => negb (existsb (py_eq need) names)) l)
                = flat_map (fun need => if negb (existsb (py_eq need) names)
                                        then [BadNeed name need] else []) l).
    { clear Hl. induction l as [| need l IH]; [reflexivity |].
      cbn [filter flat_map]. destruct (negb (existsb (py_eq need) names)); simpl;
        now rewrite IH. }
    rewrite F. apply yields_for_each. intros need Hn.
    apply yields_bind_lift with (existsb (py_eq need) names).
    { unfold set_in. now rewrite (Hl need Hn). }
    apply yields_when. apply yields_add_failure. now repeat split.
Qed.

Lemma github_runner_yields name fields :
  yields github_reports (github_runner name (YDict fields)) tt (runner_defects (name, YDict fields)).
Proof.
  unfold github_runner, runner_defects. cbn [snd fst].
  apply yields_bind_lift with (dict_mem (YStr "runs-on") fields); [reflexivity |].
  destruct (dict_mem (YStr "runs-on") fields); cbn [negb when]; [apply yields_ret |].
  apply yields_add_failure. now split.
Qed.

Lemma flat_map_constant_nil {A B} (l : list A) :
  flat_map (fun _ : A => @nil B) l = [].
Proof. induction l; auto. Qed.

(** What well-formedness says of the jobs. *)
Lemma github_jobs_ok d :
  github_well_formed (YDict d) = true ->
  d <> []
  /\ match dict_find (YStr "jobs") d with
     | None => True
     | Some (YDict jobs) =>
         forallb is_name (map fst jobs) = true
         /\ distinct (map fst jobs) = true
         /\ forall name job, In (name, job) jobs ->
              exists fields, job = YDict fields /\ github_job_ok (YDict fields) = true
     | Some _ => False
     end.
Proof.
  unfold github_well_formed. intros H. apply andb_prop in H. destruct H as (T & H).
  split; [intros ->; discriminate T |].
  destruct (dict_find (YStr "jobs") d) as [[| | | | | | jobs] |]; try discriminate H; auto.
  apply andb_prop in H. destruct H as (H & J). apply andb_prop in H. destruct H as (N & D).
  split; [exact N | split; [exact D |]].
  intros name job Hin.
  assert (Hj : github_job_ok job = true).
  { apply (proj1 (forallb_forall github_job_ok (map snd jobs)) J).
    apply in_map_iff. now exists (name, job). }
  destruct job; try discriminate Hj. eauto.
Qed.

Lemma github_job_ok_parts fields :
  github_job_ok (YDict fields) = true ->
  keys_ok fields = true
  /\ match dict_find (YStr "steps") fields with
     | None | Some (YList _) => true
     | Some _ => false
     end = true
  /\ match dict_find (YStr "needs") fields with
     | Some (YStr s) => negb (String.eqb s "")
     | Some (YList l) => forallb is_name l
     | _ => true
     end = true.
Proof.
  unfold github_job_ok. intros H.
  apply andb_prop in H. destruct H as (H & N). apply andb_prop in H. now destruct H.
Qed.

Lemma for_each_job_absent d body :
  dict_find (YStr "jobs") d = None -> yields github_reports (for_each_job (YDict d) body) tt [].
Proof.
  intros E. unfold for_each_job.
  apply yields_bind_lift with false; [| apply yields_ret].
  cbn [py_in hashable]. unfold dict_mem. now rewrite E.
Qed.

Lemma for_each_job_yields d jobs body F :
  dict_find (YStr "jobs") d = Some (YDict jobs) ->
  (forall name job, In (name, job) jobs -> yields github_reports (body name job) tt (F (name, job))) ->
  yields github_reports (for_each_job (YDict d) body) tt (flat_map F jobs).
Proof.
  intros E H. unfold for_each_job.
  apply yields_bind_lift with true; [cbn [py_in hashable]; unfold dict_mem; now rewrite E |].
  cbn [when].
  apply yields_bind_lift with (YDict jobs); [cbn [py_getitem hashable]; now rewrite E |].
  apply yields_bind_lift with jobs; [reflexivity |].
  apply yields_for_each. intros [name job] Hin. now apply H.
Qed.

(** On a workflow of the usual shape the checks return, and the failures
    they append report its defects, one for one and in order. *)
Lemma github_run pipeline logs :
  github_well_formed pipeline = true ->
  yields github_reports (github_checks pipeline logs) tt (github_defects pipeline).
Proof.
  intros W. destruct pipeline as [| | | | | | d]; try discriminate W.
  destruct (github_jobs_ok d W) as (_ & J).
  unfold github_checks, github_defects.
  apply yields_bind_lift with (dict_mem (YStr "jobs") d); [reflexivity |].
  apply yields_bind with tt.
  { destruct (dict_mem (YStr "jobs") d); cbn [negb when]; [apply yields_ret |].
    now apply yields_add_failure. }
  apply yields_bind_lift with (dict_mem (YStr "on") d); [reflexivity |].
  apply yields_bind with tt.
  { destruct (dict_mem (YStr "on") d); cbn [negb when]; [apply yields_ret |].
    now apply yields_add_failure. }
  destruct (dict_find (YStr "jobs") d) as [[| | | | | | jobs] |] eqn:E; try contradiction.
  - (* jobs *)
    destruct J as (_ & _ & J).
    apply yields_bind with tt.
    { apply (for_each_job_yields d jobs _ steps_defects E). intros name job Hin.
      destruct (J name job Hin) as (fields & -> & _). apply github_missing_steps_yields. }
    change (flat_map (needs_defects (map fst jobs)) jobs ++ flat_map runner_defects jobs)
      with ([] ++ flat_map (needs_defects (map fst jobs)) jobs
               ++ flat_map runner_defects jobs).
    apply yields_bind with tt.
    { rewrite <- (flat_map_constant_nil jobs).
      apply (for_each_job_yields d jobs _ (fun _ => []) E). intros name job Hin.
      destruct (J name job Hin) as (fields & -> & Hj).
      apply github_secrets_yields. apply (github_job_ok_parts fields Hj). }
    apply yields_bind_lift with true;
      [cbn [py_in hashable]; unfold dict_mem; now rewrite E |].
    apply yields_bind with tt.
    { cbn [when].
      apply yields_bind_lift with (YDict jobs); [cbn [py_getitem hashable]; now rewrite E |].
      apply yields_bind_lift with (map fst jobs); [reflexivity |].
      apply yields_bind_lift with (YDict jobs); [cbn [py_getitem hashable]; now rewrite E |].
      apply yields_bind_lift with jobs; [reflexivity |].
      apply yields_for_each. intros [name job] Hin.
      destruct (J name job Hin) as (fields & -> & Hj).
      apply github_needs_yields. apply (github_job_ok_parts fields Hj). }
    rewrite <- (app_nil_r (flat_map runner_defects jobs)).
    apply yields_bind with tt; [| apply yields_scan_logs].
    apply (for_each_job_yields d jobs _ runner_defects E). intros name job Hin.
    destruct (J name job Hin) as (fields & -> & _). apply github_runner_yields.
  - (* no jobs *)
    apply (yields_bind _ _ tt tt [] []); [now apply for_each_job_absent |].
    apply (yields_bind _ _ tt tt [] []); [now apply for_each_job_absent |].
    apply yields_bind_lift with false;
      [cbn [py_in hashable]; unfold dict_mem; now rewrite E |].
    apply (yields_bind _ _ tt tt [] []); [apply yields_ret |].
    apply (yields_bind _ _ tt tt [] []); [now apply for_each_job_absent |].
    apply yields_scan_logs.
Qed.

(** ** More on mappings under string keys *)

Lemma dict_set_set k v v' d :
  dict_set (YStr k) v (dict_set (YStr k) v' d) = dict_set (YStr k) v d.
Proof.
  induction d as [| [k0 v0] d IH]; cbn [dict_set].
  - now rewrite py_eq_str_refl.
  - destruct (py_eq (YStr k) k0) eqn:E; cbn [dict_set]; rewrite E; [reflexivity |].
    now rewrite IH.
Qed.

Lemma dict_set_nonempty k v d : dict_set k v d <> [].
Proof. destruct d as [| [k0 v0] d]; simpl; [| destruct (py_eq k k0)]; discriminate. Qed.

Lemma distinct_absent k keys :
  existsb (py_eq (YStr k)) keys = false -> ~ In (YStr k) keys.
Proof.
  intros H Hin. assert (E : existsb (py_eq (YStr k)) keys = true).
  { apply existsb_exists. exists (YStr k). split; [exact Hin | apply py_eq_str_refl]. }
  congruence.
Qed.

Lemma in_dict_find k v d :
  distinct (map fst d) = true -> In (YStr k, v) d -> dict_find (YStr k) d = Some v.
Proof.
  induction d as [| [k0 v0] d IH]; [contradiction |].
  cbn [map fst distinct dict_find]. intros D [E | Hin].
  - injection E as -> ->. now rewrite py_eq_str_refl.
  - apply andb_prop in D. destruct D as (D0 & D).
    destruct (py_eq (YStr k) k0) eqn:E; [| now apply IH].
    apply py_eq_str_l in E. subst k0. apply negb_true_iff in D0.
    exfalso. apply (distinct_absent k _ D0). apply in_map_iff. now exists (YStr k, v).
Qed.

Lemma dict_set_as_map k v d :
  distinct (map fst d) = true ->
  dict_mem (YStr k) d = true ->
  dict_set (YStr k) v d = map (fun e => if py_eq (YStr k) (fst e) then (fst e, v) else e) d.
Proof.
  unfold dict_mem. induction d as [| [k0 v0] d IH]; [discriminate |].
  cbn [map fst distinct dict_find dict_set]. intros D M.
  apply andb_prop in D. destruct D as (D0 & D).
  destruct (py_eq (YStr k) k0) eqn:E.
  - f_equal. apply py_eq_str_l in E. subst k0. apply negb_true_iff in D0.
    clear IH M D. induction d as [| [k1 v1] d IH]; [reflexivity |].
    cbn [map fst existsb] in *. apply orb_false_elim in D0. destruct D0 as (E1 & D0).
    rewrite E1. now rewrite <- IH.
  - f_equal. now apply IH.
Qed.

Lemma keys_ok_parts fields :
  keys_ok fields = true ->
  forallb is_str (map fst fields) = true /\ distinct (map fst fields) = true.
Proof. unfold keys_ok. intros H. now apply andb_prop in H. Qed.

Lemma distinct_NoDup keys :
  forallb is_str keys = true -> distinct keys = true -> NoDup keys.
Proof.
  induction keys as [| k keys IH]; [constructor |].
  cbn [forallb distinct]. intros S D.
  apply andb_prop in S. destruct S as (S0 & S).
  apply andb_prop in D. destruct D as (D0 & D).
  constructor; [| now apply IH].
  destruct k; try discriminate S0. apply negb_true_iff in D0. now apply distinct_absent.
Qed.

Lemma dict_keys_set_absent k v d :
  dict_mem (YStr k) d = false -> map fst (dict_set (YStr k) v d) = map fst d ++ [YStr k].
Proof.
  unfold dict_mem. induction d as [| [k0 v0] d IH]; [reflexivity |].
  cbn [dict_find dict_set]. destruct (py_eq (YStr k) k0); [discriminate |].
  intros H. cbn [map fst app]. now rewrite IH.
Qed.

Lemma dict_mem_keys k d : dict_mem (YStr k) d = false -> ~ In (YStr k) (map fst d).
Proof. rewrite dict_mem_existsb. apply distinct_absent. Qed.

Lemma distinct_snoc k keys :
  forallb is_str keys = true -> distinct keys = true -> ~ In (YStr k) keys ->
  distinct (keys ++ [YStr k]) = true.
Proof.
  induction keys as [| k0 keys IH]; [reflexivity |].
  cbn [forallb distinct app]. intros S D N.
  apply andb_prop in S. destruct S as (S0 & S).
  apply andb_prop in D. destruct D as (D0 & D).
  apply andb_true_intro. split; [| apply IH; auto; intros H; apply N; now right].
  apply negb_true_iff. apply negb_true_iff in D0.
  rewrite existsb_app, D0. cbn [existsb orb]. rewrite orb_false_r.
  destruct (py_eq k0 (YStr k)) eqn:E; [| reflexivity].
  apply py_eq_str_r in E. subst k0. exfalso. apply N. now left.
Qed.

Lemma keys_ok_set k v fields :
  keys_ok fields = true -> keys_ok (dict_set (YStr k) v fields) = true.
Proof.
  intros H. destruct (dict_mem (YStr k) fields) eqn:M.
  - unfold keys_ok. now rewrite (dict_keys_set k v fields M).
  - apply keys_ok_parts in H. destruct H as (S & D).
    unfold keys_ok. rewrite (dict_keys_set_absent k v fields M).
    apply andb_true_intro. split.
    + rewrite forallb_app, S. reflexivity.
    + apply distinct_snoc; auto. now apply dict_mem_keys.
Qed.

Lemma keys_del_absent k0 k d :
  existsb (py_eq k0) (map fst d) = false ->
  existsb (py_eq k0) (map fst (dict_del k d)) = false.
Proof.
  induction d as [| [k1 v1] d IH]; [reflexivity |].
  cbn [map fst existsb dict_del]. intros H. apply orb_false_elim in H.
  destruct H as (E1 & H). destruct (py_eq k k1); [exact H |].
  cbn [map fst existsb]. rewrite E1. now apply IH.
Qed.

Lemma keys_ok_del k fields :
  keys_ok fields = true -> keys_ok (dict_del k fields) = true.
Proof.
  unfold keys_ok. induction fields as [| [k0 v0] fields IH]; [reflexivity |].
  cbn [map fst forallb distinct dict_del]. intros H.
  apply andb_prop in H. destruct H as (S & D).
  apply andb_prop in S. destruct S as (S0 & S).
  apply andb_prop in D. destruct D as (D0 & D).
  destruct (py_eq k k0) eqn:E; cbn [map fst forallb distinct].
  - now rewrite S, D.
  - assert (H : keys_ok (dict_del k fields) = true)
      by (apply IH; unfold keys_ok; now rewrite S, D).
    apply keys_ok_parts in H. destruct H as (S' & D'). rewrite S0, S', D'.
    apply negb_true_iff in D0. now rewrite (keys_del_absent k0 k fields D0).
Qed.

(** ** GitHub Actions: one patch *)

(** [drop_dependency] answers on every mapping. *)
Lemma drop_dependency_cases field dependency fields :
  drop_dependency field dependency (YDict fields)
  = Ok (YDict
          match dict_find (YStr field) fields with
          | Some (YStr _) => dict_del (YStr field) fields
          | Some (YList l) =>
              match filter (fun need => negb (py_eq need dependency)) l with
              | [] => dict_del (YStr field) (dict_set (YStr field) (YList []) fields)
              | kept => dict_set (YStr field) (YList kept) fields
              end
          | _ => fields
          end).
Proof.
  unfold drop_dependency. cbn [py_in hashable res_bind py_getitem]. unfold dict_mem.
  destruct (dict_find (YStr field) fields) as [needs |] eqn:E; [| reflexivity].
  cbn [res_bind].
  destruct needs as [| | | | s | l |]; try reflexivity.
  - cbn [py_delitem hashable]. unfold dict_mem. now rewrite E.
  - cbn [py_setitem hashable res_bind].
    destruct (filter (fun need => negb (py_eq need dependency)) l) as [| need kept];
      [| reflexivity].
    cbn [truthy negb py_delitem hashable]. unfold dict_mem.
    now rewrite dict_find_set_same.
Qed.

Lemma dropped_cases field need fields :
  dropped field need fields
  = match dict_find (YStr field) fields with
    | Some (YStr _) => dict_del (YStr field) fields
    | Some (YList l) =>
        match filter (fun n => negb (py_eq n need)) l with
        | [] => dict_del (YStr field) (dict_set (YStr field) (YList []) fields)
        | kept => dict_set (YStr field) (YList kept) fields
        end
    | _ => fields
    end.
Proof. unfold dropped. now rewrite drop_dependency_cases. Qed.

Lemma type_is_of f t kind : finding_get "type" f = YStr t -> type_is f kind = String.eqb t kind.
Proof. unfold type_is. now intros ->. Qed.

Lemma is_name_truthy v : is_name v = true -> truthy v = true.
Proof. now destruct v. Qed.

Lemma is_name_str v : is_name v = true -> exists s, v = YStr s.
Proof. destruct v; try discriminate. eauto. Qed.

Lemma patch_amend d jobs f x name fields :
  dict_find (YStr "jobs") d = Some (YDict jobs) ->
  github_reports f x ->
  target x = Some name ->
  is_name name = true ->
  (forall job need, x = BadNeed job need -> is_name need = true) ->
  dict_find name jobs = Some (YDict fields) ->
  github_patch (YDict d) f
  = Ok (YDict (dict_set (YStr "jobs")
                 (YDict (dict_set name (YDict (amend_fields fields x)) jobs)) d)).
Proof.
  intros Hjobs Hf Ht Hn Hneed Hjob.
  assert (Hk : names_a_job (YDict d) name = Ok true).
  { unfold names_a_job. rewrite (is_name_truthy _ Hn).
    destruct (is_name_str _ Hn) as (n & ->).
    cbn [py_get hashable]. rewrite Hjobs. cbn [res_bind py_in hashable].
    unfold dict_mem. now rewrite Hjob. }
  assert (Hu : forall g fields',
             g (YDict fields) = Ok (YDict fields') ->
             update_at (YDict d) (YStr "jobs") (fun jobs => update_at jobs name g)
             = Ok (YDict (dict_set (YStr "jobs")
                            (YDict (dict_set name (YDict fields') jobs)) d))).
  { intros g fields' Hg. destruct (is_name_str _ Hn) as (n & ->).
    unfold update_at. cbn [py_getitem hashable].
    rewrite Hjobs. cbn [res_bind py_getitem hashable]. rewrite Hjob.
    cbn [res_bind]. rewrite Hg. reflexivity. }
  unfold github_patch.
  destruct x as [| | job | job need | job]; try discriminate Ht;
    injection Ht as ->; cbn [github_reports] in Hf.
  - destruct Hf as (T & J). rewrite !(type_is_of f _ _ T), J. cbn [String.eqb Ascii.eqb Bool.eqb].
    cbv zeta. rewrite Hk. cbn [res_bind]. now apply Hu.
  - destruct Hf as (T & J & D). rewrite !(type_is_of f _ _ T), J, D.
    cbn [String.eqb Ascii.eqb Bool.eqb]. cbv zeta.
    rewrite (is_name_truthy _ Hn), (is_name_truthy _ (Hneed _ _ eq_refl)), Hk.
    cbn [res_bind]. apply Hu. cbn [amend_fields]. unfold dropped.
    now rewrite drop_dependency_cases.
  - destruct Hf as (T & J). rewrite !(type_is_of f _ _ T), J. cbn [String.eqb Ascii.eqb Bool.eqb].
    cbv zeta. rewrite Hk. cbn [res_bind]. now apply Hu.
Qed.

(** ** GitHub Actions: the patches of one report *)

Lemma dict_set_same_value k v d :
  dict_find (YStr k) d = Some v -> dict_set (YStr k) v d = d.
Proof.
  induction d as [| [k0 v0] d IH]; cbn [dict_find dict_set]; [discriminate |].
  destruct (py_eq (YStr k) k0) eqn:E.
  - intros H. now injection H as ->.
  - intros H. now rewrite IH.
Qed.

Lemma amend_keys jobs x : map fst (amend jobs x) = map fst jobs.
Proof.
  unfold amend. rewrite map_map. apply map_ext. intros e. unfold amend_entry.
  now destruct (aims x (fst e)).
Qed.

Lemma amend_dicts jobs x :
  forallb is_dict (map snd jobs) = true -> forallb is_dict (map snd (amend jobs x)) = true.
Proof.
  unfold amend. rewrite !forallb_forall. intros H job Hin.
  apply in_map_iff in Hin. destruct Hin as (e' & <- & Hin).
  apply in_map_iff in Hin. destruct Hin as (e & <- & Hin).
  assert (He : is_dict (snd e) = true) by (apply H, in_map_iff; now exists e).
  unfold amend_entry. destruct (aims x (fst e)); [| exact He].
  cbn [snd]. now destruct (snd e).
Qed.

Lemma amend_as_set jobs x n fields :
  distinct (map fst jobs) = true ->
  target x = Some (YStr n) ->
  dict_find (YStr n) jobs = Some (YDict fields) ->
  dict_set (YStr n) (YDict (amend_fields fields x)) jobs = amend jobs x.
Proof.
  intros D T F. rewrite dict_set_as_map; [| exact D | now apply dict_mem_find with (YDict fields)].
  unfold amend. apply map_ext_in. intros [k v] Hin. unfold amend_entry, aims.
  rewrite T. cbn [fst snd]. destruct (py_eq (YStr n) k) eqn:E; [| reflexivity].
  apply py_eq_str_l in E. subst k.
  rewrite (in_dict_find n v jobs D Hin) in F. now injection F as ->.
Qed.

Lemma job_defect_keys names names' x : names' = names -> job_defect names x -> job_defect names' x.
Proof. now intros ->. Qed.

Lemma patch_all_amend xs :
  forall fs jobs d,
    Forall2 github_reports fs xs ->
    Forall (job_defect (map fst jobs)) xs ->
    distinct (map fst jobs) = true ->
    forallb is_dict (map snd jobs) = true ->
    dict_find (YStr "jobs") d = Some (YDict jobs) ->
    patch_all github_patch fs (YDict d)
    = Ok (YDict (dict_set (YStr "jobs") (YDict (fold_left amend xs jobs)) d)).
Proof.
  induction xs as [| x xs IH]; intros fs jobs d Hf Hx D A J.
  - inversion Hf; subst. cbn [patch_all fold_left]. now rewrite dict_set_same_value.
  - inversion Hf as [| f ? fs' ? Hfx Hfs]; subst.
    inversion Hx as [| ? ? (name & T & N & Hin & Hneed) Hxs]; subst.
    destruct (is_name_str _ N) as (n & ->).
    apply in_map_iff in Hin. destruct Hin as ([k job] & Ek & Hin). cbn [fst] in Ek. subst k.
    assert (Hjob : exists fields, job = YDict fields).
    { assert (is_dict job = true).
      { apply (proj1 (forallb_forall is_dict (map snd jobs)) A).
        apply in_map_iff. now exists (YStr n, job). }
      destruct job; try discriminate. eauto. }
    destruct Hjob as (fields & ->).
    assert (F : dict_find (YStr n) jobs = Some (YDict fields)) by now apply in_dict_find.
    cbn [patch_all fold_left].
    rewrite (patch_amend d jobs f x (YStr n) fields J Hfx T N Hneed F).
    cbn [res_bind]. rewrite (amend_as_set jobs x n fields D T F).
    rewrite (IH fs' (amend jobs x) _ Hfs).
    + now rewrite dict_set_set.
    + eapply Forall_impl; [| exact Hxs]. intros y. apply job_defect_keys, amend_keys.
    + now rewrite amend_keys.
    + now apply amend_dicts.
    + apply dict_find_set_same.
Qed.

Lemma fold_amend xs : forall jobs,
  fold_left amend xs jobs = map (fun e => fold_left amend_entry xs e) jobs.
Proof.
  induction xs as [| x xs IH]; intros jobs; cbn [fold_left].
  - now rewrite map_id.
  - rewrite IH. unfold amend. now rewrite map_map.
Qed.

Lemma amend_entry_fst e x : fst (amend_entry e x) = fst e.
Proof. unfold amend_entry. now destruct (aims x (fst e)). Qed.

Lemma fold_amend_entry_fst xs : forall e, fst (fold_left amend_entry xs e) = fst e.
Proof.
  induction xs as [| x xs IH]; intros e; [reflexivity |].
  cbn [fold_left]. now rewrite IH, amend_entry_fst.
Qed.

(** Defects of other jobs leave a job alone. *)
Lemma fold_amend_entry_others xs : forall e,
  Forall (fun x => aims x (fst e) = false) xs -> fold_left amend_entry xs e = e.
Proof.
  induction xs as [| x xs IH]; intros e H; [reflexivity |].
  inversion H as [| ? ? Hx Hxs]; subst. cbn [fold_left].
  unfold amend_entry at 2. rewrite Hx. now apply IH.
Qed.

(** The defects of a job change its fields one after the other. *)
Lemma fold_amend_entry_own xs : forall name fields,
  Forall (fun x => aims x name = true) xs ->
  fold_left amend_entry xs (name, YDict fields)
  = (name, YDict (fold_left amend_fields xs fields)).
Proof.
  induction xs as [| x xs IH]; intros name fields H; [reflexivity |].
  inversion H as [| ? ? Hx Hxs]; subst. cbn [fold_left].
  unfold amend_entry at 2. cbn [fst snd]. rewrite Hx. now apply IH.
Qed.

Lemma py_eq_names a b :
  is_name a = true -> is_name b = true -> py_eq a b = py_eq b a.
Proof.
  intros Ha Hb. destruct (is_name_str _ Ha) as (s & ->).
  destruct (is_name_str _ Hb) as (t & ->). cbn [py_eq]. apply String.eqb_sym.
Qed.

Lemma py_eq_name_refl a : is_name a = true -> py_eq a a = true.
Proof. intros Ha. destruct (is_name_str _ Ha) as (s & ->). apply py_eq_str_refl. Qed.

(** In a list of defects made job by job, only those of the job count. *)
Lemma fold_amend_entry_flat_map (G : pyval * pyval -> list github_defect) jobs :
  (forall e x, In x (G e) -> target x = Some (fst e)) ->
  forallb is_name (map fst jobs) = true ->
  distinct (map fst jobs) = true ->
  forall e e0,
    In e jobs -> fst e0 = fst e ->
    fold_left amend_entry (flat_map G jobs) e0 = fold_left amend_entry (G e) e0.
Proof.
  intros HG. induction jobs as [| e1 jobs IH]; intros N D e e0 Hin E0; [contradiction |].
  cbn [map forallb distinct] in N, D.
  apply andb_prop in N. destruct N as (N1 & N).
  apply andb_prop in D. destruct D as (D1 & D). apply negb_true_iff in D1.
  assert (Hother : forall e', In e' jobs -> py_eq (fst e1) (fst e') = false).
  { intros e' He'. destruct (py_eq (fst e1) (fst e')) eqn:E; [| reflexivity].
    assert (X : existsb (py_eq (fst e1)) (map fst jobs) = true).
    { apply existsb_exists. exists (fst e'). split; [now apply in_map | exact E]. }
    congruence. }
  cbn [flat_map]. rewrite fold_left_app. destruct Hin as [-> | Hin].
  - (* the job comes first: the others do nothing afterwards *)
    apply fold_amend_entry_others. apply Forall_forall. intros x Hx.
    apply in_flat_map in Hx. destruct Hx as (e' & He' & Hx).
    unfold aims. rewrite (HG e' x Hx), fold_amend_entry_fst, E0.
    rewrite py_eq_names; [now apply Hother | |  exact N1].
    apply (proj1 (forallb_forall is_name (map fst jobs)) N). now apply in_map.
  - (* another job comes first: it does nothing *)
    rewrite (fold_amend_entry_others (G e1) e0); [now apply IH |].
    apply Forall_forall. intros x Hx. unfold aims. rewrite (HG e1 x Hx), E0.
    now apply Hother.
Qed.

(** ** GitHub Actions: the fields of a job after the patches *)

Lemma dropped_other field need fields k :
  k <> YStr field -> dict_find k (dropped field need fields) = dict_find k fields.
Proof.
  intros N. rewrite dropped_cases.
  destruct (dict_find (YStr field) fields) as [[| | | | s | l |] |]; try reflexivity.
  - now apply dict_find_del_other.
  - destruct (filter _ l).
    + rewrite dict_find_del_other by exact N. now apply dict_find_set_other.
    + now apply dict_find_set_other.
Qed.

Lemma dropped_keys field need fields : keys_ok fields = true -> keys_ok (dropped field need fields) = true.
Proof.
  intros H. rewrite dropped_cases.
  destruct (dict_find (YStr field) fields) as [[| | | | s | l |] |]; try exact H.
  - now apply keys_ok_del.
  - destruct (filter _ l); [apply keys_ok_del |]; now apply keys_ok_set.
Qed.

Lemma keys_ok_NoDup fields : keys_ok fields = true -> NoDup (map fst fields).
Proof. intros H. apply keys_ok_parts in H. now apply distinct_NoDup. Qed.

Lemma dropped_absent field need fields :
  dict_find (YStr field) fields = None -> dropped field need fields = fields.
Proof. intros H. rewrite dropped_cases. now rewrite H. Qed.

Lemma fold_dropped_absent field bs : forall fields,
  dict_find (YStr field) fields = None ->
  fold_left (fun f need => dropped field need f) bs fields = fields.
Proof.
  induction bs as [| b bs IH]; intros fields H; [reflexivity |].
  cbn [fold_left]. rewrite (dropped_absent field b fields H). now apply IH.
Qed.

Lemma strip_cons b bs l :
  strip (b :: bs) l = strip bs (filter (fun n => negb (py_eq n b)) l).
Proof.
  unfold strip. induction l as [| n l IH]; [reflexivity |].
  cbn [filter]. rewrite IH. cbn [existsb].
  destruct (py_eq n b); cbn [negb orb filter]; [reflexivity |].
  now destruct (negb (existsb (py_eq n) bs)).
Qed.

Lemma strip_nothing l : strip [] l = l.
Proof.
  unfold strip. induction l as [| n l IH]; [reflexivity |]. cbn [filter].
  now rewrite IH.
Qed.

(** Dropping dependencies one after the other from a list of them. *)
Lemma fold_dropped_list field bs : forall fields l,
  keys_ok fields = true ->
  dict_find (YStr field) fields = Some (YList l) ->
  let fields' := fold_left (fun f need => dropped field need f) bs fields in
  dict_find (YStr field) fields' = None
  \/ dict_find (YStr field) fields' = Some (YList (strip bs l)).
Proof.
  induction bs as [| b bs IH]; intros fields l K H; cbn [fold_left].
  - right. now rewrite strip_nothing.
  - rewrite strip_cons.
    assert (E := dropped_cases field b fields). rewrite H in E.
    destruct (filter (fun n => negb (py_eq n b)) l) as [| n kept] eqn:F.
    + left.
      assert (D : dict_find (YStr field) (dropped field b fields) = None).
      { rewrite E. apply dict_find_del_same. apply keys_ok_NoDup. now apply keys_ok_set. }
      now rewrite (fold_dropped_absent field bs _ D).
    + apply IH; [now apply dropped_keys |]. rewrite E. apply dict_find_set_same.
Qed.

Lemma fold_dropped_other field bs : forall fields k,
  k <> YStr field ->
  dict_find k (fold_left (fun f need => dropped field need f) bs fields) = dict_find k fields.
Proof.
  induction bs as [| b bs IH]; intros fields k N; [reflexivity |].
  cbn [fold_left]. rewrite IH by exact N. now apply dropped_other.
Qed.

Lemma fold_dropped_keys field bs : forall fields,
  keys_ok fields = true ->
  keys_ok (fold_left (fun f need => dropped field need f) bs fields) = true.
Proof.
  induction bs as [| b bs IH]; intros fields K; [exact K |].
  cbn [fold_left]. apply IH. now apply dropped_keys.
Qed.

Lemma fold_bad_needs name bs : forall fields,
  fold_left amend_fields (map (BadNeed name) bs) fields
  = fold_left (fun f need => dropped "needs" need f) bs fields.
Proof.
  induction bs as [| b bs IH]; intros fields; [reflexivity |].
  cbn [map fold_left amend_fields]. apply IH.
Qed.

(** What is left after the unknown dependencies are dropped is known. *)
Lemma strip_bad_needs names l :
  forallb is_name l = true ->
  filter (fun need => negb (existsb (py_eq need) names))
    (strip (filter (fun need => negb (existsb (py_eq need) names)) l) l) = [].
Proof.
  intros Hl. set (bad := filter (fun need => negb (existsb (py_eq need) names)) l).
  assert (H : forall n, In n (strip bad l) -> existsb (py_eq n) names = true).
  { intros n Hn. unfold strip in Hn. apply filter_In in Hn. destruct Hn as (Hin & Hb).
    destruct (existsb (py_eq n) names) eqn:E; [reflexivity |].
    apply negb_true_iff in Hb.
    assert (X : existsb (py_eq n) bad = true).
    { apply existsb_exists. exists n. split.
      - apply filter_In. split; [exact Hin | now rewrite E].
      - apply py_eq_name_refl. now apply (proj1 (forallb_forall is_name l) Hl). }
    congruence. }
  induction (strip bad l) as [| n rest IH]; [reflexivity |].
  cbn [filter]. rewrite (H n (or_introl eq_refl)). cbn [negb].
  apply IH. intros m Hm. apply H. now right.
Qed.

Lemma forallb_filter {A} (p q : A -> bool) l :
  forallb p l = true -> forallb p (filter q l) = true.
Proof.
  rewrite !forallb_forall. intros H x Hx. apply filter_In in Hx. now apply H.
Qed.

(** A job of the usual shape, once its defects are patched, is a job of
    the usual shape without defect. *)
Lemma job_repaired names name fields :
  github_job_ok (YDict fields) = true ->
  let fields' := fold_left amend_fields (job_defects names (name, YDict fields)) fields in
  github_job_ok (YDict fields') = true
  /\ job_defects names (name, YDict fields') = [].
Proof.
  intros W. cbv zeta. destruct (github_job_ok_parts fields W) as (K & Hs & Hn).
  assert (E : fold_left amend_fields (job_defects names (name, YDict fields)) fields
              = fold_left amend_fields
                  (if dict_mem (YStr "runs-on") fields then [] else [NoRunner name])
                  (fold_left (fun f need => dropped "needs" need f) (bad_needs names fields)
                     (fold_left amend_fields
                        (if lacks_steps fields then [NoSteps name] else []) fields))).
  { unfold job_defects, steps_defects, needs_defects, runner_defects. cbn [fst snd].
    now rewrite !fold_left_app, fold_bad_needs. }
  rewrite E. clear E.
  (* the steps *)
  set (f1 := fold_left amend_fields (if lacks_steps fields then [NoSteps name] else [])
               fields).
  assert (K1 : keys_ok f1 = true).
  { unfold f1. destruct (lacks_steps fields); [now apply keys_ok_set | exact K]. }
  assert (S1 : exists l, dict_find (YStr "steps") f1 = Some (YList l) /\ l <> []).
  { unfold f1, lacks_steps. destruct (dict_find (YStr "steps") fields) as [steps |] eqn:E.
    - destruct steps as [| | | | | l |]; try discriminate Hs. destruct l as [| step l].
      + cbn [truthy negb fold_left amend_fields]. rewrite dict_find_set_same.
        eexists. split; [reflexivity | discriminate].
      + cbn [truthy negb fold_left]. rewrite E. eexists. split; [reflexivity | discriminate].
    - cbn [fold_left amend_fields]. rewrite dict_find_set_same.
      eexists. split; [reflexivity | discriminate]. }
  assert (O1 : forall k, k <> YStr "steps" -> dict_find k f1 = dict_find k fields).
  { intros k N. unfold f1. destruct (lacks_steps fields); [| reflexivity].
    now apply dict_find_set_other. }
  (* the dependencies *)
  set (f2 := fold_left (fun f need => dropped "needs" need f) (bad_needs names fields) f1).
  assert (K2 : keys_ok f2 = true) by now apply fold_dropped_keys.
  assert (O2 : forall k, k <> YStr "needs" -> dict_find k f2 = dict_find k f1)
    by (intros k N; now apply fold_dropped_other).
  assert (N1 : dict_find (YStr "needs") f1 = dict_find (YStr "needs") fields)
    by (apply O1; discriminate).
  assert (N2 : bad_needs names f2 = []
               /\ match dict_find (YStr "needs") f2 with
                  | Some (YStr s) => negb (String.eqb s "")
                  | Some (YList l) => forallb is_name l
                  | _ => true
                  end = true).
  { assert (Same : bad_needs names fields = [] ->
                   bad_needs names f2 = []
                   /\ match dict_find (YStr "needs") f2 with
                      | Some (YStr s) => negb (String.eqb s "")
                      | Some (YList l) => forallb is_name l
                      | _ => true
                      end = true).
    { intros B. unfold f2. rewrite B. cbn [fold_left]. unfold bad_needs in *.
      rewrite N1. now split. }
    destruct (dict_find (YStr "needs") fields) as [needs |] eqn:E;
      [| apply Same; unfold bad_needs; now rewrite E].
    destruct needs as [| | | | s | l |];
      try (apply Same; unfold bad_needs; now rewrite E).
    - (* a string *)
      destruct (existsb (py_eq (YStr s)) names) eqn:V;
        [apply Same; unfold bad_needs; now rewrite E, V |].
      assert (B : bad_needs names fields = [YStr s])
        by (unfold bad_needs; now rewrite E, V).
      unfold f2. rewrite B. cbn [fold_left].
      assert (D : dict_find (YStr "needs") (dropped "needs" (YStr s) f1) = None).
      { rewrite dropped_cases, N1. apply dict_find_del_same. now apply keys_ok_NoDup. }
      unfold bad_needs. rewrite D. now split.
    - (* a list *)
      assert (B : bad_needs names fields
                  = filter (fun need => negb (existsb (py_eq need) names)) l)
        by (unfold bad_needs; now rewrite E).
      unfold f2. rewrite B.
      destruct (fold_dropped_list "needs"
                  (filter (fun need => negb (existsb (py_eq need) names)) l) f1 l K1 N1)
        as [D | D]; unfold bad_needs; cbv zeta in D; rewrite D; [now split |].
      split; [now apply strip_bad_needs |]. unfold strip. now apply forallb_filter. }
  destruct N2 as (B2 & N2).
  (* the runner *)
  set (fields' := fold_left amend_fields
                    (if dict_mem (YStr "runs-on") fields then [] else [NoRunner name]) f2).
  assert (R2 : dict_mem (YStr "runs-on") f2 = dict_mem (YStr "runs-on") fields).
  { unfold dict_mem. rewrite O2, O1 by discriminate. reflexivity. }
  assert (K3 : keys_ok fields' = true).
  { unfold fields'. destruct (dict_mem (YStr "runs-on") fields); [exact K2 |].
    now apply keys_ok_set. }
  assert (O3 : forall k, k <> YStr "runs-on" -> dict_find k fields' = dict_find k f2).
  { intros k N. unfold fields'. destruct (dict_mem (YStr "runs-on") fields); [reflexivity |].
    now apply dict_find_set_other. }
  assert (R3 : dict_mem (YStr "runs-on") fields' = true).
  { unfold fields'. destruct (dict_mem (YStr "runs-on") fields) eqn:R.
    - cbn [fold_left]. now rewrite R2.
    - cbn [fold_left amend_fields]. unfold dict_mem. now rewrite dict_find_set_same. }
  destruct S1 as (l & S1 & Hl).
  assert (S3 : dict_find (YStr "steps") fields' = Some (YList l)).
  { rewrite O3, O2 by discriminate. exact S1. }
  assert (N3 : dict_find (YStr "needs") fields' = dict_find (YStr "needs") f2)
    by (apply O3; discriminate).
  split.
  - unfold github_job_ok. rewrite K3, S3, N3, N2. reflexivity.
  - unfold job_defects, steps_defects, needs_defects, runner_defects, lacks_steps.
    cbn [fst snd]. rewrite S3, R3.
    assert (B3 : bad_needs names fields' = []).
    { unfold bad_needs in *. now rewrite N3. }
    rewrite B3. destruct l; [contradiction | reflexivity].
Qed.

(** ** GitHub Actions: patching what was detected *)

Lemma patch_all_app {A} (patch : A -> finding -> res A) fs1 : forall fs2 a,
  patch_all patch (fs1 ++ fs2) a
  = let? a' := patch_all patch fs1 a in patch_all patch fs2 a'.
Proof.
  induction fs1 as [| f fs1 IH]; intros fs2 a; [reflexivity |].
  cbn [app patch_all]. destruct (patch a f) as [a' | e]; [| reflexivity].
  cbn [res_bind]. apply IH.
Qed.

Lemma flat_map_nothing {A B} (F : A -> list B) l :
  (forall x, In x l -> F x = []) -> flat_map F l = [].
Proof.
  induction l as [| x l IH]; intros H; [reflexivity |].
  cbn [flat_map]. rewrite (H x (or_introl eq_refl)). apply IH.
  intros y Hy. apply H. now right.
Qed.

Lemma steps_defects_target e x : In x (steps_defects e) -> target x = Some (fst e).
Proof.
  unfold steps_defects. destruct (snd e); try contradiction.
  destruct (lacks_steps d); [| contradiction]. now intros [<- | []].
Qed.

Lemma needs_defects_target names e x : In x (needs_defects names e) -> target x = Some (fst e).
Proof.
  unfold needs_defects. destruct (snd e); try contradiction.
  intros H. apply in_map_iff in H. now destruct H as (need & <- & _).
Qed.

Lemma runner_defects_target e x : In x (runner_defects e) -> target x = Some (fst e).
Proof.
  unfold runner_defects. destruct (snd e); try contradiction.
  destruct (dict_mem (YStr "runs-on") d); [contradiction |]. now intros [<- | []].
Qed.

Lemma job_defects_target names e x : In x (job_defects names e) -> target x = Some (fst e).
Proof.
  unfold job_defects. intros H. apply in_app_or in H. destruct H as [H | H];
    [now apply steps_defects_target |].
  apply in_app_or in H. destruct H as [H | H];
    [now apply needs_defects_target with names | now apply runner_defects_target].
Qed.

Lemma bad_needs_are_names names fields need :
  github_job_ok (YDict fields) = true -> In need (bad_needs names fields) ->
  is_name need = true.
Proof.
  intros W. destruct (github_job_ok_parts fields W) as (_ & _ & Hn).
  unfold bad_needs. destruct (dict_find (YStr "needs") fields) as [[| | | | s | l |] |];
    try contradiction.
  - destruct (existsb (py_eq (YStr s)) names); [contradiction |]. now intros [<- | []].
  - intros H. apply filter_In in H. destruct H as (H & _).
    now apply (proj1 (forallb_forall is_name l) Hn).
Qed.

Section Jobs.

Variable jobs : entries.
Hypothesis names_ok : forallb is_name (map fst jobs) = true.
Hypothesis names_distinct : distinct (map fst jobs) = true.
Hypothesis jobs_ok :
  forall name job, In (name, job) jobs ->
    exists fields, job = YDict fields /\ github_job_ok (YDict fields) = true.

Let names := map fst jobs.
Let defects :=
  flat_map steps_defects jobs ++ flat_map (needs_defects names) jobs
  ++ flat_map runner_defects jobs.

Lemma jobs_are_dicts : forallb is_dict (map snd jobs) = true.
Proof.
  apply forallb_forall. intros job H. apply in_map_iff in H.
  destruct H as ([name job'] & <- & H). cbn [snd].
  now destruct (jobs_ok name job' H) as (fields & -> & _).
Qed.

Lemma defects_are_job_defects : Forall (job_defect names) defects.
Proof.
  assert (H : forall x, In x defects ->
              exists e, In e jobs /\ In x (job_defects names e)).
  { intros x Hx. unfold defects in Hx. apply in_app_or in Hx. destruct Hx as [Hx | Hx];
      [| apply in_app_or in Hx; destruct Hx as [Hx | Hx]];
      apply in_flat_map in Hx; destruct Hx as (e & He & Hx); exists e;
      (split; [exact He |]); unfold job_defects; rewrite !in_app_iff; auto. }
  apply Forall_forall. intros x Hx. destruct (H x Hx) as ([name job] & He & Hin).
  exists name. split; [exact (job_defects_target names _ x Hin) |].
  split; [apply (proj1 (forallb_forall is_name names) names_ok); now apply (in_map fst _ _ He) |].
  split; [now apply (in_map fst _ _ He) |].
  intros job' need ->. destruct (jobs_ok name job He) as (fields & -> & W).
  unfold job_defects, steps_defects, needs_defects, runner_defects in Hin. cbn [fst snd] in Hin.
  apply in_app_or in Hin. destruct Hin as [Hin | Hin].
  { destruct (lacks_steps fields); [destruct Hin as [Hin | []]; discriminate | contradiction]. }
  apply in_app_or in Hin. destruct Hin as [Hin | Hin].
  - apply in_map_iff in Hin. destruct Hin as (need' & E & Hin). injection E as _ ->.
    now apply bad_needs_are_names with names fields.
  - destruct (dict_mem (YStr "runs-on") fields);
      [contradiction | destruct Hin as [Hin | []]; discriminate].
Qed.

(** Each job ends up with its own defects patched, in order. *)
Lemma job_after_patches name fields :
  In (name, YDict fields) jobs ->
  fold_left amend_entry defects (name, YDict fields)
  = (name, YDict (fold_left amend_fields (job_defects names (name, YDict fields)) fields)).
Proof.
  intros Hin. unfold defects. rewrite !fold_left_app.
  rewrite (fold_amend_entry_flat_map steps_defects jobs steps_defects_target
             names_ok names_distinct _ _ Hin eq_refl).
  rewrite (fold_amend_entry_flat_map (needs_defects names) jobs (needs_defects_target names)
             names_ok names_distinct (name, YDict fields));
    [| exact Hin | apply fold_amend_entry_fst].
  rewrite (fold_amend_entry_flat_map runner_defects jobs runner_defects_target
             names_ok names_distinct (name, YDict fields));
    [| exact Hin | now rewrite !fold_amend_entry_fst].
  rewrite <- !fold_left_app. fold (job_defects names (name, YDict fields)).
  apply fold_amend_entry_own. apply Forall_forall. intros x Hx.
  unfold aims. rewrite (job_defects_target names _ x Hx). cbn [fst].
  apply py_eq_name_refl. apply (proj1 (forallb_forall is_name names) names_ok).
  now apply (in_map fst _ _ Hin).
Qed.

Lemma jobs_repaired :
  let jobs' := fold_left amend defects jobs in
  map fst jobs' = names
  /\ forallb github_job_ok (map snd jobs') = true
  /\ flat_map steps_defects jobs' ++ flat_map (needs_defects names) jobs'
     ++ flat_map runner_defects jobs' = [].
Proof.
  cbv zeta. rewrite fold_amend.
  assert (H : forall e', In e' (map (fun e => fold_left amend_entry defects e) jobs) ->
              github_job_ok (snd e') = true /\ job_defects names e' = []).
  { intros e' He'. apply in_map_iff in He'. destruct He' as ([name job] & <- & Hin).
    destruct (jobs_ok name job Hin) as (fields & -> & W).
    rewrite (job_after_patches name fields Hin). cbn [snd].
    exact (job_repaired names name fields W). }
  split; [| split].
  - rewrite map_map. apply map_ext. intros e. apply fold_amend_entry_fst.
  - apply forallb_forall. intros job Hj. apply in_map_iff in Hj.
    destruct Hj as (e' & <- & He'). now apply H.
  - assert (Z : forall e', In e' (map (fun e => fold_left amend_entry defects e) jobs) ->
                steps_defects e' = [] /\ needs_defects names e' = []
                /\ runner_defects e' = []).
    { intros e' He'. destruct (H e' He') as (_ & D). unfold job_defects in D.
      apply app_eq_nil in D. destruct D as (D1 & D). apply app_eq_nil in D. now destruct D. }
    rewrite !flat_map_nothing; [reflexivity | | |]; intros e' He'; now apply Z.
Qed.

End Jobs.

Lemma well_formed_with_jobs d jobs :
  d <> [] ->
  dict_find (YStr "jobs") d = Some (YDict jobs) ->
  forallb is_name (map fst jobs) = true ->
  distinct (map fst jobs) = true ->
  forallb github_job_ok (map snd jobs) = true ->
  github_well_formed (YDict d) = true.
Proof.
  intros N J H1 H2 H3. unfold github_well_formed. rewrite J, H1, H2, H3.
  destruct d; [contradiction | reflexivity].
Qed.

(** The patches of a report of the defects of a workflow of the usual shape
    all apply, and leave the repaired workflow, which is of the usual shape
    and without defect. *)
Lemma github_patched d fs :
  github_well_formed (YDict d) = true ->
  Forall2 github_reports fs (github_defects (YDict d)) ->
  patch_all github_patch fs (YDict d) = Ok (YDict (github_repaired d))
  /\ github_well_formed (YDict (github_repaired d)) = true
  /\ github_defects (YDict (github_repaired d)) = [].
Proof.
  intros W Hf. destruct (github_jobs_ok d W) as (Nd & J).
  unfold github_defects in Hf. unfold dict_mem in Hf at 1.
  unfold github_repaired.
  destruct (dict_find (YStr "jobs") d) as [[| | | | | | jobs] |] eqn:E; try contradiction.
  - (* the workflow has jobs *)
    destruct J as (N & D & J). cbn [app] in Hf.
    apply Forall2_app_inv_r in Hf. destruct Hf as (fs1 & fs2 & H1 & H2 & ->).
    rewrite patch_all_app.
    set (d1 := github_with_triggers d).
    assert (P1 : patch_all github_patch fs1 (YDict d) = Ok (YDict d1)
                 /\ d1 <> [] /\ dict_mem (YStr "on") d1 = true
                 /\ dict_find (YStr "jobs") d1 = Some (YDict jobs)).
    { unfold d1, github_with_triggers. destruct (dict_mem (YStr "on") d) eqn:O.
      - inversion H1; subst. now repeat split.
      - inversion H1 as [| f ? ? ? T H1']; subst. inversion H1'; subst.
        cbn [github_reports] in T.
        split; [| split; [apply dict_set_nonempty | split]].
        + cbn [patch_all]. unfold github_patch. rewrite !(type_is_of f _ _ T).
          cbn [String.eqb Ascii.eqb Bool.eqb]. reflexivity.
        + unfold dict_mem. now rewrite dict_find_set_same.
        + rewrite dict_find_set_other by discriminate. exact E. }
    destruct P1 as (P1 & Nd1 & O1 & J1). rewrite P1. cbn [res_bind]. clearbody d1.
    rewrite (patch_all_amend _ fs2 jobs d1 H2 (defects_are_job_defects jobs N J) D
               (jobs_are_dicts jobs J) J1).
    destruct (jobs_repaired jobs N D J) as (K' & W' & Z').
    split; [reflexivity |]. split.
    + apply well_formed_with_jobs with (fold_left amend
        (flat_map steps_defects jobs ++ flat_map (needs_defects (map fst jobs)) jobs
         ++ flat_map runner_defects jobs) jobs);
        [apply dict_set_nonempty | apply dict_find_set_same | | | exact W'];
        now rewrite K'.
    + unfold github_defects. unfold dict_mem at 1. rewrite dict_find_set_same.
      unfold dict_mem. rewrite dict_find_set_other by discriminate.
      unfold dict_mem in O1. destruct (dict_find (YStr "on") d1); [| discriminate O1].
      cbn [app]. rewrite K'. exact Z'.
  - (* the workflow has no jobs *)
    inversion Hf as [| f ? fs1 ? T H1]; subst. cbn [github_reports] in T.
    assert (P0 : github_patch (YDict d) f
                 = Ok (YDict (dict_set (YStr "jobs") github_default_jobs d))).
    { unfold github_patch. rewrite !(type_is_of f _ _ T).
      cbn [String.eqb Ascii.eqb Bool.eqb]. reflexivity. }
    cbn [patch_all]. rewrite P0. cbn [res_bind].
    rewrite app_nil_r in H1.
    assert (O0 : dict_mem (YStr "on") (dict_set (YStr "jobs") github_default_jobs d)
                 = dict_mem (YStr "on") d).
    { unfold dict_mem. now rewrite dict_find_set_other by discriminate. }
    set (d1 := github_with_triggers (dict_set (YStr "jobs") github_default_jobs d)).
    assert (P1 : patch_all github_patch fs1
                   (YDict (dict_set (YStr "jobs") github_default_jobs d)) = Ok (YDict d1)
                 /\ d1 <> [] /\ dict_mem (YStr "on") d1 = true
                 /\ dict_find (YStr "jobs") d1 = Some github_default_jobs).
    { unfold d1, github_with_triggers. rewrite O0.
      destruct (dict_mem (YStr "on") d) eqn:O.
      - inversion H1; subst. split; [reflexivity |].
        split; [apply dict_set_nonempty |]. split; [| apply dict_find_set_same].
        now rewrite O0.
      - inversion H1 as [| f' ? ? ? T' H1']; subst. inversion H1'; subst.
        cbn [github_reports] in T'. split; [| split; [apply dict_set_nonempty | split]].
        + cbn [patch_all]. unfold github_patch. rewrite !(type_is_of f' _ _ T').
          cbn [String.eqb Ascii.eqb Bool.eqb]. reflexivity.
        + unfold dict_mem. now rewrite dict_find_set_same.
        + rewrite dict_find_set_other by discriminate. apply dict_find_set_same. }
    destruct P1 as (P1 & Nd1 & O1 & J1). clearbody d1.
    split; [exact P1 |]. split.
    + now apply well_formed_with_jobs with
        [(YStr "build",
          YDict [(YStr "runs-on", YStr "ubuntu-latest"); (YStr "steps", github_default_steps)])].
    + unfold github_defects, dict_mem. rewrite J1.
      unfold dict_mem in O1. destruct (dict_find (YStr "on") d1); [| discriminate O1].
      reflexivity.
Qed.

(** ** GitHub Actions: detection and patching of a workflow of the usual shape *)

Lemma github_detected (safe_load : string -> res pyval) text logs pipeline :
  safe_load text = Ok pipeline ->
  github_well_formed pipeline = true ->
  exists fs ws,
    detect_failures safe_load text "github_actions" logs
    = {| status := success; message := None; failures := Some fs; warnings := Some ws |}
    /\ Forall2 github_reports fs (github_defects pipeline).
Proof.
  intros L W. destruct (github_run pipeline logs W) as (fs & ws & F & H).
  exists fs, ws. split; [| exact F].
  rewrite detect_github. unfold _detect_github_actions_failures, guarded, bind, lift.
  rewrite L.
  assert (T : truthy pipeline = true).
  { destruct pipeline; try discriminate W. unfold github_well_formed in W.
    now apply andb_prop in W. }
  rewrite T. cbn [negb]. rewrite (H fresh_report present_fresh). reflexivity.
Qed.

(** X11.  On a workflow of the usual shape (a non-empty mapping whose
    [jobs], if any, map non-empty names to mappings with a list of steps
    and dependencies given by non-empty names) detection succeeds, and its
    failures are the defects of the workflow, one for one and in order: no
    [jobs]; no [on]; then for each job no steps; then for each job each
    dependency that names no job; then for each job no [runs-on]. *)
Theorem github_failures_are_the_defects :
  forall (safe_load : string -> res pyval) text logs pipeline,
    safe_load text = Ok pipeline ->
    github_well_formed pipeline = true ->
    let report := detect_failures safe_load text "github_actions" logs in
    status report = success
    /\ message report = None
    /\ Forall2 github_reports (failures_or_empty report) (github_defects pipeline).
Proof.
  intros safe_load text logs pipeline L W report.
  destruct (github_detected safe_load text logs pipeline L W) as (fs & ws & E & F).
  subst report. rewrite E. now repeat split.
Qed.

Lemma github_failures_are_the_defects_witness :
  let report := detect_failures Yaml.safe_load github_with_invalid_need "github_actions" None in
  status report = success
  /\ message report = None
  /\ Forall2 github_reports (failures_or_empty report) [BadNeed (YStr "build") (YStr "x")].
Proof.
  assert (L : Yaml.safe_load github_with_invalid_need
              = Ok (YDict [(YStr "on", YStr "push");
                           (YStr "jobs", YDict jobs_with_invalid_need)]))
    by (vm_compute; reflexivity).
  exact (github_failures_are_the_defects Yaml.safe_load github_with_invalid_need None _
           L eq_refl).
Defined.

(** X12.  Patching a workflow of the usual shape with the report that
    detection made of it resolves every failure.  Detection succeeds, and
    the repaired workflow is again of the usual shape; whenever the
    serialiser writes the repaired workflow as a text, that text is what
    the patcher returns; it loads to the repaired workflow, and detection
    on it succeeds with no failure at all.  The loader and the serialiser
    are those of the block-style fragment. *)
Theorem github_fix_resolves_every_failure :
  forall text logs d out,
    Yaml.safe_load text = Ok (YDict d) ->
    github_well_formed (YDict d) = true ->
    Yaml.dump (YDict (github_repaired d)) = Ok out ->
    let report := detect_failures Yaml.safe_load text "github_actions" logs in
    status report = success
    /\ github_well_formed (YDict (github_repaired d)) = true
    /\ fix_failures Yaml.safe_load Yaml.dump text "github_actions" report = Some out
    /\ Yaml.safe_load out = Ok (YDict (github_repaired d))
    /\ forall logs',
         let report' := detect_failures Yaml.safe_load out "github_actions" logs' in
         status report' = success /\ failures report' = Some [].
Proof.
  intros text logs d out L W O report.
  destruct (github_detected Yaml.safe_load text logs (YDict d) L W) as (fs & ws & E & F).
  subst report. rewrite E. split; [reflexivity |].
  destruct (github_patched d fs W F) as (P & W' & Z).
  split; [exact W' |].
  assert (L' : Yaml.safe_load out = Ok (YDict (github_repaired d))).
  { apply (patched_loads github_patch text (YDict d) fs _ out L); [| exact P | exact O].
    apply Forall_forall. intros f _. apply github_patch_keeps. }
  split; [| split; [exact L' |]].
  - rewrite fix_github. unfold _fix_github_actions_failures, patch_document. rewrite L.
    assert (T : truthy (YDict d) = true).
    { unfold github_well_formed in W. now apply andb_prop in W. }
    rewrite T. cbn [negb failures_or_empty failures]. rewrite P. cbn [res_bind].
    now rewrite O.
  - intros logs' report'.
    destruct (github_detected Yaml.safe_load out logs' _ L' W') as (fs' & ws' & E' & F').
    subst report'. rewrite E'. rewrite Z in F'. inversion F'. now split.
Qed.

Lemma github_fix_resolves_every_failure_witness :
  let report := detect_failures Yaml.safe_load github_scenario "github_actions" None in
  status report = success
  /\ fix_failures Yaml.safe_load Yaml.dump github_scenario "github_actions" report
     = Some github_scenario_repaired
  /\ forall logs',
       let report' :=
         detect_failures Yaml.safe_load github_scenario_repaired "github_actions" logs' in
       status report' = success /\ failures report' = Some [].
Proof.
  assert (L : Yaml.safe_load github_scenario
              = Ok (YDict [(YBool true, YDict [(YStr "push", YDict [])]);
                           (YStr "jobs",
                            YDict [(YStr "build",
                                    YDict [(YStr "steps",
                                            YList [YDict [(YStr "run",
                                                           YStr "echo hi")]])])])]))
    by (vm_compute; reflexivity).
  assert (O : Yaml.dump (YDict (github_repaired
                 [(YBool true, YDict [(YStr "push", YDict [])]);
                  (YStr "jobs",
                   YDict [(YStr "build",
                           YDict [(YStr "steps",
                                   YList [YDict [(YStr "run", YStr "echo hi")]])])])]))
              = Ok github_scenario_repaired)
    by (vm_compute; reflexivity).
  destruct (github_fix_resolves_every_failure github_scenario None
              _ _ L eq_refl O) as (S & _ & F & _ & D).
  split; [exact S |]. split; [exact F | exact D].
Defined.

(** ** Jenkins: a text without a pipeline block *)

Lemma begins_add_failure f : preserves begins_with_missing_pipeline (add_failure f).
Proof.
  intros r (f0 & rest & F & T). unfold add_failure. rewrite F. cbn [fst].
  exists f0, (rest ++ [f]). now split.
Qed.

Lemma begins_add_warning w : preserves begins_with_missing_pipeline (add_warning w).
Proof.
  intros r (f0 & rest & F & T). unfold add_warning.
  destruct (warnings r); cbn [fst]; exists f0, rest; now split.
Qed.

Lemma begins_scan_logs logs permission_fix third :
  preserves begins_with_missing_pipeline (scan_logs logs permission_fix third).
Proof.
  unfold scan_logs. destruct logs; [| apply preserves_ret].
  repeat first [ apply preserves_when; intros _
               | apply preserves_bind; [| intros _]
               | apply begins_add_warning ].
Qed.

Lemma jenkins_without_pipeline text logs :
  found_in Pat.pipeline_block text = false ->
  begins_with_missing_pipeline (_detect_jenkins_failures text logs).
Proof.
  intros H. unfold _detect_jenkins_failures, guarded.
  assert (B : begins_with_missing_pipeline (fst (jenkins_checks text logs fresh_report))).
  { unfold jenkins_checks. rewrite H. cbn [negb when].
    unfold bind at 1. cbn [add_failure fresh_report failures app].
    match goal with
    | |- begins_with_missing_pipeline (fst (?k ?r)) =>
        assert (HK : preserves begins_with_missing_pipeline k);
          [| apply HK; eexists _, []; split; reflexivity]
    end.
    repeat preserves_step;
      first [apply begins_add_failure | apply begins_add_warning | apply begins_scan_logs]. }
  destruct (jenkins_checks text logs fresh_report) as [r [[] | e]]; [exact B |].
  destruct B as (f & rest & F & T). exists f, rest. now split.
Qed.

(** X13.  A Jenkinsfile without a [pipeline] block is not patched but
    replaced.  When the text has no match of the pattern of a pipeline
    block, what [fix_failures] answers for the report of that text does not
    depend on the text: the first patch puts the default pipeline in its
    place, and the others work on that. *)
Theorem jenkins_text_without_pipeline_is_replaced :
  forall (safe_load : string -> res pyval) (dump : pyval -> res string) text logs other,
    found_in Pat.pipeline_block text = false ->
    fix_failures safe_load dump text "jenkins"
      (detect_failures safe_load text "jenkins" logs)
    = fix_failures safe_load dump other "jenkins"
        (detect_failures safe_load text "jenkins" logs).
Proof.
  intros safe_load dump text logs other H.
  rewrite !fix_jenkins, detect_jenkins. unfold _fix_jenkins_failures, failures_or_empty.
  destruct (jenkins_without_pipeline text logs H) as (f & rest & -> & T).
  cbn [patch_all]. unfold jenkins_patch at 1 3. rewrite (type_is_of f _ _ T).
  reflexivity.
Qed.

Lemma jenkins_text_without_pipeline_is_replaced_witness :
  fix_failures Yaml.safe_load Yaml.dump "node { sh 'make' }" "jenkins"
    (detect_failures Yaml.safe_load "node { sh 'make' }" "jenkins" None)
  = fix_failures Yaml.safe_load Yaml.dump "" "jenkins"
      (detect_failures Yaml.safe_load "node { sh 'make' }" "jenkins" None).
Proof.
  apply (jenkins_text_without_pipeline_is_replaced Yaml.safe_load Yaml.dump
           "node { sh 'make' }" None "").
  vm_compute. reflexivity.
Defined.

(** ** GitLab CI: the checks on a file of the usual shape *)

Lemma is_job_entry_is_job key value :
  is_job_entry key value = Ok (is_job (key, value)).
Proof.
  unfold is_job_entry, is_job. cbn [fst snd]. destruct (is_dict value); reflexivity.
Qed.

Lemma looks_like_job_has_script value : looks_like_job value = Ok (has_script value).
Proof.
  unfold looks_like_job, has_script. destruct value; try reflexivity.
  cbn [is_dict py_in hashable res_bind]. now destruct (dict_mem (YStr "script") d).
Qed.

Lemma count_jobs_counts d : forall n,
  exists m, count_jobs d n = Ok m
            /\ (m =? 0)%nat = (n =? 0)%nat && negb (existsb has_script (map snd d)).
Proof.
  induction d as [| [k v] d IH]; intros n.
  - exists n. split; [reflexivity |]. now rewrite andb_true_r.
  - cbn [count_jobs map snd existsb]. rewrite looks_like_job_has_script. cbn [res_bind].
    destruct (has_script v).
    + destruct (IH (n + 1)) as (m & -> & E). exists m. split; [reflexivity |].
      rewrite E. replace (n + 1 =? 0)%nat with false by (symmetry; apply Nat.eqb_neq; lia).
      cbn [orb negb andb]. now rewrite andb_false_r.
    + destruct (IH n) as (m & -> & E). exists m. now split.
Qed.

Lemma gitlab_missing_script_yields key value :
  yields gitlab_reports (gitlab_missing_script key value) tt (script_defects (key, value)).
Proof.
  unfold gitlab_missing_script, script_defects.
  apply yields_bind_lift with (is_job (key, value)); [apply is_job_entry_is_job |].
  destruct (is_job (key, value)) eqn:J; cbn [when andb]; [| apply yields_ret].
  unfold is_job in J. cbn [fst snd] in *. apply andb_prop in J. destruct J as (Dv & _).
  destruct value as [| | | | | | fields]; try discriminate Dv. cbn [has_script].
  apply yields_bind_lift with (dict_mem (YStr "script") fields); [reflexivity |].
  apply yields_bind_lift
    with (dict_mem (YStr "script") fields || dict_mem (YStr "extends") fields)%bool.
  { now destruct (dict_mem (YStr "script") fields). }
  apply yields_when. apply yields_add_failure. now split.
Qed.

Lemma gitlab_variables_yields defined_vars key value :
  yields gitlab_reports (gitlab_variables defined_vars key value) tt [].
Proof.
  unfold gitlab_variables.
  apply yields_bind_lift with (is_job (key, value)); [apply is_job_entry_is_job |].
  apply yields_when_nothing. apply yields_nothing. intros var _.
  apply yields_bind_lift with (existsb (py_eq (YStr var)) defined_vars); [reflexivity |].
  apply yields_when_nothing, yields_add_warning.
Qed.

Lemma gitlab_stage_yields stages key value :
  gitlab_entry_ok value = true ->
  yields gitlab_reports (gitlab_stage stages key value) tt (stage_defects stages (key, value)).
Proof.
  intros W. unfold gitlab_stage, stage_defects.
  apply yields_bind_lift with (is_job (key, value)); [apply is_job_entry_is_job |].
  destruct (is_job (key, value)) eqn:J; cbn [when]; [| apply yields_ret].
  unfold is_job in J. cbn [fst snd] in *. apply andb_prop in J. destruct J as (Dv & _).
  destruct value as [| | | | | | fields]; try discriminate Dv. cbn [gitlab_entry_ok] in W.
  apply yields_bind_lift with (dict_mem (YStr "stage") fields); [reflexivity |].
  unfold dict_mem. destruct (dict_find (YStr "stage") fields) as [stage |] eqn:E;
    cbn [when]; [| apply yields_ret].
  apply yields_bind_lift with stage; [cbn [py_getitem hashable]; now rewrite E |].
  apply yields_bind_lift with (existsb (py_eq stage) stages).
  { unfold set_in. now rewrite (is_name_hashable _ W). }
  destruct (existsb (py_eq stage) stages); cbn [negb when]; [apply yields_ret |].
  apply yields_bind_lift with stage; [cbn [py_getitem hashable]; now rewrite E |].
  apply yields_add_failure. now repeat split.
Qed.

Lemma gitlab_parts d :
  gitlab_well_formed (YDict d) = true ->
  d <> []
  /\ forallb is_name (map fst d) = true
  /\ distinct (map fst d) = true
  /\ match dict_find (YStr "stages") d with
     | None => true
     | Some (YList l) => forallb is_name l
     | Some _ => false
     end = true
  /\ match dict_find (YStr "variables") d with
     | None | Some (YDict _) => true
     | Some _ => false
     end = true
  /\ forallb gitlab_entry_ok (map snd d) = true.
Proof.
  unfold gitlab_well_formed. intros H.
  repeat (apply andb_prop in H; destruct H as (H & ?)).
  repeat split; auto. intros ->. discriminate H.
Qed.

(** On a file of the usual shape the checks return, and the failures they
    append report its defects, one for one and in order. *)
Lemma gitlab_run pipeline logs :
  gitlab_well_formed pipeline = true ->
  yields gitlab_reports (gitlab_checks pipeline logs) tt (gitlab_defects pipeline).
Proof.
  intros W. destruct pipeline as [| | | | | | d]; try discriminate W.
  destruct (gitlab_parts d W) as (_ & _ & _ & S & V & E).
  assert (He : forall key value, In (key, value) d -> gitlab_entry_ok value = true).
  { intros key value H. apply (proj1 (forallb_forall gitlab_entry_ok (map snd d)) E).
    apply in_map_iff. now exists (key, value). }
  unfold gitlab_checks, gitlab_defects.
  apply yields_bind_lift with (dict_mem (YStr "stages") d); [reflexivity |].
  apply (yields_bind _ _ tt tt [] _); [apply yields_when_nothing, yields_add_warning |].
  apply yields_bind_lift with d; [reflexivity |].
  destruct (count_jobs_counts d 0) as (m & C & Z). cbn [Nat.eqb andb] in Z.
  apply yields_bind_lift with m; [exact C |].
  apply yields_bind with tt.
  { rewrite Z. destruct (existsb has_script (map snd d)); cbn [negb when];
      [apply yields_ret | now apply yields_add_failure]. }
  apply yields_bind_lift with d; [reflexivity |].
  apply yields_bind with tt.
  { apply yields_for_each. intros [key value] _. apply gitlab_missing_script_yields. }
  apply yields_bind_lift with (dict_mem (YStr "variables") d); [reflexivity |].
  apply (yields_bind _ _ tt tt [] _).
  { unfold dict_mem. destruct (dict_find (YStr "variables") d) as [variables |] eqn:Ev;
      cbn [when]; [| apply yields_ret].
    destruct variables as [| | | | | | vars]; try discriminate V.
    apply yields_bind_lift with (YDict vars); [cbn [py_getitem hashable]; now rewrite Ev |].
    apply yields_bind_lift with (map fst vars); [reflexivity |].
    apply yields_bind_lift with d; [reflexivity |].
    apply yields_nothing. intros [key value] _. apply gitlab_variables_yields. }
  apply yields_bind_lift with (dict_mem (YStr "stages") d); [reflexivity |].
  rewrite <- (app_nil_r (match dict_find (YStr "stages") d with
                         | Some (YList stages) => flat_map (stage_defects stages) d
                         | _ => []
                         end)).
  apply yields_bind with tt; [| apply yields_scan_logs].
  unfold dict_mem. destruct (dict_find (YStr "stages") d) as [stages |] eqn:Es;
    cbn [when]; [| apply yields_ret].
  destruct stages as [| | | | | l |]; try discriminate S.
  apply yields_bind_lift with (YList l); [cbn [py_getitem hashable]; now rewrite Es |].
  apply yields_bind_lift with l.
  { unfold py_set. cbn [py_iter res_bind].
    assert (H : forallb hashable l = true).
    { apply forallb_forall. intros x Hx. apply is_name_hashable.
      now apply (proj1 (forallb_forall is_name l) S). }
    now rewrite H. }
  apply yields_bind_lift with d; [reflexivity |].
  apply yields_for_each. intros [key value] Hin. apply gitlab_stage_yields.
  now apply He with key.
Qed.

(** ** GitLab CI: the patches of one report *)

Lemma gitlab_patch_amend d f x :
  gitlab_reports f x ->
  gitlab_patchable d x ->
  gitlab_patch (YDict d) f = Ok (YDict (gitlab_amend d x)).
Proof.
  intros Hf Hx. unfold gitlab_patch. destruct x as [| job | job stage]; cbn [gitlab_reports] in Hf.
  - rewrite !(type_is_of f _ _ Hf). cbn [String.eqb Ascii.eqb Bool.eqb]. reflexivity.
  - destruct Hf as (T & J). destruct Hx as (N & fields & F).
    rewrite !(type_is_of f _ _ T), J. cbn [String.eqb Ascii.eqb Bool.eqb]. cbv zeta.
    destruct (is_name_str _ N) as (n & ->).
    unfold names_an_entry. rewrite (is_name_truthy _ N). cbn [py_in hashable res_bind].
    unfold dict_mem. rewrite F. unfold update_at. cbn [py_getitem hashable]. rewrite F.
    cbn [res_bind py_setitem hashable gitlab_amend]. now rewrite F.
  - destruct Hf as (T & J & S). destruct Hx as (N & Ns & M & stages & F).
    rewrite !(type_is_of f _ _ T), J, S. cbn [String.eqb Ascii.eqb Bool.eqb]. cbv zeta.
    destruct (is_name_str _ N) as (n & ->).
    rewrite (is_name_truthy _ N), (is_name_truthy _ Ns). cbn [py_in hashable res_bind].
    rewrite M. unfold dict_mem. rewrite F. cbn [negb py_getitem hashable]. rewrite F.
    cbn [res_bind py_in gitlab_amend]. rewrite F.
    destruct (existsb (py_eq stage) stages); cbn [negb]; [reflexivity |].
    unfold update_at. cbn [py_getitem hashable]. rewrite F. reflexivity.
Qed.

Lemma dict_find_set k v d k' :
  is_name k = true -> is_name k' = true ->
  dict_find k' (dict_set k v d) = if py_eq k' k then Some v else dict_find k' d.
Proof.
  intros N N'. destruct (is_name_str _ N) as (n & ->). destruct (is_name_str _ N') as (n' & ->).
  cbn [py_eq]. destruct (String.eqb_spec n' n) as [-> | Hn].
  - apply dict_find_set_same.
  - apply dict_find_set_other. congruence.
Qed.

(** A patch leaves the other defects patchable. *)
Lemma gitlab_patchable_set d k v y :
  is_name k = true ->
  (forall fields, dict_find k d = Some (YDict fields) -> is_dict v = true) ->
  (forall l, k = YStr "stages" -> dict_find k d = Some (YList l) -> is_list v = true) ->
  gitlab_patchable d y -> gitlab_patchable (dict_set k v d) y.
Proof.
  intros N Hd Hl Hy. destruct (is_name_str _ N) as (n & ->).
  destruct y as [| job | job stage]; cbn [gitlab_patchable] in *; [exact I | |].
  - destruct Hy as (Nj & fields & F). split; [exact Nj |].
    rewrite (dict_find_set _ v d job N Nj). destruct (py_eq job (YStr n)) eqn:E; [| eauto].
    apply py_eq_str_r in E. subst job.
    assert (D := Hd fields F). destruct v; try discriminate D. eauto.
  - destruct Hy as (Nj & Ns & M & stages & F). split; [exact Nj |]. split; [exact Ns |].
    split.
    + unfold dict_mem in *. rewrite (dict_find_set _ v d job N Nj).
      now destruct (py_eq job (YStr n)).
    + rewrite (dict_find_set _ v d (YStr "stages") N eq_refl).
      destruct (py_eq (YStr "stages") (YStr n)) eqn:E; [| eauto].
      apply py_eq_str_l in E. injection E as ->.
      assert (D := Hl stages eq_refl F). destruct v; try discriminate D. eauto.
Qed.

Lemma gitlab_patchable_amend d x y :
  gitlab_patchable d x -> gitlab_patchable d y -> gitlab_patchable (gitlab_amend d x) y.
Proof.
  intros Hx Hy. destruct x as [| job | job stage]; cbn [gitlab_amend gitlab_patchable] in *.
  - apply gitlab_patchable_set; [reflexivity | reflexivity | discriminate | exact Hy].
  - destruct Hx as (N & fields & F). rewrite F.
    apply gitlab_patchable_set; [exact N | reflexivity | | exact Hy].
    intros l -> Fl. rewrite F in Fl. discriminate Fl.
  - destruct Hx as (N & Ns & M & stages & F). rewrite F.
    destruct (existsb (py_eq stage) stages); [exact Hy |].
    apply gitlab_patchable_set; [reflexivity | | reflexivity | exact Hy].
    intros fields Fd. rewrite F in Fd. discriminate Fd.
Qed.

Lemma gitlab_patch_all xs : forall fs d,
  Forall2 gitlab_reports fs xs ->
  Forall (gitlab_patchable d) xs ->
  patch_all gitlab_patch fs (YDict d) = Ok (YDict (fold_left gitlab_amend xs d)).
Proof.
  induction xs as [| x xs IH]; intros fs d Hf Hx.
  - inversion Hf; subst. reflexivity.
  - inversion Hf as [| f ? fs' ? Hfx Hfs]; subst.
    inversion Hx as [| ? ? Px Pxs]; subst.
    cbn [patch_all fold_left]. rewrite (gitlab_patch_amend d f x Hfx Px). cbn [res_bind].
    apply IH; [exact Hfs |].
    eapply Forall_impl; [| exact Pxs]. intros y. now apply gitlab_patchable_amend.
Qed.

(** Without [NoJob] a patch rewrites the entries one by one. *)
Lemma gitlab_amend_as_map d x :
  is_no_job x = false ->
  distinct (map fst d) = true ->
  gitlab_patchable d x ->
  gitlab_amend d x = map (fun e => gitlab_amend_entry e x) d.
Proof.
  intros Hn D Hx. destruct x as [| job | job stage]; [discriminate | |];
    cbn [gitlab_amend gitlab_patchable gitlab_amend_entry] in *.
  - destruct Hx as (N & fields & F). rewrite F. destruct (is_name_str _ N) as (n & ->).
    rewrite dict_set_as_map; [| exact D | now apply dict_mem_find with (YDict fields)].
    apply map_ext_in. intros [k v] Hin. cbn [fst snd].
    destruct (py_eq (YStr n) k) eqn:E; [| reflexivity].
    apply py_eq_str_l in E. subst k.
    rewrite (in_dict_find n v d D Hin) in F. now injection F as ->.
  - destruct Hx as (N & Ns & M & stages & F). rewrite F.
    destruct (existsb (py_eq stage) stages) eqn:S.
    + rewrite <- (map_id d) at 1. apply map_ext_in. intros [k v] Hin. cbn [fst snd].
      destruct (py_eq (YStr "stages") k) eqn:E; [| reflexivity].
      apply py_eq_str_l in E. subst k.
      rewrite (in_dict_find "stages" v d D Hin) in F. injection F as ->. now rewrite S.
    + rewrite dict_set_as_map; [| exact D | now apply dict_mem_find with (YList stages)].
      apply map_ext_in. intros [k v] Hin. cbn [fst snd].
      destruct (py_eq (YStr "stages") k) eqn:E; [| reflexivity].
      apply py_eq_str_l in E. subst k.
      rewrite (in_dict_find "stages" v d D Hin) in F. injection F as ->. now rewrite S.
Qed.

Lemma gitlab_amend_entry_fst e x : fst (gitlab_amend_entry e x) = fst e.
Proof.
  destruct x as [| job | job stage]; cbn [gitlab_amend_entry]; [reflexivity | |].
  - now destruct (py_eq job (fst e)).
  - now destruct (py_eq (YStr "stages") (fst e)).
Qed.

Lemma fold_gitlab_amend xs : forall d,
  (forall x, In x xs -> is_no_job x = false) ->
  distinct (map fst d) = true ->
  Forall (gitlab_patchable d) xs ->
  fold_left gitlab_amend xs d = map (fun e => fold_left gitlab_amend_entry xs e) d.
Proof.
  induction xs as [| x xs IH]; intros d Hn D Hx; cbn [fold_left].
  - now rewrite map_id.
  - inversion Hx as [| ? ? Px Pxs]; subst.
    rewrite (gitlab_amend_as_map d x (Hn x (or_introl eq_refl)) D Px).
    rewrite IH.
    + now rewrite map_map.
    + intros y Hy. apply Hn. now right.
    + rewrite map_map. erewrite map_ext; [exact D |]. intros e. apply gitlab_amend_entry_fst.
    + rewrite <- (gitlab_amend_as_map d x (Hn x (or_introl eq_refl)) D Px).
      eapply Forall_impl; [| exact Pxs]. intros y. now apply gitlab_patchable_amend.
Qed.

(** ** GitLab CI: the entries after the patches *)

Lemma fold_gitlab_entry_fst xs : forall e, fst (fold_left gitlab_amend_entry xs e) = fst e.
Proof.
  induction xs as [| x xs IH]; intros e; [reflexivity |].
  cbn [fold_left]. now rewrite IH, gitlab_amend_entry_fst.
Qed.

Lemma has_script_set fields v :
  has_script (YDict (dict_set (YStr "script") v fields)) = true.
Proof. cbn [has_script]. unfold dict_mem at 1. now rewrite dict_find_set_same. Qed.

(** A mapping stays a mapping with the same stage; it has [script] in the
    end if it had it or [extends] in the beginning, or if a patch asked
    for it. *)
Lemma fold_gitlab_entry_dict xs : forall k fields,
  exists fields',
    fold_left gitlab_amend_entry xs (k, YDict fields) = (k, YDict fields')
    /\ dict_find (YStr "stage") fields' = dict_find (YStr "stage") fields
    /\ (has_script (YDict fields) = true -> has_script (YDict fields') = true)
    /\ (forall job, In (NoScript job) xs -> py_eq job k = true ->
                    has_script (YDict fields') = true).
Proof.
  induction xs as [| x xs IH]; intros k fields.
  - exists fields. repeat split; auto; intros job [].
  - cbn [fold_left]. destruct x as [| job | job stage]; cbn [gitlab_amend_entry fst snd].
    + destruct (IH k fields) as (fields' & E & S & H & A). exists fields'.
      repeat split; auto. intros job [Hj | Hj] Ek; [discriminate | eauto].
    + destruct (py_eq job k) eqn:Ej.
      * destruct (IH k (dict_set (YStr "script") (YList [YStr "echo 'Running...'"]) fields))
          as (fields' & E & S & H & A).
        exists fields'. split; [exact E |].
        split; [rewrite S; now apply dict_find_set_other |].
        assert (Hs : has_script (YDict fields') = true) by (apply H, has_script_set).
        split; auto.
      * destruct (IH k fields) as (fields' & E & S & H & A). exists fields'.
        repeat split; auto. intros job' [Hj | Hj] Ek; [| eauto].
        injection Hj as ->. congruence.
    + assert (E0 : (if py_eq (YStr "stages") k then (k, YDict fields) else (k, YDict fields))
                   = (k, YDict fields)) by now destruct (py_eq (YStr "stages") k).
      rewrite E0. destruct (IH k fields) as (fields' & E & S & H & A). exists fields'.
      repeat split; auto. intros job' [Hj | Hj] Ek; [discriminate | eauto].
Qed.

(** The list of stages only grows, by the stages that the patches ask for. *)
Lemma fold_gitlab_entry_stages xs : forall l,
  forallb is_name l = true ->
  (forall job stage, In (BadStage job stage) xs -> is_name stage = true) ->
  exists l',
    fold_left gitlab_amend_entry xs (YStr "stages", YList l) = (YStr "stages", YList l')
    /\ forallb is_name l' = true
    /\ (forall stage, existsb (py_eq stage) l = true -> existsb (py_eq stage) l' = true)
    /\ (forall job stage, In (BadStage job stage) xs -> existsb (py_eq stage) l' = true).
Proof.
  induction xs as [| x xs IH]; intros l Hl Hx.
  - exists l. repeat split; auto; intros job stage [].
  - assert (Hx' : forall job stage, In (BadStage job stage) xs -> is_name stage = true)
      by (intros job stage H; apply (Hx job stage); now right).
    cbn [fold_left]. destruct x as [| job | job stage]; cbn [gitlab_amend_entry fst snd].
    + destruct (IH l Hl Hx') as (l' & E & N & M & A). exists l'.
      repeat split; auto. intros job stage [Hj | Hj]; [discriminate | eauto].
    + assert (E0 : (if py_eq job (YStr "stages")
                    then (YStr "stages", YList l) else (YStr "stages", YList l))
                   = (YStr "stages", YList l)) by now destruct (py_eq job (YStr "stages")).
      rewrite E0. destruct (IH l Hl Hx') as (l' & E & N & M & A). exists l'.
      repeat split; auto. intros job' stage [Hj | Hj]; [discriminate | eauto].
    + change (py_eq (YStr "stages") (YStr "stages")) with true. cbv iota.
      assert (Ns : is_name stage = true) by (apply (Hx job stage); now left).
      set (l1 := if existsb (py_eq stage) l then l else l ++ [stage]).
      assert (N1 : forallb is_name l1 = true).
      { unfold l1. destruct (existsb (py_eq stage) l); [exact Hl |].
        rewrite forallb_app, Hl. cbn [forallb]. now rewrite Ns. }
      assert (M1 : forall s, existsb (py_eq s) l = true -> existsb (py_eq s) l1 = true).
      { intros s Hs. unfold l1. destruct (existsb (py_eq stage) l); [exact Hs |].
        rewrite existsb_app, Hs. reflexivity. }
      assert (S1 : existsb (py_eq stage) l1 = true).
      { unfold l1. destruct (existsb (py_eq stage) l) eqn:E; [exact E |].
        rewrite existsb_app. cbn [existsb]. rewrite (py_eq_name_refl _ Ns).
        now rewrite orb_true_r. }
      destruct (IH l1 N1 Hx') as (l' & E & N & M & A). exists l'.
      split; [exact E |]. split; [exact N |]. split; [auto |].
      intros job' stage' [Hj | Hj]; [| eauto]. injection Hj as _ ->. auto.
Qed.

(** What is not a mapping does not become one. *)
Lemma fold_gitlab_entry_not_dict xs : forall e,
  is_dict (snd e) = false -> is_dict (snd (fold_left gitlab_amend_entry xs e)) = false.
Proof.
  induction xs as [| x xs IH]; intros e H; [exact H |].
  cbn [fold_left]. apply IH. destruct x as [| job | job stage]; cbn [gitlab_amend_entry].
  - exact H.
  - destruct (py_eq job (fst e)); [| exact H]. cbn [snd]. now destruct (snd e).
  - destruct (py_eq (YStr "stages") (fst e)); [| exact H]. cbn [snd]. now destruct (snd e).
Qed.

Lemma dict_find_map (G : pyval * pyval -> pyval * pyval) n d :
  (forall e, fst (G e) = fst e) ->
  dict_find (YStr n) (map G d)
  = match dict_find (YStr n) d with
    | Some v => Some (snd (G (YStr n, v)))
    | None => None
    end.
Proof.
  intros HG. induction d as [| [k v] d IH]; [reflexivity |].
  cbn [map dict_find]. assert (E := HG (k, v)). destruct (G (k, v)) as [k' v'] eqn:Eg.
  cbn [fst] in E. subst k'. destruct (py_eq (YStr n) k) eqn:Ek; [| exact IH].
  apply py_eq_str_l in Ek. subst k. now rewrite Eg.
Qed.

Lemma is_job_same e e' :
  fst e' = fst e -> is_dict (snd e') = is_dict (snd e) -> is_job e' = is_job e.
Proof. unfold is_job. now intros -> ->. Qed.

Lemma script_defects_in e x : In x (script_defects e) -> x = NoScript (fst e).
Proof.
  unfold script_defects. destruct (is_job e && negb (has_script (snd e)))%bool;
    [now intros [<- | []] | contradiction].
Qed.

Lemma stage_defects_in stages e x :
  In x (stage_defects stages e) ->
  exists fields stage,
    snd e = YDict fields /\ dict_find (YStr "stage") fields = Some stage
    /\ x = BadStage (fst e) stage.
Proof.
  unfold stage_defects. destruct (is_job e); [| contradiction].
  destruct (snd e) as [| | | | | | fields]; try contradiction.
  destruct (dict_find (YStr "stage") fields) as [stage |] eqn:E; [| contradiction].
  destruct (existsb (py_eq stage) stages); [contradiction |].
  intros [<- | []]. now exists fields, stage.
Qed.

Section GitlabFile.

Variable d : entries.
Hypothesis well_formed : gitlab_well_formed (YDict d) = true.

Local Abbreviation defects := (gitlab_job_defects d).
Local Abbreviation d' := (gitlab_repaired d).

Lemma gitlab_key_is_name k v : In (k, v) d -> is_name k = true.
Proof.
  intros H. destruct (gitlab_parts d well_formed) as (_ & N & _).
  apply (proj1 (forallb_forall is_name (map fst d)) N). now apply (in_map fst _ _ H).
Qed.

Lemma gitlab_entry_found k v : In (k, v) d -> dict_find k d = Some v.
Proof.
  intros H. destruct (is_name_str _ (gitlab_key_is_name k v H)) as (n & ->).
  apply in_dict_find; [| exact H]. apply (gitlab_parts d well_formed).
Qed.

Lemma gitlab_stage_is_name k fields stage :
  In (k, YDict fields) d -> dict_find (YStr "stage") fields = Some stage ->
  is_name stage = true.
Proof.
  intros H S. destruct (gitlab_parts d well_formed) as (_ & _ & _ & _ & _ & E).
  assert (X : gitlab_entry_ok (YDict fields) = true).
  { apply (proj1 (forallb_forall gitlab_entry_ok (map snd d)) E).
    apply in_map_iff. now exists (k, YDict fields). }
  cbn [gitlab_entry_ok] in X. now rewrite S in X.
Qed.

Lemma gitlab_defects_not_no_job x : In x defects -> is_no_job x = false.
Proof.
  unfold gitlab_job_defects. intros H. apply in_app_or in H. destruct H as [H | H].
  - apply in_flat_map in H. destruct H as (e & _ & H). now rewrite (script_defects_in e x H).
  - destruct (dict_find (YStr "stages") d) as [[| | | | | l |] |]; try contradiction.
    apply in_flat_map in H. destruct H as (e & _ & H).
    destruct (stage_defects_in l e x H) as (fields & stage & _ & _ & ->). reflexivity.
Qed.

Lemma gitlab_bad_stage_is_name job stage :
  In (BadStage job stage) defects -> is_name stage = true.
Proof.
  unfold gitlab_job_defects. intros H. apply in_app_or in H. destruct H as [H | H].
  - apply in_flat_map in H. destruct H as (e & _ & H).
    apply script_defects_in in H. discriminate H.
  - destruct (dict_find (YStr "stages") d) as [[| | | | | l |] |]; try contradiction.
    apply in_flat_map in H. destruct H as ([k v] & He & H).
    destruct (stage_defects_in l _ _ H) as (fields & stage' & Ev & S & E).
    cbn [fst snd] in *. subst v. injection E as _ ->.
    now apply gitlab_stage_is_name with k fields.
Qed.

Lemma gitlab_defects_patchable : Forall (gitlab_patchable d) defects.
Proof.
  apply Forall_forall. intros x H. unfold gitlab_job_defects in H.
  apply in_app_or in H. destruct H as [H | H].
  - apply in_flat_map in H. destruct H as ([k v] & He & H).
    assert (J : is_job (k, v) = true).
    { unfold script_defects in H. destruct (is_job (k, v)); [reflexivity | contradiction]. }
    rewrite (script_defects_in _ x H). cbn [fst gitlab_patchable].
    split; [now apply gitlab_key_is_name with v |].
    unfold is_job in J. cbn [fst snd] in J. apply andb_prop in J. destruct J as (Dv & _).
    destruct v as [| | | | | | fields]; try discriminate Dv.
    exists fields. now apply gitlab_entry_found.
  - destruct (dict_find (YStr "stages") d) as [[| | | | | l |] |] eqn:S; try contradiction.
    apply in_flat_map in H. destruct H as ([k v] & He & H).
    destruct (stage_defects_in l _ _ H) as (fields & stage & Ev & Es & ->).
    cbn [fst snd] in *. subst v. cbn [gitlab_patchable].
    split; [now apply gitlab_key_is_name with (YDict fields) |].
    split; [now apply gitlab_stage_is_name with k fields |].
    split; [apply dict_mem_find with (YDict fields); now apply gitlab_entry_found |].
    now exists l.
Qed.

Lemma gitlab_patched_as_map : fold_left gitlab_amend defects d = d'.
Proof.
  apply fold_gitlab_amend.
  - exact gitlab_defects_not_no_job.
  - apply (gitlab_parts d well_formed).
  - exact gitlab_defects_patchable.
Qed.

Lemma gitlab_patched_keys : map fst d' = map fst d.
Proof.
  unfold gitlab_repaired. rewrite map_map. apply map_ext. intros e. apply fold_gitlab_entry_fst.
Qed.

Lemma gitlab_patched_stages :
  match dict_find (YStr "stages") d with
  | Some (YList l) =>
      exists l',
        dict_find (YStr "stages") d' = Some (YList l')
        /\ forallb is_name l' = true
        /\ (forall stage, existsb (py_eq stage) l = true -> existsb (py_eq stage) l' = true)
        /\ (forall job stage, In (BadStage job stage) defects ->
                              existsb (py_eq stage) l' = true)
  | Some _ => False
  | None => dict_find (YStr "stages") d' = None
  end.
Proof.
  destruct (gitlab_parts d well_formed) as (_ & _ & _ & S & _).
  unfold gitlab_repaired. rewrite (dict_find_map (fun e => fold_left gitlab_amend_entry defects e) "stages" d
             (fold_gitlab_entry_fst defects)).
  destruct (dict_find (YStr "stages") d) as [[| | | | | l |] |]; try discriminate S;
    [| reflexivity].
  destruct (fold_gitlab_entry_stages defects l S gitlab_bad_stage_is_name)
    as (l' & E & N & M & A).
  exists l'. rewrite E. now repeat split.
Qed.

(** Every entry of the patched file comes from an entry of the file. *)
Lemma gitlab_patched_entry e' :
  In e' d' ->
  exists k v,
    In (k, v) d /\ fst e' = k /\ is_dict (snd e') = is_dict v
    /\ (is_dict v = true ->
        exists fields fields',
          v = YDict fields /\ snd e' = YDict fields'
          /\ dict_find (YStr "stage") fields' = dict_find (YStr "stage") fields
          /\ (has_script v = true -> has_script (snd e') = true)
          /\ (In (NoScript k) defects -> has_script (snd e') = true)).
Proof.
  unfold gitlab_repaired. intros H. apply in_map_iff in H. destruct H as ([k v] & <- & Hin).
  exists k, v. split; [exact Hin |]. split; [apply fold_gitlab_entry_fst |].
  destruct v as [| | | | | | fields];
    try (split; [now apply fold_gitlab_entry_not_dict | discriminate]).
  destruct (fold_gitlab_entry_dict defects k fields) as (fields' & E & S & Hs & A).
  rewrite E. cbn [snd is_dict]. split; [reflexivity |]. intros _.
  exists fields, fields'. repeat split; auto.
  intros Hn. apply (A k Hn). apply py_eq_name_refl. now apply gitlab_key_is_name with (YDict fields).
Qed.

Lemma gitlab_patched_well_formed : gitlab_well_formed (YDict d') = true.
Proof.
  destruct (gitlab_parts d well_formed) as (Nd & N & D & S & V & E).
  unfold gitlab_well_formed. rewrite gitlab_patched_keys, N, D.
  assert (T : truthy (YDict d') = true).
  { unfold gitlab_repaired. destruct d; [contradiction | reflexivity]. }
  rewrite T. cbn [andb].
  assert (S' : match dict_find (YStr "stages") d' with
               | None => true
               | Some (YList l) => forallb is_name l
               | Some _ => false
               end = true).
  { assert (H := gitlab_patched_stages).
    destruct (dict_find (YStr "stages") d) as [[| | | | | l |] |]; try contradiction.
    - destruct H as (l' & -> & Hn & _). exact Hn.
    - now rewrite H. }
  rewrite S'. cbn [andb].
  assert (V' : match dict_find (YStr "variables") d' with
               | None | Some (YDict _) => true
               | Some _ => false
               end = true).
  { unfold gitlab_repaired. rewrite (dict_find_map (fun e => fold_left gitlab_amend_entry defects e) "variables" d
               (fold_gitlab_entry_fst defects)).
    destruct (dict_find (YStr "variables") d) as [[| | | | | | vars] |]; try discriminate V;
      [| reflexivity].
    destruct (fold_gitlab_entry_dict defects (YStr "variables") vars) as (vars' & -> & _).
    reflexivity. }
  rewrite V'. cbn [andb].
  apply forallb_forall. intros v' Hv'. apply in_map_iff in Hv'.
  destruct Hv' as (e' & <- & He').
  destruct (gitlab_patched_entry e' He') as (k & v & Hin & _ & Dv & Hd).
  destruct (is_dict v) eqn:Ev.
  - destruct (Hd eq_refl) as (fields & fields' & -> & -> & St & _).
    cbn [gitlab_entry_ok]. rewrite St.
    assert (X : gitlab_entry_ok (YDict fields) = true).
    { apply (proj1 (forallb_forall gitlab_entry_ok (map snd d)) E).
      apply in_map_iff. now exists (k, YDict fields). }
    exact X.
  - now destruct (snd e').
Qed.

Lemma gitlab_patched_no_script_defect : flat_map script_defects d' = [].
Proof.
  apply flat_map_nothing. intros e' He'. unfold script_defects.
  destruct (is_job e') eqn:J; [| reflexivity]. cbn [andb].
  destruct (gitlab_patched_entry e' He') as (k & v & Hin & Ek & Dv & Hd).
  assert (Je : is_job (k, v) = true) by (rewrite <- J; symmetry; now apply is_job_same).
  assert (Dd : is_dict v = true).
  { unfold is_job in Je. cbn [snd] in Je. now apply andb_prop in Je. }
  destruct (Hd Dd) as (fields & fields' & -> & E' & _ & Hs & Hn).
  destruct (has_script (YDict fields)) eqn:S.
  - now rewrite (Hs eq_refl).
  - rewrite Hn; [reflexivity |]. unfold gitlab_job_defects. apply in_or_app. left.
    apply in_flat_map. exists (k, YDict fields). split; [exact Hin |].
    unfold script_defects. cbn [snd fst]. rewrite Je, S. now left.
Qed.

Lemma gitlab_patched_no_stage_defect :
  match dict_find (YStr "stages") d' with
  | Some (YList stages) => flat_map (stage_defects stages) d'
  | _ => []
  end = [].
Proof.
  assert (H := gitlab_patched_stages).
  destruct (dict_find (YStr "stages") d) as [[| | | | | l |] |] eqn:S; try contradiction;
    [| now rewrite H].
  destruct H as (l' & -> & _ & M & A).
  apply flat_map_nothing. intros e' He'. unfold stage_defects.
  destruct (is_job e') eqn:J; [| reflexivity].
  destruct (gitlab_patched_entry e' He') as (k & v & Hin & Ek & Dv & Hd).
  assert (Je : is_job (k, v) = true) by (rewrite <- J; symmetry; now apply is_job_same).
  assert (Dd : is_dict v = true).
  { unfold is_job in Je. cbn [snd] in Je. now apply andb_prop in Je. }
  destruct (Hd Dd) as (fields & fields' & -> & -> & St & _). rewrite St.
  destruct (dict_find (YStr "stage") fields) as [stage |] eqn:Es; [| reflexivity].
  destruct (existsb (py_eq stage) l) eqn:K.
  - now rewrite (M stage K).
  - rewrite (A k stage); [reflexivity |]. unfold gitlab_job_defects. rewrite S.
    apply in_or_app. right. apply in_flat_map. exists (k, YDict fields).
    split; [exact Hin |]. unfold stage_defects. cbn [fst snd]. rewrite Je, Es, K. now left.
Qed.

Lemma gitlab_patched_has_job :
  existsb has_script (map snd d) = true -> existsb has_script (map snd d') = true.
Proof.
  intros H. apply existsb_exists in H. destruct H as (v & Hv & Hs).
  apply in_map_iff in Hv. destruct Hv as ([k v0] & Ev & Hin). cbn [snd] in Ev. subst v0.
  destruct v as [| | | | | | fields]; try discriminate Hs.
  destruct (fold_gitlab_entry_dict defects k fields) as (fields' & E & _ & Hk & _).
  apply existsb_exists. exists (YDict fields'). split; [| now apply Hk].
  apply in_map_iff. exists (k, YDict fields'). split; [reflexivity |].
  unfold gitlab_repaired. rewrite <- E. now apply (in_map (fun e => fold_left gitlab_amend_entry defects e)).
Qed.

(** The patches of the report of a file that has a job all apply, and
    leave the repaired file, which is of the usual shape and without
    defect. *)
Lemma gitlab_patched fs :
  gitlab_has_job (YDict d) = true ->
  Forall2 gitlab_reports fs (gitlab_defects (YDict d)) ->
  patch_all gitlab_patch fs (YDict d) = Ok (YDict d')
  /\ gitlab_well_formed (YDict d') = true
  /\ gitlab_defects (YDict d') = [].
Proof.
  intros J Hf. cbn [gitlab_has_job] in J. unfold gitlab_defects in Hf. rewrite J in Hf.
  cbn [app] in Hf. fold (gitlab_job_defects d) in Hf.
  split; [| split].
  - rewrite (gitlab_patch_all defects fs d Hf gitlab_defects_patchable).
    now rewrite gitlab_patched_as_map.
  - exact gitlab_patched_well_formed.
  - unfold gitlab_defects. rewrite (gitlab_patched_has_job J).
    rewrite gitlab_patched_no_script_defect, gitlab_patched_no_stage_defect. reflexivity.
Qed.

End GitlabFile.

(** ** GitLab CI: detection and patching of a file of the usual shape *)

Lemma gitlab_detected (safe_load : string -> res pyval) text logs pipeline :
  safe_load text = Ok pipeline ->
  gitlab_well_formed pipeline = true ->
  exists fs ws,
    detect_failures safe_load text "gitlab_ci" logs
    = {| status := success; message := None; failures := Some fs; warnings := Some ws |}
    /\ Forall2 gitlab_reports fs (gitlab_defects pipeline).
Proof.
  intros L W. destruct (gitlab_run pipeline logs W) as (fs & ws & F & H).
  exists fs, ws. split; [| exact F].
  rewrite detect_gitlab. unfold _detect_gitlab_ci_failures, guarded, bind, lift.
  rewrite L.
  assert (T : truthy pipeline = true).
  { destruct pipeline as [| | | | | | d]; try discriminate W.
    now destruct (gitlab_parts d W) as (Nd & _); destruct d. }
  rewrite T. cbn [negb]. rewrite (H fresh_report present_fresh). reflexivity.
Qed.

(** X14.  On a GitLab CI file of the usual shape (a non-empty mapping under
    distinct non-empty string keys, with [stages] absent or a list of
    non-empty strings, [variables] absent or a mapping, and jobs that name
    their stage by a non-empty string) detection succeeds, and its failures
    are the defects of the file, one for one and in order: no entry at all
    that is a mapping with [script] or [extends]; then each mapping under a
    key that is not reserved and has neither; then, when [stages] is
    there, each such mapping whose [stage] is not in it. *)
Theorem gitlab_failures_are_the_defects :
  forall (safe_load : string -> res pyval) text logs pipeline,
    safe_load text = Ok pipeline ->
    gitlab_well_formed pipeline = true ->
    let report := detect_failures safe_load text "gitlab_ci" logs in
    status report = success
    /\ message report = None
    /\ Forall2 gitlab_reports (failures_or_empty report) (gitlab_defects pipeline).
Proof.
  intros safe_load text logs pipeline L W report.
  destruct (gitlab_detected safe_load text logs pipeline L W) as (fs & ws & E & F).
  subst report. rewrite E. now repeat split.
Qed.

Lemma reported_findings {D : Type} (reports : finding -> D -> Prop)
    (P : finding -> Prop) fs xs :
  Forall2 reports fs xs ->
  (forall f x, In x xs -> reports f x -> P f) ->
  Forall P fs.
Proof.
  induction 1 as [| f x fs xs R _ IH]; intros H; constructor.
  - apply (H f x); [now left | exact R].
  - apply IH. intros f' x' I. apply H. now right.
Qed.

(** The stage that a failure of detection names is a string, so that the
    patcher can add it to the stages. *)
Lemma gitlab_findings_keep d fs :
  gitlab_well_formed (YDict d) = true ->
  Forall2 gitlab_reports fs (gitlab_defects (YDict d)) ->
  Forall (fun f => keeps_keys (fun pipeline => gitlab_patch pipeline f)) fs.
Proof.
  intros W F. apply (reported_findings gitlab_reports _ fs _ F).
  intros f x I R. apply gitlab_patch_keeps. intros T.
  destruct x as [| job | job stage]; cbn [gitlab_reports] in R.
  - unfold type_is in T. rewrite R in T. discriminate T.
  - destruct R as [R _]. unfold type_is in T. rewrite R in T. discriminate T.
  - destruct R as (_ & _ & ->).
    assert (N : is_name stage = true).
    { apply (gitlab_bad_stage_is_name d W job). unfold gitlab_defects in I.
      apply in_app_or in I. destruct I as [I | I]; [| exact I].
      destruct (existsb has_script (map snd d)); [contradiction |].
      destruct I as [I | []]. discriminate I. }
    now destruct stage.
Qed.

(** X15.  Patching a GitLab CI file of the usual shape that has a job (an
    entry that is a mapping with [script] or [extends]) with the report that
    detection made of it resolves every failure.  Detection succeeds, and
    the repaired file is again of the usual shape; whenever the serialiser
    writes the repaired file as a text, that text is what the patcher
    returns; it loads to the repaired file, and detection on it succeeds
    with no failure at all.  The loader and the serialiser are those of
    the block-style fragment. *)
Theorem gitlab_fix_resolves_every_failure :
  forall text logs d out,
    Yaml.safe_load text = Ok (YDict d) ->
    gitlab_well_formed (YDict d) = true ->
    gitlab_has_job (YDict d) = true ->
    Yaml.dump (YDict (gitlab_repaired d)) = Ok out ->
    let report := detect_failures Yaml.safe_load text "gitlab_ci" logs in
    status report = success
    /\ gitlab_well_formed (YDict (gitlab_repaired d)) = true
    /\ fix_failures Yaml.safe_load Yaml.dump text "gitlab_ci" report = Some out
    /\ Yaml.safe_load out = Ok (YDict (gitlab_repaired d))
    /\ forall logs',
         let report' := detect_failures Yaml.safe_load out "gitlab_ci" logs' in
         status report' = success /\ failures report' = Some [].
Proof.
  intros text logs d out L W J O report.
  destruct (gitlab_detected Yaml.safe_load text logs (YDict d) L W) as (fs & ws & E & F).
  subst report. rewrite E. split; [reflexivity |].
  destruct (gitlab_patched d W fs J F) as (P & W' & Z).
  split; [exact W' |].
  assert (L' : Yaml.safe_load out = Ok (YDict (gitlab_repaired d))).
  { apply (patched_loads gitlab_patch text (YDict d) fs _ out L); [| exact P | exact O].
    now apply gitlab_findings_keep with d. }
  split; [| split; [exact L' |]].
  - rewrite fix_gitlab. unfold _fix_gitlab_ci_failures, patch_document. rewrite L.
    assert (T : truthy (YDict d) = true).
    { now destruct (gitlab_parts d W) as (Nd & _); destruct d. }
    rewrite T. cbn [negb failures_or_empty failures]. rewrite P. cbn [res_bind].
    now rewrite O.
  - intros logs' report'.
    destruct (gitlab_detected Yaml.safe_load out logs' _ L' W') as (fs' & ws' & E' & F').
    subst report'. rewrite E'. rewrite Z in F'. inversion F'. now split.
Qed.

Lemma gitlab_failures_are_the_defects_witness :
  let report := detect_failures Yaml.safe_load gitlab_with_invalid_stage "gitlab_ci" None in
  status report = success
  /\ message report = None
  /\ Forall2 gitlab_reports (failures_or_empty report)
       [NoScript (YStr "lint");
        BadStage (YStr "test") (YStr "test");
        BadStage (YStr "lint") (YStr "check")].
Proof.
  assert (L : Yaml.safe_load gitlab_with_invalid_stage
              = Ok (YDict [(YStr "stages", YList [YStr "build"]);
                           (YStr "test",
                            YDict [(YStr "stage", YStr "test");
                                   (YStr "script", YList [YStr "make test"])]);
                           (YStr "lint", YDict [(YStr "stage", YStr "check")])]))
    by (vm_compute; reflexivity).
  exact (gitlab_failures_are_the_defects Yaml.safe_load gitlab_with_invalid_stage None _
           L eq_refl).
Defined.

Lemma gitlab_fix_resolves_every_failure_witness :
  let report := detect_failures Yaml.safe_load gitlab_with_invalid_stage "gitlab_ci" None in
  status report = success
  /\ fix_failures Yaml.safe_load Yaml.dump gitlab_with_invalid_stage "gitlab_ci" report
     = Some gitlab_with_invalid_stage_repaired
  /\ forall logs',
       let report' :=
         detect_failures Yaml.safe_load gitlab_with_invalid_stage_repaired "gitlab_ci"
           logs' in
       status report' = success /\ failures report' = Some [].
Proof.
  assert (L : Yaml.safe_load gitlab_with_invalid_stage
              = Ok (YDict [(YStr "stages", YList [YStr "build"]);
                           (YStr "test",
                            YDict [(YStr "stage", YStr "test");
                                   (YStr "script", YList [YStr "make test"])]);
                           (YStr "lint", YDict [(YStr "stage", YStr "check")])]))
    by (vm_compute; reflexivity).
  assert (O : Yaml.dump (YDict (gitlab_repaired
                 [(YStr "stages", YList [YStr "build"]);
                  (YStr "test",
                   YDict [(YStr "stage", YStr "test");
                          (YStr "script", YList [YStr "make test"])]);
                  (YStr "lint", YDict [(YStr "stage", YStr "check")])]))
              = Ok gitlab_with_invalid_stage_repaired)
    by (vm_compute; reflexivity).
  destruct (gitlab_fix_resolves_every_failure
              gitlab_with_invalid_stage None _ _ L eq_refl eq_refl O)
    as (S & _ & F & _ & D).
  split; [exact S |]. split; [exact F | exact D].
Defined.

Lemma dict_set_absent k v d :
  dict_mem k d = false -> dict_set k v d = d ++ [(k, v)].
Proof.
  unfold dict_mem. induction d as [| [k0 v0] d IH]; [reflexivity |].
  cbn [dict_find dict_set app]. destruct (py_eq k k0); [discriminate |].
  intros H. now rewrite IH.
Qed.

Lemma dict_find_app k d e :
  dict_find k (d ++ e)
  = match dict_find k d with
    | Some v => Some v
    | None => dict_find k e
    end.
Proof.
  induction d as [| [k0 v0] d IH]; [reflexivity |].
  cbn [app dict_find]. now destruct (py_eq k k0).
Qed.

Lemma is_name_is_str keys : forallb is_name keys = true -> forallb is_str keys = true.
Proof.
  rewrite !forallb_forall. intros H k Hk. destruct (is_name_str _ (H k Hk)) as (s & ->).
  reflexivity.
Qed.

(** X16.  The job that the patcher adds is in the stage [build], declared
    or not.  For a file of the usual shape whose only defect is that it has
    no job, that has no entry [build], and whose [stages] is a list without
    [build]: detection succeeds; whenever the serialiser writes the file
    with the job [build] added at its end as a text, that text is what the
    patcher returns; it loads to that document, and detection on it
    succeeds with one failure, an [invalid_stage] for the job [build] that
    the patcher added.  The loader and the serialiser are those of the
    block-style fragment. *)
Theorem gitlab_added_job_needs_its_stage :
  forall text logs d stages out,
    Yaml.safe_load text = Ok (YDict d) ->
    gitlab_well_formed (YDict d) = true ->
    gitlab_defects (YDict d) = [NoJob] ->
    dict_mem (YStr "build") d = false ->
    dict_find (YStr "stages") d = Some (YList stages) ->
    existsb (py_eq (YStr "build")) stages = false ->
    Yaml.dump (YDict (d ++ [(YStr "build", gitlab_default_job)])) = Ok out ->
    let report := detect_failures Yaml.safe_load text "gitlab_ci" logs in
    status report = success
    /\ fix_failures Yaml.safe_load Yaml.dump text "gitlab_ci" report = Some out
    /\ Yaml.safe_load out = Ok (YDict (d ++ [(YStr "build", gitlab_default_job)]))
    /\ forall logs',
         let report' := detect_failures Yaml.safe_load out "gitlab_ci" logs' in
         status report' = success
         /\ Forall2 gitlab_reports (failures_or_empty report')
              [BadStage (YStr "build") (YStr "build")].
Proof.
  intros text logs d stages out L W Z B S K O report.
  destruct (gitlab_detected Yaml.safe_load text logs (YDict d) L W) as (fs & ws & E & F).
  subst report. rewrite E. split; [reflexivity |].
  pose proof (gitlab_findings_keep d fs W F) as Kf. rewrite Z in F.
  destruct (gitlab_parts d W) as (Nd & N & D & Ws & Wv & We).
  set (d' := d ++ [(YStr "build", gitlab_default_job)]) in *.
  assert (P : patch_all gitlab_patch fs (YDict d) = Ok (YDict d')).
  { rewrite (gitlab_patch_all [NoJob] fs d F); [| now repeat constructor].
    cbn [fold_left gitlab_amend]. now rewrite dict_set_absent. }
  assert (W' : gitlab_well_formed (YDict d') = true).
  { unfold gitlab_well_formed, d'. rewrite !map_app. cbn [map fst snd].
    rewrite !forallb_app, N, We.
    rewrite distinct_snoc;
      [| now apply is_name_is_str | exact D | now apply dict_mem_keys].
    rewrite !dict_find_app, S. rewrite S in Ws. rewrite Ws.
    destruct (dict_find (YStr "variables") d) as [[| | | | | | vars] |];
      try discriminate Wv; destruct d; try contradiction; reflexivity. }
  assert (Z' : gitlab_defects (YDict d') = [BadStage (YStr "build") (YStr "build")]).
  { unfold gitlab_defects in *. unfold d'.
    rewrite map_app, existsb_app, !flat_map_app, dict_find_app, S, flat_map_app.
    assert (NJ : ~ In NoJob (gitlab_job_defects d)).
    { intros H. apply gitlab_defects_not_no_job in H. discriminate H. }
    unfold gitlab_job_defects in NJ. rewrite S in Z, NJ.
    destruct (existsb has_script (map snd d));
      [exfalso; apply NJ; cbn [app] in Z; rewrite Z; now left |].
    injection Z as Z. apply app_eq_nil in Z. destruct Z as (-> & ->).
    assert (E1 : existsb has_script (map snd [(YStr "build", gitlab_default_job)]) = true)
      by reflexivity.
    assert (E2 : flat_map script_defects [(YStr "build", gitlab_default_job)] = [])
      by reflexivity.
    assert (E3 : flat_map (stage_defects stages) [(YStr "build", gitlab_default_job)]
                 = if existsb (py_eq (YStr "build")) stages then []
                   else [BadStage (YStr "build") (YStr "build")]).
    { cbn [flat_map]. rewrite app_nil_r. reflexivity. }
    rewrite E1, E2, E3, K. reflexivity. }
  assert (L' : Yaml.safe_load out = Ok (YDict d'))
    by exact (patched_loads gitlab_patch text (YDict d) fs _ out L Kf P O).
  split; [| split; [exact L' |]].
  - rewrite fix_gitlab. unfold _fix_gitlab_ci_failures, patch_document. rewrite L.
    assert (T : truthy (YDict d) = true) by now destruct d.
    rewrite T. cbn [negb failures_or_empty failures]. rewrite P. cbn [res_bind].
    now rewrite O.
  - intros logs' report'.
    destruct (gitlab_detected Yaml.safe_load out logs' (YDict d') L' W')
      as (fs' & ws' & E' & F').
    subst report'. rewrite E'. rewrite Z' in F'. now split.
Qed.

Lemma gitlab_added_job_needs_its_stage_witness :
  let report := detect_failures Yaml.safe_load gitlab_without_jobs "gitlab_ci" None in
  status report = success
  /\ fix_failures Yaml.safe_load Yaml.dump gitlab_without_jobs "gitlab_ci" report
     = Some gitlab_without_jobs_patched
  /\ forall logs',
       let report' :=
         detect_failures Yaml.safe_load gitlab_without_jobs_patched "gitlab_ci" logs' in
       status report' = success
       /\ Forall2 gitlab_reports (failures_or_empty report')
            [BadStage (YStr "build") (YStr "build")].
Proof.
  assert (L : Yaml.safe_load gitlab_without_jobs
              = Ok (YDict [(YStr "stages", YList [YStr "test"]);
                           (YStr "image", YStr "ruby")]))
    by (vm_compute; reflexivity).
  assert (O : Yaml.dump (YDict ([(YStr "stages", YList [YStr "test"]);
                                 (YStr "image", YStr "ruby")]
                                ++ [(YStr "build", gitlab_default_job)]))
              = Ok gitlab_without_jobs_patched)
    by (vm_compute; reflexivity).
  destruct (gitlab_added_job_needs_its_stage gitlab_without_jobs
              None _ [YStr "test"] _ L eq_refl eq_refl eq_refl eq_refl eq_refl O)
    as (S & F & _ & D).
  split; [exact S |]. split; [exact F | exact D].
Defined.

(** ** Azure DevOps: the checks on a pipeline of the usual shape *)

Lemma azure_missing_steps_yields job_index fields :
  yields azure_reports (azure_missing_steps job_index (YDict fields)) tt
    (job_steps_defects (job_index, YDict fields)).
Proof.
  unfold azure_missing_steps, job_steps_defects, lacks. cbn [snd fst].
  apply yields_bind_lift with (dict_mem (YStr "steps") fields); [reflexivity |].
  unfold dict_mem. destruct (dict_find (YStr "steps") fields) as [steps |] eqn:E.
  - apply yields_bind_lift with (negb (truthy steps)).
    { cbn [py_getitem hashable]. now rewrite E. }
    destruct (truthy steps); cbn [negb when]; [apply yields_ret |].
    apply yields_add_failure. now split.
  - apply yields_bind_lift with true; [reflexivity |].
    apply yields_add_failure. now split.
Qed.

Lemma stage_label_ok fields stage_index :
  exists name, stage_label (YDict fields) stage_index = Ok name.
Proof. unfold stage_label. cbn [py_get hashable]. eauto. Qed.

Lemma azure_missing_jobs_yields stage_index fields :
  yields azure_reports (azure_missing_jobs stage_index (YDict fields)) tt
    (stage_jobs_defects (stage_index, YDict fields)).
Proof.
  unfold azure_missing_jobs, stage_jobs_defects, lacks. cbn [snd fst].
  destruct (stage_label_ok fields stage_index) as (name & Hname).
  apply yields_bind_lift with (dict_mem (YStr "jobs") fields); [reflexivity |].
  unfold dict_mem. destruct (dict_find (YStr "jobs") fields) as [jobs |] eqn:E.
  - apply yields_bind_lift with (negb (truthy jobs)).
    { cbn [py_getitem hashable]. now rewrite E. }
    destruct (truthy jobs); cbn [negb when]; [apply yields_ret |].
    apply yields_bind_lift with name; [exact Hname |].
    apply yields_add_failure. now split.
  - apply yields_bind_lift with true; [reflexivity |].
    apply yields_bind_lift with name; [exact Hname |].
    apply yields_add_failure. now split.
Qed.

Lemma azure_depends_on_yields names stage_index fields :
  azure_stage_ok (YDict fields) = true ->
  yields azure_reports (azure_depends_on names stage_index (YDict fields)) tt
    (depends_defects names (stage_index, YDict fields)).
Proof.
  intros W. unfold azure_depends_on, depends_defects, bad_depends. cbn [snd fst].
  destruct (stage_label_ok fields stage_index) as (name & Hname).
  apply yields_bind_lift with (dict_mem (YStr "dependsOn") fields); [reflexivity |].
  unfold dict_mem. destruct (dict_find (YStr "dependsOn") fields) as [depends |] eqn:E;
    [| apply yields_ret].
  cbn [when].
  apply yields_bind_lift with depends; [cbn [py_getitem hashable]; now rewrite E |].
  destruct depends as [| | | | s | l |]; cbn [is_str andb]; try apply yields_ret.
  - destruct (existsb (py_eq (YStr s)) names); cbn [negb map]; [apply yields_ret |].
    apply yields_bind_lift with name; [exact Hname |].
    apply yields_add_failure. now repeat split.
  - assert (F : map (BadDependency stage_index)
                  (filter (fun depend => negb (existsb (py_eq depend) names)) l)
                = flat_map (fun depend => if negb (existsb (py_eq depend) names)
                                          then [BadDependency stage_index depend] else []) l).
    { clear. induction l as [| depend l IH]; [reflexivity |].
      cbn [filter flat_map]. destruct (negb (existsb (py_eq depend) names)); simpl;
        now rewrite IH. }
    rewrite F. apply yields_for_each. intros depend _.
    apply yields_when.
    change [BadDependency stage_index depend] with ([] ++ [BadDependency stage_index depend]).
    apply yields_bind_lift with name; [exact Hname |].
    apply yields_add_failure. now repeat split.
Qed.

Lemma azure_stage_names_are stages : forall i,
  forallb is_dict stages = true ->
  azure_stage_names (enumerate_from i stages) = Ok (map stage_name (enumerate_from i stages)).
Proof.
  induction stages as [| stage stages IH]; intros i H; [reflexivity |].
  cbn [forallb] in H. apply andb_prop in H. destruct H as (Hd & H).
  cbn [enumerate_from azure_stage_names map]. rewrite (IH (S i) H).
  destruct stage as [| | | | | | fields]; try discriminate Hd.
  unfold stage_name. cbn [py_get hashable res_bind fst snd].
  now destruct (dict_find (YStr "name") fields).
Qed.

Lemma azure_stage_ok_dict stage : azure_stage_ok stage = true -> is_dict stage = true.
Proof. now destruct stage. Qed.

Lemma stages_are_dicts stages :
  forallb azure_stage_ok stages = true -> forallb is_dict stages = true.
Proof.
  rewrite !forallb_forall. intros H stage Hs. apply azure_stage_ok_dict. now apply H.
Qed.

Lemma in_enumerate_from {A} (l : list A) : forall n i x,
  In (i, x) (enumerate_from n l) -> In x l.
Proof.
  induction l as [| y l IH]; intros n i x; [contradiction |].
  cbn [enumerate_from]. intros [E | H]; [injection E as _ ->; now left | right; eauto].
Qed.

Lemma azure_parts d :
  azure_well_formed (YDict d) = true ->
  d <> []
  /\ match dict_find (YStr "jobs") d with
     | None => true
     | Some (YList jobs) => forallb is_dict jobs
     | Some _ => false
     end = true
  /\ match dict_find (YStr "stages") d with
     | None => true
     | Some (YList stages) => forallb azure_stage_ok stages
     | Some _ => false
     end = true
  /\ exists defined_vars, azure_defined_vars (YDict d) = Ok defined_vars.
Proof.
  unfold azure_well_formed. intros H.
  repeat (apply andb_prop in H; destruct H as (H & ?)).
  split; [intros ->; discriminate H |]. split; [assumption |]. split; [assumption |].
  destruct (azure_defined_vars (YDict d)); [eauto | discriminate].
Qed.

(** On a pipeline of the usual shape the checks return, and the failures
    they append report its defects, one for one and in order. *)
Lemma azure_run pipeline logs :
  azure_well_formed pipeline = true ->
  yields azure_reports (azure_checks pipeline logs) tt (azure_defects pipeline).
Proof.
  intros W. destruct pipeline as [| | | | | | d]; try discriminate W.
  destruct (azure_parts d W) as (_ & J & S & defined_vars & V).
  unfold azure_checks, azure_defects, azure_item_defects.
  apply yields_bind_lift with (dict_mem (YStr "trigger") d); [reflexivity |].
  apply yields_bind_lift with (dict_mem (YStr "trigger") d || dict_mem (YStr "pr") d)%bool.
  { now destruct (dict_mem (YStr "trigger") d). }
  apply (yields_bind _ _ tt tt [] _); [apply yields_when_nothing, yields_add_warning |].
  apply yields_bind_lift with (dict_mem (YStr "pool") d); [reflexivity |].
  apply (yields_bind _ _ tt tt [] _); [apply yields_when_nothing, yields_add_warning |].
  apply yields_bind_lift with (dict_mem (YStr "stages") d); [reflexivity |].
  apply yields_bind_lift with (dict_mem (YStr "stages") d || dict_mem (YStr "jobs") d)%bool.
  { now destruct (dict_mem (YStr "stages") d). }
  apply yields_bind_lift with (has_structure d).
  { unfold has_structure.
    now destruct (dict_mem (YStr "stages") d || dict_mem (YStr "jobs") d)%bool. }
  apply yields_bind with tt.
  { destruct (has_structure d); cbn [negb when]; [apply yields_ret |].
    now apply yields_add_failure. }
  apply yields_bind_lift with (dict_mem (YStr "jobs") d); [reflexivity |].
  apply yields_bind with tt.
  { unfold dict_mem. destruct (dict_find (YStr "jobs") d) as [jobs |] eqn:E;
      cbn [when]; [| apply yields_ret].
    destruct jobs as [| | | | | jobs |]; try discriminate J.
    apply yields_bind_lift with (YList jobs); [cbn [py_getitem hashable]; now rewrite E |].
    apply yields_bind_lift with jobs; [reflexivity |].
    apply yields_for_each. intros [job_index job] Hin.
    assert (Dj : is_dict job = true).
    { apply (proj1 (forallb_forall is_dict jobs) J).
      now apply in_enumerate_from with 0 job_index. }
    destruct job; try discriminate Dj. apply azure_missing_steps_yields. }
  apply yields_bind_lift with (dict_mem (YStr "stages") d); [reflexivity |].
  destruct (dict_find (YStr "stages") d) as [stages |] eqn:E.
  - destruct stages as [| | | | | stages |]; try discriminate S.
    assert (Hs : forall i stage, In (i, stage) (enumerate stages) ->
                 exists fields, stage = YDict fields /\ azure_stage_ok (YDict fields) = true).
    { intros i stage Hin.
      assert (X : azure_stage_ok stage = true).
      { apply (proj1 (forallb_forall azure_stage_ok stages) S).
        now apply in_enumerate_from with 0 i. }
      destruct stage; try discriminate X. eauto. }
    assert (M : dict_mem (YStr "stages") d = true) by (unfold dict_mem; now rewrite E).
    rewrite M. cbn [when].
    apply yields_bind with tt.
    { apply yields_bind_lift with (YList stages); [cbn [py_getitem hashable]; now rewrite E |].
      apply yields_bind_lift with stages; [reflexivity |].
      apply yields_for_each. intros [stage_index stage] Hin.
      destruct (Hs stage_index stage Hin) as (fields & -> & _).
      apply azure_missing_jobs_yields. }
    change (flat_map (depends_defects (map stage_name (enumerate stages))) (enumerate stages))
      with ([] ++ flat_map (depends_defects (map stage_name (enumerate stages)))
                    (enumerate stages)).
    apply yields_bind with tt.
    { apply yields_bind_lift with defined_vars; [exact V |].
      apply yields_nothing. intros var _.
      apply yields_bind_lift with (existsb (py_eq (YStr var)) defined_vars); [reflexivity |].
      apply yields_when_nothing, yields_add_warning. }
    apply yields_bind_lift with true; [cbn [py_in hashable]; now rewrite M |].
    rewrite <- (app_nil_r (flat_map _ (enumerate stages))).
    apply yields_bind with tt; [| apply yields_scan_logs].
    cbn [when].
    apply yields_bind_lift with (YList stages); [cbn [py_getitem hashable]; now rewrite E |].
    apply yields_bind_lift with stages; [reflexivity |].
    apply yields_bind_lift with (map stage_name (enumerate stages)).
    { apply azure_stage_names_are. now apply stages_are_dicts. }
    apply yields_bind_lift with (YList stages); [cbn [py_getitem hashable]; now rewrite E |].
    apply yields_bind_lift with stages; [reflexivity |].
    apply yields_for_each. intros [stage_index stage] Hin.
    destruct (Hs stage_index stage Hin) as (fields & -> & X).
    now apply azure_depends_on_yields.
  - assert (M : dict_mem (YStr "stages") d = false) by (unfold dict_mem; now rewrite E).
    rewrite M. cbn [when].
    apply (yields_bind _ _ tt tt [] []); [apply yields_ret |].
    apply (yields_bind _ _ tt tt [] []).
    { apply yields_bind_lift with defined_vars; [exact V |].
      apply yields_nothing. intros var _.
      apply yields_bind_lift with (existsb (py_eq (YStr var)) defined_vars); [reflexivity |].
      apply yields_when_nothing, yields_add_warning. }
    apply yields_bind_lift with false; [cbn [py_in hashable]; now rewrite M |].
    apply (yields_bind _ _ tt tt [] []); [apply yields_ret | apply yields_scan_logs].
Qed.

(** ** Azure DevOps: one patch *)

Lemma nth_error_lt {A} (l : list A) i x : nth_error l i = Some x -> i < length l.
Proof. intros H. apply nth_error_Some. now rewrite H. Qed.

Lemma indexes_in_range d key l i :
  dict_find (YStr key) d = Some (YList l) -> i < length l ->
  indexes (YDict d) key (YInt (Z.of_nat i)) = Ok true.
Proof.
  intros F H. unfold indexes. cbn [is_none py_get hashable]. rewrite F.
  cbn [res_bind py_len]. unfold py_lt_int. cbn [number_of number_compare].
  now rewrite (proj2 (Z.compare_lt_iff _ _)) by lia.
Qed.

Lemma update_item d key l i fields (g : pyval -> res pyval) fields' :
  dict_find (YStr key) d = Some (YList l) ->
  nth_error l i = Some (YDict fields) ->
  g (YDict fields) = Ok (YDict fields') ->
  update_at (YDict d) (YStr key) (fun items => update_at items (YInt (Z.of_nat i)) g)
  = Ok (YDict (dict_set (YStr key) (YList (list_set i (YDict fields') l)) d)).
Proof.
  intros F N G. unfold update_at. cbn [py_getitem hashable]. rewrite F.
  cbn [res_bind py_getitem]. rewrite (position_nat _ _ (nth_error_lt l i _ N)).
  cbn [res_bind]. rewrite N. cbn [res_bind]. rewrite G. cbn [res_bind py_setitem].
  rewrite (position_nat _ _ (nth_error_lt l i _ N)). reflexivity.
Qed.

Lemma azure_patch_amend d f x :
  azure_reports f x ->
  azure_patchable d x ->
  azure_patch (YDict d) f = Ok (YDict (azure_amend d x)).
Proof.
  intros Hf Hx. unfold azure_patch, azure_amend, azure_patchable in *.
  destruct x as [| i | i | i dependency]; cbn [azure_reports azure_target] in *.
  - rewrite !(type_is_of f _ _ Hf). cbn [String.eqb Ascii.eqb Bool.eqb].
    cbn [py_in hashable res_bind]. unfold has_structure.
    destruct (dict_mem (YStr "stages") d); cbn [res_bind orb negb]; [reflexivity |].
    destruct (dict_mem (YStr "jobs") d); cbn [res_bind orb negb]; [reflexivity |].
    now destruct (dict_mem (YStr "steps") d).
  - destruct Hf as (T & I). destruct Hx as ((l & fields & F & N) & _).
    rewrite !(type_is_of f _ _ T), I. cbn [String.eqb Ascii.eqb Bool.eqb]. cbv zeta.
    rewrite (indexes_in_range d "jobs" l i F (nth_error_lt l i _ N)). cbn [res_bind].
    rewrite F, N. apply update_item with fields; auto.
    cbn [azure_amend_fields String.eqb Ascii.eqb Bool.eqb andb]. now rewrite Nat.eqb_refl.
  - destruct Hf as (T & I). destruct Hx as ((l & fields & F & N) & _).
    rewrite !(type_is_of f _ _ T), I. cbn [String.eqb Ascii.eqb Bool.eqb]. cbv zeta.
    rewrite (indexes_in_range d "stages" l i F (nth_error_lt l i _ N)). cbn [res_bind].
    rewrite F, N. apply update_item with fields; auto.
    cbn [azure_amend_fields String.eqb Ascii.eqb Bool.eqb andb]. now rewrite Nat.eqb_refl.
  - destruct Hf as (T & I & D). destruct Hx as ((l & fields & F & N) & Hd).
    rewrite !(type_is_of f _ _ T), I, D. cbn [String.eqb Ascii.eqb Bool.eqb]. cbv zeta.
    cbn [is_none]. rewrite (is_name_truthy _ (Hd _ _ eq_refl)).
    rewrite (indexes_in_range d "stages" l i F (nth_error_lt l i _ N)). cbn [res_bind].
    rewrite F, N. apply update_item with fields; auto.
    cbn [azure_amend_fields String.eqb Ascii.eqb Bool.eqb andb]. rewrite Nat.eqb_refl.
    unfold dropped. now rewrite drop_dependency_cases.
Qed.

Lemma nth_error_list_set {A} (l : list A) : forall i v j,
  i < length l ->
  nth_error (list_set i v l) j = if Nat.eqb j i then Some v else nth_error l j.
Proof.
  induction l as [| y l IH]; intros i v j H; [cbn [length] in H; lia |].
  destruct i as [| i]; destruct j as [| j]; cbn [list_set nth_error Nat.eqb]; try reflexivity.
  apply IH. cbn [length] in H. lia.
Qed.

Lemma length_list_set {A} (l : list A) : forall i v, length (list_set i v l) = length l.
Proof.
  induction l as [| y l IH]; intros [| i] v; cbn [list_set length]; auto.
Qed.

Lemma azure_target_key x key i :
  azure_target x = Some (key, i) -> key = "jobs" \/ key = "stages".
Proof. destruct x; intros H; try discriminate H; injection H as <- _; auto. Qed.

(** A patch leaves the other defects patchable. *)
Lemma azure_patchable_amend d x y :
  azure_patchable d x -> azure_patchable d y -> azure_patchable (azure_amend d x) y.
Proof.
  intros Hx Hy. unfold azure_patchable, azure_amend in *.
  destruct (azure_target y) as [[ky iy] |] eqn:Ty; [| exact I].
  destruct Hy as ((ly & fy & Fy & Ny) & Hd). split; [| exact Hd].
  destruct (azure_target x) as [[kx ix] |] eqn:Tx.
  - destruct Hx as ((lx & fx & Fx & Nx) & _). rewrite Fx, Nx.
    destruct (String.eqb_spec ky kx) as [-> | Hk].
    + rewrite Fx in Fy. injection Fy as <-.
      eexists. rewrite dict_find_set_same.
      destruct (Nat.eqb iy ix) eqn:E.
      * eexists. split; [reflexivity |].
        rewrite nth_error_list_set by (now apply nth_error_lt with (YDict fx)).
        now rewrite E.
      * exists fy. split; [reflexivity |].
        rewrite nth_error_list_set by (now apply nth_error_lt with (YDict fx)).
        now rewrite E.
    + exists ly, fy. split; [| exact Ny].
      rewrite dict_find_set_other by congruence. exact Fy.
  - assert (S : has_structure d = true).
    { unfold has_structure. destruct (azure_target_key y ky iy Ty) as [-> | ->].
      - rewrite (dict_mem_find _ _ _ Fy). now rewrite orb_true_r.
      - now rewrite (dict_mem_find _ _ _ Fy). }
    rewrite S. now exists ly, fy.
Qed.

Lemma azure_patch_all xs : forall fs d,
  Forall2 azure_reports fs xs ->
  Forall (azure_patchable d) xs ->
  patch_all azure_patch fs (YDict d) = Ok (YDict (fold_left azure_amend xs d)).
Proof.
  induction xs as [| x xs IH]; intros fs d Hf Hx.
  - inversion Hf; subst. reflexivity.
  - inversion Hf as [| f ? fs' ? Hfx Hfs]; subst.
    inversion Hx as [| ? ? Px Pxs]; subst.
    cbn [patch_all fold_left]. rewrite (azure_patch_amend d f x Hfx Px). cbn [res_bind].
    apply IH; [exact Hfs |].
    eapply Forall_impl; [| exact Pxs]. intros y. now apply azure_patchable_amend.
Qed.

(** ** Azure DevOps: the patches one after the other *)

Lemma nth_error_enumerate_from {A} (l : list A) : forall n i,
  nth_error (enumerate_from n l) i = option_map (pair (n + i)) (nth_error l i).
Proof.
  induction l as [| x l IH]; intros n [| i]; cbn [enumerate_from nth_error option_map];
    try reflexivity.
  - now rewrite Nat.add_0_r.
  - rewrite IH. now rewrite Nat.add_succ_comm.
Qed.

Lemma nth_error_enumerate {A} (l : list A) i :
  nth_error (enumerate l) i = option_map (pair i) (nth_error l i).
Proof. exact (nth_error_enumerate_from l 0 i). Qed.

Lemma in_enumerate_nth {A} (l : list A) i x :
  In (i, x) (enumerate l) -> nth_error l i = Some x.
Proof.
  intros H. apply In_nth_error in H. destruct H as (n & H).
  rewrite nth_error_enumerate in H. destruct (nth_error l n) as [y |] eqn:E;
    [| discriminate H].
  cbn [option_map] in H. injection H as <- <-. exact E.
Qed.

(** The items of a list after the patches, one by one. *)
Lemma nth_error_items_after key xs l i :
  nth_error (map (fun item => azure_item_after key xs (fst item) (snd item)) (enumerate l)) i
  = option_map (azure_item_after key xs i) (nth_error l i).
Proof.
  rewrite nth_error_map, nth_error_enumerate. now destruct (nth_error l i).
Qed.

Lemma azure_items_after_nothing key v : azure_items_after key [] v = v.
Proof.
  destruct v as [| | | | | l |]; try reflexivity. cbn [azure_items_after]. f_equal.
  apply nth_error_ext. intros i. rewrite nth_error_items_after.
  destruct (nth_error l i) as [v |]; [| reflexivity].
  now destruct v.
Qed.

Lemma azure_amend_fields_aimed key i fields x :
  azure_aimed key i x = false -> azure_amend_fields key i fields x = fields.
Proof.
  unfold azure_aimed. destruct x; cbn [azure_target azure_amend_fields]; intros H;
    try rewrite H; reflexivity.
Qed.

Lemma azure_item_after_cons key x xs i v :
  azure_aimed key i x = false ->
  azure_item_after key (x :: xs) i v = azure_item_after key xs i v.
Proof.
  intros H. destruct v; try reflexivity. cbn [azure_item_after fold_left].
  now rewrite azure_amend_fields_aimed.
Qed.

Lemma azure_aimed_target key i x k j :
  azure_target x = Some (k, j) ->
  azure_aimed key i x = (String.eqb key k && Nat.eqb j i)%bool.
Proof. unfold azure_aimed. now intros ->. Qed.

(** The pipeline after patches for defects of its jobs and stages: its
    other entries are as before, and each item of [jobs] and of [stages]
    has gone through the patches. *)
Lemma azure_fold xs : forall d,
  Forall (azure_patchable d) xs ->
  Forall (fun x => azure_target x <> None) xs ->
  let d' := fold_left azure_amend xs d in
  (forall k, k <> YStr "jobs" -> k <> YStr "stages" -> dict_find k d' = dict_find k d)
  /\ forall key, key = "jobs" \/ key = "stages" ->
       dict_find (YStr key) d' = option_map (azure_items_after key xs) (dict_find (YStr key) d).
Proof.
  induction xs as [| x xs IH]; intros d Hp Ht; cbn [fold_left].
  - split; [reflexivity |]. intros key _.
    destruct (dict_find (YStr key) d) as [v |]; [| reflexivity].
    cbn [option_map]. now rewrite azure_items_after_nothing.
  - inversion Hp as [| ? ? Px Pxs]; subst. inversion Ht as [| ? ? Tx Txs]; subst.
    assert (Pxs' : Forall (azure_patchable (azure_amend d x)) xs).
    { eapply Forall_impl; [| exact Pxs]. intros y. now apply azure_patchable_amend. }
    destruct (IH (azure_amend d x) Pxs' Txs) as (O & L). clear IH. cbv zeta.
    unfold azure_patchable in Px. unfold azure_amend in *.
    destruct (azure_target x) as [[kx ix] |] eqn:T; [| contradiction].
    destruct Px as ((l & fields & F & N) & _). rewrite F, N in *.
    assert (Kx : YStr kx = YStr "jobs" \/ YStr kx = YStr "stages")
      by (destruct (azure_target_key x kx ix T) as [-> | ->]; auto).
    split.
    + intros k K1 K2. rewrite (O k K1 K2). apply dict_find_set_other.
      destruct Kx as [-> | ->]; assumption.
    + intros key Hk. rewrite (L key Hk).
      destruct (String.eqb_spec key kx) as [-> | Hne].
      * rewrite dict_find_set_same, F. cbn [option_map azure_items_after]. do 2 f_equal.
        apply nth_error_ext. intros i. rewrite !nth_error_items_after.
        rewrite nth_error_list_set by (now apply nth_error_lt with (YDict fields)).
        destruct (Nat.eqb_spec i ix) as [-> | Hi].
        -- rewrite N. reflexivity.
        -- destruct (nth_error l i) as [v |]; [| reflexivity]. cbn [option_map].
           rewrite azure_item_after_cons; [reflexivity |].
           rewrite (azure_aimed_target _ _ _ _ _ T), String.eqb_refl.
           cbn [andb]. apply Nat.eqb_neq. congruence.
      * rewrite dict_find_set_other by congruence.
        destruct (dict_find (YStr key) d) as [v |]; [| reflexivity].
        cbn [option_map]. destruct v as [| | | | | items |]; try reflexivity.
        cbn [azure_items_after]. do 2 f_equal. apply map_ext. intros [i v].
        cbn [fst snd]. symmetry. apply azure_item_after_cons.
        rewrite (azure_aimed_target _ _ _ _ _ T).
        now rewrite (proj2 (String.eqb_neq key kx) Hne).
Qed.

(** Only the patches aimed at an item change it. *)
Lemma fold_aimed key i xs : forall fields,
  fold_left (azure_amend_fields key i) xs fields
  = fold_left (azure_amend_fields key i) (filter (azure_aimed key i) xs) fields.
Proof.
  induction xs as [| x xs IH]; intros fields; [reflexivity |].
  cbn [fold_left filter]. destruct (azure_aimed key i x) eqn:E.
  - cbn [fold_left]. apply IH.
  - rewrite (azure_amend_fields_aimed _ _ _ _ E). apply IH.
Qed.

Lemma filter_nothing {A} (p : A -> bool) l :
  (forall x, In x l -> p x = false) -> filter p l = [].
Proof.
  induction l as [| x l IH]; intros H; [reflexivity |]. cbn [filter].
  rewrite (H x (or_introl eq_refl)). apply IH. intros y Hy. apply H. now right.
Qed.

Lemma filter_everything {A} (p : A -> bool) l :
  (forall x, In x l -> p x = true) -> filter p l = l.
Proof.
  induction l as [| x l IH]; intros H; [reflexivity |]. cbn [filter].
  rewrite (H x (or_introl eq_refl)). f_equal. apply IH. intros y Hy. apply H. now right.
Qed.

Lemma in_enumerate_from_ge {A} (l : list A) : forall n i x,
  In (i, x) (enumerate_from n l) -> n <= i.
Proof.
  induction l as [| y l IH]; intros n i x H; [destruct H |].
  cbn [enumerate_from] in H. destruct H as [H | H].
  - injection H as <- _. lia.
  - apply IH in H. lia.
Qed.

(** Of the defects found item by item, those aimed at the item at [i] are
    the ones found on that item. *)
Lemma filter_aimed_from key (g : nat * pyval -> list azure_defect) :
  (forall item x, In x (g item) -> azure_target x = Some (key, fst item)) ->
  forall l n i v,
    nth_error l i = Some v ->
    filter (azure_aimed key (n + i)) (flat_map g (enumerate_from n l)) = g ((n + i)%nat, v).
Proof.
  intros G. induction l as [| y l IH]; intros n i v H; [destruct i; discriminate H |].
  cbn [enumerate_from flat_map]. rewrite filter_app. destruct i as [| i].
  - injection H as ->. rewrite Nat.add_0_r. rewrite filter_everything.
    + rewrite filter_nothing; [apply app_nil_r |].
      intros x Hx. apply in_flat_map in Hx. destruct Hx as ([j w] & Hj & Hx).
      rewrite (azure_aimed_target _ _ _ _ _ (G _ _ Hx)). cbn [fst].
      apply in_enumerate_from_ge in Hj. rewrite String.eqb_refl. cbn [andb].
      apply Nat.eqb_neq. lia.
    + intros x Hx. rewrite (azure_aimed_target _ _ _ _ _ (G _ _ Hx)). cbn [fst].
      now rewrite String.eqb_refl, Nat.eqb_refl.
  - cbn [nth_error] in H. rewrite filter_nothing.
    + cbn [app]. rewrite <- Nat.add_succ_comm. now apply IH.
    + intros x Hx. rewrite (azure_aimed_target _ _ _ _ _ (G _ _ Hx)). cbn [fst].
      rewrite String.eqb_refl. cbn [andb]. apply Nat.eqb_neq. lia.
Qed.

Lemma filter_aimed key (g : nat * pyval -> list azure_defect) l i v :
  (forall item x, In x (g item) -> azure_target x = Some (key, fst item)) ->
  nth_error l i = Some v ->
  filter (azure_aimed key i) (flat_map g (enumerate l)) = g (i, v).
Proof. intros G H. exact (filter_aimed_from key g G l 0 i v H). Qed.

Lemma filter_not_aimed key key' (g : nat * pyval -> list azure_defect) l i :
  key <> key' ->
  (forall item x, In x (g item) -> azure_target x = Some (key', fst item)) ->
  filter (azure_aimed key i) (flat_map g l) = [].
Proof.
  intros Hk G. apply filter_nothing. intros x Hx.
  apply in_flat_map in Hx. destruct Hx as (item & _ & Hx).
  rewrite (azure_aimed_target _ _ _ _ _ (G _ _ Hx)).
  now rewrite (proj2 (String.eqb_neq key key') Hk).
Qed.

Lemma job_steps_defects_target item x :
  In x (job_steps_defects item) -> azure_target x = Some ("jobs", fst item).
Proof.
  unfold job_steps_defects. destruct (lacks "steps" (snd item)); [| intros []].
  now intros [<- | []].
Qed.

Lemma stage_jobs_defects_target item x :
  In x (stage_jobs_defects item) -> azure_target x = Some ("stages", fst item).
Proof.
  unfold stage_jobs_defects. destruct (lacks "jobs" (snd item)); [| intros []].
  now intros [<- | []].
Qed.

Lemma depends_defects_target names item x :
  In x (depends_defects names item) -> azure_target x = Some ("stages", fst item).
Proof.
  unfold depends_defects. intros H. apply in_map_iff in H.
  now destruct H as (dependency & <- & _).
Qed.

(** ** Azure DevOps: a job and a stage after the patches for their defects *)

Lemma azure_job_repaired i fields :
  lacks "steps"
    (YDict (fold_left (azure_amend_fields "jobs" i) (job_steps_defects (i, YDict fields))
              fields)) = false.
Proof.
  unfold job_steps_defects. cbn [fst snd].
  destruct (lacks "steps" (YDict fields)) eqn:E; cbn [fold_left]; [| exact E].
  cbn [azure_amend_fields String.eqb Ascii.eqb Bool.eqb andb]. rewrite Nat.eqb_refl.
  cbn [lacks]. now rewrite dict_find_set_same.
Qed.

Lemma fold_bad_depends i bs : forall fields,
  fold_left (azure_amend_fields "stages" i) (map (BadDependency i) bs) fields
  = fold_left (fun f dependency => dropped "dependsOn" dependency f) bs fields.
Proof.
  induction bs as [| b bs IH]; intros fields; [reflexivity |].
  cbn [map fold_left azure_amend_fields String.eqb Ascii.eqb Bool.eqb andb].
  rewrite Nat.eqb_refl. apply IH.
Qed.

Lemma azure_stage_ok_parts fields :
  azure_stage_ok (YDict fields) = true ->
  keys_ok fields = true
  /\ match dict_find (YStr "dependsOn") fields with
     | Some (YStr s) => negb (String.eqb s "")
     | Some (YList l) => forallb is_name l
     | _ => true
     end = true.
Proof. unfold azure_stage_ok. intros H. now apply andb_prop in H. Qed.

Lemma bad_depends_are_names names fields dependency :
  azure_stage_ok (YDict fields) = true ->
  In dependency (bad_depends names (YDict fields)) -> is_name dependency = true.
Proof.
  intros W. destruct (azure_stage_ok_parts fields W) as (_ & D). unfold bad_depends.
  destruct (dict_find (YStr "dependsOn") fields) as [[| | | | s | l |] |];
    try (intros []).
  - destruct (existsb (py_eq (YStr s)) names); [intros [] |].
    now intros [<- | []].
  - intros H. apply filter_In in H. destruct H as (H & _).
    exact (proj1 (forallb_forall is_name l) D dependency H).
Qed.

(** A stage after the patches for its own defects: it is a stage still,
    under the same name, with jobs, and every stage it depends on is
    there. *)
Lemma azure_stage_repaired names i fields :
  azure_stage_ok (YDict fields) = true ->
  let fields' :=
    fold_left (azure_amend_fields "stages" i)
      (stage_jobs_defects (i, YDict fields) ++ depends_defects names (i, YDict fields))
      fields in
  azure_stage_ok (YDict fields') = true
  /\ dict_find (YStr "name") fields' = dict_find (YStr "name") fields
  /\ lacks "jobs" (YDict fields') = false
  /\ bad_depends names (YDict fields') = [].
Proof.
  intros W. cbv zeta. destruct (azure_stage_ok_parts fields W) as (K & Hd).
  rewrite fold_left_app. unfold depends_defects. cbn [fst snd]. rewrite fold_bad_depends.
  (* the jobs *)
  set (f1 := fold_left (azure_amend_fields "stages" i)
               (stage_jobs_defects (i, YDict fields)) fields).
  assert (E1 : f1 = if lacks "jobs" (YDict fields)
                    then dict_set (YStr "jobs") azure_default_jobs fields
                    else fields).
  { unfold f1, stage_jobs_defects. cbn [fst snd].
    destruct (lacks "jobs" (YDict fields)); cbn [fold_left]; [| reflexivity].
    cbn [azure_amend_fields String.eqb Ascii.eqb Bool.eqb andb].
    now rewrite Nat.eqb_refl. }
  assert (K1 : keys_ok f1 = true).
  { rewrite E1. destruct (lacks "jobs" (YDict fields)); [now apply keys_ok_set | exact K]. }
  assert (J1 : lacks "jobs" (YDict f1) = false).
  { rewrite E1. destruct (lacks "jobs" (YDict fields)) eqn:E; [| exact E].
    cbn [lacks]. now rewrite dict_find_set_same. }
  assert (O1 : forall k, k <> YStr "jobs" -> dict_find k f1 = dict_find k fields).
  { intros k N. rewrite E1. destruct (lacks "jobs" (YDict fields)); [| reflexivity].
    now apply dict_find_set_other. }
  clearbody f1.
  (* the dependencies *)
  set (f2 := fold_left (fun f dependency => dropped "dependsOn" dependency f)
               (bad_depends names (YDict fields)) f1).
  assert (K2 : keys_ok f2 = true) by now apply fold_dropped_keys.
  assert (O2 : forall k, k <> YStr "dependsOn" -> dict_find k f2 = dict_find k f1)
    by (intros k N; now apply fold_dropped_other).
  assert (N1 : dict_find (YStr "dependsOn") f1 = dict_find (YStr "dependsOn") fields)
    by (apply O1; discriminate).
  assert (N2 : bad_depends names (YDict f2) = []
               /\ match dict_find (YStr "dependsOn") f2 with
                  | Some (YStr s) => negb (String.eqb s "")
                  | Some (YList l) => forallb is_name l
                  | _ => true
                  end = true).
  { assert (Same : bad_depends names (YDict fields) = [] ->
                   bad_depends names (YDict f2) = []
                   /\ match dict_find (YStr "dependsOn") f2 with
                      | Some (YStr s) => negb (String.eqb s "")
                      | Some (YList l) => forallb is_name l
                      | _ => true
                      end = true).
    { intros B. unfold f2. rewrite B. cbn [fold_left]. unfold bad_depends in *.
      rewrite N1. now split. }
    destruct (dict_find (YStr "dependsOn") fields) as [depends |] eqn:E;
      [| apply Same; unfold bad_depends; now rewrite E].
    destruct depends as [| | | | s | l |];
      try (apply Same; unfold bad_depends; now rewrite E).
    - (* a string *)
      destruct (existsb (py_eq (YStr s)) names) eqn:V;
        [apply Same; unfold bad_depends; now rewrite E, V |].
      assert (B : bad_depends names (YDict fields) = [YStr s])
        by (unfold bad_depends; now rewrite E, V).
      unfold f2. rewrite B. cbn [fold_left].
      assert (D : dict_find (YStr "dependsOn") (dropped "dependsOn" (YStr s) f1) = None).
      { rewrite dropped_cases, N1. apply dict_find_del_same. now apply keys_ok_NoDup. }
      unfold bad_depends. rewrite D. now split.
    - (* a list *)
      assert (B : bad_depends names (YDict fields)
                  = filter (fun depend => negb (existsb (py_eq depend) names)) l)
        by (unfold bad_depends; now rewrite E).
      unfold f2. rewrite B.
      destruct (fold_dropped_list "dependsOn"
                  (filter (fun depend => negb (existsb (py_eq depend) names)) l) f1 l K1 N1)
        as [D | D]; unfold bad_depends; cbv zeta in D; rewrite D; [now split |].
      split; [now apply strip_bad_needs |]. unfold strip. now apply forallb_filter. }
  destruct N2 as (B2 & D2). clearbody f2.
  split; [| split; [| split]].
  - unfold azure_stage_ok. now rewrite K2, D2.
  - rewrite O2 by discriminate. apply O1. discriminate.
  - unfold lacks in *. rewrite O2 by discriminate. exact J1.
  - exact B2.
Qed.

(** ** Azure DevOps: the pipeline after the patches for its defects *)

Lemma in_enumerate_after key xs l i v' :
  In (i, v')
    (enumerate (map (fun item => azure_item_after key xs (fst item) (snd item))
                  (enumerate l))) ->
  exists v, In (i, v) (enumerate l) /\ v' = azure_item_after key xs i v.
Proof.
  intros H. apply in_enumerate_nth in H. rewrite nth_error_items_after in H.
  destruct (nth_error l i) as [v |] eqn:E; [| discriminate H].
  injection H as <-. exists v. split; [now apply enumerate_nth | reflexivity].
Qed.

Lemma in_items_after key xs l v' :
  In v' (map (fun item => azure_item_after key xs (fst item) (snd item)) (enumerate l)) ->
  exists i v, In (i, v) (enumerate l) /\ v' = azure_item_after key xs i v.
Proof.
  intros H. apply in_map_iff in H. destruct H as ([i v] & <- & H). now exists i, v.
Qed.

Lemma no_structure_no_items d : has_structure d = false -> azure_item_defects d = [].
Proof.
  unfold has_structure, azure_item_defects, dict_mem. intros H.
  destruct (dict_find (YStr "stages") d); [discriminate H |].
  destruct (dict_find (YStr "jobs") d); [discriminate H | reflexivity].
Qed.

Lemma azure_defined_vars_same d d' :
  dict_find (YStr "variables") d' = dict_find (YStr "variables") d ->
  azure_defined_vars (YDict d') = azure_defined_vars (YDict d).
Proof.
  intros H. unfold azure_defined_vars. cbn [py_in py_getitem hashable res_bind].
  unfold dict_mem. now rewrite H.
Qed.

Section AzureFile.

Variable d : entries.
Hypothesis W : azure_well_formed (YDict d) = true.

Lemma azure_job_is_dict jobs i job :
  dict_find (YStr "jobs") d = Some (YList jobs) ->
  In (i, job) (enumerate jobs) ->
  exists fields, job = YDict fields.
Proof.
  intros E H. destruct (azure_parts d W) as (_ & J & _). rewrite E in J.
  assert (X : is_dict job = true).
  { apply (proj1 (forallb_forall is_dict jobs) J). now apply in_enumerate_from with 0 i. }
  destruct job; try discriminate X. eauto.
Qed.

Lemma azure_stage_is_ok stages i stage :
  dict_find (YStr "stages") d = Some (YList stages) ->
  In (i, stage) (enumerate stages) ->
  exists fields, stage = YDict fields /\ azure_stage_ok (YDict fields) = true.
Proof.
  intros E H. destruct (azure_parts d W) as (_ & _ & S & _). rewrite E in S.
  assert (X : azure_stage_ok stage = true).
  { apply (proj1 (forallb_forall azure_stage_ok stages) S).
    now apply in_enumerate_from with 0 i. }
  destruct stage; try discriminate X. eauto.
Qed.

Lemma azure_item_defects_patchable : Forall (azure_patchable d) (azure_item_defects d).
Proof.
  apply Forall_forall. intros x Hx. unfold azure_item_defects in Hx.
  destruct (azure_parts d W) as (_ & J & S & _).
  apply in_app_or in Hx. destruct Hx as [Hx | Hx].
  - destruct (dict_find (YStr "jobs") d) as [[| | | | | jobs |] |] eqn:E;
      try discriminate J; try destruct Hx.
    apply in_flat_map in Hx. destruct Hx as ([i job] & Hi & Hx).
    destruct (azure_job_is_dict jobs i job E Hi) as (fields & ->).
    unfold azure_patchable. rewrite (job_steps_defects_target _ _ Hx). cbn [fst]. split.
    + exists jobs, fields. split; [exact E | now apply in_enumerate_nth].
    + intros stage_index dependency ->. unfold job_steps_defects in Hx.
      destruct (lacks "steps" _); [now destruct Hx | destruct Hx].
  - destruct (dict_find (YStr "stages") d) as [[| | | | | stages |] |] eqn:E;
      try discriminate S; try destruct Hx.
    apply in_app_or in Hx. destruct Hx as [Hx | Hx].
    + apply in_flat_map in Hx. destruct Hx as ([i stage] & Hi & Hx).
      destruct (azure_stage_is_ok stages i stage E Hi) as (fields & -> & _).
      unfold azure_patchable. rewrite (stage_jobs_defects_target _ _ Hx). cbn [fst]. split.
      * exists stages, fields. split; [exact E | now apply in_enumerate_nth].
      * intros stage_index dependency ->. unfold stage_jobs_defects in Hx.
        destruct (lacks "jobs" _); [now destruct Hx | destruct Hx].
    + apply in_flat_map in Hx. destruct Hx as ([i stage] & Hi & Hx).
      destruct (azure_stage_is_ok stages i stage E Hi) as (fields & -> & X).
      unfold azure_patchable. rewrite (depends_defects_target _ _ _ Hx). cbn [fst]. split.
      * exists stages, fields. split; [exact E | now apply in_enumerate_nth].
      * intros stage_index dependency ->. unfold depends_defects in Hx.
        apply in_map_iff in Hx. destruct Hx as (dependency' & Hd & Hx).
        injection Hd as _ ->. now apply bad_depends_are_names with (2 := Hx).
Qed.

Lemma azure_item_defects_targets :
  Forall (fun x => azure_target x <> None) (azure_item_defects d).
Proof.
  apply Forall_forall. intros x Hx. unfold azure_item_defects in Hx.
  apply in_app_or in Hx. destruct Hx as [Hx | Hx].
  - destruct (dict_find (YStr "jobs") d) as [[| | | | | jobs |] |]; try destruct Hx.
    apply in_flat_map in Hx. destruct Hx as (item & _ & Hx).
    now rewrite (job_steps_defects_target _ _ Hx).
  - destruct (dict_find (YStr "stages") d) as [[| | | | | stages |] |]; try destruct Hx.
    apply in_app_or in Hx. destruct Hx as [Hx | Hx];
      apply in_flat_map in Hx; destruct Hx as (item & _ & Hx).
    + now rewrite (stage_jobs_defects_target _ _ Hx).
    + now rewrite (depends_defects_target _ _ _ Hx).
Qed.

Lemma azure_defects_patchable : Forall (azure_patchable d) (azure_defects (YDict d)).
Proof.
  cbn [azure_defects]. apply Forall_app. split; [| exact azure_item_defects_patchable].
  destruct (has_structure d); constructor; [exact I | constructor].
Qed.

(** A job of the pipeline after the patches for the defects of the
    pipeline. *)
Lemma azure_job_after jobs i job :
  dict_find (YStr "jobs") d = Some (YList jobs) ->
  In (i, job) (enumerate jobs) ->
  exists fields',
    azure_item_after "jobs" (azure_item_defects d) i job = YDict fields'
    /\ lacks "steps" (YDict fields') = false.
Proof.
  intros E H. destruct (azure_job_is_dict jobs i job E H) as (fields & ->).
  eexists. split; [reflexivity |].
  rewrite fold_aimed. unfold azure_item_defects. rewrite E, filter_app.
  rewrite (filter_aimed "jobs" job_steps_defects jobs i (YDict fields)
             job_steps_defects_target (in_enumerate_nth _ _ _ H)).
  assert (Z : filter (azure_aimed "jobs" i)
                match dict_find (YStr "stages") d with
                | Some (YList stages) =>
                    flat_map stage_jobs_defects (enumerate stages)
                    ++ flat_map (depends_defects (map stage_name (enumerate stages)))
                         (enumerate stages)
                | _ => []
                end = []).
  { destruct (dict_find (YStr "stages") d) as [[| | | | | stages |] |]; try reflexivity.
    rewrite filter_app.
    rewrite (filter_not_aimed "jobs" "stages" stage_jobs_defects) by
      (try discriminate; exact stage_jobs_defects_target).
    now rewrite (filter_not_aimed "jobs" "stages" (depends_defects _)) by
      (try discriminate; apply depends_defects_target). }
  rewrite Z, app_nil_r. apply azure_job_repaired.
Qed.

(** A stage of the pipeline after the patches for the defects of the
    pipeline. *)
Lemma azure_stage_after stages i stage :
  dict_find (YStr "stages") d = Some (YList stages) ->
  In (i, stage) (enumerate stages) ->
  exists fields fields',
    stage = YDict fields
    /\ azure_item_after "stages" (azure_item_defects d) i stage = YDict fields'
    /\ azure_stage_ok (YDict fields') = true
    /\ dict_find (YStr "name") fields' = dict_find (YStr "name") fields
    /\ lacks "jobs" (YDict fields') = false
    /\ bad_depends (map stage_name (enumerate stages)) (YDict fields') = [].
Proof.
  intros E H. destruct (azure_stage_is_ok stages i stage E H) as (fields & -> & X).
  exists fields. eexists. split; [reflexivity |]. split; [reflexivity |].
  rewrite fold_aimed. unfold azure_item_defects. rewrite E, !filter_app.
  assert (Z : filter (azure_aimed "stages" i)
                match dict_find (YStr "jobs") d with
                | Some (YList jobs) => flat_map job_steps_defects (enumerate jobs)
                | _ => []
                end = []).
  { destruct (dict_find (YStr "jobs") d) as [[| | | | | jobs |] |]; try reflexivity.
    now rewrite (filter_not_aimed "stages" "jobs" job_steps_defects) by
      (try discriminate; exact job_steps_defects_target). }
  rewrite Z. cbn [app].
  rewrite (filter_aimed "stages" stage_jobs_defects stages i (YDict fields)
             stage_jobs_defects_target (in_enumerate_nth _ _ _ H)).
  rewrite (filter_aimed "stages" (depends_defects _) stages i (YDict fields)
             (depends_defects_target _) (in_enumerate_nth _ _ _ H)).
  now apply azure_stage_repaired.
Qed.

Lemma azure_stage_names_after stages :
  dict_find (YStr "stages") d = Some (YList stages) ->
  map stage_name
    (enumerate (map (fun item => azure_item_after "stages" (azure_item_defects d)
                                   (fst item) (snd item))
                  (enumerate stages)))
  = map stage_name (enumerate stages).
Proof.
  intros E. apply nth_error_ext. intros i.
  rewrite !nth_error_map, !nth_error_enumerate, nth_error_items_after.
  destruct (nth_error stages i) as [stage |] eqn:N; [| reflexivity].
  cbn [option_map]. f_equal.
  destruct (azure_stage_after stages i stage E (enumerate_nth _ _ _ N))
    as (fields & fields' & -> & -> & _ & Hn & _).
  unfold stage_name. cbn [fst snd]. now rewrite Hn.
Qed.

Lemma azure_patched fs :
  Forall2 azure_reports fs (azure_defects (YDict d)) ->
  patch_all azure_patch fs (YDict d) = Ok (YDict (azure_repaired d))
  /\ azure_well_formed (YDict (azure_repaired d)) = true
  /\ azure_defects (YDict (azure_repaired d)) = [].
Proof.
  intros F. split; [exact (azure_patch_all _ fs d F azure_defects_patchable) |].
  destruct (azure_parts d W) as (Nd & J & S & defined_vars & V).
  unfold azure_repaired. cbn [azure_defects]. destruct (has_structure d) eqn:H.
  - (* the jobs and the stages are patched *)
    cbn [app].
    destruct (azure_fold (azure_item_defects d) d azure_item_defects_patchable
                azure_item_defects_targets) as (O & L).
    set (d' := fold_left azure_amend (azure_item_defects d) d) in *.
    assert (Lj := L "jobs" (or_introl eq_refl)).
    assert (Ls := L "stages" (or_intror eq_refl)). clear L.
    assert (H' : has_structure d' = true).
    { unfold has_structure, dict_mem in *. rewrite Lj, Ls, (O (YStr "steps")) by discriminate.
      destruct (dict_find (YStr "stages") d); [reflexivity |].
      destruct (dict_find (YStr "jobs") d); [reflexivity | exact H]. }
    assert (Wj : match dict_find (YStr "jobs") d' with
                 | None => true
                 | Some (YList jobs) => forallb is_dict jobs
                 | Some _ => false
                 end = true
                 /\ match dict_find (YStr "jobs") d' with
                    | Some (YList jobs) => flat_map job_steps_defects (enumerate jobs)
                    | _ => []
                    end = []).
    { rewrite Lj. destruct (dict_find (YStr "jobs") d) as [[| | | | | jobs |] |] eqn:E;
        try discriminate J; [| now split].
      cbn [option_map azure_items_after]. split.
      - apply forallb_forall. intros job' Hj. apply in_items_after in Hj.
        destruct Hj as (i & job & Hi & ->).
        destruct (azure_job_after jobs i job E Hi) as (fields' & -> & _).
        reflexivity.
      - apply flat_map_nothing. intros [i job'] Hj. apply in_enumerate_after in Hj.
        destruct Hj as (job & Hi & ->).
        destruct (azure_job_after jobs i job E Hi) as (fields' & -> & Hl).
        unfold job_steps_defects. cbn [fst snd]. now rewrite Hl. }
    assert (Ws : match dict_find (YStr "stages") d' with
                 | None => true
                 | Some (YList stages) => forallb azure_stage_ok stages
                 | Some _ => false
                 end = true
                 /\ match dict_find (YStr "stages") d' with
                    | Some (YList stages) =>
                        flat_map stage_jobs_defects (enumerate stages)
                        ++ flat_map (depends_defects (map stage_name (enumerate stages)))
                             (enumerate stages)
                    | _ => []
                    end = []).
    { rewrite Ls. destruct (dict_find (YStr "stages") d) as [[| | | | | stages |] |] eqn:E;
        try discriminate S; [| now split].
      cbn [option_map azure_items_after]. split.
      - apply forallb_forall. intros stage' Hs. apply in_items_after in Hs.
        destruct Hs as (i & stage & Hi & ->).
        destruct (azure_stage_after stages i stage E Hi)
          as (fields & fields' & _ & -> & X & _). exact X.
      - rewrite (azure_stage_names_after stages E).
        rewrite flat_map_nothing, flat_map_nothing; [reflexivity | |].
        + intros [i stage'] Hs. apply in_enumerate_after in Hs.
          destruct Hs as (stage & Hi & ->).
          destruct (azure_stage_after stages i stage E Hi)
            as (fields & fields' & _ & -> & _ & _ & _ & B).
          unfold depends_defects. cbn [fst snd]. now rewrite B.
        + intros [i stage'] Hs. apply in_enumerate_after in Hs.
          destruct Hs as (stage & Hi & ->).
          destruct (azure_stage_after stages i stage E Hi)
            as (fields & fields' & _ & -> & _ & _ & Hl & _).
          unfold stage_jobs_defects. cbn [fst snd]. now rewrite Hl. }
    destruct Wj as (Wj & Zj). destruct Ws as (Ws & Zs). split.
    + unfold azure_well_formed. rewrite Wj, Ws.
      rewrite (azure_defined_vars_same d d') by (apply O; discriminate). rewrite V.
      assert (T : truthy (YDict d') = true).
      { destruct d'; [discriminate H' | reflexivity]. }
      now rewrite T.
    + rewrite H'. unfold azure_item_defects. now rewrite Zj, Zs.
  - (* a structure is added *)
    rewrite (no_structure_no_items d H). cbn [app fold_left azure_amend azure_target].
    rewrite H. set (d' := dict_set (YStr "jobs") azure_default_jobs d).
    assert (Fj : dict_find (YStr "jobs") d' = Some azure_default_jobs)
      by apply dict_find_set_same.
    assert (Fs : dict_find (YStr "stages") d' = None).
    { unfold d'. rewrite dict_find_set_other by discriminate.
      unfold has_structure, dict_mem in H.
      now destruct (dict_find (YStr "stages") d). }
    assert (H' : has_structure d' = true).
    { unfold has_structure, dict_mem. rewrite Fj, Fs. reflexivity. }
    split.
    + unfold azure_well_formed. rewrite Fj, Fs.
      rewrite (azure_defined_vars_same d d') by (now apply dict_find_set_other). rewrite V.
      assert (T : truthy (YDict d') = true).
      { destruct d'; [discriminate H' | reflexivity]. }
      now rewrite T.
    + rewrite H'. unfold azure_item_defects. rewrite Fj, Fs. reflexivity.
Qed.

End AzureFile.

Lemma azure_detected (safe_load : string -> res pyval) text logs pipeline :
  safe_load text = Ok pipeline ->
  azure_well_formed pipeline = true ->
  exists fs ws,
    detect_failures safe_load text "azure_devops" logs
    = {| status := success; message := None; failures := Some fs; warnings := Some ws |}
    /\ Forall2 azure_reports fs (azure_defects pipeline).
Proof.
  intros L W. destruct (azure_run pipeline logs W) as (fs & ws & F & H).
  exists fs, ws. split; [| exact F].
  rewrite detect_azure. unfold _detect_azure_devops_failures, guarded, bind, lift.
  rewrite L.
  assert (T : truthy pipeline = true).
  { destruct pipeline as [| | | | | | d]; try discriminate W.
    now destruct (azure_parts d W) as (Nd & _); destruct d. }
  rewrite T. cbn [negb]. rewrite (H fresh_report present_fresh). reflexivity.
Qed.

(** X17.  On an Azure DevOps pipeline of the usual shape (a non-empty
    mapping whose [jobs], when there, is a list of mappings, whose
    [stages], when there, is a list of mappings under distinct string keys
    that name the stages they depend on by non-empty strings, and whose
    [variables] can be gone through) detection succeeds, and its failures
    are the defects of the pipeline, one for one and in order: none of
    [stages], [jobs] and [steps]; then each job without steps, by its
    position; then each stage without jobs, by its position; then, stage by
    stage, each stage depended on that is not the name of a stage. *)
Theorem azure_failures_are_the_defects :
  forall (safe_load : string -> res pyval) text logs pipeline,
    safe_load text = Ok pipeline ->
    azure_well_formed pipeline = true ->
    let report := detect_failures safe_load text "azure_devops" logs in
    status report = success
    /\ message report = None
    /\ Forall2 azure_reports (failures_or_empty report) (azure_defects pipeline).
Proof.
  intros safe_load text logs pipeline L W report.
  destruct (azure_detected safe_load text logs pipeline L W) as (fs & ws & E & F).
  subst report. rewrite E. now repeat split.
Qed.

(** X18.  Patching an Azure DevOps pipeline of the usual shape with the
    report that detection made of it resolves every failure.  Detection
    succeeds, and the repaired pipeline is again of the usual shape;
    whenever the serialiser writes the repaired pipeline as a text, that
    text is what the patcher returns; it loads to the repaired pipeline,
    and detection on it succeeds with no failure at all.  The loader and
    the serialiser are those of the block-style fragment. *)
Theorem azure_fix_resolves_every_failure :
  forall text logs d out,
    Yaml.safe_load text = Ok (YDict d) ->
    azure_well_formed (YDict d) = true ->
    Yaml.dump (YDict (azure_repaired d)) = Ok out ->
    let report := detect_failures Yaml.safe_load text "azure_devops" logs in
    status report = success
    /\ azure_well_formed (YDict (azure_repaired d)) = true
    /\ fix_failures Yaml.safe_load Yaml.dump text "azure_devops" report = Some out
    /\ Yaml.safe_load out = Ok (YDict (azure_repaired d))
    /\ forall logs',
         let report' := detect_failures Yaml.safe_load out "azure_devops" logs' in
         status report' = success /\ failures report' = Some [].
Proof.
  intros text logs d out L W O report.
  destruct (azure_detected Yaml.safe_load text logs (YDict d) L W) as (fs & ws & E & F).
  subst report. rewrite E. split; [reflexivity |].
  destruct (azure_patched d W fs F) as (P & W' & Z).
  split; [exact W' |].
  assert (L' : Yaml.safe_load out = Ok (YDict (azure_repaired d))).
  { apply (patched_loads azure_patch text (YDict d) fs _ out L); [| exact P | exact O].
    apply Forall_forall. intros f _. apply azure_patch_keeps. }
  split; [| split; [exact L' |]].
  - rewrite fix_azure. unfold _fix_azure_devops_failures, patch_document. rewrite L.
    assert (T : truthy (YDict d) = true).
    { now destruct (azure_parts d W) as (Nd & _); destruct d. }
    rewrite T. cbn [negb failures_or_empty failures]. rewrite P. cbn [res_bind].
    now rewrite O.
  - intros logs' report'.
    destruct (azure_detected Yaml.safe_load out logs' _ L' W') as (fs' & ws' & E' & F').
    subst report'. rewrite E'. rewrite Z in F'. inversion F'. now split.
Qed.

Lemma azure_failures_are_the_defects_witness :
  let report := detect_failures Yaml.safe_load azure_with_defects "azure_devops" None in
  status report = success
  /\ message report = None
  /\ Forall2 azure_reports (failures_or_empty report)
       [NoJobsAt 0; BadDependency 1 (YStr "nowhere")].
Proof.
  assert (L : Yaml.safe_load azure_with_defects
              = Ok (YDict [(YStr "stages",
                            YList [YDict [(YStr "name", YStr "build")];
                                   YDict [(YStr "name", YStr "deploy");
                                          (YStr "dependsOn",
                                           YList [YStr "build"; YStr "nowhere"]);
                                          (YStr "jobs",
                                           YList [YDict [(YStr "job", YStr "ship")]])]])]))
    by (vm_compute; reflexivity).
  exact (azure_failures_are_the_defects Yaml.safe_load azure_with_defects None _
           L eq_refl).
Defined.

Lemma azure_fix_resolves_every_failure_witness :
  let report := detect_failures Yaml.safe_load azure_with_defects "azure_devops" None in
  status report = success
  /\ fix_failures Yaml.safe_load Yaml.dump azure_with_defects "azure_devops" report
     = Some azure_with_defects_repaired
  /\ forall logs',
       let report' :=
         detect_failures Yaml.safe_load azure_with_defects_repaired "azure_devops" logs' in
       status report' = success /\ failures report' = Some [].
Proof.
  assert (L : Yaml.safe_load azure_with_defects
              = Ok (YDict [(YStr "stages",
                            YList [YDict [(YStr "name", YStr "build")];
                                   YDict [(YStr "name", YStr "deploy");
                                          (YStr "dependsOn",
                                           YList [YStr "build"; YStr "nowhere"]);
                                          (YStr "jobs",
                                           YList [YDict [(YStr "job", YStr "ship")]])]])]))
    by (vm_compute; reflexivity).
  assert (O : Yaml.dump (YDict (azure_repaired
                 [(YStr "stages",
                   YList [YDict [(YStr "name", YStr "build")];
                          YDict [(YStr "name", YStr "deploy");
                                 (YStr "dependsOn", YList [YStr "build"; YStr "nowhere"]);
                                 (YStr "jobs",
                                  YList [YDict [(YStr "job", YStr "ship")]])]])]))
              = Ok azure_with_defects_repaired)
    by (vm_compute; reflexivity).
  destruct (azure_fix_resolves_every_failure azure_with_defects
              None _ _ L eq_refl O) as (S & _ & F & _ & D).
  split; [exact S |]. split; [exact F | exact D].
Defined.
